(* ===== verification/_CoqProject ===== *)
-Q . S2P
Prelude.v
RingBuffer.v
PS2Defs.v
PortIO.v
Controller.v
ControllerSpec.v
Line.v
ControllerPower.v
PowerCall.v
Config.v
ControllerLife.v
DebugBuild.v
Watchdog.v
KeyMaps.v
Keyboard.v
KeyboardSpec.v
KeyboardEntry.v
Pointing.v
Averages.v
Mouse.v
MouseSpec.v
MouseEntry.v
Synaptics.v
SynapticsSpec.v
SynapticsEntry.v
SynapticsLife.v
SynapticsGestures.v
SynapticsMotion.v
PadLine.v
Typing.v
Alps.v
AlpsSpec.v
Sentelic.v
SentelicSpec.v
AcpiNub.v
Daemon.v
NewKext.v
System.v
Drivers.v
