(* ===== verification/Prelude.v ===== *)
(** * VoodooPS2Controller: a verification development

    The program (src/) is a set of macOS kernel extensions that drive PS/2
    keyboards, mice and touchpads:

    - ApplePS2Controller (src/VoodooPS2Controller/VoodooPS2Controller.cpp/.h)
      owns the 8042 chip.  It executes requests (short programs of port reads
      and writes) for the drivers, reads the chip at interrupt time and hands
      each byte to the driver of its stream, moves the system between its power
      states, passes messages between the drivers and computes the
      configuration each of them starts from.
    - ApplePS2Keyboard (src/VoodooPS2Keyboard) decodes scan codes at interrupt
      time into packets in a ring buffer, and turns packets into ADB key events
      on the work loop, through configurable tables, macros and special keys.
    - ApplePS2Mouse (src/VoodooPS2Mouse) assembles packets of three or four bytes
      and turns them into pointer and wheel events, with a middle button made of
      two.
    - ApplePS2SynapticsTouchPad (src/VoodooPS2Trackpad) assembles packets of six
      bytes and runs a gesture machine on them: moves, taps, drags, scrolls with
      momentum, swipes, click pads, a second finger, a guest device.
    - ApplePS2ALPSGlidePoint and ApplePS2SentelicFSP (src/VoodooPS2Trackpad) drive
      ALPS and Sentelic touchpads: packets of three or six, three or four bytes,
      edge scrolling, the registers of the pad.
    - AppleACPIPS2Nub, ApplePS2KeyboardDevice and ApplePS2MouseDevice
      (src/VoodooPS2Controller) are the nubs below and above the controller: the
      first makes one provider of the two ACPI devices and translates interrupt
      numbers, the others are what a driver attaches to.
    - VoodooPS2Daemon (src/VoodooPS2Daemon/main.cpp) is a user process that counts
      USB mice and tells the touchpad or mouse driver.

    The components meet in three ways: the drivers submit requests to the
    controller, the controller calls the interrupt, packet and power actions
    the drivers installed, and the drivers exchange messages through the
    controller.

    ** Files

    - Prelude: outcomes ([Done], [Undef] for what C++ leaves undefined, [NoFuel]),
      the state monad [M], record update, machine integers ([u8] .. [s32]),
      arrays with checked accesses ([aget], [aset]), the total-correctness logic
      [safe], tactics.
    - RingBuffer: the template class RingBuffer of ApplePS2Device.h, refined to
      a bounded FIFO of bytes and of packets.
    - PS2Defs: the constants and types of ApplePS2Device.h, requests among them.
    - PortIO: the interface to the I/O ports (class [PortIO]) with the relations
      that say what a chip does, and [Chip], an executable 8042.
    - Controller: the state (record [ApplePS2Controller]) and the member functions
      of the controller, one definition each: readDataPort, processRequest,
      submitRequestAndBlock, setCommandByte, handleInterrupt, resetController,
      setPowerStateGated, dispatchMessageGated, ...
    - ControllerSpec: reads against reference runs on streams of bytes,
      requests, interrupts, the command byte.
    - Line: requests as conversations with the two devices (monad [Talk]), what a
      chip does that connects them (class [Wired]), and an executable chip with any
      two devices behind it.
    - ControllerPower: the controller as a transition system over its entry
      points, its invariant, and the sleep/wake cycle.
    - PowerCall: setPowerState and the thread call that takes a change of power
      state to the work loop.
    - ControllerLife: init, probe, start, stop and free of the controller with
      every allocation that can fail, and the device nubs (record
      [ApplePS2Device]) with their methods.
    - DebugBuild: the interrupt, work loop and reading code of the build with
      DEBUGGER_SUPPORT and HANDLE_INTERRUPT_DATA_LATER.  Watchdog: the same code
      with WATCHDOG_TIMER, and with HANDLE_INTERRUPT_DATA_LATER alone.
    - Config: getPlatformManufacturer .. makeConfigurationNode, translateArray.
    - KeyMaps: the tables of ApplePS2ToADBMap.h and the default key map.
    - Keyboard: the state (record [ApplePS2Keyboard]) and the member functions of
      the keyboard driver.
    - KeyboardSpec: the driver's invariant [kb_wf], the scan code decoder against
      an abstract one, draining, macros, levels.
    - KeyboardEntry: parsers and configuration, ordinary keys, initKeyboard, and
      the life of the driver from init to stop.
    - Pointing: what the pointing drivers have in common, stated once: requests to
      a Synaptics touchpad, the report of the middle button, other pointing
      devices, the properties of a Darwin version; packets in a ring buffer.
    - Averages: the filter templates of VoodooPS2SynapticsTouchPad.h.
    - Mouse: the state (record [ApplePS2Mouse]) and the member functions of the
      mouse driver.  MouseSpec: its invariant, the packet assembler against an
      abstract one, decoding.  MouseEntry: the middle button, and the life of the
      driver from init to stop.
    - Synaptics: the state (record [ApplePS2SynapticsTouchPad], its members
      grouped by what they are for) and the member functions of the touchpad
      driver; dispatchEventsWithPacket, nine hundred lines, is one definition per
      block.  SynapticsSpec: the invariant [inv] and that every block keeps it.
      SynapticsEntry: packet assembly against an abstract assembler, messages,
      power.  SynapticsLife: which configurations are usable, and the life of the
      driver.  SynapticsGestures: encoding and decoding of packets.
      SynapticsMotion: the motion of a finger, momentum.
    - PadLine: the Synaptics driver with the controller, a chip and a touchpad
      (class [SynapticsPad]) behind its requests.  Typing: the keyboard driver
      whose messages the controller takes to the touchpad driver.
    - Alps: the state and the member functions of the ALPS driver, with [double]
      as the binary64 of the Standard Library's specification of IEEE 754.
      AlpsSpec: bounds on its floating point numbers, its invariant, packet
      assembly, its life, decoding.
    - Sentelic: the state and the functions of the Sentelic driver.  SentelicSpec:
      its invariant, packet assembly, its life, what is sent to the registers.
    - AcpiNub: AppleACPIPS2Nub.  Daemon: the daemon.  NewKext: the allocation
      functions of new_kext.cpp.
    - System: what the controller sees of a driver (record [Driver]), what a driver
      promises (class [Contract]), and the theorems about the controller with two
      drivers behind it, proved against the contract.  Drivers: the five drivers
      as instances of it.

    ** How code becomes definitions

    A member function is a definition in the monad [M]: it reads and updates the
    record of its object and emits events to a trace (port writes, key events,
    requests, log messages that matter).  Names are the source's; a long function
    is split where the source has blocks, and the pieces are composed the way the
    code composes them.  An access outside an array or through a null pointer is
    [Undef], so a theorem that concludes [Done] shows it does not happen.

    What is outside the repository is a parameter: the ports ([PortIO]), the
    drivers' actions as the controller sees them ([callInterrupt] and friends),
    the clock, ACPI methods and the receivers of messages as the keyboard sees
    them ([KEnv]), the NX_ constants.  Hypotheses on them are documented behaviour
    (a receiver leaves the data of a message of the type it had; the chip accepts
    what is written within the timeout) and every theorem that has one has a
    witness on a concrete instance.

    ** What the theorems show

    - Reading: [readDataPort_refines], [readDataPortExpect_conserves] and
      [second_chance] say which byte a read returns and that no byte of either
      stream is lost or duplicated; [handleInterrupt_ok] says the same of an
      interrupt; [readDataPort_no_timeout_when_flooded] shows where the timeout
      does not apply.
    - The whole stack: [stack_session] composes the interrupt handlers and packet
      actions of the controller with any two drivers that honour the contract: each
      gets its bytes in order and no wake-up is lost.
    - Requests from end to end: [request_conversation] says that a blocking request
      is exactly its conversation with the devices, without the polls and
      timeouts it is made of; [pad_session] carries that through to the touchpad,
      which ends with the mode byte the driver set and whose data the driver gets.
    - Messages from end to end: [typing_session] says what a sequence of keys
      does to the touchpad driver.
    - Life of the controller: [start_all_or_nothing] (nothing is leaked, whatever
      fails), [early_consumer]; [nub_roundtrip] (installing actions through a
      nub and uninstalling them); [nub_routing] (which interrupt is which).
    - Debugger build: [debug_session], [extended_delete_sticks];
      [debug_read_refines] and [debug_expect_refines] (reads with the queue in
      front of the port).  Other builds: [watchdog_tick], [later_drains].  Daemon:
      [daemon_counts], [option_without_value].  Allocation: [delete_undefined].
    - Requests: [request_reports_index], [composite_equivalent],
      [command_byte_two_ways], [offline_queue_drains].
    - Power: [power_invariant] over all sequences of entry points,
      [sleep_disarms], [sleep_wake_cycle]; [power_calls] on the way a change of
      state takes to the work loop.
    - Ring buffer: [byte_step_refines], [packet_session_fifo].
    - Configuration: [configuration_precedence], [acpi_roundtrip],
      [configuration_links].
    - Keyboard: [keyboard_safe] (no undefined behaviour and termination of every
      entry point), [scan_session] (refinement of the decoder),
      [packetReady_delivers], [plain_key_dispatch], [initKeyboard_resets],
      [level_keys], [parseRemap_roundtrip], [parseAction_roundtrip],
      [keymap_well_formed].
    - Mouse: [mouse_safe], [mouse_session] (refinement of packet assembly),
      [mouse_packet_roundtrip], [middle_sequence] and [middle_clicks] (the middle
      button), [held_button_released].
    - Synaptics: [synaptics_safe] (no division by zero, missing timer or index out
      of range, in any sequence of entry points), [synaptics_session],
      [absolute_roundtrip], [position_mistaken_for_reset], [finger_motion] (no
      motion is lost), [momentum_stops]; [average_run], [average_bounds] (the
      filters).
    - ALPS: [alps_safe] (every acceleration that can be set converts to [int]),
      [alps_session] (refinement of packet assembly), [alps_motion].
    - Sentelic: [sentelic_safe], [register_roundtrip], [failed_read_sends_reset].

    ** Fuel and bounds

    Loops the source bounds are bounded the same way (10000 polls of a read,
    commandsCount commands, 512 keys, the 31 packets a ring of 32 can hold).
    Loops it leaves unbounded (waiting for the input buffer, draining the output
    buffer, requests that wait) take a fuel parameter; theorems about them say how
    much is enough, in terms of what the chip presents, and conclude [Done].
    [configuration_links] and [readDataPort_no_timeout_when_flooded] are about
    loops that do not end, stated for every amount of fuel.

    ** What is not modelled

    IOKit itself (the registry, scheduling of work loops): entry points run one
    after the other, as the command gate makes them, and interrupts are entry
    points of their own.  What IOKit grants or refuses is a parameter; allocation
    failures appear where the code reacts to them.  Log output and code compiled
    only with DEBUG or NEWIRQ are left out, and so are the allocation of the
    watchdog timer and of the debugger's queue in start.  In the theorems about
    one driver requests and messages are answered by a parameter; it is the
    controller of Controller.v in PadLine (requests of the Synaptics driver, but
    for those that flush the port or reset the touchpad) and in Typing (messages
    of the keyboard driver).  Signed arithmetic that C++ leaves undefined
    on overflow wraps around in the model, except division, whose undefined cases
    are [Undef], and conversion of floating point numbers to [int].  The
    preference pane and its loader are Objective-C user interface and not
    modelled. *)

From stdpp Require Export base list option strings gmap.
From Stdlib Require Export ZArith Lia.
#[global] Open Scope Z_scope.

(** ** Outcomes and the state monad

    A piece of driver code either finishes with a value, performs an access
    the C++ language leaves undefined (an index outside an array, a null
    dereference), or is still looping when the fuel of the model is spent. *)

Inductive outcome (A : Type) : Type :=
| Done (a : A)
| Undef
| NoFuel.
Arguments Done {A} a.
Arguments Undef {A}.
Arguments NoFuel {A}.

#[export] Instance outcome_ret : MRet outcome := fun A a => Done a.
#[export] Instance outcome_bind : MBind outcome :=
  fun A B f m => match m with Done a => f a | Undef => Undef | NoFuel => NoFuel end.

#[export] Instance outcome_fmap : FMap outcome :=
  fun A B f m => match m with Done a => Done (f a) | Undef => Undef | NoFuel => NoFuel end.

(** [M S A]: code over a mutable state [S] that returns an [A]. *)
Definition M (S A : Type) : Type := S -> outcome (A * S).

#[export] Instance M_ret S : MRet (M S) := fun A a s => Done (a, s).
#[export] Instance M_bind S : MBind (M S) :=
  fun A B f m s =>
    match m s with
    | Done (a, s') => f a s'
    | Undef => Undef
    | NoFuel => NoFuel
    end.

Definition gets {S A} (f : S -> A) : M S A := fun s => Done (f s, s).
Definition modify {S} (f : S -> S) : M S unit := fun s => Done (tt, f s).
Definition lift {S A} (o : outcome A) : M S A :=
  fun s => match o with Done a => Done (a, s) | Undef => Undef | NoFuel => NoFuel end.
Definition undef {S A} : M S A := fun _ => Undef.
Definition nofuel {S A} : M S A := fun _ => NoFuel.
Definition when {S} (b : bool) (m : M S unit) : M S unit := if b then m else mret tt.

(** Iteration over a list of values, in order. *)
Fixpoint forM_ {S A} (l : list A) (f : A -> M S unit) : M S unit :=
  match l with
  | [] => mret tt
  | x :: l => f x;; forM_ l f
  end.

Lemma bind_done {S A B} (m : M S A) (f : A -> M S B) s a s' :
  m s = Done (a, s') -> (m ≫= f) s = f a s'.
Proof. intros H. unfold mbind, M_bind. by rewrite H. Qed.

Lemma bind_assoc {S A B C} (m : M S A) (f : A -> M S B) (g : B -> M S C) s :
  ((m ≫= f) ≫= g) s = (m ≫= (fun a => f a ≫= g)) s.
Proof. unfold mbind, M_bind. by destruct (m s) as [[a s']| |]. Qed.

Lemma bind_done_inv {S A B} (m : M S A) (f : A -> M S B) s b s'' :
  (m ≫= f) s = Done (b, s'') -> exists a s', m s = Done (a, s') /\ f a s' = Done (b, s'').
Proof.
  unfold mbind, M_bind. destruct (m s) as [[a s']| |]; [|done|done]. eauto.
Qed.

(** ** Frame reasoning

    [pres R m]: every run of [m] that returns relates its first and last
    states by [R].  Closed under the monad when [R] is a preorder, which is how
    the invariants of a component are carried through its operations. *)

Definition pres {S A} (R : S -> S -> Prop) (m : M S A) : Prop :=
  forall s a s', m s = Done (a, s') -> R s s'.

Section pres.
Context {S : Type} (R : S -> S -> Prop) `{!PreOrder R}.

Lemma pres_ret {A} (a : A) : pres R (mret a : M S A).
Proof. intros s b s' [= <- <-]. reflexivity. Qed.
Lemma pres_gets {A} (f : S -> A) : pres R (gets f).
Proof. intros s b s' [= <- <-]. reflexivity. Qed.
Lemma pres_lift {A} (o : outcome A) : pres R (lift o : M S A).
Proof. intros s b s'. unfold lift. destruct o; [|done|done]. intros [= <- <-]. reflexivity. Qed.
Lemma pres_undef {A} : pres R (undef : M S A).
Proof. by intros s b s'. Qed.
Lemma pres_nofuel {A} : pres R (nofuel : M S A).
Proof. by intros s b s'. Qed.
Lemma pres_modify (f : S -> S) : (forall s, R s (f s)) -> pres R (modify f).
Proof. intros Hf s b s' [= _ <-]. apply Hf. Qed.
Lemma pres_bind {A B} (m : M S A) (f : A -> M S B) :
  pres R m -> (forall a, pres R (f a)) -> pres R (m ≫= f).
Proof.
  intros Hm Hf s b s'' (a & s' & E1 & E2)%bind_done_inv.
  etrans; [by eapply Hm|by eapply Hf].
Qed.
Lemma pres_when b (m : M S unit) : pres R m -> pres R (when b m).
Proof. destruct b; [done|]. intros _. apply pres_ret. Qed.
Lemma pres_forM {A} (l : list A) (f : A -> M S unit) :
  (forall x, pres R (f x)) -> pres R (forM_ l f).
Proof.
  intros Hf. induction l as [|x l IH]; [apply pres_ret|]. apply pres_bind; [done|]. by intros _.
Qed.
End pres.

(** Discharge [pres] goals structurally; leaves go to the hint database. *)
Create HintDb pres.
Ltac pres_step :=
  match goal with
  | |- pres _ (_ ≫= _) => apply pres_bind; [apply _| |intros ?]
  | |- pres _ (mret _) => apply pres_ret; apply _
  | |- pres _ (gets _) => apply pres_gets; apply _
  | |- pres _ (lift _) => apply pres_lift; apply _
  | |- pres _ undef => apply pres_undef
  | |- pres _ nofuel => apply pres_nofuel
  | |- pres _ (when _ _) => apply pres_when; [apply _|]
  | |- pres _ (forM_ _ _) => apply pres_forM; [apply _|intros ?]
  | |- pres _ (if ?b then _ else _) => destruct b
  | |- pres _ (match ?x with _ => _ end) => destruct x
  end.
Ltac pres_auto := repeat (pres_step || (progress cbn beta) || solve [eauto with pres nocore]).

(** ** Total correctness

    [safe I R m Q]: from every state that satisfies [I], [m] returns a value
    that satisfies [Q], and relates the first and last states by [R], a
    preorder under which [I] is preserved. *)

Definition safe {S A} (I : S -> Prop) (R : S -> S -> Prop) (m : M S A) (Q : A -> Prop) : Prop :=
  forall s, I s -> exists a s', m s = Done (a, s') /\ R s s' /\ Q a.

Section safe.
Context {S : Type} (I : S -> Prop) (R : S -> S -> Prop) `{!PreOrder R}.
Context (HI : forall s s', R s s' -> I s -> I s').

Lemma safe_ret {A} (a : A) (Q : A -> Prop) : Q a -> safe I R (mret a) Q.
Proof. intros HQ s _. exists a, s. split; [done|]. split; [reflexivity|done]. Qed.

Lemma safe_bind {A B} (m : M S A) (f : A -> M S B) Q Q' :
  safe I R m Q -> (forall a, Q a -> safe I R (f a) Q') -> safe I R (m ≫= f) Q'.
Proof.
  intros Hm Hf s Hs. destruct (Hm s Hs) as (a & s1 & E1 & R1 & Qa).
  destruct (Hf a Qa s1) as (b & s2 & E2 & R2 & Qb); [by eapply HI|].
  exists b, s2. rewrite (bind_done _ _ _ _ _ E1). split; [done|]. split; [by etrans|done].
Qed.

Lemma safe_mono {A} (m : M S A) (Q Q' : A -> Prop) : safe I R m Q -> (forall a, Q a -> Q' a) -> safe I R m Q'.
Proof. intros Hm HQ s Hs. destruct (Hm s Hs) as (a & s1 & E1 & R1 & Qa). eauto 7. Qed.

Lemma safe_gets {A} (f : S -> A) (Q : A -> Prop) : (forall s, I s -> Q (f s)) -> safe I R (gets f) Q.
Proof. intros HQ s Hs. exists (f s), s. split; [done|]. split; [reflexivity|auto]. Qed.

Lemma safe_lift {A} (o : outcome A) (Q : A -> Prop) : (exists a, o = Done a /\ Q a) -> safe I R (lift o) Q.
Proof. intros (a & -> & HQ) s Hs. exists a, s. split; [done|]. split; [reflexivity|done]. Qed.

Lemma safe_modify (f : S -> S) : (forall s, I s -> R s (f s)) -> safe I R (modify f) (fun _ => True).
Proof. intros Hf s Hs. exists tt, (f s). auto. Qed.

Lemma safe_when b (m : M S unit) : safe I R m (fun _ => True) -> safe I R (when b m) (fun _ => True).
Proof. intros Hm. destruct b; [done|by apply safe_ret]. Qed.

Lemma safe_forM {A} (l : list A) (f : A -> M S unit) :
  (forall x, x ∈ l -> safe I R (f x) (fun _ => True)) -> safe I R (forM_ l f) (fun _ => True).
Proof.
  intros Hf. induction l as [|x l IH]; [by apply safe_ret|].
  eapply safe_bind; [apply Hf, elem_of_cons; auto|]. intros _ _. apply IH. intros y Hy. apply Hf, elem_of_cons. auto.
Qed.

(** The state may be inspected before going on. *)
Lemma safe_state {A} (m : M S A) Q :
  (forall s0, I s0 -> safe (fun s => I s /\ s = s0) R m Q) -> safe I R m Q.
Proof. intros Hm s Hs. by apply (Hm s Hs). Qed.
End safe.

(** Total correctness with a precondition and a postcondition on the state. *)
Definition reaches {S A} (I J : S -> Prop) (m : M S A) : Prop :=
  forall w, I w -> exists a w', m w = Done (a, w') /\ J w'.

Lemma reaches_bind {S A B} (I J K : S -> Prop) (m : M S A) (f : A -> M S B) :
  reaches I J m -> (forall a, reaches J K (f a)) -> reaches I K (m ≫= f).
Proof.
  intros Hm Hf w Hw. destruct (Hm w Hw) as (a & w1 & E1 & H1). destruct (Hf a w1 H1) as (b & w2 & E2 & H2).
  exists b, w2. split; [|done]. unfold mbind, M_bind. by rewrite E1.
Qed.

Lemma reaches_ret {S A} (I : S -> Prop) (a : A) : reaches I I (mret a : M S A).
Proof. intros w Hw. by exists a, w. Qed.

Lemma reaches_if {S} (I : S -> Prop) (f : S -> bool) (m : M S unit) : reaches I I m -> reaches I I (g ← gets f; when g m).
Proof. intros Hm s Hs. unfold mbind, M_bind, gets. destruct (f s); [by apply Hm|]. by exists tt, s. Qed.

Lemma reaches_forM {S A} (I : S -> Prop) (l : list A) (f : A -> M S unit) :
  (forall x, x ∈ l -> reaches I I (f x)) -> reaches I I (forM_ l f).
Proof.
  induction l as [|x l IH]; intros Hf; [apply reaches_ret|]. cbn [forM_].
  apply (reaches_bind _ I); [apply Hf; by left|]. intros _. apply IH. intros y Hy. apply Hf. by right.
Qed.

(** ** Functional record update

    [r <| fld := v |>] replaces one field.  A record opts in with an instance
    of [Settable], its eta-expansion; the setter of a field is computed from
    it. *)

Class Settable (R : Type) := mkSettable { eta_of : R -> R }.
Class Setter {R T : Type} (proj : R -> T) := set : (T -> T) -> R -> R.
#[global] Typeclasses Opaque Setter.
Arguments set {R T} proj {Setter} f r : simpl nomatch.

Ltac solve_setter p :=
  match type of p with
  | ?R -> ?T =>
      let i := constr:(ltac:(typeclasses eauto) : Settable R) in
      let e := eval hnf in (@eta_of R i) in
      exact (fun (f : T -> T) (r : R) =>
        ltac:(let b := eval cbv beta in (e r) in
              match eval pattern (p r) in b with
              | ?g _ => let c := eval cbv beta in (g (f (p r))) in exact c
              end))
  end.
#[export] Hint Extern 1 (Setter ?p) => solve_setter p : typeclass_instances.

Declare Scope ps2_scope.
Delimit Scope ps2_scope with ps2.
Notation "r <| p := v |>" := (set p (fun _ => v) r)
  (at level 1, left associativity, p constr at level 0, format "r  <| p  :=  v |>") : ps2_scope.
#[global] Open Scope ps2_scope.

(** ** Machine integers

    Integers are [Z]; a store into a [UInt8], [UInt16] or [UInt32] wraps, a
    store into an [int] wraps into the two's complement range. *)

Definition u8 (z : Z) : Z := z mod 256.
Definition u16 (z : Z) : Z := z mod 65536.
Definition u32 (z : Z) : Z := z mod 4294967296.
Definition u64 (z : Z) : Z := z mod 18446744073709551616.
Definition s32 (z : Z) : Z := (z + 2147483648) mod 4294967296 - 2147483648.

(** Truth value of the C expression [x & m]. *)
Definition anyset (x m : Z) : bool := negb (Z.land x m =? 0).

(** [x & ~m] *)
Definition clear (x m : Z) : Z := Z.ldiff x m.

Definition is_u8 (z : Z) : Prop := 0 <= z < 256.
Definition is_u16 (z : Z) : Prop := 0 <= z < 65536.
Definition is_u32 (z : Z) : Prop := 0 <= z < 4294967296.

Lemma u8_range z : is_u8 (u8 z).
Proof. apply Z.mod_pos_bound. lia. Qed.
Lemma u16_range z : is_u16 (u16 z).
Proof. apply Z.mod_pos_bound. lia. Qed.
Lemma u32_range z : is_u32 (u32 z).
Proof. apply Z.mod_pos_bound. lia. Qed.
Lemma u8_id z : is_u8 z -> u8 z = z.
Proof. apply Z.mod_small. Qed.
Lemma u16_id z : is_u16 z -> u16 z = z.
Proof. apply Z.mod_small. Qed.
Lemma u32_id z : is_u32 z -> u32 z = z.
Proof. apply Z.mod_small. Qed.

Lemma u8_bits z : is_u8 z <-> (forall n, 8 <= n -> Z.testbit z n = false).
Proof.
  split.
  - intros Hz n Hn. rewrite <- (u8_id z Hz). unfold u8. change 256 with (2 ^ 8).
    apply Z.mod_pow2_bits_high. lia.
  - intros Hb. assert (z = u8 z) as ->; [|apply u8_range].
    apply Z.bits_inj'. intros n Hn. unfold u8. change 256 with (2 ^ 8).
    destruct (Z.lt_ge_cases n 8).
    + by rewrite Z.mod_pow2_bits_low.
    + rewrite Hb, Z.mod_pow2_bits_high by lia. done.
Qed.

Lemma lor_u8 a b : is_u8 a -> is_u8 b -> is_u8 (Z.lor a b).
Proof.
  rewrite !u8_bits. intros Ha Hb n Hn. by rewrite Z.lor_spec, Ha, Hb.
Qed.

Lemma clear_u8 a b : is_u8 a -> is_u8 (clear a b).
Proof.
  rewrite !u8_bits. intros Ha n Hn. unfold clear. by rewrite Z.ldiff_spec, Ha.
Qed.

Lemma land_u8 a b : is_u8 a -> is_u8 (Z.land a b).
Proof. rewrite !u8_bits. intros Ha n Hn. by rewrite Z.land_spec, Ha. Qed.

(** Values of bit operations. *)
Lemma lor_bound a b : 0 <= a -> 0 <= b -> 0 <= Z.lor a b <= a + b.
Proof.
  intros Ha Hb. pose proof (Z.lor_nonneg a b). pose proof (Z.add_lor_land a b). pose proof (Z.land_nonneg a b). lia.
Qed.

Lemma land_bound a m : 0 <= m -> 0 <= Z.land a m <= m.
Proof.
  intros Hm. split; [apply Z.land_nonneg; auto|]. rewrite Z.land_comm. pose proof (Z.lor_ldiff_and m a) as E.
  pose proof (lor_bound (Z.ldiff m a) (Z.land m a)). pose proof (Z.add_lor_land (Z.ldiff m a) (Z.land m a)) as F.
  assert (Z.land (Z.ldiff m a) (Z.land m a) = 0) as G.
  { apply Z.bits_inj'. intros n Hn. rewrite !Z.land_spec, Z.ldiff_spec, Z.bits_0. by destruct (Z.testbit m n), (Z.testbit a n). }
  rewrite G, E in F. assert (0 <= Z.ldiff m a) by (apply Z.ldiff_nonneg; auto). lia.
Qed.

Lemma lor_high a b n : 0 <= n -> 0 <= a < 2 ^ n -> Z.lor a (b * 2 ^ n) = a + b * 2 ^ n.
Proof.
  intros Hn Ha. pose proof (Z.add_lor_land a (b * 2 ^ n)) as H. rewrite <- Z.shiftl_mul_pow2 in * by done.
  assert (Z.land a (Z.shiftl b n) = 0) as E; [|rewrite E in H; lia].
  apply Z.bits_inj'. intros k Hk. rewrite Z.land_spec, Z.bits_0. destruct (Z.ltb_spec k n).
  - rewrite Z.shiftl_spec_low by done. apply andb_false_r.
  - destruct (Z.eq_dec a 0) as [->|]; [by rewrite Z.testbit_0_l|]. rewrite (Z.bits_above_log2 a); [done|lia|]. apply Z.log2_lt_pow2; [lia|].
    eapply Z.lt_le_trans; [apply Ha|]. apply Z.pow_le_mono_r; lia.
Qed.

(** Testing, setting and clearing one bit. *)
Lemma anyset_bit x j : 0 <= j -> anyset x (Z.shiftl 1 j) = Z.testbit x j.
Proof.
  intros Hj. unfold anyset. rewrite Z.shiftl_1_l. destruct (Z.testbit x j) eqn:E.
  - apply negb_true_iff, Z.eqb_neq. intros H0. apply (f_equal (fun z => Z.testbit z j)) in H0.
    by rewrite Z.land_spec, E, Z.pow2_bits_true, Z.bits_0 in H0.
  - apply negb_false_iff, Z.eqb_eq. apply Z.bits_inj'. intros i Hi.
    rewrite Z.land_spec, Z.bits_0, Z.pow2_bits_eqb by done.
    destruct (Z.eqb_spec j i) as [->|]; [by rewrite E|by rewrite andb_false_r].
Qed.

Lemma setbit_spec x j i : 0 <= j -> 0 <= i ->
  Z.testbit (Z.lor x (Z.shiftl 1 j)) i = if i =? j then true else Z.testbit x i.
Proof.
  intros Hj Hi. rewrite Z.shiftl_1_l, Z.lor_spec, Z.pow2_bits_eqb, (Z.eqb_sym i j) by done.
  destruct (j =? i); [apply orb_true_r|apply orb_false_r].
Qed.

Lemma clearbit_spec x j i : 0 <= j -> 0 <= i ->
  Z.testbit (clear x (Z.shiftl 1 j)) i = if i =? j then false else Z.testbit x i.
Proof.
  intros Hj Hi. unfold clear. rewrite Z.shiftl_1_l, Z.ldiff_spec, Z.pow2_bits_eqb, (Z.eqb_sym i j) by done.
  destruct (j =? i); [apply andb_false_r|apply andb_true_r].
Qed.

Create HintDb ps2.
#[export] Hint Resolve lor_u8 clear_u8 land_u8 : ps2.
Create Rewrite HintDb ps2rw.
#[export] Hint Resolve u8_range u16_range u32_range : ps2.
#[export] Hint Rewrite u8_id u16_id u32_id using assumption : ps2rw.

(** A fact about every byte is decided by running it on the 256 of them. *)
Definition bytes : list Z := Z.of_nat <$> seq 0 256.

Lemma bytes_in b : is_u8 b -> b ∈ bytes.
Proof.
  intros [H1 H2]. unfold bytes. apply list_elem_of_fmap. exists (Z.to_nat b).
  split; [lia|]. apply elem_of_seq. lia.
Qed.

Lemma byte_forall (P : Z -> bool) :
  forallb P bytes = true -> forall b, is_u8 b -> P b = true.
Proof.
  intros HP b Hb. apply bytes_in in Hb.
  rewrite forallb_forall in HP. apply HP. by apply list_elem_of_In.
Qed.

(** ** Arrays

    Reads and writes outside the bounds of the array are undefined. *)

Section array.
Context {A : Type}.
Implicit Types (l : list A) (i : Z) (v : A).

Definition aget l i : outcome A :=
  if i <? 0 then Undef
  else match l !! Z.to_nat i with Some v => Done v | None => Undef end.

Definition aset l i v : outcome (list A) :=
  if i <? 0 then Undef
  else if i <? Z.of_nat (length l) then Done (<[Z.to_nat i := v]> l) else Undef.

Lemma aget_ok l i :
  0 <= i < Z.of_nat (length l) ->
  exists v, aget l i = Done v /\ l !! Z.to_nat i = Some v.
Proof.
  intros [H1 H2]. unfold aget. rewrite (proj2 (Z.ltb_ge i 0)) by lia.
  destruct (lookup_lt_is_Some_2 l (Z.to_nat i)) as [v Hv]; [lia|].
  exists v. by rewrite Hv.
Qed.

Lemma aget_lookup l i v : 0 <= i -> l !! Z.to_nat i = Some v -> aget l i = Done v.
Proof. intros H Hl. unfold aget. rewrite (proj2 (Z.ltb_ge i 0)) by lia. by rewrite Hl. Qed.

Lemma aget_inv l i v : aget l i = Done v -> 0 <= i /\ l !! Z.to_nat i = Some v.
Proof.
  unfold aget. destruct (Z.ltb_spec i 0); [done|].
  destruct (l !! Z.to_nat i) eqn:E; [|done]. intros [= ->]. done.
Qed.

Lemma aset_ok l i v :
  0 <= i < Z.of_nat (length l) -> aset l i v = Done (<[Z.to_nat i := v]> l).
Proof.
  intros [H1 H2]. unfold aset. rewrite (proj2 (Z.ltb_ge i 0)) by lia.
  by rewrite (proj2 (Z.ltb_lt _ _)).
Qed.

Lemma aset_inv l i v l' :
  aset l i v = Done l' -> 0 <= i < Z.of_nat (length l) /\ l' = <[Z.to_nat i := v]> l.
Proof.
  unfold aset. destruct (Z.ltb_spec i 0); [done|].
  destruct (Z.ltb_spec i (Z.of_nat (length l))); [|done]. intros [= <-]. by split.
Qed.
End array.

(** The bytes [off .. off+n-1] of an array are [vs]. *)
Definition slice {A} (l : list A) (off n : nat) : list A := take n (drop off l).

(** Writing the block [vs] at [off]. *)
Definition splice {A} (l : list A) (off : nat) (vs : list A) : list A :=
  take off l ++ vs ++ drop (off + length vs) l.

(** ** Proof steps shared by the components *)

(** Run a monadic term as far as its head constructors allow. *)
Ltac munfold :=
  unfold mbind, mret, M_bind, M_ret, outcome_bind, outcome_ret, gets, modify, lift,
    undef, nofuel, when.
Ltac msimpl := munfold; cbn beta iota.

(** Split every conjunction and boolean test of the context into arithmetic. *)
Ltac bool_hyps :=
  repeat match goal with
    | H : _ && _ = true |- _ => apply andb_true_iff in H as [? ?]
    | H : _ || _ = false |- _ => apply orb_false_iff in H as [? ?]
    | H : negb _ = true |- _ => apply negb_true_iff in H
    | H : negb _ = false |- _ => apply negb_false_iff in H
    | H : context [_ >=? _] |- _ => rewrite Z.geb_leb in H
    | H : context [_ >? _] |- _ => rewrite Z.gtb_ltb in H
    | H : (_ =? _) = true |- _ => apply Z.eqb_eq in H
    | H : (_ =? _) = false |- _ => apply Z.eqb_neq in H
    | H : (_ <? _) = true |- _ => apply Z.ltb_lt in H
    | H : (_ <? _) = false |- _ => apply Z.ltb_ge in H
    | H : (_ <=? _) = true |- _ => apply Z.leb_le in H
    | H : (_ <=? _) = false |- _ => apply Z.leb_gt in H
    end.
