(* ===== verification/RingBuffer.v ===== *)
(** * RingBuffer: the FIFO shared by interrupt handlers and the work loop

    Models [template <class T, unsigned N> class RingBuffer] of
    src/VoodooPS2Controller/ApplePS2Device.h: the array, the two indices and
    every member function.  The reference is a bounded list ([Fifo]); the
    refinement lemmas show that the array with its two indices implements it,
    byte by byte ([push]/[fetch]) and packet by packet (writing at [head()]
    and [advanceHead], reading at [tail()] and [advanceTail]). *)

From S2P Require Import Prelude.

(** ** Reference: a queue that drops what does not fit *)
Module Fifo.
Definition push {A} (cap : Z) (q : list A) (x : A) : list A :=
  if Z.of_nat (length q) <? cap then q ++ [x] else q.

(** A whole block is queued or dropped, never split. *)
Definition push_block {A} (cap : Z) (q : list A) (b : list A) : list A :=
  if Z.of_nat (length q) + Z.of_nat (length b) <=? cap then q ++ b else q.
End Fifo.

Record RingBuffer (T : Type) := mkRB {
  m_buffer : list T;
  m_head : Z;
  m_tail : Z;
}.
Arguments mkRB {T} _ _ _.
Arguments m_buffer {T} _.
Arguments m_head {T} _.
Arguments m_tail {T} _.
#[export] Instance RingBuffer_eta T : Settable (RingBuffer T) := mkSettable _ (fun r => mkRB (m_buffer r) (m_head r) (m_tail r)).

Section ring.
  Context {T : Type} (N : Z).
  Implicit Types (rb : RingBuffer T) (x : T).

(** The private [count(head, tail)]; [unsigned] arithmetic wraps. *)
Definition count2 (head tail : Z) : Z :=
  if head >=? tail then u32 (head - tail) else u32 (u32 (N - tail) + head).

Definition reset rb : RingBuffer T := rb <| m_head := 0 |> <| m_tail := 0 |>.

Definition count rb : Z := count2 (m_head rb) (m_tail rb).

Definition push rb x : outcome (RingBuffer T) :=
  let new_head := u32 (m_head rb + 1) in
  let new_head := if new_head >=? N then 0 else new_head in
  if negb (new_head =? m_tail rb) then
    b ← aset (m_buffer rb) (m_head rb) x;
    mret (rb <| m_buffer := b |> <| m_head := new_head |>)
  else mret rb.

Definition fetch rb : outcome (T * RingBuffer T) :=
  x ← aget (m_buffer rb) (m_tail rb);
  let tail := u32 (m_tail rb + 1) in
  let tail := if tail >=? N then 0 else tail in
  mret (x, rb <| m_tail := tail |>).

(** [head()[i] = x] and [tail()[i]]: accesses through the returned pointer. *)
Definition head_set rb (i : Z) x : outcome (RingBuffer T) :=
  b ← aset (m_buffer rb) (m_head rb + i) x; mret (rb <| m_buffer := b |>).
Definition tail_get rb (i : Z) : outcome T := aget (m_buffer rb) (m_tail rb + i).

Definition advanceHead rb (move : Z) : RingBuffer T :=
  let new_head := u32 (m_head rb + move) in
  let new_head := if new_head >=? N then u32 (new_head - N) else new_head in
  if count2 new_head (m_tail rb) >=? count rb then rb <| m_head := new_head |> else rb.

Definition advanceTail rb (move : Z) : RingBuffer T :=
  let tail := u32 (m_tail rb + move) in
  let tail := if tail >=? N then u32 (tail - N) else tail in
  rb <| m_tail := tail |>.

(** The block [vs] written at [head()], element by element. *)
Fixpoint head_write rb (i : Z) (vs : list T) : outcome (RingBuffer T) :=
  match vs with
  | [] => mret rb
  | x :: vs => rb ← head_set rb i x; head_write rb (i + 1) vs
  end.

(** ** Invariant and abstraction *)

Record rb_wf rb : Prop := {
  wf_len : Z.of_nat (length (m_buffer rb)) = N;
  wf_N : 0 < N < 2147483648;
  wf_head : 0 <= m_head rb < N;
  wf_tail : 0 <= m_tail rb < N;
}.

(** The queued elements, oldest first. *)
Definition elems rb : list T :=
  let h := Z.to_nat (m_head rb) in
  let t := Z.to_nat (m_tail rb) in
  if m_tail rb <=? m_head rb then slice (m_buffer rb) t (h - t)
  else drop t (m_buffer rb) ++ take h (m_buffer rb).

(** Slot of the [i]-th queued element. *)
Definition slot rb (i : nat) : nat :=
  let j := m_tail rb + Z.of_nat i in
  Z.to_nat (if j <? N then j else j - N).

Definition len rb : Z :=
  if m_tail rb <=? m_head rb then m_head rb - m_tail rb else N - m_tail rb + m_head rb.

Lemma count2_len h t :
  0 < N < 2147483648 -> 0 <= h < N -> 0 <= t < N ->
  count2 h t = if t <=? h then h - t else N - t + h.
Proof.
  intros HN Hh Ht. unfold count2, u32.
  destruct (Z.leb_spec t h).
  - rewrite (proj2 (Z.geb_le h t)) by lia. apply Z.mod_small. lia.
  - destruct (Z.geb_spec h t); [lia|]. rewrite (Z.mod_small (N - t)) by lia.
    apply Z.mod_small. lia.
Qed.

Lemma count_len rb : rb_wf rb -> count rb = len rb.
Proof. intros [? ? ? ?]. apply count2_len; done. Qed.

Lemma len_range rb : rb_wf rb -> 0 <= len rb < N.
Proof. intros [? ? ? ?]. unfold len. destruct (Z.leb_spec (m_tail rb) (m_head rb)); lia. Qed.

Lemma length_elems rb : rb_wf rb -> Z.of_nat (length (elems rb)) = len rb.
Proof.
  intros [? ? ? ?]. unfold elems, len, slice. destruct (Z.leb_spec (m_tail rb) (m_head rb)).
  - rewrite length_take, length_drop. lia.
  - rewrite length_app, length_take, length_drop. lia.
Qed.

Lemma elems_lookup rb i :
  rb_wf rb -> Z.of_nat i < len rb -> elems rb !! i = m_buffer rb !! slot rb i.
Proof.
  intros [? ? ? ?] Hi. unfold elems, len, slot, slice in *.
  destruct (Z.leb_spec (m_tail rb) (m_head rb)).
  - rewrite lookup_take_lt, lookup_drop by lia.
    destruct (Z.ltb_spec (m_tail rb + Z.of_nat i) N); [|lia]. f_equal. lia.
  - destruct (Z.ltb_spec (m_tail rb + Z.of_nat i) N).
    + rewrite lookup_app_l by (rewrite length_drop; lia). rewrite lookup_drop. f_equal. lia.
    + rewrite lookup_app_r by (rewrite length_drop; lia). rewrite length_drop.
      rewrite lookup_take_lt by lia. f_equal. lia.
Qed.

(** Two well-formed buffers hold the same queue when they agree on the
    occupied slots. *)
Lemma elems_ext rb (q : list T) :
  rb_wf rb -> len rb = Z.of_nat (length q) ->
  (forall i x, q !! i = Some x -> m_buffer rb !! slot rb i = Some x) ->
  elems rb = q.
Proof.
  intros Hwf Hlen Hq. apply list_eq. intros i.
  destruct (q !! i) as [x|] eqn:E.
  - rewrite elems_lookup; [by apply Hq|done|]. apply lookup_lt_Some in E. lia.
  - apply lookup_ge_None in E. apply lookup_ge_None.
    pose proof (length_elems rb Hwf). lia.
Qed.

(** ** Byte-wise refinement *)

Lemma reset_wf rb : rb_wf rb -> rb_wf (reset rb).
Proof. intros [? ? ? ?]. split; simpl; lia. Qed.

Lemma reset_elems rb : elems (reset rb) = [].
Proof. reflexivity. Qed.

(** Stepping an index by one or by a whole block, with its wrap-around. *)
Definition step (i k : Z) : Z := if i + k <? N then i + k else i + k - N.

Lemma step1_eq i :
  0 < N < 2147483648 -> 0 <= i < N ->
  (if u32 (i + 1) >=? N then 0 else u32 (i + 1)) = step i 1.
Proof.
  intros. unfold u32, step. rewrite Z.mod_small by lia.
  destruct (Z.geb_spec (i + 1) N), (Z.ltb_spec (i + 1) N); lia.
Qed.

Lemma stepk_eq i k :
  0 < N < 2147483648 -> 0 <= i < N -> 0 <= k <= N ->
  (if u32 (i + k) >=? N then u32 (u32 (i + k) - N) else u32 (i + k)) = step i k.
Proof.
  intros. unfold u32, step. rewrite (Z.mod_small (i + k)) by lia.
  destruct (Z.geb_spec (i + k) N), (Z.ltb_spec (i + k) N); try lia. apply Z.mod_small. lia.
Qed.

Lemma step_range i k : 0 <= i < N -> 0 <= k <= N -> 0 <= step i k < N.
Proof. intros. unfold step. destruct (Z.ltb_spec (i + k) N); lia. Qed.

(** All index arithmetic over one buffer, by cases on the wrap-arounds. *)
Ltac rb_arith :=
  unfold step, slot, len in *; simpl in *;
  repeat match goal with
    | |- context [?a <=? ?b] => destruct (Z.leb_spec a b)
    | |- context [?a <? ?b] => destruct (Z.ltb_spec a b)
    | H : context [?a <=? ?b] |- _ => destruct (Z.leb_spec a b)
    | H : context [?a <? ?b] |- _ => destruct (Z.ltb_spec a b)
    end; lia.

Ltac rb_destruct rb H :=
  destruct rb as [?bf ?hd ?tl]; destruct H as [? ? ? ?]; simpl in *.

(** The queue after [head] moved by [k] over slots that hold [vs]. *)
Lemma elems_grow rb buf k (vs : list T) :
  rb_wf rb -> Z.of_nat (length buf) = N -> Z.of_nat (length vs) = k -> 0 < k ->
  len rb + k < N ->
  (forall i, Z.of_nat i < len rb -> buf !! slot rb i = m_buffer rb !! slot rb i) ->
  (forall i x, vs !! i = Some x -> buf !! Z.to_nat (step (m_head rb) (Z.of_nat i)) = Some x) ->
  rb_wf (mkRB buf (step (m_head rb) k) (m_tail rb)) /\
  elems (mkRB buf (step (m_head rb) k) (m_tail rb)) = elems rb ++ vs.
Proof.
  intros Hwf Hbuf Hk Hk0 Hlt Hold Hnew.
  pose proof (length_elems rb Hwf) as Hl. pose proof (elems_lookup rb) as Hlook.
  assert (Hwf' : rb_wf (mkRB buf (step (m_head rb) k) (m_tail rb))).
  { destruct Hwf. split; simpl; try lia. apply step_range; [lia|]. rb_arith. }
  split; [exact Hwf'|]. apply elems_ext; [exact Hwf'| |].
  - rewrite length_app, Nat2Z.inj_add, Hl, Hk. rb_destruct rb Hwf. rb_arith.
  - intros i y Hi. apply lookup_app_Some in Hi as [Hi|[Hge Hi]].
    + pose proof (lookup_lt_Some _ _ _ Hi).
      rewrite Hlook in Hi by (done || lia). rewrite <- Hi, <- Hold by lia. done.
    + pose proof (lookup_lt_Some _ _ _ Hi) as Hlti. apply Hnew in Hi as <-. simpl. f_equal.
      revert Hl Hge Hlti. generalize (length (elems rb)). intros n Hl Hge Hlti.
      rb_destruct rb Hwf. rb_arith.
Qed.

(** The queue after [tail] moved by [k]. *)
Lemma elems_shrink rb k :
  rb_wf rb -> 0 <= k <= len rb ->
  rb_wf (rb <| m_tail := step (m_tail rb) k |>) /\
  elems (rb <| m_tail := step (m_tail rb) k |>) = drop (Z.to_nat k) (elems rb).
Proof.
  intros Hwf Hk. pose proof (length_elems rb Hwf) as Hl. pose proof (len_range rb Hwf).
  assert (Hwf' : rb_wf (rb <| m_tail := step (m_tail rb) k |>)).
  { destruct Hwf. split; simpl; try lia. apply step_range; lia. }
  split; [exact Hwf'|]. apply elems_ext; [exact Hwf'| |].
  - rewrite length_drop. rewrite Nat2Z.inj_sub by lia. rewrite Hl.
    rb_destruct rb Hwf. rb_arith.
  - intros i y Hi. rewrite lookup_drop in Hi. pose proof (lookup_lt_Some _ _ _ Hi).
    rewrite elems_lookup in Hi by (done || lia). rewrite <- Hi. simpl. f_equal.
    rb_destruct rb Hwf. rb_arith.
Qed.

Lemma push_ok rb x :
  rb_wf rb -> exists rb', push rb x = Done rb' /\ rb_wf rb' /\
    elems rb' = Fifo.push (N - 1) (elems rb) x.
Proof.
  intros Hwf. pose proof (len_range rb Hwf) as Hr.
  unfold push, Fifo.push. rewrite length_elems by done.
  rewrite step1_eq by (destruct Hwf; lia).
  destruct (Z.eqb_spec (step (m_head rb) 1) (m_tail rb)) as [Heq|Hne]; simpl.
  - exists rb. split; [done|]. split; [done|].
    destruct (Z.ltb_spec (len rb) (N - 1)); [|done]. exfalso. rb_destruct rb Hwf. rb_arith.
  - assert (Hlt : len rb < N - 1) by (rb_destruct rb Hwf; rb_arith).
    rewrite (proj2 (Z.ltb_lt _ _) Hlt), aset_ok by (destruct Hwf; lia).
    eexists. split; [reflexivity|].
    refine (elems_grow rb _ 1 [x] Hwf _ eq_refl ltac:(lia) ltac:(lia) _ _).
    + rewrite <- (wf_len _ Hwf). f_equal. apply length_insert.
    + intros i Hi. apply list_lookup_insert_ne. rb_destruct rb Hwf. rb_arith.
    + intros [|i] y Hi; [|done]. injection Hi as ->.
      replace (Z.to_nat _) with (Z.to_nat (m_head rb)).
      * apply list_lookup_insert_eq. destruct Hwf; lia.
      * rb_destruct rb Hwf. rb_arith.
Qed.

Lemma fetch_ok rb x q :
  rb_wf rb -> elems rb = x :: q ->
  exists rb', fetch rb = Done (x, rb') /\ rb_wf rb' /\ elems rb' = q.
Proof.
  intros Hwf He. pose proof (length_elems rb Hwf) as Hl. rewrite He in Hl. simpl in Hl.
  assert (Hx : m_buffer rb !! slot rb 0 = Some x).
  { rewrite <- elems_lookup by (done || lia). by rewrite He. }
  unfold fetch. rewrite (aget_lookup _ _ x); cycle 1.
  { destruct Hwf; lia. }
  { rewrite <- Hx. f_equal. rb_destruct rb Hwf. rb_arith. }
  simpl. rewrite step1_eq by (destruct Hwf; lia).
  eexists. split; [reflexivity|].
  destruct (elems_shrink rb 1 Hwf) as [Hw ->]; [lia|]. rewrite He. done.
Qed.

(** ** Packet-wise refinement

    The drivers store packets of [P] bytes with [P] dividing [N]; both
    indices then stay multiples of [P] and a packet never wraps. *)

Lemma advanceHead_eq rb k :
  rb_wf rb -> 0 < k < N ->
  advanceHead rb k =
    if len rb + k <? N then rb <| m_head := step (m_head rb) k |> else rb.
Proof.
  intros Hwf Hk. unfold advanceHead. rewrite count_len by done.
  rewrite stepk_eq by (destruct Hwf; lia).
  rewrite count2_len by (destruct Hwf; try apply step_range; lia).
  destruct (Z.geb_spec (if m_tail rb <=? step (m_head rb) k then step (m_head rb) k - m_tail rb
     else N - m_tail rb + step (m_head rb) k) (len rb)) as [H|H];
    destruct (Z.ltb_spec (len rb + k) N); try done; exfalso; rb_destruct rb Hwf; rb_arith.
Qed.

Lemma advanceTail_eq rb k :
  rb_wf rb -> 0 <= k <= N -> advanceTail rb k = rb <| m_tail := step (m_tail rb) k |>.
Proof. intros Hwf Hk. unfold advanceTail. by rewrite stepk_eq by (destruct Hwf; lia). Qed.

Section packets.
  Context (P : Z).

Record aligned rb : Prop := {
  al_wf : rb_wf rb;
  al_P : 0 < P < N;
  al_N : (P | N);
  al_head : (P | m_head rb);
  al_tail : (P | m_tail rb);
}.

(** The free block [head()] points to. *)
Definition head_block rb : list T := slice (m_buffer rb) (Z.to_nat (m_head rb)) (Z.to_nat P).

Lemma aligned_len rb : aligned rb -> (P | len rb) /\ len rb + P <= N /\ m_head rb + P <= N
  /\ m_tail rb + P <= N.
Proof.
  intros [Hwf HP [n ->] [h Hh] [t Ht]].
  rb_destruct rb Hwf. subst. unfold len; simpl.
  assert (h + 1 <= n /\ t + 1 <= n) as [Hh1 Ht1] by nia.
  assert (h * P + P <= n * P) by nia. assert (t * P + P <= n * P) by nia.
  destruct (Z.leb_spec (t * P) (h * P)); (split; [|split; [|lia]]).
  - exists (h - t). ring.
  - nia.
  - exists (n - t + h). nia.
  - assert (h + 1 <= t) by nia. nia.
Qed.

Lemma aligned_step rb i : aligned rb -> (P | i) -> (P | step i P).
Proof.
  intros [_ _ [n Hn] _ _] [k ->]. unfold step.
  destruct (Z.ltb_spec (k * P + P) N); [exists (k + 1)|exists (k + 1 - n)]; nia.
Qed.

Lemma length_head_block rb : aligned rb -> Z.of_nat (length (head_block rb)) = P.
Proof.
  intros Ha. pose proof (aligned_len rb Ha). destruct Ha as [[] ? ? ? ?].
  unfold head_block, slice. rewrite length_take, length_drop. lia.
Qed.

(** A write through [head()] changes the free block only. *)
Lemma head_set_ok rb i x :
  aligned rb -> 0 <= i < P ->
  exists rb', head_set rb i x = Done rb' /\ aligned rb' /\ elems rb' = elems rb /\
    head_block rb' = <[Z.to_nat i := x]> (head_block rb).
Proof.
  intros Ha Hi. pose proof (aligned_len rb Ha) as (Hd & Hl & Hh & _).
  destruct Ha as [Hwf HP HN Hhd Htl]. unfold head_set.
  rewrite aset_ok by (destruct Hwf; lia). simpl. eexists. split; [reflexivity|].
  assert (Hwf' : rb_wf (rb <| m_buffer := <[Z.to_nat (m_head rb + i):=x]> (m_buffer rb) |>)).
  { destruct Hwf. split; simpl; rewrite ?length_insert; done. }
  split; [by split|]. split.
  - apply elems_ext; [exact Hwf'| |].
    + by rewrite length_elems.
    + intros j y Hj. pose proof (lookup_lt_Some _ _ _ Hj). pose proof (length_elems rb Hwf).
      rewrite elems_lookup in Hj by (done || lia). simpl. rewrite <- Hj.
      apply list_lookup_insert_ne. rb_destruct rb Hwf. rb_arith.
  - unfold head_block, slice; simpl.
    rewrite drop_insert_ge by (destruct Hwf; lia).
    rewrite take_insert_lt by (destruct Hwf; lia). f_equal.
    destruct Hwf; lia.
Qed.

Lemma advanceHead_block rb :
  aligned rb ->
  aligned (advanceHead rb P) /\
  elems (advanceHead rb P) = Fifo.push_block (N - 1) (elems rb) (head_block rb).
Proof.
  intros Ha. pose proof (length_head_block rb Ha) as Hb. pose proof (aligned_len rb Ha) as (Hd & Hl & Hh & _).
  pose proof (aligned_step rb _ Ha (al_head _ Ha)) as Hst.
  destruct Ha as [Hwf HP HN Hhd Htl].
  rewrite advanceHead_eq by (done || lia). unfold Fifo.push_block.
  rewrite length_elems, Hb by done.
  destruct (Z.ltb_spec (len rb + P) N), (Z.leb_spec (len rb + P) (N - 1)); try lia; [|split; [by split|done]].
  assert (Hnew : forall i x, head_block rb !! i = Some x ->
    m_buffer rb !! Z.to_nat (step (m_head rb) (Z.of_nat i)) = Some x).
  { intros i y Hi. unfold head_block, slice in Hi. apply lookup_take_Some in Hi as [Hi ?].
    rewrite lookup_drop in Hi. rewrite <- Hi. f_equal. rb_destruct rb Hwf. rb_arith. }
  destruct (elems_grow rb (m_buffer rb) P (head_block rb) Hwf (wf_len _ Hwf) Hb ltac:(lia)
    ltac:(lia) ltac:(done) Hnew) as [Hw He].
  split; [by split|exact He].
Qed.

Lemma advanceTail_block rb :
  aligned rb -> P <= len rb ->
  aligned (advanceTail rb P) /\ elems (advanceTail rb P) = drop (Z.to_nat P) (elems rb).
Proof.
  intros Ha Hl. pose proof (aligned_step rb _ Ha (al_tail _ Ha)) as Hst.
  destruct Ha as [Hwf HP HN Hhd Htl].
  rewrite advanceTail_eq by (done || lia). destruct (elems_shrink rb P Hwf) as [Hw ->]; [lia|].
  split; [by split|done].
Qed.

Lemma tail_get_ok rb i :
  aligned rb -> P <= len rb -> 0 <= i < P ->
  exists x, tail_get rb i = Done x /\ elems rb !! Z.to_nat i = Some x.
Proof.
  intros Ha Hl Hi. pose proof (aligned_len rb Ha) as (_ & _ & _ & Ht). destruct Ha as [Hwf HP HN Hhd Htl].
  unfold tail_get. destruct (aget_ok (m_buffer rb) (m_tail rb + i)) as (x & -> & Hx); [destruct Hwf; lia|].
  exists x. split; [done|]. rewrite elems_lookup by (done || lia). rewrite <- Hx. f_equal.
  rb_destruct rb Hwf. rb_arith.
Qed.
(** *** Sessions

    The interrupt handler fills the free block through [head()] and calls
    [advanceHead(P)]; the work loop, while [count() >= P], reads the block at
    [tail()] and calls [advanceTail(P)].  A session is any interleaving of
    the two. *)
Inductive session_op :=
| Enqueue (ws : list (Z * T))   (* the writes packet[i] = x, in order *)
| Dequeue.

Fixpoint head_writes rb (ws : list (Z * T)) : outcome (RingBuffer T) :=
  match ws with
  | [] => mret rb
  | (i, x) :: ws => rb ← head_set rb i x; head_writes rb ws
  end.

Fixpoint tail_read rb (i : Z) (n : nat) : outcome (list T) :=
  match n with
  | O => mret []
  | S n => x ← tail_get rb i; l ← tail_read rb (i + 1) n; mret (x :: l)
  end.

Definition session_step rb (o : session_op) : outcome (option (list T) * RingBuffer T) :=
  match o with
  | Enqueue ws => rb ← head_writes rb ws; mret (None, advanceHead rb P)
  | Dequeue =>
      if count rb >=? P then
        b ← tail_read rb 0 (Z.to_nat P); mret (Some b, advanceTail rb P)
      else mret (None, rb)
  end.

Fixpoint session rb (ops : list session_op) : outcome (list (option (list T)) * RingBuffer T) :=
  match ops with
  | [] => mret ([], rb)
  | o :: ops => '(r, rb) ← session_step rb o; '(rs, rb) ← session rb ops; mret (r :: rs, rb)
  end.

(** The reference: a queue of at most [N / P - 1] packets, each known by the
    writes that made it. *)
Definition spec_step (q : list (list (Z * T))) (o : session_op) :
  option (list (Z * T)) * list (list (Z * T)) :=
  match o with
  | Enqueue ws => (None, Fifo.push (N / P - 1) q ws)
  | Dequeue => match q with [] => (None, []) | ws :: q => (Some ws, q) end
  end.

Fixpoint spec_session (q : list (list (Z * T))) (ops : list session_op) :=
  match ops with
  | [] => ([], q)
  | o :: ops =>
      let '(r, q) := spec_step q o in
      let '(rs, q) := spec_session q ops in (r :: rs, q)
  end.

(** The bytes a packet ends up with: the last write to each offset. *)
Definition written (ws : list (Z * T)) (b : list T) : list T :=
  fold_left (fun b '(i, x) => <[Z.to_nat i := x]> b) ws b.

(** [b] is a block of [P] bytes made by the writes [ws]. *)
Definition made_by (b : list T) (ws : list (Z * T)) : Prop :=
  Z.of_nat (length b) = P /\ exists b0, b = written ws b0.

Definition queue_of rb (q : list (list (Z * T))) : Prop :=
  aligned rb /\ exists bs, elems rb = concat bs /\ Forall2 made_by bs q.

Definition op_ok (o : session_op) : Prop :=
  match o with Enqueue ws => Forall (fun '(i, _) => 0 <= i < P) ws | Dequeue => True end.

Lemma written_length ws b : length (written ws b) = length b.
Proof.
  revert b. induction ws as [|[i x] ws IH]; intros b; [done|]. simpl.
  unfold written in *. simpl. by rewrite IH, length_insert.
Qed.

Lemma head_writes_ok rb ws :
  aligned rb -> Forall (fun '(i, _) => 0 <= i < P) ws ->
  exists rb', head_writes rb ws = Done rb' /\ aligned rb' /\ elems rb' = elems rb /\
    head_block rb' = written ws (head_block rb).
Proof.
  intros Ha Hws. revert rb Ha. induction Hws as [|[i x] ws Hi Hws IH]; intros rb Ha.
  { by exists rb. }
  destruct (head_set_ok rb i x Ha Hi) as (rb1 & E1 & Ha1 & He1 & Hb1).
  destruct (IH rb1 Ha1) as (rb2 & E2 & Ha2 & He2 & Hb2).
  exists rb2. simpl. rewrite E1. simpl. rewrite E2, He2, He1, Hb2, Hb1. done.
Qed.

Lemma tail_read_ok rb i n :
  aligned rb -> P <= len rb -> 0 <= i -> i + Z.of_nat n <= P ->
  tail_read rb i n = Done (slice (elems rb) (Z.to_nat i) n).
Proof.
  intros Ha Hl. revert i. induction n as [|n IH]; intros i Hi Hn; [done|].
  destruct (tail_get_ok rb i Ha Hl) as (x & Ex & Hx); [lia|].
  simpl. rewrite Ex. simpl. rewrite IH by lia. simpl. unfold slice. simpl. f_equal.
  rewrite (drop_S _ _ _ Hx). simpl. do 3 f_equal. lia.
Qed.

Lemma queue_of_len rb q : queue_of rb q -> len rb = Z.of_nat (length q) * P.
Proof.
  intros (Ha & bs & He & Hf). rewrite <- length_elems by apply Ha. rewrite He.
  clear He. induction Hf as [|b ws bs q [Hb _] Hf IH]; [done|]. simpl.
  rewrite length_app, !Nat2Z.inj_add, Nat2Z.inj_succ, IH. lia.
Qed.

(** Publishing the free block: the packet is queued or dropped as a whole. *)
Lemma queue_advance rb q ws :
  queue_of rb q -> (exists b0, head_block rb = written ws b0) ->
  queue_of (advanceHead rb P) (Fifo.push (N / P - 1) q ws).
Proof.
  intros Hq Hb. pose proof (queue_of_len rb q Hq) as Hl. destruct Hq as (Ha & bs & He & Hf).
  destruct (advanceHead_block rb Ha) as [Ha2 He2]. split; [exact Ha2|].
  rewrite He2. unfold Fifo.push_block, Fifo.push.
  assert (Hcap : (Z.of_nat (length (elems rb)) + Z.of_nat (length (head_block rb)) <=? N - 1)
    = (Z.of_nat (length q) <? N / P - 1)).
  { rewrite length_head_block, length_elems, Hl by apply Ha || done.
    destruct Ha as [_ HP [n Hn] _ _]. rewrite Hn, Z.div_mul by lia.
    apply Bool.eq_iff_eq_true. rewrite Z.leb_le, Z.ltb_lt. nia. }
  rewrite Hcap. destruct (Z.of_nat (length q) <? N / P - 1); [|by exists bs].
  exists (bs ++ [head_block rb]). rewrite concat_app, He. simpl. rewrite app_nil_r.
  split; [done|]. apply Forall2_app; [done|]. constructor; [|done].
  split; [by apply length_head_block|done].
Qed.

(** A write through [head()] leaves the queue alone. *)
Lemma queue_head_set rb q i x :
  queue_of rb q -> 0 <= i < P ->
  exists rb', head_set rb i x = Done rb' /\ queue_of rb' q /\ head_block rb' = <[Z.to_nat i := x]> (head_block rb).
Proof.
  intros (Ha & bs & He & Hf) Hi. destruct (head_set_ok rb i x Ha Hi) as (rb' & E & Ha' & He' & Hb').
  exists rb'. split; [done|]. split; [|done]. split; [done|]. exists bs. by rewrite He'.
Qed.

Lemma step_enqueue rb q ws :
  queue_of rb q -> op_ok (Enqueue ws) ->
  exists rb', session_step rb (Enqueue ws) = Done (None, rb') /\
    queue_of rb' (Fifo.push (N / P - 1) q ws).
Proof.
  intros (Ha & bs & He & Hf) Hws.
  destruct (head_writes_ok rb ws Ha Hws) as (rb1 & E1 & Ha1 & He1 & Hb1).
  simpl. rewrite E1. simpl. eexists. split; [reflexivity|]. apply queue_advance; [|by eexists].
  split; [done|]. exists bs. by rewrite He1.
Qed.

Lemma step_dequeue rb q :
  queue_of rb q ->
  exists r rb', session_step rb Dequeue = Done (r, rb') /\
    queue_of rb' (spec_step q Dequeue).2 /\
    match r, (spec_step q Dequeue).1 with
    | None, None => True
    | Some b, Some ws => made_by b ws
    | _, _ => False
    end.
Proof.
  intros Hq. pose proof (queue_of_len rb q Hq) as Hl. destruct Hq as (Ha & bs & He & Hf).
  pose proof (al_P _ Ha) as HP. simpl. rewrite count_len, Hl by apply Ha.
  destruct Hf as [|b ws bs q Hb Hf]; cbn -[Z.mul Z.of_nat].
  - destruct (Z.geb_spec (Z.of_nat 0 * P) P); [lia|].
    exists None, rb. split; [done|]. split; [|done]. split; [done|]. by exists [].
  - cbn [length] in *. rewrite (proj2 (Z.geb_le _ _)) by nia.
    rewrite tail_read_ok by (done || lia || nia).
    destruct (advanceTail_block rb Ha) as [Ha' He']; [nia|].
    do 2 eexists. split; [reflexivity|]. destruct Hb as [Hb0 Hb1].
    split.
    + split; [done|]. exists bs. rewrite He', He. simpl. rewrite drop_app_length'; [done|lia].
    + unfold slice. change (Z.to_nat 0) with 0%nat. rewrite drop_0, He. cbn [concat].
      rewrite take_app_length'; [done|lia].
Qed.

(** The first packet of the queue, and the queue without it. *)
Lemma queue_head rb ws q : queue_of rb (ws :: q) ->
  (count rb >=? P) = true /\ tail_read rb 0 (Z.to_nat P) = Done (slice (elems rb) 0 (Z.to_nat P)) /\
  made_by (slice (elems rb) 0 (Z.to_nat P)) ws /\ queue_of (advanceTail rb P) q.
Proof.
  intros Hq. pose proof (queue_of_len _ _ Hq) as Hl. cbn [length] in Hl.
  destruct (step_dequeue _ _ Hq) as (r & rb' & E & Hq' & Hr). pose proof Hq as [Ha _]. simpl in Hq', Hr.
  pose proof (al_P _ Ha) as HP. unfold session_step in E.
  assert ((count rb >=? P) = true) as Ec by (rewrite count_len by apply Ha; apply Z.geb_le; nia).
  assert (tail_read rb 0 (Z.to_nat P) = Done (slice (elems rb) 0 (Z.to_nat P))) as Et.
  { rewrite tail_read_ok by (done || lia || nia). done. }
  rewrite Ec, Et in E. injection E as <- <-. done.
Qed.

(** Any aligned ring is the queue of its blocks. *)
Lemma aligned_queue rb : aligned rb -> exists q, queue_of rb q.
Proof.
  intros Ha. destruct (aligned_len _ Ha) as ([n Hn] & _). rewrite <- length_elems in Hn by apply Ha.
  pose proof (al_P _ Ha) as HP.
  assert (forall m (l : list T), Z.of_nat (length l) = Z.of_nat m * P ->
    exists bs q, l = concat bs /\ Forall2 made_by bs q) as Hc.
  { induction m as [|m IH]; intros l Hl; [exists [], []; destruct l; [by split|done]|].
    destruct (IH (drop (Z.to_nat P) l)) as (bs & q & E & Hf); [rewrite length_drop; nia|].
    exists (take (Z.to_nat P) l :: bs), ([] :: q). split; [simpl; by rewrite <- E, take_drop|]. constructor; [|done].
    split; [rewrite length_take; nia|by eexists]. }
  destruct (Hc (Z.to_nat n) (elems rb)) as (bs & q & E & Hf); [nia|].
  exists q. split; [done|]. by exists bs.
Qed.

Definition same_packet (r : option (list T)) (s : option (list (Z * T))) : Prop :=
  match r, s with
  | None, None => True
  | Some b, Some ws => made_by b ws
  | _, _ => False
  end.

Lemma session_ok rb q ops :
  queue_of rb q -> Forall op_ok ops ->
  exists rs rb', session rb ops = Done (rs, rb') /\
    queue_of rb' (spec_session q ops).2 /\ Forall2 same_packet rs (spec_session q ops).1.
Proof.
  intros Hq Hops. revert rb q Hq. induction Hops as [|o ops Ho Hops IH]; intros rb q Hq.
  { exists [], rb. simpl. done. }
  assert (exists r rb1, session_step rb o = Done (r, rb1) /\ queue_of rb1 (spec_step q o).2 /\
    same_packet r (spec_step q o).1) as (r & rb1 & E1 & Hq1 & Hs).
  { destruct o as [ws|]; [|by apply step_dequeue].
    destruct (step_enqueue rb q ws Hq Ho) as (rb1 & E1 & Hq1). by exists None, rb1. }
  destruct (IH rb1 _ Hq1) as (rs & rb2 & E2 & Hq2 & Hs2).
  exists (r :: rs), rb2. cbn [session]. rewrite E1. cbn. rewrite E2. cbn [spec_session].
  destruct (spec_step q o) as [s q1] eqn:Es. cbn [fst snd] in *.
  destruct (spec_session q1 ops). cbn [fst snd] in *.
  split; [done|]. split; [done|by constructor].
Qed.
End packets.
End ring.

(** ** The theorems *)

(** A byte session on the buffer: [push], and [fetch] guarded by [count()]. *)
Inductive byte_op (T : Type) := BPush (x : T) | BFetch.
Arguments BPush {T} x.
Arguments BFetch {T}.

Definition byte_step {T} (N : Z) (rb : RingBuffer T) (o : byte_op T) :
  outcome (option T * RingBuffer T) :=
  match o with
  | BPush x => rb ← push N rb x; mret (None, rb)
  | BFetch =>
      if count N rb >? 0 then '(x, rb) ← fetch N rb; mret (Some x, rb) else mret (None, rb)
  end.

Definition byte_spec {T} (N : Z) (q : list T) (o : byte_op T) : option T * list T :=
  match o with
  | BPush x => (None, Fifo.push (N - 1) q x)
  | BFetch => match q with [] => (None, []) | x :: q => (Some x, q) end
  end.

(** every [push] and every guarded [fetch] of the ring buffer is defined
    (no access outside the array), keeps the indices in range, and acts on the
    queued elements as a FIFO of capacity [N - 1] that drops what does not
    fit. *)
Theorem byte_step_refines {T} N (rb : RingBuffer T) (o : byte_op T) :
  rb_wf N rb ->
  exists rb', byte_step N rb o = Done ((byte_spec N (elems rb) o).1, rb') /\
    rb_wf N rb' /\ elems rb' = (byte_spec N (elems rb) o).2.
Proof.
  intros Hwf. destruct o as [x|]; simpl.
  - destruct (push_ok N rb x Hwf) as (rb' & -> & Hw & He). eauto.
  - rewrite count_len, <- length_elems by done.
    destruct (elems rb) as [|x q] eqn:E; simpl; [by eauto|].
    destruct (fetch_ok N rb x q Hwf E) as (rb' & -> & Hw & He). eauto.
Qed.

Definition demo_ring : RingBuffer Z := mkRB (replicate 4 0) 3 2.

Lemma byte_step_refines_witness :
  rb_wf 4 demo_ring /\
  exists rb', byte_step 4 demo_ring (BPush 9) =
      Done ((byte_spec 4 (elems demo_ring) (BPush 9)).1, rb') /\
    rb_wf 4 rb' /\ elems rb' = (byte_spec 4 (elems demo_ring) (BPush 9)).2.
Proof.
  assert (H : rb_wf 4 demo_ring) by (split; vm_compute; intuition congruence).
  split; [exact H|]. exact (byte_step_refines 4 demo_ring (BPush 9) H).
Defined.

(** C35: in every interleaving of the interrupt handler (write a packet at
    [head()], [advanceHead]) and the work loop (while a packet is there, read
    it at [tail()], [advanceTail]), no access leaves the array, and the
    packets come out whole, in the order they went in, the ones that arrive
    while [N / P - 1] are waiting being dropped. *)
Theorem packet_session_fifo {T} N P (rb : RingBuffer T) ops :
  queue_of N P rb [] -> Forall (op_ok P) ops ->
  exists rs rb', session N P rb ops = Done (rs, rb') /\
    queue_of N P rb' (spec_session N P [] ops).2 /\
    Forall2 (same_packet P) rs (spec_session N P [] ops).1.
Proof. apply session_ok. Qed.

Lemma packet_session_fifo_witness :
  let rb := mkRB (replicate 8 0) 0 0 in
  let ops := [Enqueue [(0, 1); (1, 2)]; Enqueue [(0, 3); (1, 4)]; Dequeue;
              Enqueue [(1, 6); (0, 5)]; Dequeue; Dequeue; Dequeue] in
  exists rs rb', session 8 2 rb ops = Done (rs, rb') /\
    queue_of 8 2 rb' (spec_session 8 2 [] ops).2 /\
    Forall2 (same_packet 2) rs (spec_session 8 2 [] ops).1.
Proof.
  apply packet_session_fifo.
  - split; [|by exists []]. split; [split; vm_compute; intuition congruence|lia| | |];
      (by exists 4) || by exists 0.
  - repeat constructor; lia.
Defined.
