(* ===== verification/PS2Defs.v ===== *)
(** * PS2Defs: constants and data of the PS/2 protocol layer

    The [#define]s and types of src/VoodooPS2Controller/ApplePS2Device.h and
    VoodooPS2Controller.h: port numbers, controller and device commands, the
    command byte, scan codes, the command primitives and the request
    structure with the union inside a command. *)

From S2P Require Import Prelude.

Definition kDP_SetMouseScaling1To1 : Z := 0xE6.
Definition kDP_SetMouseScaling2To1 : Z := 0xE7.
Definition kDP_SetMouseResolution : Z := 0xE8.
Definition kDP_GetMouseInformation : Z := 0xE9.
Definition kDP_SetMouseStreamMode : Z := 0xEA.
Definition kDP_SetKeyboardLEDs : Z := 0xED.
Definition kDP_TestKeyboardEcho : Z := 0xEE.
Definition kDP_GetSetKeyboardASCs : Z := 0xF0.
Definition kDP_GetId : Z := 0xF2.
Definition kDP_SetKeyboardTypematic : Z := 0xF3.
Definition kDP_SetMouseSampleRate : Z := 0xF3.
Definition kDP_Enable : Z := 0xF4.
Definition kDP_SetDefaultsAndDisable : Z := 0xF5.
Definition kDP_SetDefaults : Z := 0xF6.
Definition kDP_SetAllTypematic : Z := 0xF7.
Definition kDP_SetAllMakeRelease : Z := 0xF8.
Definition kDP_SetAllMakeOnly : Z := 0xF9.
Definition kDP_SetAllTypematicMakeRelease : Z := 0xFA.
Definition kDP_SetKeyMakeRelease : Z := 0xFB.
Definition kDP_SetKeyMakeOnly : Z := 0xFC.
Definition kDP_Reset : Z := 0xFF.
Definition kCP_GetCommandByte : Z := 0x20.
Definition kCP_ReadControllerRAMBase : Z := 0x21.
Definition kCP_SetCommandByte : Z := 0x60.
Definition kCP_WriteControllerRAMBase : Z := 0x61.
Definition kCP_TestPassword : Z := 0xA4.
Definition kCP_GetPassword : Z := 0xA5.
Definition kCP_VerifyPassword : Z := 0xA6.
Definition kCP_DisableMouseClock : Z := 0xA7.
Definition kCP_EnableMouseClock : Z := 0xA8.
Definition kCP_TestMousePort : Z := 0xA9.
Definition kCP_TestController : Z := 0xAA.
Definition kCP_TestKeyboardPort : Z := 0xAB.
Definition kCP_GetControllerDiagnostic : Z := 0xAC.
Definition kCP_DisableKeyboardClock : Z := 0xAD.
Definition kCP_EnableKeyboardClock : Z := 0xAE.
Definition kCP_ReadInputPort : Z := 0xC0.
Definition kCP_PollInputPortLow : Z := 0xC1.
Definition kCP_PollInputPortHigh : Z := 0xC2.
Definition kCP_ReadOutputPort : Z := 0xD0.
Definition kCP_WriteOutputPort : Z := 0xD1.
Definition kCP_WriteKeyboardOutputBuffer : Z := 0xD2.
Definition kCP_WriteMouseOutputBuffer : Z := 0xD3.
Definition kCP_TransmitToMouse : Z := 0xD4.
Definition kCP_ReadTestInputs : Z := 0xE0.
Definition kCP_PulseOutputBitBase : Z := 0xF0.
Definition kCB_EnableKeyboardIRQ : Z := 0x01.
Definition kCB_EnableMouseIRQ : Z := 0x02.
Definition kCB_SystemFlag : Z := 0x04.
Definition kCB_InhibitOverride : Z := 0x08.
Definition kCB_DisableKeyboardClock : Z := 0x10.
Definition kCB_DisableMouseClock : Z := 0x20.
Definition kCB_TranslateMode : Z := 0x40.
Definition kLED_ScrollLock : Z := 0x01.
Definition kLED_NumLock : Z := 0x02.
Definition kLED_CapsLock : Z := 0x04.
Definition kSC_Acknowledge : Z := 0xFA.
Definition kSC_Extend : Z := 0xE0.
Definition kSC_Pause : Z := 0xE1.
Definition kSC_Resend : Z := 0xFE.
Definition kSC_Reset : Z := 0xAA.
Definition kSC_UpBit : Z := 0x80.
Definition kSC_Alt : Z := 0x38.
Definition kSC_Ctrl : Z := 0x1D.
Definition kSC_ShiftLeft : Z := 0x2A.
Definition kSC_ShiftRight : Z := 0x36.
Definition kSC_WindowsLeft : Z := 0x5B.
Definition kSC_WindowsRight : Z := 0x5C.
Definition kSC_Delete : Z := 0x53.
Definition kSC_NumLock : Z := 0x45.
Definition kMaxCommands : Z := 30.
Definition kIRQ_Keyboard : Z := 1.
Definition kIRQ_Mouse : Z := 12.
Definition kDataDelay : Z := 7.
Definition kDataPort : Z := 0x60.
Definition kCommandPort : Z := 0x64.
Definition kOutputReady : Z := 0x01.
Definition kInputBusy : Z := 0x02.
Definition kSystemFlag : Z := 0x04.
Definition kMouseData : Z := 0x20.

Inductive PS2DeviceType := kDT_Keyboard | kDT_Mouse.
Inductive PS2InterruptResult := kPS2IR_packetReady | kPS2IR_packetBuffering.

#[export] Instance PS2DeviceType_eq : EqDecision PS2DeviceType.
Proof. solve_decision. Defined.
#[export] Instance PS2InterruptResult_eq : EqDecision PS2InterruptResult.
Proof. solve_decision. Defined.

Definition other_device (d : PS2DeviceType) : PS2DeviceType :=
  match d with kDT_Keyboard => kDT_Mouse | kDT_Mouse => kDT_Keyboard end.

Definition is_kbd (d : PS2DeviceType) : bool :=
  match d with kDT_Keyboard => true | kDT_Mouse => false end.
Definition is_mouse (d : PS2DeviceType) : bool := negb (is_kbd d).

(** Values of [whatToDo] handed to power control actions. *)
Definition kPS2C_DisableDevice : Z := 0.
Definition kPS2C_EnableDevice : Z := 1.

Inductive PS2CommandEnum :=
| kPS2C_ReadDataPort
| kPS2C_ReadDataPortAndCompare
| kPS2C_WriteDataPort
| kPS2C_WriteCommandPort
| kPS2C_SendMouseCommandAndCompareAck
| kPS2C_ReadMouseDataPort
| kPS2C_ReadMouseDataPortAndCompare
| kPS2C_FlushDataPort
| kPS2C_SleepMS
| kPS2C_ModifyCommandByte.

#[export] Instance PS2CommandEnum_eq : EqDecision PS2CommandEnum.
Proof. solve_decision. Defined.

(** A command: the primitive and the four bytes of the union
    [{ UInt8 inOrOut; UInt32 inOrOut32; struct { UInt8 setBits, clearBits,
    oldBits; } }], little endian, so the members alias as they do in C. *)
Record PS2Command := mkCommand {
  command : PS2CommandEnum;
  inOrOut32 : Z;
}.
#[export] Instance PS2Command_eta : Settable PS2Command := mkSettable _ (fun c => mkCommand (command c) (inOrOut32 c)).

Definition union_byte (k : Z) (c : PS2Command) : Z := u8 (Z.shiftr (inOrOut32 c) (8 * k)).
Definition set_union_byte (k v : Z) (c : PS2Command) : PS2Command :=
  c <| inOrOut32 := Z.lor (Z.ldiff (inOrOut32 c) (Z.shiftl 255 (8 * k))) (Z.shiftl (u8 v) (8 * k)) |>.

Definition inOrOut : PS2Command -> Z := union_byte 0.
Definition setBits : PS2Command -> Z := union_byte 0.
Definition clearBits : PS2Command -> Z := union_byte 1.
Definition oldBits : PS2Command -> Z := union_byte 2.
Definition set_inOrOut : Z -> PS2Command -> PS2Command := set_union_byte 0.
Definition set_setBits : Z -> PS2Command -> PS2Command := set_union_byte 0.
Definition set_clearBits : Z -> PS2Command -> PS2Command := set_union_byte 1.
Definition set_oldBits : Z -> PS2Command -> PS2Command := set_union_byte 2.

(** A freshly filled command, [commands[i].command = e; commands[i].inOrOut = v]. *)
Definition cmd (e : PS2CommandEnum) (v : Z) : PS2Command := mkCommand e (u8 v).

(** [completionTarget]: null, the marker of stack-allocated requests, or an
    object (by its identity). *)
Inductive CompletionTarget :=
| NullTarget
| kStackCompletionTarget
| Target (obj : positive).

Record PS2Request := mkRequest {
  commandsCount : Z;
  completionTarget : CompletionTarget;
  completionAction : option positive;
  completionParam : Z;
  commands : list PS2Command;
}.
#[export] Instance PS2Request_eta : Settable PS2Request := mkSettable _ (fun r => mkRequest (commandsCount r) (completionTarget r) (completionAction r)
             (completionParam r) (commands r)).

(** [TPS2Request<n>] on the stack with its commands filled in. *)
Definition stack_request (cs : list PS2Command) : PS2Request :=
  mkRequest (Z.of_nat (length cs)) kStackCompletionTarget None 0 cs.

(** [allocateRequest(n)] with its commands filled in and no completion. *)
Definition heap_request (cs : list PS2Command) : PS2Request :=
  mkRequest (Z.of_nat (length cs)) NullTarget None 0 cs.

(** ** The aliasing of the union *)

Lemma union_byte_range k c : is_u8 (union_byte k c).
Proof. apply u8_range. Qed.

Lemma union_byte_testbit k c n : 0 <= k -> 0 <= n ->
  Z.testbit (union_byte k c) n = (n <? 8) && Z.testbit (inOrOut32 c) (n + 8 * k).
Proof.
  intros Hk Hn. unfold union_byte, u8. change 256 with (2 ^ 8).
  destruct (Z.ltb_spec n 8); simpl.
  - rewrite Z.mod_pow2_bits_low by lia. by rewrite Z.shiftr_spec by lia.
  - by rewrite Z.mod_pow2_bits_high by lia.
Qed.

Lemma byte_testbit_high v n : 8 <= n -> Z.testbit (u8 v) n = false.
Proof. intros. unfold u8. change 256 with (2 ^ 8). apply Z.mod_pow2_bits_high. lia. Qed.

Lemma mask_testbit k n : 0 <= k -> 0 <= n ->
  Z.testbit (Z.shiftl 255 (8 * k)) n = (8 * k <=? n) && (n <? 8 * k + 8).
Proof.
  intros Hk Hn. rewrite Z.shiftl_spec by lia. change 255 with (Z.ones 8).
  destruct (Z.leb_spec (8 * k) n); simpl.
  - destruct (Z.ltb_spec n (8 * k + 8)).
    + apply Z.ones_spec_low. lia.
    + apply Z.ones_spec_high. lia.
  - apply Z.testbit_neg_r. lia.
Qed.

Lemma union_byte_set k j v c :
  0 <= k -> 0 <= j ->
  union_byte j (set_union_byte k v c) = if k =? j then u8 v else union_byte j c.
Proof.
  intros Hk Hj. apply Z.bits_inj'. intros n Hn.
  rewrite union_byte_testbit by done. unfold set_union_byte; simpl.
  rewrite Z.lor_spec, Z.ldiff_spec, mask_testbit, Z.shiftl_spec by lia.
  destruct (Z.eqb_spec k j) as [->|Hne].
  - destruct (Z.ltb_spec n 8); simpl.
    + rewrite (proj2 (Z.leb_le _ _)), (proj2 (Z.ltb_lt _ _)) by lia. simpl.
      rewrite andb_false_r. simpl. f_equal. lia.
    + by rewrite byte_testbit_high by lia.
  - rewrite union_byte_testbit by done. destruct (Z.ltb_spec n 8); simpl; [|done].
    assert (Z.testbit (u8 v) (n + 8 * j - 8 * k) = false) as ->.
    { destruct (Z.lt_ge_cases k j).
      - apply byte_testbit_high. lia.
      - apply Z.testbit_neg_r. lia. }
    rewrite orb_false_r.
    destruct (Z.leb_spec (8 * k) (n + 8 * j)), (Z.ltb_spec (n + 8 * j) (8 * k + 8)); simpl;
      rewrite ?andb_true_r; try done. lia.
Qed.

Lemma inOrOut_cmd e v : inOrOut (cmd e v) = u8 v.
Proof.
  unfold inOrOut, union_byte, cmd; simpl. rewrite Z.shiftr_0_r. apply u8_id, u8_range.
Qed.
