(* ===== verification/PortIO.v ===== *)
(** * PortIO: the I/O ports the controller driver talks to

    The 8042 chip and the kernel's [inb]/[outb]/[IODelay] are not part of the
    repository: they are a type [H] of hardware states with the operations of
    [PortIO].  What a run needs of the hardware is said with the relations
    below: which status and data byte the chip presents after how many polls
    ([presents], [stream]), that it stays silent ([silent]), that its input
    buffer drains ([accepts]).  [Chip] is an executable 8042 with a command
    byte, used to run the model on concrete inputs. *)

From S2P Require Import Prelude PS2Defs.

Class PortIO (H : Type) := {
  inb : Z -> H -> Z * H;
  outb : Z -> Z -> H -> H;
  IODelay : Z -> H -> H;
  IOSleep : Z -> H -> H;
}.

Section relations.
  Context {H : Type} `{PortIO H}.

(** After [n] polls without data the status register reads [st] with
    [kOutputReady] set and the data register then reads [b]. *)
Inductive presents : H -> nat -> Z -> Z -> H -> Prop :=
| presents_now h st h1 b h2 :
    inb kCommandPort h = (st, h1) -> anyset (u8 st) kOutputReady = true ->
    inb kDataPort (IODelay kDataDelay h1) = (b, h2) ->
    presents h 0 (u8 st) (u8 b) h2
| presents_later h st h1 n st' b h2 :
    inb kCommandPort h = (st, h1) -> anyset (u8 st) kOutputReady = false ->
    presents (IODelay kDataDelay h1) n st' b h2 ->
    presents h (S n) st' b h2.

(** [n] polls in a row find no data. *)
Inductive silent : nat -> H -> H -> Prop :=
| silent_O h : silent 0 h h
| silent_S n h st h1 h2 :
    inb kCommandPort h = (st, h1) -> anyset (u8 st) kOutputReady = false ->
    silent n (IODelay kDataDelay h1) h2 -> silent (S n) h h2.

(** The chip presents these bytes one after the other. *)
Record item := mkItem { polls : nat; status : Z; byte : Z }.

Inductive stream : H -> list item -> H -> Prop :=
| stream_nil h : stream h [] h
| stream_cons h it h1 l h2 :
    presents h (polls it) (status it) (byte it) h1 -> stream h1 l h2 ->
    stream h (it :: l) h2.

(** The input buffer is busy for [n] polls and then accepts a byte in [h']. *)
Inductive accepts : nat -> H -> H -> Prop :=
| accepts_now h st h1 :
    inb kCommandPort h = (st, h1) -> anyset (u8 st) kInputBusy = false ->
    accepts 0 h (IODelay kDataDelay h1)
| accepts_later n h st h1 h2 :
    inb kCommandPort h = (st, h1) -> anyset (u8 st) kInputBusy = true ->
    accepts n (IODelay kDataDelay h1) h2 -> accepts (S n) h h2.

(** The byte of an item arrived on the stream of [d]. *)
Definition on_stream (d : PS2DeviceType) (it : item) : bool :=
  Bool.eqb (anyset (status it) kMouseData) (is_mouse d).

Definition total_polls (l : list item) : nat := list_sum (polls <$> l).

Lemma presents_byte h n st b h' : presents h n st b h' -> is_u8 b.
Proof. induction 1; auto with ps2. Qed.
End relations.

(** ** The command byte

    What the data sheet of the 8042 says of commands 0x20 and 0x60, for a chip
    with no other traffic: the first answers with the command byte on the
    keyboard stream, the second stores the next data byte in it. *)
Class CommandByteLaws (H : Type) `{PortIO H} := {
  cb_of : H -> Z;
  quiet : H -> Prop;
  busy_bound : nat;
  cb_u8 : forall h, quiet h -> is_u8 (cb_of h);
  cb_get : forall h, quiet h -> exists n h1 k st h2,
    (n < busy_bound)%nat /\ accepts n h h1 /\ Z.of_nat k < 10000 /\
    presents (outb kCommandPort kCP_GetCommandByte h1) k st (cb_of h) h2 /\
    anyset st kMouseData = false /\ quiet h2 /\ cb_of h2 = cb_of h;
  cb_set : forall h v, quiet h -> is_u8 v -> exists n h1 m h2,
    (n < busy_bound)%nat /\ accepts n h h1 /\
    (m < busy_bound)%nat /\ accepts m (outb kCommandPort kCP_SetCommandByte h1) h2 /\
    quiet (outb kDataPort v h2) /\ cb_of (outb kDataPort v h2) = v;
}.

(** ** An executable 8042

    The output buffer is a list of bytes, each with the number of polls it
    stays invisible; [pending] is a command waiting for its parameter. *)
Module Chip.

Record chip := mkChip {
  cmdbyte : Z;
  outbuf : list (nat * bool * Z);    (* polls left, from the mouse, byte *)
  pending : option Z;
  busy : nat;                         (* polls until the input buffer drains *)
  to_kbd : list Z;                    (* bytes sent to the keyboard *)
  to_mouse : list Z;                  (* bytes sent to the mouse *)
  answers : bool;                     (* do the devices acknowledge? *)
}.
#[global] Instance chip_eta : Settable chip := mkSettable _ (fun c => mkChip (cmdbyte c) (outbuf c) (pending c) (busy c) (to_kbd c) (to_mouse c) (answers c)).

Definition status_of (c : chip) : Z :=
  Z.lor (match outbuf c with
         | (O, m, _) :: _ => if m then Z.lor kOutputReady kMouseData else kOutputReady
         | _ => 0
         end)
        (match busy c with O => 0 | S _ => kInputBusy end).

Definition tick (c : chip) : chip :=
  c <| busy := pred (busy c) |>
    <| outbuf := match outbuf c with (S n, m, b) :: l => (n, m, b) :: l | l => l end |>.

Definition chip_inb (p : Z) (c : chip) : Z * chip :=
  if p =? kCommandPort then (status_of c, tick c)
  else match outbuf c with
       | (O, _, b) :: l => (b, c <| outbuf := l |>)
       | _ => (0, c)
       end.

Definition answer (m : bool) (b : Z) (c : chip) : chip := c <| outbuf := outbuf c ++ [(1%nat, m, b)] |>.

Definition chip_outb (p v : Z) (c : chip) : chip :=
  if p =? kCommandPort then
    if v =? kCP_GetCommandByte then answer false (cmdbyte c) c
    else if v =? kCP_SetCommandByte then c <| pending := Some v |>
    else if v =? kCP_TransmitToMouse then c <| pending := Some v |>
    else if v =? kCP_DisableMouseClock then c <| cmdbyte := Z.lor (cmdbyte c) kCB_DisableMouseClock |>
    else if v =? kCP_EnableMouseClock then c <| cmdbyte := clear (cmdbyte c) kCB_DisableMouseClock |>
    else if v =? kCP_DisableKeyboardClock then c <| cmdbyte := Z.lor (cmdbyte c) kCB_DisableKeyboardClock |>
    else if v =? kCP_EnableKeyboardClock then c <| cmdbyte := clear (cmdbyte c) kCB_DisableKeyboardClock |>
    else if v =? kCP_TestController then answer false 0x55 c
    else if v =? kCP_TestKeyboardPort then answer false 0 c
    else if v =? kCP_TestMousePort then answer false 0 c
    else c
  else match pending c with
       | Some k =>
           let c := c <| pending := None |> in
           if k =? kCP_SetCommandByte then c <| cmdbyte := u8 v |>
           else let c := c <| to_mouse := to_mouse c ++ [v] |> in
                if answers c then answer true kSC_Acknowledge c else c
       | None =>
           let c := c <| to_kbd := to_kbd c ++ [v] |> in
           if answers c then answer false kSC_Acknowledge c else c
       end.

#[global] Instance chip_io : PortIO chip := {|
  inb := chip_inb;
  outb := chip_outb;
  IODelay := fun _ c => c;
  IOSleep := fun _ c => c;
|}.

(** A chip at rest: command byte [cb], nothing pending. *)
Definition idle (cb : Z) : chip := mkChip cb [] None 0 [] [] true.

Definition at_rest (c : chip) : Prop :=
  outbuf c = [] /\ pending c = None /\ busy c = O /\ is_u8 (cmdbyte c).

Lemma rest_accepts c : outbuf c = [] -> busy c = O -> accepts 0 c c.
Proof.
  destruct c as [? o p b ? ? ?]; simpl; intros -> ->.
  refine (accepts_now (H := chip) _ 0 _ _ _); reflexivity.
Qed.

(** What the chip presents when its buffer holds bytes that are visible. *)
Definition stat (m : bool) : Z := if m then 0x21 else 0x01.

Lemma chip_presents cb m b l tk tm an :
  is_u8 b ->
  presents (mkChip cb ((O, m, b) :: l) None 0 tk tm an) 0 (stat m) b (mkChip cb l None 0 tk tm an).
Proof.
  intros Hb. rewrite <- (u8_id b Hb) at 2. replace (stat m) with (u8 (stat m)) by (by destruct m).
  refine (presents_now (H := chip) _ (stat m) (mkChip cb ((O, m, b) :: l) None 0 tk tm an) b _ _ _ _);
    by destruct m.
Qed.

Lemma chip_stream cb l tk tm an :
  Forall (fun mb => is_u8 mb.2) l ->
  stream (mkChip cb ((fun mb => (O, mb.1, mb.2)) <$> l) None 0 tk tm an)
    ((fun mb => mkItem 0 (stat mb.1) mb.2) <$> l) (mkChip cb [] None 0 tk tm an).
Proof.
  induction 1 as [|[m b] l Hb Hl IH]; [constructor|]. simpl. econstructor; [|exact IH].
  by apply chip_presents.
Qed.

Lemma chip_silent n c : outbuf c = [] -> busy c = O -> silent n c c.
Proof.
  destruct c as [? o p bz ? ? ?]; simpl; intros -> ->. induction n as [|n IH]; [constructor|].
  refine (silent_S (H := chip) _ _ 0 _ _ _ _ IH); reflexivity.
Qed.

#[global] Program Instance chip_laws : CommandByteLaws chip := {|
  cb_of := cmdbyte;
  quiet := at_rest;
  busy_bound := 1;
|}.
Next Obligation. intros c (_ & _ & _ & ?). done. Qed.
Next Obligation.
  intros [cb o p b tk tm an] (Ho & Hp & Hb & Hc); simpl in *; subst.
  exists O, (mkChip cb [] None 0 tk tm an), 1%nat, kOutputReady, (mkChip cb [] None 0 tk tm an).
  split; [lia|]. split; [by apply rest_accepts|]. split; [lia|].
  split; [|done].
  rewrite <- (u8_id cb Hc) at 2.
  refine (presents_later (H := chip) _ 0 (mkChip cb [(O, false, cb)] None 0 tk tm an) _ _ _ _ _ _ _);
    [reflexivity|reflexivity|].
  refine (presents_now (H := chip) _ 1 (mkChip cb [(O, false, cb)] None 0 tk tm an) cb _ _ _ _);
    reflexivity.
Qed.
Next Obligation.
  intros [cb o p b tk tm an] v (Ho & Hp & Hb & Hc) Hv; simpl in *; subst.
  do 2 eexists; exists O; eexists.
  split; [|split; [by apply rest_accepts|split; [|split; [by apply rest_accepts|]]]]; [lia|lia|].
  unfold at_rest; simpl. rewrite u8_id by done. done.
Qed.
End Chip.
