(* ===== verification/Controller.v ===== *)
(** * Controller: ApplePS2Controller

    The state and the member functions of ApplePS2Controller
    (src/VoodooPS2Controller/VoodooPS2Controller.cpp) that talk to the 8042
    and to the device drivers: port access with its timeouts, the
    out-of-order correction, command requests and their queue, interrupt
    dispatch, the installation of driver actions, and the power state
    machine.  Compile-time switches are those of the header:
    DEBUGGER_SUPPORT 0, WATCHDOG_TIMER 0, HANDLE_INTERRUPT_DATA_LATER 0,
    OUT_OF_ORDER_DATA_CORRECTION_FEATURE 1, NEWIRQ undefined.

    The drivers are reached through function pointers; an action is known by
    an identifier and what calling it does is a parameter ([callInterrupt]
    and friends).  [fuel] bounds the loops the source leaves unbounded. *)

From S2P Require Import Prelude PS2Defs PortIO.

(** ** State *)

Record ApplePS2Controller := mkController {
  _workLoop : bool;
  _cmdGate : bool;
  _interruptSourceKeyboard : bool;
  _interruptSourceMouse : bool;
  _interruptSourceQueue : bool;
  _requestQueue : list PS2Request;
  _requestQueueLock : bool;
  _interruptTargetKeyboard : option positive;
  _interruptTargetMouse : option positive;
  _interruptActionKeyboard : option positive;
  _interruptActionMouse : option positive;
  _packetActionKeyboard : option positive;
  _packetActionMouse : option positive;
  _interruptInstalledKeyboard : bool;
  _interruptInstalledMouse : bool;
  _powerControlTargetKeyboard : option positive;
  _powerControlTargetMouse : option positive;
  _powerControlActionKeyboard : option positive;
  _powerControlActionMouse : option positive;
  _powerControlInstalledKeyboard : bool;
  _powerControlInstalledMouse : bool;
  _ignoreInterrupts : Z;
  _ignoreOutOfOrder : Z;
  _mouseDevice : bool;
  _keyboardDevice : bool;
  _publishNotify : option positive;
  _terminateNotify : option positive;
  _notificationServices : list positive;
  _currentPowerState : Z;
  _hardwareOffline : bool;
  _suppressTimeout : bool;
  _wakedelay : Z;
  _mouseWakeFirst : bool;
}.
#[export] Instance ApplePS2Controller_eta : Settable ApplePS2Controller := mkSettable _ (fun c =>
  mkController (_workLoop c) (_cmdGate c) (_interruptSourceKeyboard c) (_interruptSourceMouse c)
    (_interruptSourceQueue c) (_requestQueue c) (_requestQueueLock c)
    (_interruptTargetKeyboard c) (_interruptTargetMouse c)
    (_interruptActionKeyboard c) (_interruptActionMouse c)
    (_packetActionKeyboard c) (_packetActionMouse c)
    (_interruptInstalledKeyboard c) (_interruptInstalledMouse c)
    (_powerControlTargetKeyboard c) (_powerControlTargetMouse c)
    (_powerControlActionKeyboard c) (_powerControlActionMouse c)
    (_powerControlInstalledKeyboard c) (_powerControlInstalledMouse c)
    (_ignoreInterrupts c) (_ignoreOutOfOrder c) (_mouseDevice c) (_keyboardDevice c)
    (_publishNotify c) (_terminateNotify c) (_notificationServices c)
    (_currentPowerState c) (_hardwareOffline c) (_suppressTimeout c) (_wakedelay c)
    (_mouseWakeFirst c)).

Definition kPS2PowerStateSleep : Z := 0.
Definition kPS2PowerStateDoze : Z := 1.
Definition kPS2PowerStateNormal : Z := 2.

(** [ApplePS2Controller::init]: the fields it sets; IOKit hands out zeroed
    memory, so [_hardwareOffline], which it does not set, is false. *)
Definition init : ApplePS2Controller := {|
  _workLoop := false; _cmdGate := false;
  _interruptSourceKeyboard := false; _interruptSourceMouse := false;
  _interruptSourceQueue := false;
  _requestQueue := []; _requestQueueLock := false;
  _interruptTargetKeyboard := None; _interruptTargetMouse := None;
  _interruptActionKeyboard := None; _interruptActionMouse := None;
  _packetActionKeyboard := None; _packetActionMouse := None;
  _interruptInstalledKeyboard := false; _interruptInstalledMouse := false;
  _powerControlTargetKeyboard := None; _powerControlTargetMouse := None;
  _powerControlActionKeyboard := None; _powerControlActionMouse := None;
  _powerControlInstalledKeyboard := false; _powerControlInstalledMouse := false;
  _ignoreInterrupts := 0; _ignoreOutOfOrder := 0;
  _mouseDevice := false; _keyboardDevice := false;
  _publishNotify := None; _terminateNotify := None; _notificationServices := [];
  _currentPowerState := kPS2PowerStateNormal;
  _hardwareOffline := false; _suppressTimeout := false;
  _wakedelay := 10; _mouseWakeFirst := false;
|}.

(** Messages between the keyboard and the pointing device drivers. *)
Inductive PS2Message :=
| kPS2M_setDisableTouchpad
| kPS2M_getDisableTouchpad
| kPS2M_notifyKeyPressed
| kPS2M_swipeDown
| kPS2M_swipeUp
| kPS2M_swipeLeft
| kPS2M_swipeRight
| kPS2M_notifyKeyTime.

#[export] Instance PS2Message_eq : EqDecision PS2Message.
Proof. solve_decision. Defined.

Record PS2KeyInfo := mkKeyInfo {
  time : Z;
  adbKeyCode : Z;
  goingDown : bool;
  eatKey : bool;
}.
#[export] Instance PS2KeyInfo_eta : Settable PS2KeyInfo := mkSettable _ (fun i => mkKeyInfo (time i) (adbKeyCode i) (goingDown i) (eatKey i)).

(** What the [void* data] of a message points to. *)
Inductive Payload :=
| NoData
| PBool (b : bool)
| PTime (t : Z)
| PKeyInfo (i : PS2KeyInfo).

(** What the controller does that neither the ports nor the drivers see. *)
Inductive Event :=
| EvSignal (d : PS2DeviceType)       (* _interruptSource{Mouse,Keyboard}->interruptOccurred *)
| EvSignalQueue                      (* _interruptSourceQueue->interruptOccurred *)
| EvLogTimeout (d : PS2DeviceType)   (* IOLog: timed out on the input stream *)
| EvFreeRequest (r : PS2Request)
| EvComplete (r : PS2Request)        (* completion routine invoked *)
| EvAddSource (d : PS2DeviceType)
| EvRemoveSource (d : PS2DeviceType)
| EvRegisterInterrupt (irq : Z)
| EvEnableInterrupt (irq : Z)
| EvDisableInterrupt (irq : Z)
| EvUnregisterInterrupt (irq : Z)
| EvRetain (obj : option positive)
| EvRelease (obj : option positive)
| EvBadPowerState (p : Z)
| EvAcknowledgeSetPowerState.

Record World (H D : Type) := mkWorld {
  ctl : ApplePS2Controller;
  hw : H;
  drv : D;                   (* the state of the drivers *)
  int_enabled : bool;        (* the processor's interrupt flag *)
  evs : list Event;          (* oldest first *)
}.
Arguments mkWorld {H D} _ _ _ _ _.
Arguments ctl {H D} _.
Arguments hw {H D} _.
Arguments drv {H D} _.
Arguments int_enabled {H D} _.
Arguments evs {H D} _.
#[export] Instance World_eta H D : Settable (World H D) := mkSettable _ (fun w => mkWorld (ctl w) (hw w) (drv w) (int_enabled w) (evs w)).

Section controller.
  Context {H D : Type} `{PortIO H}.
  Abbreviation W := (World H D).
  Notation "'prog' A" := (M W A) (at level 10, A at next level).

  (** The actions behind the function pointers. *)
  Context (callInterrupt : positive -> option positive -> Z -> D -> PS2InterruptResult * D).
  Context (callPacket : positive -> option positive -> prog unit).
  Context (callPower : positive -> option positive -> Z -> prog unit).
  Context (callCompletion : positive -> positive -> PS2Request -> prog unit).
  Context (callMessage : positive -> PS2Message -> Payload -> prog Payload).
  Context (fuel : nat).

(** *** Ports *)

Definition emit (e : Event) : prog unit := modify (fun w => w <| evs := evs w ++ [e] |>).

Definition inb_ (p : Z) : prog Z :=
  fun w => let '(v, h) := inb p (hw w) in Done (u8 v, w <| hw := h |>).
Definition outb_ (p v : Z) : prog unit := modify (fun w => w <| hw := outb p v (hw w) |>).
Definition delay : prog unit := modify (fun w => w <| hw := IODelay kDataDelay (hw w) |>).
Definition sleep_ (ms : Z) : prog unit := modify (fun w => w <| hw := IOSleep ms (hw w) |>).
Definition getc {A} (f : ApplePS2Controller -> A) : prog A := gets (fun w => f (ctl w)).
Definition setc (f : ApplePS2Controller -> ApplePS2Controller) : prog unit :=
  modify (fun w => w <| ctl := f (ctl w) |>).

(** [while (inb(kCommandPort) & kInputBusy) IODelay(kDataDelay); IODelay(kDataDelay);] *)
Fixpoint wait_not_busy (n : nat) : prog unit :=
  match n with
  | O => nofuel
  | S n => st ← inb_ kCommandPort;
           if anyset st kInputBusy then delay;; wait_not_busy n else delay
  end.

Definition writeDataPort (byte : Z) : prog unit :=
  wait_not_busy fuel;; outb_ kDataPort byte.

Definition writeCommandPort (byte : Z) : prog unit :=
  wait_not_busy fuel;; outb_ kCommandPort byte.

(** *** Dispatch of a received byte to the drivers *)

Definition call_interrupt (act : option positive) (tgt : option positive) (data : Z)
  : prog PS2InterruptResult :=
  match act with
  | None => undef                     (* call through a null pointer *)
  | Some a => fun w => let '(r, d) := callInterrupt a tgt data (drv w) in
                       Done (r, w <| drv := d |>)
  end.

Definition _dispatchDriverInterrupt (deviceType : PS2DeviceType) (data : Z)
  : prog PS2InterruptResult :=
  c ← getc id;
  if is_mouse deviceType && _interruptInstalledMouse c then
    call_interrupt (_interruptActionMouse c) (_interruptTargetMouse c) data
  else if is_kbd deviceType && _interruptInstalledKeyboard c then
    call_interrupt (_interruptActionKeyboard c) (_interruptTargetKeyboard c) data
  else mret kPS2IR_packetBuffering.

Definition source_of (d : PS2DeviceType) (c : ApplePS2Controller) : bool :=
  match d with
  | kDT_Keyboard => _interruptSourceKeyboard c
  | kDT_Mouse => _interruptSourceMouse c
  end.

(** [_interruptSourceX->interruptOccurred(0, 0, 0)] *)
Definition signal (d : PS2DeviceType) : prog unit :=
  s ← getc (source_of d);
  if s : bool then emit (EvSignal d) else undef.

Definition dispatchDriverInterrupt (deviceType : PS2DeviceType) (data : Z) : prog unit :=
  result ← _dispatchDriverInterrupt deviceType data;
  match result with
  | kPS2IR_packetReady => signal deviceType
  | kPS2IR_packetBuffering => mret tt
  end.

(** *** Reading *)

Definition timeoutCounter0 : nat := Z.to_nat 10000.

(** [while (timeoutCounter && !((status = inb(kCommandPort)) & kOutputReady))
    { timeoutCounter--; IODelay(kDataDelay); }] *)
Fixpoint wait_ready (timeoutCounter : nat) (status : Z) : prog (nat * Z) :=
  match timeoutCounter with
  | O => mret (O, status)
  | S n => status ← inb_ kCommandPort;
           if anyset status kOutputReady then mret (S n, status)
           else delay;; wait_ready n status
  end.

Fixpoint readDataPort_loop (n : nat) (deviceType : PS2DeviceType) (timeoutCounter : nat)
  : prog Z :=
  match n with
  | O => nofuel
  | S n =>
      '(timeoutCounter, status) ← wait_ready timeoutCounter 0;
      match timeoutCounter with
      | O =>
          suppress ← getc _suppressTimeout;
          when (negb suppress) (emit (EvLogTimeout deviceType));;
          mret 0
      | S _ =>
          delay;;
          readByte ← inb_ kDataPort;
          suppress ← getc _suppressTimeout;
          if suppress : bool then mret readByte
          else if anyset status kMouseData && is_mouse deviceType then mret readByte
          else if negb (anyset status kMouseData) && is_kbd deviceType then mret readByte
          else
            dispatchDriverInterrupt (other_device deviceType) readByte;;
            readDataPort_loop n deviceType timeoutCounter
      end
  end.

Definition readDataPort (deviceType : PS2DeviceType) : prog Z :=
  readDataPort_loop fuel deviceType timeoutCounter0.

(** [readDataPort(deviceType, expectedByte)]; [held] is
    [firstByteHeld]/[firstByte]. *)
Fixpoint readDataPortExpect_loop (n : nat) (deviceType : PS2DeviceType) (expectedByte : Z)
  (timeoutCounter : nat) (held : option Z) : prog Z :=
  match n with
  | O => nofuel
  | S n =>
      '(timeoutCounter, status) ← wait_ready timeoutCounter 0;
      match timeoutCounter with
      | O =>
          match held with
          | Some firstByte => mret firstByte
          | None => emit (EvLogTimeout deviceType);; mret 0
          end
      | S _ =>
          delay;;
          readByte ← inb_ kDataPort;
          ignore ← getc _ignoreOutOfOrder;
          let requestedStream :=
            if anyset status kMouseData then is_mouse deviceType else is_kbd deviceType in
          if requestedStream then
            if readByte =? expectedByte then
              match held with
              | None => mret readByte
              | Some firstByte =>
                  when (ignore =? 0) (dispatchDriverInterrupt deviceType firstByte);;
                  mret readByte
              end
            else
              match held with
              | None => readDataPortExpect_loop n deviceType expectedByte timeoutCounter (Some readByte)
              | Some firstByte =>
                  when (ignore =? 0) (dispatchDriverInterrupt deviceType readByte);;
                  mret firstByte
              end
          else
            when (ignore =? 0) (dispatchDriverInterrupt (other_device deviceType) readByte);;
            readDataPortExpect_loop n deviceType expectedByte timeoutCounter held
      end
  end.

Definition readDataPortExpect (deviceType : PS2DeviceType) (expectedByte : Z) : prog Z :=
  readDataPortExpect_loop fuel deviceType expectedByte timeoutCounter0 None.

(** [while (inb(kCommandPort) & kOutputReady) { ...; inb(kDataPort); ... }],
    counting the bytes thrown away. *)
Fixpoint flush (n : nat) (count : Z) : prog Z :=
  match n with
  | O => nofuel
  | S n =>
      st ← inb_ kCommandPort;
      if anyset st kOutputReady then
        delay;; inb_ kDataPort;; delay;; flush n (u32 (count + 1))
      else mret count
  end.

(** *** Requests *)

Record CmdState := mkCmdState {
  deviceMode : PS2DeviceType;
  transmitToMouse : bool;
}.

(** One iteration of the [switch] of [processRequest]: the command with its
    in/out fields updated, the mode variables, and [failed]. *)
Definition exec_command (c : PS2Command) (s : CmdState) : prog (PS2Command * CmdState * bool) :=
  match command c with
  | kPS2C_ReadDataPort =>
      byte ← readDataPort (deviceMode s);
      mret (set_inOrOut byte c, s, false)
  | kPS2C_ReadDataPortAndCompare =>
      byte ← readDataPortExpect (deviceMode s) (inOrOut c);
      mret (set_inOrOut byte c, s, negb (byte =? inOrOut c))
  | kPS2C_WriteDataPort =>
      writeDataPort (inOrOut c);;
      mret (c, if transmitToMouse s then mkCmdState kDT_Mouse false
               else mkCmdState kDT_Keyboard (transmitToMouse s), false)
  | kPS2C_WriteCommandPort =>
      writeCommandPort (inOrOut c);;
      mret (c, if inOrOut c =? kCP_TransmitToMouse then mkCmdState (deviceMode s) true else s, false)
  | kPS2C_SendMouseCommandAndCompareAck =>
      writeCommandPort kCP_TransmitToMouse;;
      writeDataPort (inOrOut c);;
      byte ← readDataPortExpect kDT_Mouse kSC_Acknowledge;
      mret (c, mkCmdState kDT_Mouse (transmitToMouse s), negb (byte =? kSC_Acknowledge))
  | kPS2C_ReadMouseDataPort =>
      byte ← readDataPort kDT_Mouse;
      mret (set_inOrOut byte c, mkCmdState kDT_Mouse (transmitToMouse s), false)
  | kPS2C_ReadMouseDataPortAndCompare =>
      byte ← readDataPortExpect kDT_Mouse (inOrOut c);
      mret (c, mkCmdState kDT_Mouse (transmitToMouse s), negb (byte =? inOrOut c))
  | kPS2C_FlushDataPort =>
      n ← flush fuel 0;
      mret (c <| inOrOut32 := n |>, s, false)
  | kPS2C_SleepMS =>
      sleep_ (inOrOut32 c);;
      mret (c, s, false)
  | kPS2C_ModifyCommandByte =>
      writeCommandPort kCP_GetCommandByte;;
      commandByte ← readDataPort kDT_Keyboard;
      writeCommandPort kCP_SetCommandByte;;
      writeDataPort (clear (Z.lor commandByte (setBits c)) (clearBits c));;
      mret (set_oldBits commandByte c, s, false)
  end.

(** [for (index = ...; index < commandsCount; index++)], [k] iterations left. *)
Fixpoint commands_loop (k : nat) (index : Z) (s : CmdState) (r : PS2Request)
  : prog (bool * Z * PS2Request) :=
  match k with
  | O => mret (false, index, r)
  | S k =>
      c ← lift (aget (commands r) index);
      '(c', s', failed) ← exec_command c s;
      cs ← lift (aset (commands r) index c');
      let r := r <| commands := cs |> in
      if failed : bool then mret (true, index, r) else commands_loop k (index + 1) s' r
  end.

(** The tail of [processRequest], after the label [hardware_offline]. *)
Definition finish_request (failed : bool) (index : Z) (r : PS2Request) : prog PS2Request :=
  let r := if failed then r <| commandsCount := u8 index |> else r in
  match completionTarget r, completionAction r with
  | Target t, Some a => emit (EvComplete r);; callCompletion a t r;; mret r
  | kStackCompletionTarget, _ => mret r
  | _, _ => emit (EvFreeRequest r);; mret r
  end.

Definition processRequest (r : PS2Request) : prog PS2Request :=
  offline ← getc _hardwareOffline;
  if offline : bool then finish_request true 0 r
  else
    setc (fun c => c <| _ignoreInterrupts := s32 (_ignoreInterrupts c + 1) |>);;
    '(failed, index, r) ←
      commands_loop (Z.to_nat (commandsCount r)) 0 (mkCmdState kDT_Keyboard false) r;
    setc (fun c => c <| _ignoreInterrupts := s32 (_ignoreInterrupts c - 1) |>);;
    finish_request failed index r.

(** [IOLockLock(_requestQueueLock)] needs the lock to exist. *)
Definition lockQueue : prog unit :=
  l ← getc _requestQueueLock; if l : bool then mret tt else undef.

Definition processRequestQueue : prog unit :=
  lockQueue;;
  localQueue ← getc _requestQueue;
  setc (fun c => c <| _requestQueue := [] |>);;
  forM_ localQueue (fun r => processRequest r;; mret tt).

Definition submitRequest (r : PS2Request) : prog bool :=
  lockQueue;;
  setc (fun c => c <| _requestQueue := _requestQueue c ++ [r] |>);;
  s ← getc _interruptSourceQueue;
  (if s : bool then emit EvSignalQueue else undef);;
  mret true.

Definition submitRequestAndBlockGated (r : PS2Request) : prog PS2Request :=
  processRequestQueue;; processRequest r.

(** [_cmdGate->runAction(action, ...)]: the action runs on the work loop. *)
Definition gated {A} (m : prog A) : prog A :=
  g ← getc _cmdGate; if g : bool then m else undef.

Definition submitRequestAndBlock (r : PS2Request) : prog PS2Request :=
  gated (submitRequestAndBlockGated r).

Definition setCommandByteGated (r : PS2Request) : prog PS2Request :=
  c ← lift (aget (commands r) 0);
  let sb := setBits c in
  let cb := clearBits c in
  setc (fun c => c <| _ignoreInterrupts := s32 (_ignoreInterrupts c + 1) |>);;
  writeCommandPort kCP_GetCommandByte;;
  oldCommandByte ← readDataPort kDT_Keyboard;
  setc (fun c => c <| _ignoreInterrupts := s32 (_ignoreInterrupts c - 1) |>);;
  let newCommandByte := clear (Z.lor oldCommandByte sb) cb in
  (if negb (oldCommandByte =? newCommandByte) then
     writeCommandPort kCP_SetCommandByte;; writeDataPort newCommandByte
   else mret tt);;
  cs ← lift (aset (commands r) 0 (set_oldBits oldCommandByte c));
  mret (r <| commands := cs |>).

Definition setCommandByte (sb cb : Z) : prog Z :=
  let c := set_clearBits cb (set_setBits sb (mkCommand kPS2C_ModifyCommandByte 0)) in
  r ← gated (setCommandByteGated (stack_request [c]));
  c ← lift (aget (commands r) 0);
  mret (oldBits c).

(** *** Interrupts *)

Fixpoint handleInterrupt_loop (n : nat) (wakeMouse wakeKeyboard : bool) : prog (bool * bool) :=
  match n with
  | O => nofuel
  | S n =>
      enable ← gets int_enabled;
      modify (fun w => w <| int_enabled := false |>);;
      delay;;
      status ← inb_ kCommandPort;
      if negb (anyset status kOutputReady) then
        modify (fun w => w <| int_enabled := enable |>);;
        mret (wakeMouse, wakeKeyboard)
      else
        delay;;
        data ← inb_ kDataPort;
        modify (fun w => w <| int_enabled := enable |>);;
        if anyset status kMouseData then
          r ← _dispatchDriverInterrupt kDT_Mouse data;
          handleInterrupt_loop n (bool_decide (kPS2IR_packetReady = r) || wakeMouse) wakeKeyboard
        else
          r ← _dispatchDriverInterrupt kDT_Keyboard data;
          handleInterrupt_loop n wakeMouse (bool_decide (kPS2IR_packetReady = r) || wakeKeyboard)
  end.

(** [handleInterrupt]; its argument only matters to the watchdog build. *)
Definition handleInterrupt (deviceType : PS2DeviceType) : prog unit :=
  '(wakeMouse, wakeKeyboard) ← handleInterrupt_loop fuel false false;
  when wakeMouse (signal kDT_Mouse);;
  when wakeKeyboard (signal kDT_Keyboard).

Definition interruptHandlerMouse : prog unit :=
  i ← getc _ignoreInterrupts;
  if negb (i =? 0) then mret tt else handleInterrupt kDT_Mouse.

Definition interruptHandlerKeyboard : prog unit :=
  i ← getc _ignoreInterrupts;
  if negb (i =? 0) then mret tt else handleInterrupt kDT_Keyboard.

Definition packetReadyKeyboard : prog unit :=
  c ← getc id;
  if _interruptInstalledKeyboard c then
    match _packetActionKeyboard c with
    | Some a => callPacket a (_interruptTargetKeyboard c)
    | None => undef
    end
  else mret tt.

Definition packetReadyMouse : prog unit :=
  c ← getc id;
  if _interruptInstalledMouse c then
    match _packetActionMouse c with
    | Some a => callPacket a (_interruptTargetMouse c)
    | None => undef
    end
  else mret tt.

(** *** Installing driver actions *)

Definition installInterruptAction (deviceType : PS2DeviceType) (target : positive)
  (interruptAction packetAction : positive) : prog unit :=
  c ← getc id;
  if is_kbd deviceType && negb (_interruptInstalledKeyboard c) && _interruptSourceKeyboard c then
    emit (EvRetain (Some target));;
    setc (fun c => c <| _interruptTargetKeyboard := Some target |>
                     <| _interruptActionKeyboard := Some interruptAction |>
                     <| _packetActionKeyboard := Some packetAction |>);;
    (if _workLoop c then emit (EvAddSource kDT_Keyboard) else undef);;
    setCommandByte kCB_EnableKeyboardIRQ 0;;
    emit (EvRegisterInterrupt kIRQ_Keyboard);;
    emit (EvEnableInterrupt kIRQ_Keyboard);;
    setc (fun c => c <| _interruptInstalledKeyboard := true |>)
  else if is_mouse deviceType && negb (_interruptInstalledMouse c) && _interruptSourceMouse c then
    emit (EvRetain (Some target));;
    setc (fun c => c <| _interruptTargetMouse := Some target |>
                     <| _interruptActionMouse := Some interruptAction |>
                     <| _packetActionMouse := Some packetAction |>);;
    (if _workLoop c then emit (EvAddSource kDT_Mouse) else undef);;
    setCommandByte kCB_EnableMouseIRQ 0;;
    emit (EvRegisterInterrupt kIRQ_Mouse);;
    emit (EvEnableInterrupt kIRQ_Mouse);;
    setc (fun c => c <| _interruptInstalledMouse := true |>)
  else mret tt.

Definition uninstallInterruptAction (deviceType : PS2DeviceType) : prog unit :=
  c ← getc id;
  if is_kbd deviceType && _interruptInstalledKeyboard c then
    setCommandByte 0 kCB_EnableKeyboardIRQ;;
    emit (EvDisableInterrupt kIRQ_Keyboard);;
    emit (EvUnregisterInterrupt kIRQ_Keyboard);;
    (if _workLoop c then emit (EvRemoveSource kDT_Keyboard) else undef);;
    setc (fun c => c <| _interruptInstalledKeyboard := false |>
                     <| _interruptActionKeyboard := None |>
                     <| _packetActionKeyboard := None |>);;
    emit (EvRelease (_interruptTargetKeyboard c));;
    setc (fun c => c <| _interruptTargetKeyboard := None |>)
  else if is_mouse deviceType && _interruptInstalledMouse c then
    setCommandByte 0 kCB_EnableMouseIRQ;;
    emit (EvDisableInterrupt kIRQ_Mouse);;
    emit (EvUnregisterInterrupt kIRQ_Mouse);;
    (if _workLoop c then emit (EvRemoveSource kDT_Mouse) else undef);;
    setc (fun c => c <| _interruptInstalledMouse := false |>
                     <| _interruptActionMouse := None |>
                     <| _packetActionMouse := None |>);;
    emit (EvRelease (_interruptTargetMouse c));;
    setc (fun c => c <| _interruptTargetMouse := None |>)
  else mret tt.

Definition installPowerControlAction (deviceType : PS2DeviceType) (target action : positive)
  : prog unit :=
  c ← getc id;
  if is_kbd deviceType && negb (_powerControlInstalledKeyboard c) then
    emit (EvRetain (Some target));;
    setc (fun c => c <| _powerControlTargetKeyboard := Some target |>
                     <| _powerControlActionKeyboard := Some action |>
                     <| _powerControlInstalledKeyboard := true |>)
  else if is_mouse deviceType && negb (_powerControlInstalledMouse c) then
    emit (EvRetain (Some target));;
    setc (fun c => c <| _powerControlTargetMouse := Some target |>
                     <| _powerControlActionMouse := Some action |>
                     <| _powerControlInstalledMouse := true |>)
  else mret tt.

Definition uninstallPowerControlAction (deviceType : PS2DeviceType) : prog unit :=
  c ← getc id;
  if is_kbd deviceType && _powerControlInstalledKeyboard c then
    setc (fun c => c <| _powerControlInstalledKeyboard := false |>
                     <| _powerControlActionKeyboard := None |>);;
    emit (EvRelease (_powerControlTargetKeyboard c));;
    setc (fun c => c <| _powerControlTargetKeyboard := None |>)
  else if is_mouse deviceType && _powerControlInstalledMouse c then
    setc (fun c => c <| _powerControlInstalledMouse := false |>
                     <| _powerControlActionMouse := None |>);;
    emit (EvRelease (_powerControlTargetMouse c));;
    setc (fun c => c <| _powerControlTargetMouse := None |>)
  else mret tt.

(** *** Power management *)

Definition resetController : prog unit :=
  setc (fun c => c <| _suppressTimeout := true |>);;
  writeCommandPort kCP_DisableKeyboardClock;;
  writeCommandPort kCP_DisableMouseClock;;
  flush fuel 0;;
  writeCommandPort kCP_EnableMouseClock;;
  writeCommandPort kCP_EnableKeyboardClock;;
  writeCommandPort kCP_GetCommandByte;;
  commandByte ← readDataPort kDT_Keyboard;
  writeCommandPort kCP_TestController;;
  readDataPort kDT_Keyboard;;
  readDataPort kDT_Mouse;;
  writeCommandPort kCP_TestKeyboardPort;;
  readDataPort kDT_Keyboard;;
  writeCommandPort kCP_TestMousePort;;
  readDataPort kDT_Mouse;;
  setc (fun c => c <| _suppressTimeout := false |>);;
  let commandByte := clear commandByte
    (Z.lor (Z.lor (Z.lor kCB_EnableKeyboardIRQ kCB_EnableMouseIRQ) kCB_DisableMouseClock)
       kCB_DisableMouseClock) in
  let commandByte := Z.lor commandByte kCB_TranslateMode in
  writeCommandPort kCP_SetCommandByte;;
  writeDataPort commandByte;;
  writeDataPort kDP_SetDefaultsAndDisable;;
  readDataPort kDT_Keyboard;;
  writeCommandPort kCP_TransmitToMouse;;
  writeDataPort kDP_SetDefaultsAndDisable;;
  readDataPort kDT_Mouse;;
  flush fuel 0;;
  mret tt.

Definition dispatchDriverPowerControl (whatToDo : Z) (deviceType : PS2DeviceType) : prog unit :=
  c ← getc id;
  (if is_mouse deviceType && _powerControlInstalledMouse c then
     match _powerControlActionMouse c with
     | Some a => callPower a (_powerControlTargetMouse c) whatToDo
     | None => undef
     end
   else mret tt);;
  c ← getc id;
  (if is_kbd deviceType && _powerControlInstalledKeyboard c then
     match _powerControlActionKeyboard c with
     | Some a => callPower a (_powerControlTargetKeyboard c) whatToDo
     | None => undef
     end
   else mret tt).

Definition powerDown : prog unit :=
  setc (fun c => c <| _ignoreInterrupts := s32 (_ignoreInterrupts c + 1) |>);;
  setCommandByte 0 (Z.lor kCB_EnableKeyboardIRQ kCB_EnableMouseIRQ);;
  dispatchDriverPowerControl kPS2C_DisableDevice kDT_Mouse;;
  dispatchDriverPowerControl kPS2C_DisableDevice kDT_Keyboard;;
  setc (fun c => c <| _hardwareOffline := true |>);;
  setCommandByte (Z.lor kCB_DisableKeyboardClock kCB_DisableMouseClock) 0;;
  mret tt.

Definition powerUp : prog unit :=
  c ← getc id;
  when (negb (_wakedelay c =? 0)) (sleep_ (_wakedelay c));;
  resetController;;
  setCommandByte 0 (Z.lor (Z.lor (Z.lor kCB_DisableKeyboardClock kCB_DisableMouseClock)
                       kCB_EnableKeyboardIRQ) kCB_EnableMouseIRQ);;
  setc (fun c => c <| _hardwareOffline := false |>);;
  c ← getc id;
  (if negb (_mouseWakeFirst c) then
     dispatchDriverPowerControl kPS2C_EnableDevice kDT_Keyboard;;
     dispatchDriverPowerControl kPS2C_EnableDevice kDT_Mouse
   else
     dispatchDriverPowerControl kPS2C_EnableDevice kDT_Mouse;;
     dispatchDriverPowerControl kPS2C_EnableDevice kDT_Keyboard);;
  setCommandByte (Z.lor (Z.lor kCB_EnableKeyboardIRQ kCB_EnableMouseIRQ) kCB_SystemFlag) 0;;
  setc (fun c => c <| _ignoreInterrupts := s32 (_ignoreInterrupts c - 1) |>).

Definition setPowerStateGated (powerState : Z) : prog unit :=
  current ← getc _currentPowerState;
  (if negb (current =? powerState) then
     (if powerState =? kPS2PowerStateSleep then powerDown
      else if (powerState =? kPS2PowerStateDoze) || (powerState =? kPS2PowerStateNormal) then
        if negb (current =? kPS2PowerStateSleep) then mret tt else powerUp
      else emit (EvBadPowerState powerState));;
     setc (fun c => c <| _currentPowerState := powerState |>)
   else mret tt);;
  emit EvAcknowledgeSetPowerState.

(** *** Messages *)

(** [OSSet::setObject] and [removeObject]: a set of services. *)
Definition notificationHandlerGated (newService notifier : positive) : prog unit :=
  c ← getc id;
  when (bool_decide (Some notifier = _publishNotify c))
    (setc (fun c => c <| _notificationServices :=
       if bool_decide (newService ∈ _notificationServices c) then _notificationServices c
       else _notificationServices c ++ [newService] |>));;
  when (bool_decide (Some notifier = _terminateNotify c))
    (setc (fun c => c <| _notificationServices :=
       filter (fun s => s ≠ newService) (_notificationServices c) |>)).

(** [service->message(message, this, data)] for every service; the receivers
    may write through [data]. *)
Fixpoint deliver_message (l : list positive) (message : PS2Message) (data : Payload) : prog Payload :=
  match l with
  | [] => mret data
  | s :: l => data ← callMessage s message data; deliver_message l message data
  end.

(** The key codes that do not count as typing. *)
Definition is_modifier_adb (adb : Z) : bool :=
  existsb (Z.eqb adb) [0x38; 0x3c; 0x3b; 0x3e; 0x3a; 0x3d; 0x37; 0x36; 0x3f].

Definition dispatchMessageGated (message : PS2Message) (data : Payload) : prog Payload :=
  services ← getc _notificationServices;
  data ← deliver_message services message data;
  if bool_decide (message = kPS2M_notifyKeyPressed) then
    match data with
    | PKeyInfo pInfo =>
        if is_modifier_adb (adbKeyCode pInfo) then mret data
        else
          services ← getc _notificationServices;
          t ← deliver_message services kPS2M_notifyKeyTime (PTime (time pInfo));
          mret (match t with PTime t => PKeyInfo (pInfo <| time := t |>) | _ => data end)
    | _ => undef                       (* data is not a PS2KeyInfo *)
    end
  else mret data.

Definition dispatchMessage (message : PS2Message) (data : Payload) : prog Payload :=
  gated (dispatchMessageGated message data).
End controller.
