(* ===== verification/ControllerSpec.v ===== *)
(** * ControllerSpec: what the controller promises

    The theorems about the definitions of Controller: the reading loops
    implement the reference runs [ref_read] and [ref_expect] and lose no byte;
    a request reports the index of the command that failed; the composite
    mouse command is its three-command sequence; the command byte is read,
    modified and written back; interrupts deliver every byte; the power state
    machine keeps its invariants. *)

From S2P Require Import Prelude PS2Defs PortIO Controller.

(** ** Well-formed controllers

    An installed action is not null and its event source exists: what
    [installInterruptAction] and [installPowerControlAction] establish. *)
Definition ctl_wf (c : ApplePS2Controller) : Prop :=
  (_interruptInstalledKeyboard c = true ->
     is_Some (_interruptActionKeyboard c) /\ is_Some (_packetActionKeyboard c) /\
     _interruptSourceKeyboard c = true) /\
  (_interruptInstalledMouse c = true ->
     is_Some (_interruptActionMouse c) /\ is_Some (_packetActionMouse c) /\
     _interruptSourceMouse c = true) /\
  (_powerControlInstalledKeyboard c = true -> is_Some (_powerControlActionKeyboard c)) /\
  (_powerControlInstalledMouse c = true -> is_Some (_powerControlActionMouse c)).

Section spec.
  Context {H D : Type} `{PortIO H}.
  Abbreviation W := (World H D).
  Context (callInterrupt : positive -> option positive -> Z -> D -> PS2InterruptResult * D).
  Context (callPacket : positive -> option positive -> M W unit).
  Context (callPower : positive -> option positive -> Z -> M W unit).
  Context (callCompletion : positive -> positive -> PS2Request -> M W unit).
  Context (fuel : nat).
  Implicit Types (w : W) (h : H).

(** ** One byte reaches a driver *)

Definition installed (d : PS2DeviceType) (c : ApplePS2Controller) : option (positive * option positive) :=
  match d with
  | kDT_Keyboard =>
      if _interruptInstalledKeyboard c then
        a ← _interruptActionKeyboard c; Some (a, _interruptTargetKeyboard c) else None
  | kDT_Mouse =>
      if _interruptInstalledMouse c then
        a ← _interruptActionMouse c; Some (a, _interruptTargetMouse c) else None
  end.

(** The result and the effect of handing [b] to the driver of [d]. *)
Definition hand (d : PS2DeviceType) (b : Z) w : PS2InterruptResult * W :=
  match installed d (ctl w) with
  | Some (a, t) => let '(r, x) := callInterrupt a t b (drv w) in (r, w <| drv := x |>)
  | None => (kPS2IR_packetBuffering, w)
  end.

(** The same, with the wake-up of the work loop. *)
Definition deliver (d : PS2DeviceType) (b : Z) w : W :=
  let '(r, w) := hand d b w in
  match r with
  | kPS2IR_packetReady => w <| evs := evs w ++ [EvSignal d] |>
  | kPS2IR_packetBuffering => w
  end.

Definition deliver_all (l : list (PS2DeviceType * Z)) w : W :=
  fold_left (fun w '(d, b) => deliver d b w) l w.

Lemma hand_ok d b w :
  ctl_wf (ctl w) -> _dispatchDriverInterrupt callInterrupt d b w = Done (hand d b w).
Proof.
  intros (Hk & Hm & _). unfold _dispatchDriverInterrupt, getc, hand, installed. msimpl.
  destruct d; simpl.
  - destruct (_interruptInstalledKeyboard (ctl w)); [|done].
    destruct (Hk eq_refl) as ([a Ha] & _). rewrite Ha. simpl.
    unfold call_interrupt. by destruct (callInterrupt _ _ _ _).
  - destruct (_interruptInstalledMouse (ctl w)); [|done].
    destruct (Hm eq_refl) as ([a Ha] & _). rewrite Ha. simpl.
    unfold call_interrupt. by destruct (callInterrupt _ _ _ _).
Qed.

Lemma hand_ctl d b w : ctl (hand d b w).2 = ctl w.
Proof. unfold hand. destruct (installed d (ctl w)) as [[a t]|]; [|done]. by destruct (callInterrupt _ _ _ _). Qed.

Lemma hand_hw d b w h : hand d b (w <| hw := h |>) = ((hand d b w).1, (hand d b w).2 <| hw := h |>).
Proof. unfold hand; simpl. destruct (installed d (ctl w)) as [[a t]|]; [|done]. by destruct (callInterrupt _ _ _ _). Qed.

Lemma hand_ready_source d b w :
  ctl_wf (ctl w) -> (hand d b w).1 = kPS2IR_packetReady -> source_of d (ctl w) = true.
Proof.
  intros (Hk & Hm & _). unfold hand, installed, source_of.
  destruct d; [destruct (_interruptInstalledKeyboard (ctl w)); [by destruct Hk as (? & ? & ->)|done]
              |destruct (_interruptInstalledMouse (ctl w)); [by destruct Hm as (? & ? & ->)|done]].
Qed.

Lemma deliver_ok d b w :
  ctl_wf (ctl w) -> dispatchDriverInterrupt callInterrupt d b w = Done (tt, deliver d b w).
Proof.
  intros Hwf. unfold dispatchDriverInterrupt. unfold mbind at 1, M_bind at 1. rewrite hand_ok by done.
  pose proof (hand_ctl d b w) as Hc. pose proof (hand_ready_source d b w Hwf) as Hs.
  unfold deliver. destruct (hand d b w) as [[] w']; simpl in *; [|done].
  unfold signal, getc, emit. msimpl. rewrite Hc, Hs by done. done.
Qed.

Lemma deliver_ctl d b w : ctl (deliver d b w) = ctl w.
Proof.
  unfold deliver. pose proof (hand_ctl d b w). destruct (hand d b w) as [[] w']; done.
Qed.

Lemma deliver_hw d b w h : deliver d b (w <| hw := h |>) = (deliver d b w) <| hw := h |>.
Proof. unfold deliver. rewrite hand_hw. by destruct (hand d b w) as [[] w']. Qed.

Lemma deliver_all_ctl l w : ctl (deliver_all l w) = ctl w.
Proof.
  revert w. induction l as [|[d b] l IH]; intros w; [done|]. simpl. unfold deliver_all in *. simpl.
  rewrite IH. apply deliver_ctl.
Qed.

Lemma deliver_all_hw l w h : deliver_all l (w <| hw := h |>) = (deliver_all l w) <| hw := h |>.
Proof.
  revert w. induction l as [|[d b] l IH]; intros w; [done|]. unfold deliver_all in *. simpl.
  by rewrite deliver_hw, IH.
Qed.

Lemma set_hw_hw w h h' : w <| hw := h |> <| hw := h' |> = w <| hw := h' |>.
Proof. done. Qed.

Lemma set_hw_id w : w <| hw := hw w |> = w.
Proof. by destruct w. Qed.

(** ** Polling *)

Lemma wait_not_busy_ok k n w h' :
  accepts n (hw w) h' -> (n < k)%nat -> wait_not_busy k w = Done (tt, w <| hw := h' |>).
Proof.
  intros Ha. remember (hw w) as h eqn:Eh. revert k w Eh.
  induction Ha as [h st h1 E Hb|n h st h1 h2 E Hb Ha IH]; intros [|k] w -> Hk; try lia;
    simpl; unfold inb_, mbind, M_bind; rewrite E, Hb; unfold delay, modify; [done|].
  rewrite (IH k (w <| hw := h1 |> <| hw := IODelay kDataDelay h1 |>)) by (done || lia). done.
Qed.

Lemma wait_ready_ok c s0 n st b w h' :
  presents (hw w) n st b h' -> (n < c)%nat ->
  exists h1 b0, wait_ready c s0 w = Done (((c - n)%nat, st), w <| hw := h1 |>) /\
    inb kDataPort (IODelay kDataDelay h1) = (b0, h') /\ u8 b0 = b.
Proof.
  intros Hp. remember (hw w) as h eqn:Eh. revert c s0 w Eh.
  induction Hp as [h st h1 b h2 E Hr E2|h st h1 n st' b h2 E Hr Hp IH]; intros [|c] s0 w -> Hc;
    try lia; simpl; unfold inb_, mbind, M_bind; rewrite E, Hr.
  - eauto.
  - unfold delay, modify.
    destruct (IH c (u8 st) (w <| hw := IODelay kDataDelay h1 |>)) as (h1' & b0 & E1 & ? & ?);
      [done|lia|].
    exists h1', b0. split; [exact E1|done].
Qed.

Lemma wait_ready_silent c s0 w h' :
  silent c (hw w) h' -> exists st, wait_ready c s0 w = Done ((O, st), w <| hw := h' |>).
Proof.
  intros Hp. remember (hw w) as h eqn:Eh. revert s0 w Eh.
  induction Hp as [h|n h st h1 h2 E Hr Hp IH]; intros s0 w ->; simpl.
  { exists s0. by rewrite set_hw_id. }
  unfold inb_, mbind, M_bind; rewrite E, Hr. unfold delay, modify.
  destruct (IH (u8 st) (w <| hw := IODelay kDataDelay h1 |>)) as (st' & E1); [done|].
  exists st'. exact E1.
Qed.

(** ** Reading a byte of one stream

    [ref_read d c h l r h']: with [c] polls left, the bytes [l] of the other
    device pass by, then the first byte of [d] is [r], or the polls run out. *)
Inductive ref_read (d : PS2DeviceType) : nat -> H -> list Z -> option Z -> H -> Prop :=
| ref_read_got c h n st b h' :
    presents h n st b h' -> (n < c)%nat ->
    on_stream d (mkItem n st b) = true -> ref_read d c h [] (Some b) h'
| ref_read_other c h n st b h1 l r h' :
    presents h n st b h1 -> (n < c)%nat ->
    on_stream d (mkItem n st b) = false -> ref_read d (c - n) h1 l r h' ->
    ref_read d c h (b :: l) r h'
| ref_read_timeout c h h' : silent c h h' -> ref_read d c h [] None h'.

Definition log_timeout (d : PS2DeviceType) (r : option Z) w : W :=
  match r with Some _ => w | None => w <| evs := evs w ++ [EvLogTimeout d] |> end.

Lemma on_stream_test d n st b :
  on_stream d (mkItem n st b) =
    (anyset st kMouseData && is_mouse d) || (negb (anyset st kMouseData) && is_kbd d).
Proof. unfold on_stream; simpl. by destruct (anyset st kMouseData), d. Qed.

Lemma read_loop_ok d k c w l r h' :
  ref_read d c (hw w) l r h' -> ctl_wf (ctl w) -> _suppressTimeout (ctl w) = false ->
  (length l < k)%nat ->
  readDataPort_loop callInterrupt k d c w =
    Done (default 0 r, log_timeout d r
      ((deliver_all ((fun b => (other_device d, b)) <$> l) w) <| hw := h' |>)).
Proof.
  intros Hr. remember (hw w) as h eqn:Eh. revert k w Eh.
  induction Hr as [c h n st b h' Hp Hn Hs|c h n st b h1 l r h' Hp Hn Hs Hr IH|c h h' Hp];
    intros [|k] w -> Hwf Hsup Hk; simpl in Hk; try lia; cbn [readDataPort_loop].
  - destruct (wait_ready_ok c 0 n st b w h' Hp Hn) as (h1 & b0 & E1 & E2 & <-).
    unfold mbind at 1, M_bind at 1. rewrite E1. cbn beta iota.
    destruct (c - n)%nat eqn:Ec; [lia|]. unfold delay, inb_, getc. msimpl. simpl. rewrite E2.
    simpl. rewrite Hsup. rewrite on_stream_test in Hs.
    destruct (anyset st kMouseData && is_mouse d) eqn:E3; [done|]. simpl in Hs.
    by rewrite Hs.
  - destruct (wait_ready_ok c 0 n st b w h1 Hp Hn) as (h0 & b0 & E1 & E2 & <-).
    unfold mbind at 1, M_bind at 1. rewrite E1. cbn beta iota.
    destruct (c - n)%nat eqn:Ec; [lia|]. unfold delay, inb_, getc. msimpl. simpl. rewrite E2.
    simpl. rewrite Hsup. rewrite on_stream_test in Hs. apply orb_false_iff in Hs as [-> ->].
    rewrite !set_hw_hw, deliver_ok by done. cbn beta iota. rewrite deliver_hw.
    rewrite (IH k ((deliver (other_device d) (u8 b0) w) <| hw := h1 |>)); simpl;
      rewrite ?deliver_ctl; try (done || lia).
    by rewrite deliver_all_hw.
  - destruct (wait_ready_silent c 0 w h' Hp) as (st & E1).
    unfold mbind at 1, M_bind at 1. rewrite E1. cbn beta iota.
    unfold getc, emit. msimpl. simpl. by rewrite Hsup.
Qed.

(** ** Reading an expected byte

    [ref_expect d e c held h rd disp ret h']: the bytes [rd] are taken from
    the port, [disp] of them are handed to the drivers, [ret] is returned.
    [None] is a timeout with nothing held back. *)
Inductive ref_expect (d : PS2DeviceType) (e : Z) :
  nat -> option Z -> H -> list Z -> list (PS2DeviceType * Z) -> option Z -> H -> Prop :=
| ref_expect_hit c h n st h' :
    presents h n st e h' -> (n < c)%nat -> on_stream d (mkItem n st e) = true ->
    ref_expect d e c None h [e] [] (Some e) h'
| ref_expect_hit_held c h n st f h' :
    presents h n st e h' -> (n < c)%nat -> on_stream d (mkItem n st e) = true ->
    ref_expect d e c (Some f) h [e] [(d, f)] (Some e) h'
| ref_expect_hold c h n st b h1 rd l r h' :
    presents h n st b h1 -> (n < c)%nat -> on_stream d (mkItem n st b) = true -> b <> e ->
    ref_expect d e (c - n) (Some b) h1 rd l r h' ->
    ref_expect d e c None h (b :: rd) l r h'
| ref_expect_miss c h n st b f h' :
    presents h n st b h' -> (n < c)%nat -> on_stream d (mkItem n st b) = true -> b <> e ->
    ref_expect d e c (Some f) h [b] [(d, b)] (Some f) h'
| ref_expect_other c held h n st b h1 rd l r h' :
    presents h n st b h1 -> (n < c)%nat -> on_stream d (mkItem n st b) = false ->
    ref_expect d e (c - n) held h1 rd l r h' ->
    ref_expect d e c held h (b :: rd) ((other_device d, b) :: l) r h'
| ref_expect_timeout c held h h' :
    silent c h h' -> ref_expect d e c held h [] [] held h'.

Lemma on_stream_sel d n st b :
  on_stream d (mkItem n st b) = if anyset st kMouseData then is_mouse d else is_kbd d.
Proof. unfold on_stream; simpl. by destruct (anyset st kMouseData), d. Qed.

Lemma expect_loop_ok d e k c held w rd l r h' :
  ref_expect d e c held (hw w) rd l r h' -> ctl_wf (ctl w) -> _ignoreOutOfOrder (ctl w) = 0 ->
  (length rd < k)%nat ->
  readDataPortExpect_loop callInterrupt k d e c held w =
    Done (default 0 r, log_timeout d r ((deliver_all l w) <| hw := h' |>)).
Proof.
  intros Hr. remember (hw w) as h eqn:Eh. revert k w Eh.
  induction Hr as [c h n st h' Hp Hn Hs|c h n st f h' Hp Hn Hs
    |c h n st b h1 rd l r h' Hp Hn Hs Hne Hr IH|c h n st b f h' Hp Hn Hs Hne
    |c held h n st b h1 rd l r h' Hp Hn Hs Hr IH|c held h h' Hp];
    intros [|k] w -> Hwf Hig Hk; simpl in Hk; try lia; cbn [readDataPortExpect_loop].
  6: { destruct (wait_ready_silent c 0 w h' Hp) as (st & E1).
       unfold mbind at 1, M_bind at 1. rewrite E1. by destruct held. }
  all: destruct (wait_ready_ok c 0 n st _ w _ Hp Hn) as (h0 & b0 & E1 & E2 & E3);
    unfold mbind at 1, M_bind at 1; rewrite E1; cbn beta iota;
    rewrite on_stream_sel in Hs; destruct (c - n)%nat eqn:Ec; [lia|];
    unfold delay, inb_, getc; msimpl; simpl; rewrite E2; simpl; rewrite Hig, Hs, E3; simpl;
    rewrite ?Z.eqb_refl, ?(proj2 (Z.eqb_neq _ _) Hne); try done.
  - rewrite !set_hw_hw, deliver_ok by done. unfold deliver_all; simpl. by rewrite deliver_hw.
  - rewrite !set_hw_hw. rewrite (IH k (w <| hw := h1 |>)) by (done || simpl; lia). by rewrite deliver_all_hw.
  - rewrite !set_hw_hw, deliver_ok by done. unfold deliver_all; simpl. by rewrite deliver_hw.
  - rewrite !set_hw_hw, deliver_ok by done. cbn beta iota. rewrite deliver_hw.
    rewrite (IH k ((deliver (other_device d) b w) <| hw := h1 |>)); simpl;
      rewrite ?deliver_ctl; try (done || lia).
    by rewrite deliver_all_hw.
Qed.

(** No byte is lost or made up: what was read is what was handed over plus
    what is returned (a held byte counts as read). *)
Lemma ref_expect_conserves d e c held h rd l r h' :
  ref_expect d e c held h rd l r h' ->
  option_list held ++ rd ≡ₚ snd <$> l ++ ((fun x => (d, x)) <$> option_list r).
Proof.
  induction 1 as [| | c h n st b h1 rd l r h' Hp Hn Hs Hne Hr IH| |
    c held h n st b h1 rd l r h' Hp Hn Hs Hr IH|]; simpl in *; try done.
  - by apply Permutation_swap || (simpl; constructor).
  - by rewrite <- IH, Permutation_middle.
  - rewrite app_nil_r. by destruct held.
Qed.

(** ** Reads end

    A chip that presents finitely many bytes and then stays silent for as
    long as the loop polls makes both reading loops return. *)
Lemma silent_le c c' h h' : silent c' h h' -> (c <= c')%nat -> exists h'', silent c h h''.
Proof.
  intros Hs. revert c. induction Hs as [h|n h st h1 h2 E Hr Hs IH]; intros [|c] Hc;
    try lia; try (eexists; by constructor).
  destruct (IH c) as [h'' ?]; [lia|]. eexists. by econstructor.
Qed.

Lemma presents_silent h n st b h' c :
  presents h n st b h' -> (c <= n)%nat -> exists h'', silent c h h''.
Proof.
  intros Hp. revert c. induction Hp as [h st h1 b h2 E Hr E2|h st h1 n st' b h2 E Hr Hp IH];
    intros [|c] Hc; try lia; try (eexists; by constructor).
  destruct (IH c) as [h'' ?]; [lia|]. eexists. by econstructor.
Qed.

(** Silent for every number of polls up to [c]. *)
Definition quiet_for (c : nat) h : Prop := exists h', silent c h h'.

Lemma quiet_for_le c c' h : quiet_for c' h -> (c <= c')%nat -> quiet_for c h.
Proof. intros [h' Hs]. by apply (silent_le c c' h h'). Qed.

Lemma ref_read_total d c h items h1 :
  stream h items h1 -> quiet_for c h1 ->
  exists l r h', ref_read d c h l r h' /\ (length l <= length items)%nat.
Proof.
  intros Hs. revert c. induction Hs as [h|h [n st b] h1 l h3 Hp Hs IH]; intros c Hsil; simpl in *.
  { destruct Hsil as [h2 ?]. exists [], None, h2. split; [by apply ref_read_timeout|simpl; lia]. }
  destruct (decide (n < c)%nat) as [Hn|Hn].
  - destruct (on_stream d (mkItem n st b)) eqn:Eo.
    + exists [], (Some b), h1. split; [by eapply ref_read_got|simpl; lia].
    + destruct (IH (c - n)%nat) as (l' & r & h' & Hr & Hl).
      { apply (quiet_for_le _ c); [done|lia]. }
      exists (b :: l'), r, h'. split; [by eapply ref_read_other|simpl; lia].
  - destruct (presents_silent _ _ _ _ _ c Hp) as [h'' ?]; [lia|].
    exists [], None, h''. split; [by apply ref_read_timeout|simpl; lia].
Qed.

Lemma ref_expect_total d e c held h items h1 :
  stream h items h1 -> quiet_for c h1 ->
  exists rd l r h', ref_expect d e c held h rd l r h' /\ (length rd <= length items)%nat.
Proof.
  intros Hs. revert c held. induction Hs as [h|h [n st b] h1 l h3 Hp Hs IH];
    intros c held Hsil; simpl in *.
  { destruct Hsil as [h2 ?]. exists [], [], held, h2.
    split; [by apply ref_expect_timeout|simpl; lia]. }
  destruct (decide (n < c)%nat) as [Hn|Hn]; cycle 1.
  { destruct (presents_silent _ _ _ _ _ c Hp) as [h'' ?]; [lia|].
    exists [], [], held, h''. split; [by apply ref_expect_timeout|simpl; lia]. }
  assert (Hsil' : quiet_for (c - n) h3) by (apply (quiet_for_le _ c); [done|lia]).
  destruct (on_stream d (mkItem n st b)) eqn:Eo; cycle 1.
  { destruct (IH (c - n)%nat held Hsil') as (rd & l' & r & h' & Hr & Hl).
    do 4 eexists. split; [by eapply ref_expect_other|simpl; lia]. }
  destruct (decide (b = e)) as [->|Hne].
  - destruct held as [f|]; do 4 eexists.
    + split; [by eapply ref_expect_hit_held|simpl; lia].
    + split; [by eapply ref_expect_hit|simpl; lia].
  - destruct held as [f|].
    + do 4 eexists. split; [by eapply ref_expect_miss|simpl; lia].
    + destruct (IH (c - n)%nat (Some b) Hsil') as (rd & l' & r & h' & Hr & Hl).
      do 4 eexists. split; [by eapply ref_expect_hold|simpl; lia].
Qed.

(** ** Writing *)

Lemma writeDataPort_ok n w h' b :
  accepts n (hw w) h' -> (n < fuel)%nat ->
  writeDataPort fuel b w = Done (tt, w <| hw := outb kDataPort b h' |>).
Proof.
  intros Ha Hn. unfold writeDataPort, mbind, M_bind. by rewrite (wait_not_busy_ok fuel n w h' Ha Hn).
Qed.

Lemma writeCommandPort_ok n w h' b :
  accepts n (hw w) h' -> (n < fuel)%nat ->
  writeCommandPort fuel b w = Done (tt, w <| hw := outb kCommandPort b h' |>).
Proof.
  intros Ha Hn. unfold writeCommandPort, mbind, M_bind. by rewrite (wait_not_busy_ok fuel n w h' Ha Hn).
Qed.

(** A single byte of the requested stream is there in time. *)
Lemma readDataPort_now d n st b w h' :
  presents (hw w) n st b h' -> Z.of_nat n < 10000 -> (0 < fuel)%nat ->
  on_stream d (mkItem n st b) = true -> ctl_wf (ctl w) -> _suppressTimeout (ctl w) = false ->
  readDataPort callInterrupt fuel d w = Done (b, w <| hw := h' |>).
Proof.
  intros Hp Hn Hf Hs Hwf Hsup. unfold readDataPort.
  rewrite (read_loop_ok d fuel timeoutCounter0 w [] (Some b) h'); try done.
  eapply ref_read_got; [exact Hp| |exact Hs]. unfold timeoutCounter0. lia.
Qed.

(** ** The command byte *)

Definition is_s32 (z : Z) : Prop := -2147483648 <= z < 2147483648.

Lemma s32_id z : is_s32 z -> s32 z = z.
Proof. intros [? ?]. unfold s32. rewrite Z.mod_small; lia. Qed.

Lemma s32_undo z : is_s32 z -> s32 (s32 (z + 1) - 1) = z.
Proof.
  intros [? ?]. unfold s32.
  destruct (Z.eq_dec z 2147483647) as [->|]; [done|].
  rewrite (Z.mod_small (z + 1 + 2147483648)) by lia. rewrite Z.mod_small; lia.
Qed.

Section cmdbyte.
  Context `{!CommandByteLaws H} (Hfuel : (busy_bound < fuel)%nat).

(** A controller that can run requests: gate open, driver actions sound,
    timeouts reported, no pathological nesting depth. *)
Record ready (c : ApplePS2Controller) : Prop := {
  ready_wf : ctl_wf c;
  ready_gate : _cmdGate c = true;
  ready_timeout : _suppressTimeout c = false;
  ready_ign : is_s32 (_ignoreInterrupts c);
}.

Lemma get_cb_ok w :
  quiet (hw w) -> ctl_wf (ctl w) -> _suppressTimeout (ctl w) = false ->
  exists h1 h', writeCommandPort fuel kCP_GetCommandByte w = Done (tt, w <| hw := h1 |>) /\
    readDataPort callInterrupt fuel kDT_Keyboard (w <| hw := h1 |>) =
      Done (cb_of (hw w), w <| hw := h' |>) /\
    quiet h' /\ cb_of h' = cb_of (hw w).
Proof.
  intros Hq Hwf Hsup. destruct (cb_get _ Hq) as (n & h1 & k & st & h2 & Hn & Ha & Hk & Hp & Hst & Hq2 & Hcb).
  do 2 eexists. split; [apply (writeCommandPort_ok n w h1); [done|lia]|]. split; [|done].
  rewrite (readDataPort_now kDT_Keyboard k st (cb_of (hw w)) _ h2); try done; [lia|].
  unfold on_stream; simpl. by rewrite Hst.
Qed.

Lemma set_cb_ok w v :
  quiet (hw w) -> is_u8 v ->
  exists h1 h', writeCommandPort fuel kCP_SetCommandByte w = Done (tt, w <| hw := h1 |>) /\
    writeDataPort fuel v (w <| hw := h1 |>) = Done (tt, w <| hw := h' |>) /\
    quiet h' /\ cb_of h' = v.
Proof.
  intros Hq Hv. destruct (cb_set _ v Hq Hv) as (n & h1 & m & h2 & Hn & Ha & Hm & Ha2 & Hq2 & Hcb).
  do 2 eexists. split; [apply (writeCommandPort_ok n w h1); [done|lia]|]. split; [|done].
  by rewrite (writeDataPort_ok m _ h2) by (done || simpl; lia).
Qed.

Definition new_cb (old sb cb : Z) : Z := clear (Z.lor old (u8 sb)) (u8 cb).

Lemma new_cb_u8 old sb cb : is_u8 old -> is_u8 (new_cb old sb cb).
Proof. intros Ho. unfold new_cb. auto with ps2. Qed.

(** Entering and leaving a section with interrupts ignored. *)
Definition ignore_up (c : ApplePS2Controller) : ApplePS2Controller :=
  c <| _ignoreInterrupts := s32 (_ignoreInterrupts c + 1) |>.
Definition ignore_down (c : ApplePS2Controller) : ApplePS2Controller :=
  c <| _ignoreInterrupts := s32 (_ignoreInterrupts c - 1) |>.

Lemma ignore_up_down c : is_s32 (_ignoreInterrupts c) -> ignore_down (ignore_up c) = c.
Proof.
  intros Hi. unfold ignore_down, ignore_up. simpl. rewrite s32_undo by done. by destruct c.
Qed.

Lemma leave_ignore w h :
  is_s32 (_ignoreInterrupts (ctl w)) ->
  (w <| ctl := ignore_up (ctl w) |> <| hw := h |>)
    <| ctl := ignore_down (ctl (w <| ctl := ignore_up (ctl w) |> <| hw := h |>)) |>
  = w <| hw := h |>.
Proof.
  intros Hi. cbn [ctl]. change (ctl (w <| ctl := _ |> <| hw := h |>)) with (ignore_up (ctl w)).
  rewrite ignore_up_down by done. by destruct w.
Qed.

Lemma setCommandByteGated_ok w c sb cb :
  ready (ctl w) -> quiet (hw w) -> setBits c = u8 sb -> clearBits c = u8 cb ->
  exists h', setCommandByteGated callInterrupt fuel (stack_request [c]) w =
      Done (stack_request [set_oldBits (cb_of (hw w)) c], w <| hw := h' |>) /\
    quiet h' /\ cb_of h' = new_cb (cb_of (hw w)) sb cb.
Proof.
  intros [Hwf Hg Hsup Hi] Hq Hs Hc. pose proof (cb_u8 _ Hq) as Hu8.
  pose (w1 := w <| ctl := ignore_up (ctl w) |>).
  destruct (get_cb_ok w1 Hq Hwf Hsup) as (h1 & h2 & E1 & E2 & Hq2 & Hcb2). unfold w1 in *; clear w1.
  simpl in E1, E2, Hcb2.
  unfold setCommandByteGated. munfold. cbn [aget commands stack_request]. simpl. rewrite Hs, Hc.
  unfold setc. munfold. fold (ignore_up (ctl w)). rewrite E1. cbn beta iota. rewrite E2. cbn beta iota.
  fold (ignore_down (ctl (w <| ctl := ignore_up (ctl w) |> <| hw := h2 |>))).
  rewrite leave_ignore by done. cbn [hw ctl]. fold (new_cb (cb_of (hw w)) sb cb).
  destruct (Z.eqb_spec (cb_of (hw w)) (new_cb (cb_of (hw w)) sb cb)) as [Heq|Hne]; simpl.
  - exists h2. by rewrite Hcb2, <- Heq.
  - destruct (set_cb_ok (w <| hw := h2 |>) (new_cb (cb_of (hw w)) sb cb)) as (h3 & h4 & E3 & E4 & Hq4 & Hcb4);
      [done|by apply new_cb_u8|].
    rewrite E3. cbn beta iota. rewrite E4. exists h4. done.
Qed.

Lemma setCommandByte_ok w sb cb :
  ready (ctl w) -> quiet (hw w) ->
  exists h', setCommandByte callInterrupt fuel sb cb w = Done (cb_of (hw w), w <| hw := h' |>) /\
    quiet h' /\ cb_of h' = new_cb (cb_of (hw w)) sb cb.
Proof.
  intros Hr Hq.
  set (c := set_clearBits cb (set_setBits sb (mkCommand kPS2C_ModifyCommandByte 0))).
  destruct (setCommandByteGated_ok w c sb cb Hr Hq) as (h' & E & Hq' & Hcb).
  { unfold setBits, c, set_clearBits, set_setBits. by rewrite !union_byte_set by lia. }
  { unfold clearBits, c, set_clearBits. by rewrite union_byte_set by lia. }
  exists h'. split; [|done]. unfold setCommandByte, gated, getc. fold c. munfold.
  rewrite (ready_gate _ Hr), E. simpl. unfold oldBits, set_oldBits.
  rewrite union_byte_set by lia. simpl. by rewrite u8_id by (by apply cb_u8).
Qed.
(** The request that modifies the command byte. *)
Definition modify_cmd (sb cb : Z) : PS2Command :=
  set_clearBits cb (set_setBits sb (mkCommand kPS2C_ModifyCommandByte 0)).

Lemma modify_request_ok w sb cb :
  ready (ctl w) -> quiet (hw w) -> _hardwareOffline (ctl w) = false ->
  exists h', processRequest callInterrupt callCompletion fuel (stack_request [modify_cmd sb cb]) w =
      Done (stack_request [set_oldBits (cb_of (hw w)) (modify_cmd sb cb)], w <| hw := h' |>) /\
    quiet h' /\ cb_of h' = new_cb (cb_of (hw w)) sb cb.
Proof.
  intros [Hwf Hg Hsup Hi] Hq Hoff. pose proof (cb_u8 _ Hq) as Hu8.
  assert (Hs : setBits (modify_cmd sb cb) = u8 sb).
  { unfold setBits, modify_cmd, set_clearBits, set_setBits. by rewrite !union_byte_set by lia. }
  assert (Hc : clearBits (modify_cmd sb cb) = u8 cb).
  { unfold clearBits, modify_cmd, set_clearBits. by rewrite union_byte_set by lia. }
  pose (w1 := w <| ctl := ignore_up (ctl w) |>).
  destruct (get_cb_ok w1 Hq Hwf Hsup) as (h1 & h2 & E1 & E2 & Hq2 & Hcb2).
  pose (w2 := w1 <| hw := h2 |>).
  destruct (set_cb_ok w2 (new_cb (cb_of (hw w)) sb cb)) as (h3 & h4 & E3 & E4 & Hq4 & Hcb4);
    [done|by apply new_cb_u8|]. unfold w2 in E3, E4.
  exists h4. split; [|done].
  unfold processRequest, getc, setc. munfold. rewrite Hoff. cbn beta iota.
  fold (ignore_up (ctl w)). fold w1. change (Z.to_nat (commandsCount (stack_request _))) with 1%nat.
  cbn [commands_loop]. munfold.
  change (aget (commands (stack_request [modify_cmd sb cb])) 0) with (Done (modify_cmd sb cb)).
  cbn beta iota. unfold exec_command.
  change (command (modify_cmd sb cb)) with kPS2C_ModifyCommandByte. cbn beta iota. munfold.
  rewrite E1. cbn beta iota. rewrite E2. cbn beta iota. rewrite E3. cbn beta iota.
  rewrite Hs, Hc. fold (new_cb (cb_of (hw w1)) sb cb). change (hw w1) with (hw w).
  rewrite E4. cbn beta iota. rewrite aset_ok by (simpl; lia). cbn beta iota.
  rewrite set_hw_hw. unfold w1.
  fold (ignore_down (ctl (w <| ctl := ignore_up (ctl w) |> <| hw := h4 |>))).
  rewrite leave_ignore by done. done.
Qed.

(** on a chip with no other traffic, [setCommandByte(set, clear)] and a
    request with kPS2C_ModifyCommandByte both return, report the old command
    byte and leave the chip with [(old | set) & ~clear], touching nothing
    else of the controller or the drivers. *)
Theorem command_byte_two_ways w sb cb :
  ready (ctl w) -> quiet (hw w) -> _hardwareOffline (ctl w) = false ->
  exists h1 h2 r,
    setCommandByte callInterrupt fuel sb cb w = Done (cb_of (hw w), w <| hw := h1 |>) /\
    processRequest callInterrupt callCompletion fuel (stack_request [modify_cmd sb cb]) w =
      Done (r, w <| hw := h2 |>) /\
    oldBits <$> commands r !! 0%nat = Some (cb_of (hw w)) /\
    cb_of h1 = new_cb (cb_of (hw w)) sb cb /\ cb_of h2 = new_cb (cb_of (hw w)) sb cb.
Proof.
  intros Hr Hq Hoff. destruct (setCommandByte_ok w sb cb Hr Hq) as (h1 & E1 & _ & H1).
  destruct (modify_request_ok w sb cb Hr Hq Hoff) as (h2 & E2 & _ & H2).
  do 3 eexists. split; [exact E1|]. split; [exact E2|]. split; [|done]. simpl.
  unfold oldBits, set_oldBits. rewrite union_byte_set by lia. simpl.
  by rewrite u8_id by (by apply cb_u8).
Qed.
End cmdbyte.

(** ** Requests

    [exec_seq cs s]: the commands [cs] one after the other up to the first
    that fails, what a request means. *)
Fixpoint exec_seq (cs : list PS2Command) (s : CmdState) : M W (CmdState * bool) :=
  match cs with
  | [] => mret (s, false)
  | c :: cs =>
      '(_, s, failed) ← exec_command callInterrupt fuel c s;
      if failed : bool then mret (s, true) else exec_seq cs s
  end.

(** [cmds_done i s r w j s' r' w']: commands [i .. j-1] of [r] ran, none
    failed. *)
Inductive cmds_done : Z -> CmdState -> PS2Request -> W ->
                      Z -> CmdState -> PS2Request -> W -> Prop :=
| cmds_done_nil i s r w : cmds_done i s r w i s r w
| cmds_done_cons i s r w c c' s1 w1 j s' r' w' :
    commands r !! Z.to_nat i = Some c ->
    exec_command callInterrupt fuel c s w = Done ((c', s1, false), w1) ->
    cmds_done (i + 1) s1 (r <| commands := <[Z.to_nat i := c']> (commands r) |>) w1 j s' r' w' ->
    cmds_done i s r w j s' r' w'.

(** Command [j] of [r] ran and failed. *)
Definition cmd_fails (j : Z) (s : CmdState) (r : PS2Request) w (r' : PS2Request) w' : Prop :=
  exists c c' s', commands r !! Z.to_nat j = Some c /\
    exec_command callInterrupt fuel c s w = Done ((c', s', true), w') /\
    r' = r <| commands := <[Z.to_nat j := c']> (commands r) |>.

Lemma commands_loop_inv k i s r w failed j r' w' :
  0 <= i -> commands_loop callInterrupt fuel k i s r w = Done ((failed, j, r'), w') ->
  exists s1 r1 w1, cmds_done i s r w j s1 r1 w1 /\
    if failed : bool then i <= j < i + Z.of_nat k /\ cmd_fails j s1 r1 w1 r' w'
    else j = i + Z.of_nat k /\ r' = r1 /\ w' = w1.
Proof.
  revert i s r w. induction k as [|k IH]; intros i s r w Hi; simpl.
  { intros [= <- <- <- <-]. exists s, r, w. split; [constructor|]. split; [lia|done]. }
  intros (c & w0 & E0 & E)%bind_done_inv.
  unfold lift in E0. destruct (aget (commands r) i) as [c0| |] eqn:Ec; [|done|done].
  injection E0 as -> ->. apply aget_inv in Ec as [_ Ec].
  apply bind_done_inv in E as ([[c' s'] f] & w1 & E1 & E).
  apply bind_done_inv in E as (cs & w2 & E2 & E).
  unfold lift in E2. destruct (aset (commands r) i c') as [l| |] eqn:El; [|done|done].
  injection E2 as <- <-. apply aset_inv in El as [_ ->].
  destruct f.
  - injection E as <- <- <- <-. exists s, r, w0. split; [constructor|]. split; [lia|].
    by exists c, c', s'.
  - apply IH in E as (s1 & r1 & w3 & Hd & E); [|lia].
    exists s1, r1, w3. split; [by eapply cmds_done_cons|].
    destruct failed; [destruct E as [? ?]; split; [lia|done]|destruct E as [? ?]; split; [lia|done]].
Qed.

Lemma cmds_done_frame i s r w j s' r' w' :
  cmds_done i s r w j s' r' w' ->
  commandsCount r' = commandsCount r /\ completionTarget r' = completionTarget r /\
  length (commands r') = length (commands r).
Proof.
  induction 1 as [|i s r w c c' s1 w1 j s' r' w' Hc E Hd IH]; [done|].
  destruct IH as (-> & -> & ->). simpl. by rewrite length_insert.
Qed.

(** A request run as a sequence. *)
Lemma commands_loop_seq cs pre s r w :
  commands r = pre ++ cs ->
  (fun '((f, _, _), w) => (f, w)) <$>
    commands_loop callInterrupt fuel (length cs) (Z.of_nat (length pre)) s r w =
  (fun '((_, f), w) => (f, w)) <$> exec_seq cs s w.
Proof.
  revert pre s r w. induction cs as [|c cs IH]; intros pre s r w Hr; [done|].
  cbn [length commands_loop exec_seq]. unfold mbind, M_bind, lift.
  rewrite (aget_lookup _ _ c); [|lia|]; cycle 1.
  { rewrite Hr, Nat2Z.id. rewrite lookup_app_r by lia. by rewrite Nat.sub_diag. }
  destruct (exec_command callInterrupt fuel c s w) as [[[[c' s'] f] w']| |]; [|done|done].
  rewrite aset_ok by (rewrite Hr, length_app; simpl; lia).
  destruct f; [done|]. rewrite Nat2Z.id, Hr.
  replace (Z.of_nat (length pre) + 1) with (Z.of_nat (length (pre ++ [c'])))
    by (rewrite length_app; simpl; lia).
  apply IH. simpl. rewrite insert_app_r_alt by lia. rewrite Nat.sub_diag. simpl.
  by rewrite <- app_assoc.
Qed.

(** The composite mouse command and its expansion. *)
Definition composite (v : Z) : list PS2Command := [cmd kPS2C_SendMouseCommandAndCompareAck v].
Definition expansion (v : Z) : list PS2Command :=
  [cmd kPS2C_WriteCommandPort kCP_TransmitToMouse; cmd kPS2C_WriteDataPort v;
   cmd kPS2C_ReadDataPortAndCompare kSC_Acknowledge].

Lemma composite_seq v s w :
  transmitToMouse s = false -> exec_seq (composite v) s w = exec_seq (expansion v) s w.
Proof.
  intros Hs. unfold composite, expansion. cbn [exec_seq].
  unfold exec_command. cbn [command cmd]. rewrite !inOrOut_cmd.
  change (u8 kCP_TransmitToMouse) with kCP_TransmitToMouse.
  change (u8 kSC_Acknowledge) with kSC_Acknowledge. rewrite Hs. munfold.
  destruct (writeCommandPort fuel kCP_TransmitToMouse w) as [[[] w1]| |]; [|done|done].
  rewrite Z.eqb_refl. cbn [deviceMode transmitToMouse].
  destruct (writeDataPort fuel (u8 v) w1) as [[[] w2]| |]; [|done|done].
  cbn [deviceMode].
  destruct (readDataPortExpect callInterrupt fuel kDT_Mouse kSC_Acknowledge w2) as [[b w3]| |];
    [|done|done].
  by destruct (negb (b =? kSC_Acknowledge)).
Qed.

(** ** Draining the ports at interrupt time

    [drains h l h']: the handler finds the bytes [l], then no more. *)
Inductive drains : H -> list (PS2DeviceType * Z) -> H -> Prop :=
| drains_nil h st h' :
    inb kCommandPort (IODelay kDataDelay h) = (st, h') -> anyset (u8 st) kOutputReady = false ->
    drains h [] h'
| drains_cons h st h1 b h2 l h' :
    inb kCommandPort (IODelay kDataDelay h) = (st, h1) -> anyset (u8 st) kOutputReady = true ->
    inb kDataPort (IODelay kDataDelay h1) = (b, h2) -> drains h2 l h' ->
    drains h ((if anyset (u8 st) kMouseData then kDT_Mouse else kDT_Keyboard, u8 b) :: l) h'.

(** Hand the bytes over in order; the devices whose driver completed a packet. *)
Fixpoint hand_all (l : list (PS2DeviceType * Z)) w : list PS2DeviceType * W :=
  match l with
  | [] => ([], w)
  | (d, b) :: l =>
      let '(r, w) := hand d b w in
      let '(ds, w) := hand_all l w in
      (match r with kPS2IR_packetReady => d :: ds | kPS2IR_packetBuffering => ds end, w)
  end.

Definition wakes (d : PS2DeviceType) (ds : list PS2DeviceType) : bool := bool_decide (d ∈ ds).

Lemma hand_all_hw l w h : hand_all l (w <| hw := h |>) = ((hand_all l w).1, (hand_all l w).2 <| hw := h |>).
Proof.
  revert w. induction l as [|[d b] l IH]; intros w; simpl; [done|].
  rewrite hand_hw. destruct (hand d b w) as [r w1]; simpl. rewrite IH.
  by destruct (hand_all l w1).
Qed.

Lemma hand_all_ctl l w : ctl (hand_all l w).2 = ctl w.
Proof.
  revert w. induction l as [|[d b] l IH]; intros w; simpl; [done|].
  pose proof (hand_ctl d b w). destruct (hand d b w) as [r w1]; simpl in *.
  specialize (IH w1). destruct (hand_all l w1); simpl in *. congruence.
Qed.

Lemma hand_int d b w : int_enabled (hand d b w).2 = int_enabled w.
Proof. unfold hand. destruct (installed d (ctl w)) as [[a t]|]; [|done]. by destruct (callInterrupt _ _ _ _). Qed.

Lemma hand_all_source l w d :
  ctl_wf (ctl w) -> wakes d (hand_all l w).1 = true -> source_of d (ctl w) = true.
Proof.
  intros Hwf Hd. apply bool_decide_eq_true in Hd. revert w Hwf Hd.
  induction l as [|[d' b] l IH]; intros w Hwf; simpl; [by intros ?%elem_of_nil|].
  pose proof (hand_ctl d' b w) as Hc. pose proof (hand_ready_source d' b w Hwf) as Hs.
  destruct (hand d' b w) as [r w1]; simpl in *. specialize (IH w1).
  rewrite Hc in IH. destruct (hand_all l w1) as [ds w2]; simpl in *.
  destruct r; [|by auto]. intros [->|Hin]%elem_of_cons; auto.
Qed.

Lemma wakes_cons d d' r ds :
  wakes d (match r with kPS2IR_packetReady => d' :: ds | kPS2IR_packetBuffering => ds end) =
    (bool_decide (d = d') && bool_decide (kPS2IR_packetReady = r)) || wakes d ds.
Proof.
  unfold wakes. destruct r; simpl; [|by rewrite andb_false_r].
  rewrite andb_true_r, <- bool_decide_or. apply bool_decide_ext. set_solver.
Qed.

Lemma handle_loop_ok k l w h' wm wk :
  drains (hw w) l h' -> ctl_wf (ctl w) -> (length l < k)%nat ->
  handleInterrupt_loop callInterrupt k wm wk w =
    Done ((wm || wakes kDT_Mouse (hand_all l w).1, wk || wakes kDT_Keyboard (hand_all l w).1),
          (hand_all l w).2 <| hw := h' |>).
Proof.
  intros Hd. remember (hw w) as h eqn:Eh. revert k w wm wk Eh.
  induction Hd as [h st h' E Hr|h st h1 b h2 l h' E Hr E2 Hd IH];
    intros [|k] w wm wk -> Hwf Hk; simpl in Hk; try lia; cbn [handleInterrupt_loop];
    unfold delay, inb_; munfold; simpl; rewrite E, Hr; simpl.
  { rewrite !orb_false_r. by destruct w. }
  rewrite E2. simpl.
  assert (Ew : w <| int_enabled := false |> <| hw := IODelay kDataDelay (hw w) |> <| hw := h1 |>
     <| hw := IODelay kDataDelay h1 |> <| hw := h2 |> <| int_enabled := int_enabled w |> = w <| hw := h2 |>)
    by (by destruct w).
  rewrite Ew. set (d := if anyset (u8 st) kMouseData then kDT_Mouse else kDT_Keyboard).
  pose proof (hand_ctl d (u8 b) w) as Hc.
  destruct (hand d (u8 b) w) as [r w1] eqn:Ehd. simpl in Hc.
  pose proof (hand_all_hw l w1 h2) as Hall. destruct (hand_all l w1) as [ds w2] eqn:Eds.
  specialize (IH k (w1 <| hw := h2 |>)). simpl in IH. rewrite Hc, Hall in IH. simpl in *.
  rewrite !wakes_cons. unfold d in *. clear d.
  destruct (anyset (u8 st) kMouseData); rewrite hand_ok, hand_hw, Ehd by done; simpl;
    rewrite IH by (done || lia); do 3 f_equal; simpl; rewrite ?orb_assoc; f_equal; by rewrite orb_comm.
Qed.

(** ** The theorems *)

(** C18: [readDataPort] ends on every chip that presents finitely many bytes and
    then stays silent, and does what [ref_read] says: the bytes of the other
    device that come first reach that device's driver in order, the first byte
    of the requested device is returned, and after 10000 fruitless polls in
    all the fake value 0 is returned and the timeout is logged. *)
Theorem readDataPort_refines d w items h1 :
  stream (hw w) items h1 -> quiet_for timeoutCounter0 h1 ->
  ctl_wf (ctl w) -> _suppressTimeout (ctl w) = false -> (length items < fuel)%nat ->
  exists l r h', ref_read d timeoutCounter0 (hw w) l r h' /\
    readDataPort callInterrupt fuel d w =
      Done (default 0 r, log_timeout d r
        ((deliver_all ((fun b => (other_device d, b)) <$> l) w) <| hw := h' |>)).
Proof.
  intros Hs Hq Hwf Hsup Hf. destruct (ref_read_total d _ _ _ _ Hs Hq) as (l & r & h' & Hr & Hl).
  exists l, r, h'. split; [done|]. unfold readDataPort. apply read_loop_ok; try done. lia.
Qed.

(** C19: [readDataPort(deviceType, expectedByte)] ends on such a chip, follows
    [ref_expect], and conserves the data: every byte it takes from the port is
    either handed to a driver's interrupt handler or returned, exactly once. *)
Theorem readDataPortExpect_conserves d e w items h1 :
  stream (hw w) items h1 -> quiet_for timeoutCounter0 h1 ->
  ctl_wf (ctl w) -> _ignoreOutOfOrder (ctl w) = 0 -> (length items < fuel)%nat ->
  exists rd l r h', ref_expect d e timeoutCounter0 None (hw w) rd l r h' /\
    readDataPortExpect callInterrupt fuel d e w =
      Done (default 0 r, log_timeout d r ((deliver_all l w) <| hw := h' |>)) /\
    rd ≡ₚ snd <$> l ++ ((fun x => (d, x)) <$> option_list r).
Proof.
  intros Hs Hq Hwf Hig Hf.
  destruct (ref_expect_total d e _ None _ _ _ Hs Hq) as (rd & l & r & h' & Hr & Hl).
  exists rd, l, r, h'. split; [done|]. split; [|by apply (ref_expect_conserves _ _ _ None _ _ _ _ _ Hr)].
  unfold readDataPortExpect. apply (expect_loop_ok d e fuel timeoutCounter0 None w rd); try done. lia.
Qed.

(** the out-of-order correction: when an asynchronous byte [b] of the
    addressed device overtakes the expected answer [e], the answer is returned
    and [b] still reaches the driver, after the read. *)
Theorem second_chance d e w n st b h1 n' st' h2 :
  presents (hw w) n st b h1 -> presents h1 n' st' e h2 ->
  on_stream d (mkItem n st b) = true -> on_stream d (mkItem n' st' e) = true -> b <> e ->
  Z.of_nat (n + n') < 10000 -> (2 < fuel)%nat ->
  ctl_wf (ctl w) -> _ignoreOutOfOrder (ctl w) = 0 ->
  readDataPortExpect callInterrupt fuel d e w = Done (e, (deliver d b w) <| hw := h2 |>).
Proof.
  intros Hp Hp' Hs Hs' Hne Hn Hf Hwf Hig. unfold readDataPortExpect.
  rewrite (expect_loop_ok d e fuel timeoutCounter0 None w [b; e] [(d, b)] (Some e) h2); try done.
  eapply ref_expect_hold; [exact Hp| |done|done|]; [unfold timeoutCounter0; lia|].
  eapply ref_expect_hit_held; [exact Hp'| |done]. unfold timeoutCounter0. lia.
Qed.

(** The reported [commandsCount] tells how far a request got.  When a run
    on powered hardware returns, either every command was executed and the
    count is unchanged, or the count is the zero-based index [j] of the
    command that failed, the commands before it succeeded and none after it
    was started. *)
Theorem request_reports_index r w r' w' :
  _hardwareOffline (ctl w) = false -> completionTarget r = kStackCompletionTarget ->
  is_u8 (commandsCount r) ->
  processRequest callInterrupt callCompletion fuel r w = Done (r', w') ->
  exists j s1 r1 w1,
    cmds_done 0 (mkCmdState kDT_Keyboard false) r (w <| ctl := ignore_up (ctl w) |>) j s1 r1 w1 /\
    ((j = commandsCount r /\ r' = r1 /\ w' = w1 <| ctl := ignore_down (ctl w1) |>) \/
     (j < commandsCount r /\ commandsCount r' = j /\
      exists r2 w2, cmd_fails j s1 r1 w1 r2 w2 /\ commands r' = commands r2 /\
        w' = w2 <| ctl := ignore_down (ctl w2) |>)).
Proof.
  intros Hoff Htgt Hcnt. unfold processRequest, getc, setc. munfold. rewrite Hoff. cbn beta iota.
  fold (ignore_up (ctl w)).
  destruct (commands_loop _ _ _ _ _ _ _) as [[[[f j] r0] w0]| |] eqn:E; [|done|done].
  apply commands_loop_inv in E as (s1 & r1 & w1 & Hd & E); [|lia].
  pose proof (cmds_done_frame _ _ _ _ _ _ _ _ Hd) as (Hc1 & Ht1 & _).
  unfold finish_request. destruct f.
  - destruct E as (Hj & c & c' & s' & Hl & Ee & ->). simpl. rewrite Ht1, Htgt. intros [= <- <-].
    exists j, s1, r1, w1. split; [done|]. right. simpl. unfold is_u8 in Hcnt.
    split; [lia|]. split; [apply u8_id; unfold is_u8; lia|].
    do 2 eexists. split; [by exists c, c', s'|done].
  - destruct E as (-> & -> & ->). rewrite Ht1, Htgt. intros [= <- <-].
    do 4 eexists. split; [done|]. left. unfold is_u8 in Hcnt. split; [lia|done].
Qed.


(** An interrupt empties the ports: every byte found is handed to the
    driver of the device it came from, in order, the work loop is woken once
    per device that completed a packet, and the processor's interrupt flag is
    what it was. *)
Lemma handleInterrupt_ok d w l h' :
  drains (hw w) l h' -> ctl_wf (ctl w) -> (length l < fuel)%nat ->
  handleInterrupt callInterrupt fuel d w =
    let ds := (hand_all l w).1 in
    let w1 := (hand_all l w).2 <| hw := h' |> in
    Done (tt, w1 <| evs := evs w1 ++ (if wakes kDT_Mouse ds then [EvSignal kDT_Mouse] else [])
                                  ++ (if wakes kDT_Keyboard ds then [EvSignal kDT_Keyboard] else []) |>).
Proof.
  intros Hd Hwf Hf. unfold handleInterrupt. munfold. rewrite (handle_loop_ok fuel l w h') by done.
  pose proof (hand_all_source l w kDT_Mouse Hwf) as Hm.
  pose proof (hand_all_source l w kDT_Keyboard Hwf) as Hk.
  pose proof (hand_all_ctl l w) as Hc. destruct (hand_all l w) as [ds w1]. simpl in *.
  unfold signal, getc, emit. munfold.
  destruct (wakes kDT_Mouse ds), (wakes kDT_Keyboard ds); simpl; rewrite ?Hc, ?Hm by done; simpl;
    rewrite ?Hc, ?Hk by done;
    simpl; rewrite ?app_nil_r, <- ?app_assoc; by destruct w1.
Qed.

(** A fire-and-forget request that was never started. *)
Definition abandoned (r : PS2Request) : PS2Request := r <| commandsCount := 0 |>.

Lemma offline_forM q w :
  _hardwareOffline (ctl w) = true -> Forall (fun r => completionTarget r = NullTarget) q ->
  forM_ q (fun r => processRequest callInterrupt callCompletion fuel r;; mret tt) w =
    Done (tt, w <| evs := evs w ++ (EvFreeRequest ∘ abandoned <$> q) |>).
Proof.
  intros Hoff Hq. revert w Hoff. induction Hq as [|r q Hr Hq IH]; intros w Hoff; simpl.
  { munfold. rewrite app_nil_r. by destruct w. }
  assert (E : processRequest callInterrupt callCompletion fuel r w =
    Done (abandoned r, w <| evs := evs w ++ [EvFreeRequest (abandoned r)] |>)).
  { unfold processRequest, getc. munfold. rewrite Hoff. unfold finish_request, emit. simpl.
    rewrite Hr. done. }
  munfold. rewrite E. cbn beta iota. rewrite IH by done. simpl. by rewrite <- app_assoc.
Qed.

Lemma offline_queue_ok w :
  _hardwareOffline (ctl w) = true -> _requestQueueLock (ctl w) = true ->
  Forall (fun r => completionTarget r = NullTarget) (_requestQueue (ctl w)) ->
  processRequestQueue callInterrupt callCompletion fuel w =
    Done (tt, w <| ctl := (ctl w) <| _requestQueue := [] |> |>
                <| evs := evs w ++ (EvFreeRequest ∘ abandoned <$> _requestQueue (ctl w)) |>).
Proof.
  intros Hoff Hlock Hq. unfold processRequestQueue, lockQueue, getc, setc. munfold.
  rewrite Hlock. cbn beta iota. by rewrite offline_forM.
Qed.

End spec.

(** ** A chip that never stops *)

(** A mouse that always has a byte ready. *)
#[local] Instance babble : PortIO unit := {|
  inb := fun p _ => (if p =? kCommandPort then 0x21 else 0, tt);
  outb := fun _ _ _ => tt;
  IODelay := fun _ _ => tt;
  IOSleep := fun _ _ => tt;
|}.

Definition flooded : World unit unit := mkWorld init tt tt true [].

(** the timeout of [readDataPort] only counts polls that find no data: when
    the other device keeps sending, a read of the keyboard never returns, for
    no number of iterations. *)
Theorem readDataPort_no_timeout_when_flooded callInterrupt fuel :
  readDataPort callInterrupt fuel kDT_Keyboard flooded = NoFuel.
Proof.
  unfold readDataPort. assert (E : exists n, timeoutCounter0 = S n) by (by exists (Z.to_nat 9999)).
  destruct E as [n ->]. induction fuel as [|k IH]; [done|].
  cbn [readDataPort_loop wait_ready]. exact IH.
Qed.

(** ** Concrete runs *)
Module Demo.
(** The drivers append what they receive to their log. *)
Definition call (a : positive) (t : option positive) (b : Z) (d : list (positive * Z)) :
  PS2InterruptResult * list (positive * Z) := (kPS2IR_packetReady, d ++ [(a, b)]).
Abbreviation DW := (World Chip.chip (list (positive * Z))).
Definition completion (a t : positive) (r : PS2Request) : M DW unit := mret tt.

(** Both drivers installed, work loop running. *)
Definition ctl0 : ApplePS2Controller :=
  init <| _workLoop := true |> <| _cmdGate := true |> <| _requestQueueLock := true |>
    <| _interruptSourceKeyboard := true |> <| _interruptSourceMouse := true |>
    <| _interruptSourceQueue := true |>
    <| _interruptActionKeyboard := Some 1%positive |> <| _packetActionKeyboard := Some 2%positive |>
    <| _interruptActionMouse := Some 3%positive |> <| _packetActionMouse := Some 4%positive |>
    <| _interruptInstalledKeyboard := true |> <| _interruptInstalledMouse := true |>.

Definition world (c : Chip.chip) : DW := mkWorld ctl0 c [] true [].

Lemma ctl0_wf : ctl_wf ctl0.
Proof. repeat split; simpl; eauto; done. Qed.

Lemma ctl0_ready : ready ctl0.
Proof. split; [apply ctl0_wf|done|done|]. unfold is_s32; simpl. lia. Qed.

(** A chip holding these visible bytes, [true] for the mouse. *)
Definition holding (l : list (bool * Z)) : Chip.chip :=
  Chip.mkChip 0x47 ((fun mb => (O, mb.1, mb.2)) <$> l) None 0 [] [] true.

Lemma holding_quiet n : quiet_for n (holding []).
Proof. exists (holding []). by apply Chip.chip_silent. Qed.
End Demo.

Lemma readDataPort_refines_witness :
  exists l r h', ref_read kDT_Mouse timeoutCounter0 (Demo.holding [(false, 0x21); (true, 0xFA)]) l r h' /\
    readDataPort Demo.call 5 kDT_Mouse (Demo.world (Demo.holding [(false, 0x21); (true, 0xFA)])) =
      Done (default 0 r, log_timeout kDT_Mouse r
        ((deliver_all Demo.call ((fun b => (kDT_Keyboard, b)) <$> l)
           (Demo.world (Demo.holding [(false, 0x21); (true, 0xFA)]))) <| hw := h' |>)).
Proof.
  apply (readDataPort_refines Demo.call 5 kDT_Mouse
    (Demo.world (Demo.holding [(false, 0x21); (true, 0xFA)]))
    [mkItem 0 0x01 0x21; mkItem 0 0x21 0xFA] (Demo.holding [])).
  - apply (Chip.chip_stream 0x47 [(false, 0x21); (true, 0xFA)] [] [] true).
    repeat constructor; simpl; lia.
  - apply Demo.holding_quiet.
  - apply Demo.ctl0_wf.
  - reflexivity.
  - simpl; lia.
Defined.

Lemma readDataPortExpect_conserves_witness :
  let w := Demo.world (Demo.holding [(false, 0x21); (true, 0x08); (false, 0xFA)]) in
  exists rd l r h', ref_expect kDT_Keyboard 0xFA timeoutCounter0 None (hw w) rd l r h' /\
    readDataPortExpect Demo.call 5 kDT_Keyboard 0xFA w =
      Done (default 0 r, log_timeout kDT_Keyboard r ((deliver_all Demo.call l w) <| hw := h' |>)) /\
    rd ≡ₚ snd <$> l ++ ((fun x => (kDT_Keyboard, x)) <$> option_list r).
Proof.
  intros w. apply (readDataPortExpect_conserves Demo.call 5 kDT_Keyboard 0xFA w
    [mkItem 0 0x01 0x21; mkItem 0 0x21 0x08; mkItem 0 0x01 0xFA] (Demo.holding [])).
  - apply (Chip.chip_stream 0x47 [(false, 0x21); (true, 0x08); (false, 0xFA)] [] [] true).
    repeat constructor; simpl; lia.
  - apply Demo.holding_quiet.
  - apply Demo.ctl0_wf.
  - reflexivity.
  - simpl; lia.
Defined.

Lemma second_chance_witness :
  let w := Demo.world (Demo.holding [(false, 0x21); (false, 0xFA)]) in
  readDataPortExpect Demo.call 5 kDT_Keyboard 0xFA w =
    Done (0xFA, (deliver Demo.call kDT_Keyboard 0x21 w) <| hw := Demo.holding [] |>).
Proof.
  intros w. apply (second_chance Demo.call 5 kDT_Keyboard 0xFA w 0 0x01 0x21
    (Demo.holding [(false, 0xFA)]) 0 0x01 (Demo.holding [])).
  - apply (Chip.chip_presents 0x47 false 0x21 _ [] [] true). unfold is_u8; lia.
  - apply (Chip.chip_presents 0x47 false 0xFA [] [] [] true). unfold is_u8; lia.
  - reflexivity.
  - reflexivity.
  - lia.
  - simpl; lia.
  - lia.
  - apply Demo.ctl0_wf.
  - reflexivity.
Defined.

Lemma request_reports_index_witness :
  let w := Demo.world (Demo.holding [(false, 0x21); (false, 0x22)]) in
  let r := stack_request [cmd kPS2C_ReadDataPort 0; cmd kPS2C_ReadDataPortAndCompare 0xFA;
                          cmd kPS2C_ReadDataPort 0] in
  exists r' w', processRequest Demo.call Demo.completion 5 r w = Done (r', w') /\
    exists j s1 r1 w1,
    cmds_done Demo.call 5 0 (mkCmdState kDT_Keyboard false) r (w <| ctl := ignore_up (ctl w) |>) j s1 r1 w1 /\
    ((j = commandsCount r /\ r' = r1 /\ w' = w1 <| ctl := ignore_down (ctl w1) |>) \/
     (j < commandsCount r /\ commandsCount r' = j /\
      exists r2 w2, cmd_fails Demo.call 5 j s1 r1 w1 r2 w2 /\ commands r' = commands r2 /\
        w' = w2 <| ctl := ignore_down (ctl w2) |>)).
Proof.
  intros w r. destruct (processRequest Demo.call Demo.completion 5 r w) as [[r' w']| |] eqn:E;
    [|vm_compute in E; discriminate E|vm_compute in E; discriminate E].
  exists r', w'. split; [reflexivity|].
  apply (request_reports_index Demo.call Demo.completion 5 r w r' w');
    [reflexivity|reflexivity|unfold is_u8; simpl; lia|exact E].
Defined.


Lemma command_byte_two_ways_witness :
  let w := Demo.world (Chip.idle 0x47) in
  exists h1 h2 r,
    setCommandByte Demo.call 5 0x10 0x01 w = Done (0x47, w <| hw := h1 |>) /\
    processRequest Demo.call Demo.completion 5 (stack_request [modify_cmd 0x10 0x01]) w =
      Done (r, w <| hw := h2 |>) /\
    oldBits <$> commands r !! 0%nat = Some 0x47 /\
    cb_of h1 = new_cb 0x47 0x10 0x01 /\ cb_of h2 = new_cb 0x47 0x10 0x01.
Proof.
  intros w. refine (command_byte_two_ways (H := Chip.chip) Demo.call Demo.completion 5 _ w 0x10 0x01 _ _ _).
  - vm_compute. lia.
  - apply Demo.ctl0_ready.
  - repeat split; simpl; lia.
  - reflexivity.
Defined.
