(* ===== verification/Line.v ===== *)
(** * Line: what a request says to the devices

    The controller executes requests by polling ports.  Seen from the two devices
    a request is a conversation: bytes sent to one of them, bytes it answers
    with, in order.  [Line] is that view, without polls, delays, timeouts and
    fuel: the two devices, the command byte, and the bytes the devices have sent
    and the processor has not read.  [Talk] is the monad of conversations and
    [talk_request] the conversation of a request.

    [Wired] says what a chip does that connects the two devices; the theorem is
    that processRequest, with its polling loops and its out-of-order correction,
    carries out exactly the conversation.  [Wires] is an executable chip with
    any two devices behind it. *)

From S2P Require Import Prelude PS2Defs PortIO Controller ControllerSpec.

(** ** Devices and the line *)

(** A device hears a byte and answers with bytes. *)
Class Device (T : Type) := react : T -> Z -> T * list Z.

Record Line (K A : Type) := mkLine {
  kbd_dev : K;
  aux_dev : A;
  line_cb : Z;                              (* the command byte *)
  awaiting : option Z;                      (* a command whose data byte is to come *)
  sent : list (PS2DeviceType * Z);          (* sent by the devices, not yet read *)
}.
Arguments mkLine {K A} _ _ _ _ _.
Arguments kbd_dev {K A} _.
Arguments aux_dev {K A} _.
Arguments line_cb {K A} _.
Arguments awaiting {K A} _.
Arguments sent {K A} _.
#[export] Instance Line_eta K A : Settable (Line K A) := mkSettable _ (fun l => mkLine (kbd_dev l) (aux_dev l) (line_cb l) (awaiting l) (sent l)).

(** What passes while a request runs besides its own data: bytes that go to the
    drivers, timeouts, and requests that are freed. *)
Inductive Happening :=
| Handed (d : PS2DeviceType) (b : Z)
| TimedOut (d : PS2DeviceType)
| Freed (r : PS2Request).

Section line.
  Context {K A : Type} `{Device K} `{Device A}.
  Abbreviation L := (Line K A).

Definition says (d : PS2DeviceType) (bs : list Z) (l : L) : L := l <| sent := sent l ++ ((fun b => (d, u8 b)) <$> bs) |>.

(** A byte written to the command port: the three commands requests use. *)
Definition command_written (v : Z) (l : L) : option L :=
  match awaiting l with
  | Some _ => None
  | None =>
      if v =? kCP_GetCommandByte then Some (says kDT_Keyboard [line_cb l] l)
      else if (v =? kCP_SetCommandByte) || (v =? kCP_TransmitToMouse) then Some (l <| awaiting := Some v |>)
      else None
  end.

(** A byte written to the data port: for the command that waits for it, or for
    the keyboard. *)
Definition data_written (v : Z) (l : L) : L :=
  match awaiting l with
  | Some c =>
      let l := l <| awaiting := None |> in
      if c =? kCP_SetCommandByte then l <| line_cb := v |>
      else let '(a, bs) := react (aux_dev l) v in says kDT_Mouse bs (l <| aux_dev := a |>)
  | None => let '(k, bs) := react (kbd_dev l) v in says kDT_Keyboard bs (l <| kbd_dev := k |>)
  end.

(** The first byte of [d]: what passes by before it, the byte, what stays. *)
Fixpoint first_of (d : PS2DeviceType) (q : list (PS2DeviceType * Z)) : list Z * option Z * list (PS2DeviceType * Z) :=
  match q with
  | [] => ([], None, [])
  | (d', b) :: q =>
      if decide (d' = d) then ([], Some b, q)
      else let '(passed, r, q) := first_of d q in (b :: passed, r, q)
  end.

(** The same with an expected byte, which may be the second of its device. *)
Fixpoint first_or_next (d : PS2DeviceType) (e : Z) (held : option Z) (q : list (PS2DeviceType * Z))
  : list (PS2DeviceType * Z) * option Z * list (PS2DeviceType * Z) :=
  match q with
  | [] => ([], held, [])
  | (d', b) :: q =>
      if decide (d' = d) then
        match held with
        | None => if b =? e then ([], Some b, q) else first_or_next d e (Some b) q
        | Some f => if b =? e then ([(d, f)], Some b, q) else ([(d, b)], Some f, q)
        end
      else let '(passed, r, q) := first_or_next d e held q in ((d', b) :: passed, r, q)
  end.

(** ** Conversations *)

Definition Talk (T : Type) : Type := L -> option (T * L * list Happening).

#[global] Instance Talk_ret : MRet Talk := fun T a l => Some (a, l, []).
#[global] Instance Talk_bind : MBind Talk := fun T U f m l =>
  match m l with
  | Some (a, l, hs) => match f a l with Some (b, l, hs') => Some (b, l, hs ++ hs') | None => None end
  | None => None
  end.

(** Beyond what is described here. *)
Definition unheard {T} : Talk T := fun _ => None.
Definition tell (hs : list Happening) : Talk unit := fun l => Some (tt, l, hs).
Definition have {T} (o : outcome T) : Talk T := fun l => match o with Done a => Some (a, l, []) | _ => None end.

(** At most this many bytes wait to be read, what a device can buffer. *)
Definition capacity : nat := 16.

Definition timed_out (d : PS2DeviceType) (r : option Z) : list Happening := match r with Some _ => [] | None => [TimedOut d] end.

Definition hear (d : PS2DeviceType) : Talk Z := fun l =>
  if (capacity <? length (sent l))%nat then None
  else let '(passed, r, q) := first_of d (sent l) in
       Some (default 0 r, l <| sent := q |>, (Handed (other_device d) <$> passed) ++ timed_out d r).

Definition hear_expected (d : PS2DeviceType) (e : Z) : Talk Z := fun l =>
  if (capacity <? length (sent l))%nat then None
  else let '(passed, r, q) := first_or_next d e None (sent l) in
       Some (default 0 r, l <| sent := q |>, ((fun x => Handed x.1 x.2) <$> passed) ++ timed_out d r).

Definition say_command (v : Z) : Talk unit := fun l => l ← command_written v l; Some (tt, l, []).
Definition say_data (v : Z) : Talk unit := fun l => if (0 <=? v) && (v <? 256) then Some (tt, data_written v l, []) else None.

(** What a command of a request says and hears. *)
Definition talk_command (c : PS2Command) (s : CmdState) : Talk (PS2Command * CmdState * bool) :=
  match command c with
  | kPS2C_ReadDataPort => b ← hear (deviceMode s); mret (set_inOrOut b c, s, false)
  | kPS2C_ReadDataPortAndCompare =>
      b ← hear_expected (deviceMode s) (inOrOut c); mret (set_inOrOut b c, s, negb (b =? inOrOut c))
  | kPS2C_WriteDataPort =>
      say_data (inOrOut c);;
      mret (c, if transmitToMouse s then mkCmdState kDT_Mouse false else mkCmdState kDT_Keyboard (transmitToMouse s), false)
  | kPS2C_WriteCommandPort =>
      say_command (inOrOut c);;
      mret (c, if inOrOut c =? kCP_TransmitToMouse then mkCmdState (deviceMode s) true else s, false)
  | kPS2C_SendMouseCommandAndCompareAck =>
      say_command kCP_TransmitToMouse;; say_data (inOrOut c);;
      b ← hear_expected kDT_Mouse kSC_Acknowledge;
      mret (c, mkCmdState kDT_Mouse (transmitToMouse s), negb (b =? kSC_Acknowledge))
  | kPS2C_ReadMouseDataPort => b ← hear kDT_Mouse; mret (set_inOrOut b c, mkCmdState kDT_Mouse (transmitToMouse s), false)
  | kPS2C_ReadMouseDataPortAndCompare =>
      b ← hear_expected kDT_Mouse (inOrOut c);
      mret (c, mkCmdState kDT_Mouse (transmitToMouse s), negb (b =? inOrOut c))
  | kPS2C_FlushDataPort => unheard      (* depends on how fast the devices are *)
  | kPS2C_SleepMS => mret (c, s, false)
  | kPS2C_ModifyCommandByte =>
      say_command kCP_GetCommandByte;;
      b ← hear kDT_Keyboard;
      say_command kCP_SetCommandByte;;
      say_data (clear (Z.lor b (setBits c)) (clearBits c));;
      mret (set_oldBits b c, s, false)
  end.

Fixpoint talk_loop (k : nat) (index : Z) (s : CmdState) (r : PS2Request) : Talk (bool * Z * PS2Request) :=
  match k with
  | O => mret (false, index, r)
  | S k =>
      c ← have (aget (commands r) index);
      '(c', s', failed) ← talk_command c s;
      cs ← have (aset (commands r) index c');
      let r := r <| commands := cs |> in
      if failed : bool then mret (true, index, r) else talk_loop k (index + 1) s' r
  end.

(** A request with no completion routine. *)
Definition talk_request (r : PS2Request) : Talk PS2Request :=
  '(failed, index, r) ← talk_loop (Z.to_nat (commandsCount r)) 0 (mkCmdState kDT_Keyboard false) r;
  let r := if failed : bool then r <| commandsCount := u8 index |> else r in
  match completionTarget r, completionAction r with
  | Target _, Some _ => unheard
  | kStackCompletionTarget, _ => mret r
  | _, _ => tell [Freed r];; mret r
  end.

Fixpoint talk_requests (rs : list PS2Request) : Talk unit :=
  match rs with
  | [] => mret tt
  | r :: rs => talk_request r;; talk_requests rs
  end.
End line.

(** ** A chip that connects two devices *)

Class Wired (H : Type) `{PortIO H} (K A : Type) `{Device K} `{Device A} := {
  wired : H -> Line K A -> Prop;
  latency : nat;                            (* polls until a byte is visible *)
  busy_time : nat;                          (* polls until a byte is taken *)
  latency_small : Z.of_nat (capacity * latency) < 10000;
  wired_accepts : forall h l, wired h l -> exists n h', (n < busy_time)%nat /\ accepts n h h' /\ wired h' l /\
    (forall v l', command_written v l = Some l' -> wired (outb kCommandPort v h') l') /\
    (forall v, is_u8 v -> wired (outb kDataPort v h') (data_written v l));
  wired_presents : forall h l d b q, wired h l -> sent l = (d, b) :: q ->
    exists n st h', (n <= latency)%nat /\ presents h n st b h' /\ anyset st kMouseData = is_mouse d /\ wired h' (l <| sent := q |>);
  wired_silent : forall h l c, wired h l -> sent l = [] -> exists h', silent c h h' /\ wired h' l;
  wired_sleep : forall h l ms, wired h l -> wired (IOSleep ms h) l;
}.

Create HintDb talk.

Section carried_out.
  Context {H D : Type} `{PortIO H} {K A : Type} `{Device K} `{Device A} `{!Wired H K A}.
  Abbreviation W := (World H D).
  Context (callInterrupt : positive -> option positive -> Z -> D -> PS2InterruptResult * D).
  Context (callCompletion : positive -> positive -> PS2Request -> M W unit).
  Context (fuel : nat) (Hfuel : (capacity + busy_time < fuel)%nat).
  Implicit Types (w : W) (h : H) (l : Line K A).

(** What happens to the drivers and the trace. *)
Definition happen w (x : Happening) : W :=
  match x with
  | Handed d b => deliver callInterrupt d b w
  | TimedOut d => w <| evs := evs w ++ [EvLogTimeout d] |>
  | Freed r => w <| evs := evs w ++ [EvFreeRequest r] |>
  end.
Definition happen_all (hs : list Happening) w : W := fold_left happen hs w.

Lemma happen_hw x w h : happen (w <| hw := h |>) x = (happen w x) <| hw := h |>.
Proof. destruct x; [apply deliver_hw|done|done]. Qed.
Lemma happen_ctl x w : ctl (happen w x) = ctl w.
Proof. destruct x; [apply deliver_ctl|done|done]. Qed.
Lemma happen_all_hw hs w h : happen_all hs (w <| hw := h |>) = (happen_all hs w) <| hw := h |>.
Proof. revert w. induction hs as [|x hs IH]; intros w; [done|]. unfold happen_all in *. simpl. by rewrite happen_hw, IH. Qed.
Lemma happen_all_ctl hs w : ctl (happen_all hs w) = ctl w.
Proof. revert w. induction hs as [|x hs IH]; intros w; [done|]. unfold happen_all in *. simpl. by rewrite IH, happen_ctl. Qed.
Lemma happen_all_app hs hs' w : happen_all (hs ++ hs') w = happen_all hs' (happen_all hs w).
Proof. apply fold_left_app. Qed.
Lemma happen_handed bs w : happen_all ((fun x => Handed x.1 x.2) <$> bs) w = deliver_all callInterrupt bs w.
Proof. revert w. induction bs as [|[d b] bs IH]; intros w; [done|]. apply IH. Qed.

(** The drivers do not see the counter of ignored interrupts. *)
Lemma deliver_ignore d b w n : deliver callInterrupt d b (w <| ctl := (ctl w) <| _ignoreInterrupts := n |> |>) =
  (deliver callInterrupt d b w) <| ctl := (ctl w) <| _ignoreInterrupts := n |> |>.
Proof.
  unfold deliver, hand. change (installed d (ctl (w <| ctl := _ |>))) with (installed d (ctl w)).
  destruct (installed d (ctl w)) as [[a t]|]; [|done]. simpl. by destruct (callInterrupt a t b (drv w)) as [[] x].
Qed.
Lemma happen_all_ignore hs w n : happen_all hs (w <| ctl := (ctl w) <| _ignoreInterrupts := n |> |>) =
  (happen_all hs w) <| ctl := (ctl w) <| _ignoreInterrupts := n |> |>.
Proof.
  revert w. induction hs as [|x hs IH]; intros w; [done|]. unfold happen_all in *. simpl.
  replace (happen (w <| ctl := (ctl w) <| _ignoreInterrupts := n |> |>) x) with ((happen w x) <| ctl := (ctl (happen w x)) <| _ignoreInterrupts := n |> |>).
  - by rewrite IH, happen_ctl.
  - rewrite happen_ctl. destruct x; [symmetry; apply deliver_ignore|done|done].
Qed.

(** ** Reading *)

Lemma line_stream n st b d d' : anyset st kMouseData = is_mouse d' -> on_stream d (mkItem n st b) = bool_decide (d' = d).
Proof. intros Hs. unfold on_stream. simpl. rewrite Hs. by destruct d, d'. Qed.

Lemma read_line d q h l c : wired h l -> sent l = q -> (length q * latency < c)%nat ->
  let '(passed, r, q') := first_of d q in
  exists h', ref_read d c h passed r h' /\ wired h' (l <| sent := q' |>) /\ (length passed <= length q)%nat.
Proof.
  revert h l c. induction q as [|[d' b] q IH]; intros h l c Hw Hq Hc; cbn [first_of].
  - destruct (wired_silent h l c Hw Hq) as (h' & Hs & Hw'). exists h'. split; [by constructor|]. split; [|simpl; lia]. destruct l. simpl in *. by subst.
  - destruct (wired_presents h l d' b q Hw Hq) as (n & st & h1 & Hn & Hp & Hs & Hw1). simpl in Hc.
    pose proof (line_stream n st b d d' Hs) as Ho. destruct (decide (d' = d)) as [E|E].
    + exists h1. rewrite bool_decide_eq_true_2 in Ho by done. split; [eapply ref_read_got; [exact Hp|lia|done]|]. split; [done|simpl; lia].
    + rewrite bool_decide_eq_false_2 in Ho by done. specialize (IH h1 _ (c - n)%nat Hw1 eq_refl ltac:(lia)).
      destruct (first_of d q) as [[passed r] q']. destruct IH as (h' & Hr & Hw' & Hl). exists h'.
      split; [eapply ref_read_other; [exact Hp|lia|done|done]|]. split; [exact Hw'|simpl; lia].
Qed.

Lemma expect_line d e q h l c held : wired h l -> sent l = q -> (length q * latency < c)%nat ->
  let '(passed, r, q') := first_or_next d e held q in
  exists rd h', ref_expect d e c held h rd passed r h' /\ wired h' (l <| sent := q' |>) /\ (length rd <= length q)%nat.
Proof.
  revert h l c held. induction q as [|[d' b] q IH]; intros h l c held Hw Hq Hc; cbn [first_or_next].
  - destruct (wired_silent h l c Hw Hq) as (h' & Hs & Hw'). exists [], h'. split; [by constructor|]. split; [|simpl; lia]. destruct l. simpl in *. by subst.
  - destruct (wired_presents h l d' b q Hw Hq) as (n & st & h1 & Hn & Hp & Hs & Hw1). simpl in Hc.
    pose proof (line_stream n st b d d' Hs) as Ho. destruct (decide (d' = d)) as [E|E].
    + rewrite bool_decide_eq_true_2 in Ho by done. destruct held as [f|]; (destruct (Z.eqb_spec b e) as [->|Hne]).
      * exists [e], h1. split; [eapply ref_expect_hit_held; [exact Hp|lia|done]|]. split; [done|simpl; lia].
      * exists [b], h1. split; [eapply ref_expect_miss; [exact Hp|lia|done|done]|]. split; [done|simpl; lia].
      * exists [e], h1. split; [eapply ref_expect_hit; [exact Hp|lia|done]|]. split; [done|simpl; lia].
      * specialize (IH h1 _ (c - n)%nat (Some b) Hw1 eq_refl ltac:(lia)). destruct (first_or_next d e (Some b) q) as [[passed r] q'].
        destruct IH as (rd & h' & Hr & Hw' & Hl). exists (b :: rd), h'. split; [eapply ref_expect_hold; [exact Hp|lia|done|done|done]|].
        split; [exact Hw'|simpl; lia].
    + rewrite bool_decide_eq_false_2 in Ho by done. specialize (IH h1 _ (c - n)%nat held Hw1 eq_refl ltac:(lia)).
      destruct (first_or_next d e held q) as [[passed r] q']. destruct IH as (rd & h' & Hr & Hw' & Hl). exists (b :: rd), h'.
      replace d' with (other_device d) by (by destruct d, d').
      split; [eapply ref_expect_other; [exact Hp|lia|done|done]|]. split; [exact Hw'|simpl; lia].
Qed.

(** ** The judgement

    Whatever conversation [t] is, [m] carries it out and nothing else. *)
Record sound_ctl (c : ApplePS2Controller) : Prop := {
  so_wf : ctl_wf c;
  so_timeout : _suppressTimeout c = false;
  so_order : _ignoreOutOfOrder c = 0;
}.

Definition implements {T} (m : M W T) (t : Talk T) : Prop := forall w l a l' hs,
  sound_ctl (ctl w) -> wired (hw w) l -> t l = Some (a, l', hs) ->
  exists h', m w = Done (a, (happen_all hs w) <| hw := h' |>) /\ wired h' l'.

Lemma implements_ret {T} (a : T) : implements (mret a) (mret a).
Proof. intros w l b l' hs _ Hw [= <- <- <-]. exists (hw w). split; [by destruct w|done]. Qed.

Lemma implements_bind {T U} (m : M W T) t (f : T -> M W U) g :
  implements m t -> (forall a, implements (f a) (g a)) -> implements (m ≫= f) (t ≫= g).
Proof.
  intros Hm Hf w l b l' hs Hc Hw. unfold mbind at 1, Talk_bind at 1. destruct (t l) as [[[a l1] hs1]|] eqn:E1; [|done].
  destruct (g a l1) as [[[b' l2] hs2]|] eqn:E2; [|done]. intros [= <- <- <-].
  destruct (Hm w l a l1 hs1 Hc Hw E1) as (h1 & F1 & Hw1). rewrite (bind_done _ _ _ _ _ F1).
  destruct (Hf a ((happen_all hs1 w) <| hw := h1 |>) l1 b' l2 hs2) as (h2 & F2 & Hw2); [|done|done|].
  - simpl. by rewrite happen_all_ctl.
  - exists h2. rewrite F2, happen_all_app, happen_all_hw. done.
Qed.

Lemma implements_unheard {T} (m : M W T) : implements m unheard.
Proof. by intros w l a l' hs _ _ E. Qed.

Lemma implements_lift {T} (o : outcome T) : implements (lift o) (have o).
Proof. destruct o as [a| |]; [apply implements_ret|by intros w l b l' hs _ _ E..]. Qed.

Lemma implements_command v : implements (writeCommandPort fuel v) (say_command v).
Proof.
  intros w l [] l' hs _ Hw E. unfold say_command in E. destruct (command_written v l) as [l1|] eqn:E1; [|done]. injection E as <- <-.
  destruct (wired_accepts (hw w) l Hw) as (n & h1 & Hn & Ha & _ & Hcmd & _). eexists. split; [apply (writeCommandPort_ok fuel n w h1); [done|lia]|]. by apply Hcmd.
Qed.

Lemma implements_data v : implements (writeDataPort fuel v) (say_data v).
Proof.
  intros w l [] l' hs _ Hw E. unfold say_data in E. destruct ((0 <=? v) && (v <? 256)) eqn:Hv; [|done]. injection E as <- <-.
  destruct (wired_accepts (hw w) l Hw) as (n & h1 & Hn & Ha & _ & _ & Hdat). eexists. split; [apply (writeDataPort_ok fuel n w h1); [done|lia]|]. apply Hdat. bool_hyps. by split.
Qed.

Lemma happen_timeout d r w h : log_timeout d r (w <| hw := h |>) = (happen_all (timed_out d r) w) <| hw := h |>.
Proof. by destruct r. Qed.

Lemma line_polls l : (capacity <? length (sent l))%nat = false -> (length (sent l) * latency < timeoutCounter0)%nat /\ (length (sent l) < fuel)%nat.
Proof.
  intros Hl%Nat.ltb_ge. pose proof latency_small. unfold timeoutCounter0. split; [|lia].
  assert (length (sent l) * latency <= capacity * latency)%nat by (by apply Nat.mul_le_mono_r). lia.
Qed.

Lemma implements_read d : implements (readDataPort callInterrupt fuel d) (hear d).
Proof.
  intros w l a l' hs [Hwf Ht _] Hw E. unfold hear in E. destruct (capacity <? length (sent l))%nat eqn:El; [done|]. apply line_polls in El as [Hc Hf].
  pose proof (read_line d (sent l) (hw w) l timeoutCounter0 Hw eq_refl Hc) as Hr. destruct (first_of d (sent l)) as [[passed r] q].
  destruct Hr as (h' & Hr & Hw' & Hl). injection E as <- <- <-. exists h'. split; [|done]. unfold readDataPort.
  rewrite (read_loop_ok callInterrupt d fuel _ w passed r h') by (done || lia).
  rewrite happen_timeout, happen_all_app, <- (happen_handed ((fun b => (other_device d, b)) <$> passed)), <- list_fmap_compose. done.
Qed.

Lemma implements_expect d e : implements (readDataPortExpect callInterrupt fuel d e) (hear_expected d e).
Proof.
  intros w l a l' hs [Hwf _ Hi] Hw E. unfold hear_expected in E. destruct (capacity <? length (sent l))%nat eqn:El; [done|].
  apply line_polls in El as [Hc Hf].
  pose proof (expect_line d e (sent l) (hw w) l timeoutCounter0 None Hw eq_refl Hc) as Hr. destruct (first_or_next d e None (sent l)) as [[passed r] q].
  destruct Hr as (rd & h' & Hr & Hw' & Hl). injection E as <- <- <-. exists h'. split; [|done]. unfold readDataPortExpect.
  rewrite (expect_loop_ok callInterrupt d e fuel _ None w rd passed r h') by (done || lia).
  by rewrite happen_timeout, happen_all_app, happen_handed.
Qed.

Lemma implements_sleep {T} ms (a : T) : implements (sleep_ ms;; mret a) (mret a).
Proof. intros w l b l' hs _ Hw [= <- <- <-]. exists (IOSleep ms (hw w)). split; [done|]. by apply wired_sleep. Qed.

(** ** Requests *)

#[local] Hint Resolve implements_ret implements_lift implements_command implements_data implements_read implements_expect implements_sleep implements_unheard : talk.

Ltac talk := repeat first [apply implements_bind; [|intros ?] | solve [eauto with talk nocore]].

Lemma implements_exec c s : implements (exec_command callInterrupt fuel c s) (talk_command c s).
Proof.
  unfold exec_command, talk_command. destruct (command c); talk.
Qed.
#[local] Hint Resolve implements_exec : talk.

Lemma implements_loop k i s r : implements (commands_loop callInterrupt fuel k i s r) (talk_loop k i s r).
Proof.
  revert i s r. induction k as [|k IH]; intros i s r; cbn [commands_loop talk_loop]; [apply implements_ret|].
  apply implements_bind; [apply implements_lift|intros c]. apply implements_bind; [apply implements_exec|intros [[c' s'] failed]].
  apply implements_bind; [apply implements_lift|intros cs]. destruct failed; [apply implements_ret|apply IH].
Qed.

Lemma implements_finish failed i r : implements (finish_request callCompletion failed i r)
  (let r := if failed : bool then r <| commandsCount := u8 i |> else r in
   match completionTarget r, completionAction r with
   | Target _, Some _ => unheard
   | kStackCompletionTarget, _ => mret r
   | _, _ => tell [Freed r];; mret r
   end).
Proof.
  unfold finish_request. generalize (if failed then r <| commandsCount := u8 i |> else r). clear. intros r.
  assert (forall r, implements (emit (EvFreeRequest r);; mret r) (tell [Freed r];; mret r)) as Hfree.
  { intros r0. apply implements_bind; [|intros _; apply implements_ret]. intros w l [] l' hs _ Hw [= <- <-]. exists (hw w). split; [by destruct w|done]. }
  destruct (completionTarget r), (completionAction r); eauto using implements_ret, implements_unheard.
Qed.

(** Inside a request interrupts are ignored. *)
Lemma implements_ignored {T U} (m : M W T) t (k f : T -> M W U) g : implements m t -> (forall a, implements (f a) (g a)) ->
  (forall a w, k a w = (setc ignore_down;; f a) w) -> forall w l b l' hs,
  sound_ctl (ctl w) -> is_s32 (_ignoreInterrupts (ctl w)) -> wired (hw w) l -> (t ≫= g) l = Some (b, l', hs) ->
  exists h', (setc ignore_up;; m ≫= k) w = Done (b, (happen_all hs w) <| hw := h' |>) /\ wired h' l'.
Proof.
  intros Hm Hf Hk w l b l' hs Hc Hi Hw E. pose (w0 := w <| ctl := ignore_up (ctl w) |>). rewrite (bind_done _ _ w tt w0) by done.
  unfold mbind at 1, Talk_bind at 1 in E. destruct (t l) as [[[a l1] hs1]|] eqn:E1; [|done].
  destruct (g a l1) as [[[b' l2] hs2]|] eqn:E2; [|done]. injection E as <- <- <-.
  destruct (Hm w0 l a l1 hs1) as (h1 & F1 & Hw1); [by destruct Hc|done|done|]. rewrite (bind_done _ _ _ _ _ F1), Hk.
  pose (w1 := (happen_all hs1 w) <| hw := h1 |>). rewrite (bind_done _ _ _ tt w1).
  - destruct (Hf a w1 l1 b' l2 hs2) as (h2 & F2 & Hw2); [by simpl; rewrite happen_all_ctl|done|done|].
    exists h2. rewrite F2. unfold w1. by rewrite happen_all_app, happen_all_hw.
  - unfold setc, modify. unfold w0, ignore_up. rewrite happen_all_ignore. cbn [ctl]. unfold w1. simpl.
    fold (ignore_up (ctl w)). rewrite (ignore_up_down (ctl w) Hi). pose proof (happen_all_ctl hs1 w) as <-. by destruct (happen_all hs1 w).
Qed.

Lemma implements_request r w l r' l' hs : sound_ctl (ctl w) -> is_s32 (_ignoreInterrupts (ctl w)) -> _hardwareOffline (ctl w) = false ->
  wired (hw w) l -> talk_request r l = Some (r', l', hs) ->
  exists h', processRequest callInterrupt callCompletion fuel r w = Done (r', (happen_all hs w) <| hw := h' |>) /\ wired h' l'.
Proof.
  intros Hc Hi Ho Hw E. unfold processRequest, getc. rewrite (bind_done _ _ w false w) by (unfold gets; by rewrite Ho).
  refine (implements_ignored _ _ _ (fun '(failed, i, r) => finish_request callCompletion failed i r) _ (implements_loop _ 0 _ r) _ _ w l r' l' hs Hc Hi Hw E).
  - intros [[failed i] r1]. apply implements_finish.
  - by intros [[failed i] r1].
Qed.

(** A controller that takes requests. *)
Record able (c : ApplePS2Controller) : Prop := {
  ab_sound : sound_ctl c;
  ab_gate : _cmdGate c = true;
  ab_lock : _requestQueueLock c = true;
  ab_ignore : is_s32 (_ignoreInterrupts c);
  ab_online : _hardwareOffline c = false;
}.

Lemma implements_queue rs w l l' hs : able (ctl w) -> wired (hw w) l -> talk_requests rs l = Some (tt, l', hs) ->
  exists h', forM_ rs (fun r => processRequest callInterrupt callCompletion fuel r;; mret tt) w = Done (tt, (happen_all hs w) <| hw := h' |>) /\ wired h' l'.
Proof.
  revert w l hs. induction rs as [|r rs IH]; intros w l hs Ha Hw E; cbn [talk_requests forM_] in *.
  - injection E as <- <-. exists (hw w). split; [by destruct w|done].
  - unfold mbind at 1, Talk_bind in E. destruct (talk_request r l) as [[[r1 l1] hs1]|] eqn:E1; [|done].
    destruct (talk_requests rs l1) as [[[[] l2] hs2]|] eqn:E2; [|done]. injection E as <- <-. pose proof Ha as [].
    destruct (implements_request r w l r1 l1 hs1) as (h1 & F1 & Hw1); [done..|]. rewrite (bind_done _ _ w tt ((happen_all hs1 w) <| hw := h1 |>)).
    2: { by rewrite (bind_done _ _ _ _ _ F1). }
    destruct (IH ((happen_all hs1 w) <| hw := h1 |>) l1 hs2) as (h2 & F2 & Hw2); [by simpl; rewrite happen_all_ctl|done|done|].
    exists h2. by rewrite F2, happen_all_app, happen_all_hw.
Qed.

Lemma submit_talks r w l r' l' hs :
  able (ctl w) -> wired (hw w) l -> (talk_requests (_requestQueue (ctl w));; talk_request r) l = Some (r', l', hs) ->
  exists h', submitRequestAndBlock callInterrupt callCompletion fuel r w =
      Done (r', (happen_all hs (w <| ctl := (ctl w) <| _requestQueue := [] |> |>)) <| hw := h' |>) /\ wired h' l'.
Proof.
  intros Ha Hw E. pose proof Ha as []. unfold mbind at 1, Talk_bind in E.
  destruct (talk_requests (_requestQueue (ctl w)) l) as [[[[] l1] hs1]|] eqn:E1; [|done].
  destruct (talk_request r l1) as [[[r1 l2] hs2]|] eqn:E2; [|done]. injection E as <- <- <-.
  unfold submitRequestAndBlock, gated, getc. rewrite (bind_done _ _ w true w) by (unfold gets; by rewrite ab_gate0).
  unfold submitRequestAndBlockGated, processRequestQueue, lockQueue, getc, setc. set (w0 := w <| ctl := (ctl w) <| _requestQueue := [] |> |>).
  assert (able (ctl w0)) as Ha0 by (destruct ab_sound0; by split).
  destruct (implements_queue (_requestQueue (ctl w)) w0 l l1 hs1) as (h1 & F1 & Hw1); [done..|].
  rewrite (bind_done _ _ w tt ((happen_all hs1 w0) <| hw := h1 |>)).
  2: { rewrite (bind_done _ _ w tt w) by (munfold; by rewrite ab_lock0). rewrite (bind_done _ _ w (_requestQueue (ctl w)) w) by done.
       rewrite (bind_done _ _ w tt w0) by done. exact F1. }
  destruct (implements_request r ((happen_all hs1 w0) <| hw := h1 |>) l1 r1 l2 hs2) as (h2 & F2 & Hw2); [simpl; rewrite happen_all_ctl; apply Ha0..|done|done|].
  exists h2. by rewrite F2, happen_all_app, happen_all_hw.
Qed.

(** C2: A blocking request is exactly its conversation.  On any chip that connects
    two devices, whatever the devices are, whatever they answer, and whatever
    bytes of both are waiting already: the requests in the queue and then the
    request itself are carried out command by command as [talk_requests] and
    [talk_request] say, the caller gets the answers in its commands and the
    index of the command that failed, the devices hear exactly the bytes
    addressed to them, every byte the request did not ask for goes to its driver
    in order, and the controller is as before with an empty queue.  The polling
    loops, their timeouts and the out-of-order correction leave no other trace,
    and everything returns. *)
Theorem request_conversation r w l r' l' hs :
  able (ctl w) -> wired (hw w) l -> (talk_requests (_requestQueue (ctl w));; talk_request r) l = Some (r', l', hs) ->
  exists h', submitRequestAndBlock callInterrupt callCompletion fuel r w =
      Done (r', (happen_all hs (w <| ctl := (ctl w) <| _requestQueue := [] |> |>)) <| hw := h' |>) /\ wired h' l'.
Proof. apply submit_talks. Qed.
End carried_out.

(** ** An executable chip

    The head of [sent] becomes visible after [wait] polls, and the input buffer
    takes [load] polls to empty; a byte written before that is lost. *)
Module Wires.
Section wires.
  Context {K A : Type} `{Device K} `{Device A}.

Record wires := mkWires { line : Line K A; wait : nat; load : nat }.

Definition status_of (c : wires) : Z :=
  Z.lor (match wait c, sent (line c) with
         | O, (d, _) :: _ => if is_mouse d then Z.lor kOutputReady kMouseData else kOutputReady
         | _, _ => 0
         end) (match load c with O => 0 | S _ => kInputBusy end).

Definition wires_inb (p : Z) (c : wires) : Z * wires :=
  if p =? kCommandPort then (status_of c, mkWires (line c) (pred (wait c)) (pred (load c)))
  else match wait c, sent (line c) with
       | O, (_, b) :: q => (b, mkWires ((line c) <| sent := q |>) 1 (load c))
       | _, _ => (0, c)
       end.

(** A device takes its time to answer. *)
Definition settle (c : wires) (l : Line K A) : wires :=
  mkWires l (match sent (line c) with [] => 2 | _ => wait c end) 1.

Definition wires_outb (p v : Z) (c : wires) : wires :=
  match load c with
  | S _ => c
  | O => if p =? kCommandPort then match command_written v (line c) with Some l => settle c l | None => settle c (line c) end
         else settle c (data_written v (line c))
  end.

#[global] Instance wires_io : PortIO wires := {|
  inb := wires_inb; outb := wires_outb; IODelay := fun _ c => c; IOSleep := fun _ c => c |}.

Definition connected (c : wires) (l : Line K A) : Prop :=
  line c = l /\ (wait c <= 2)%nat /\ (load c <= 1)%nat /\ Forall (fun x => is_u8 x.2) (sent l) /\ is_u8 (line_cb l).

Lemma says_u8 d bs (l : Line K A) : Forall (fun x => is_u8 x.2) (sent l) -> Forall (fun x => is_u8 x.2) (sent (says d bs l)).
Proof. intros Hl. simpl. apply Forall_app. split; [done|]. apply Forall_fmap, Forall_true. intros b. apply u8_range. Qed.

Lemma command_u8 v (l l' : Line K A) : command_written v l = Some l' -> Forall (fun x => is_u8 x.2) (sent l) -> is_u8 (line_cb l) ->
  Forall (fun x => is_u8 x.2) (sent l') /\ is_u8 (line_cb l').
Proof.
  unfold command_written. intros E Hl Hc. repeat case_match; simplify_eq; [|done]. split; [by apply says_u8|done].
Qed.

Lemma data_u8 v (l : Line K A) : is_u8 v -> Forall (fun x => is_u8 x.2) (sent l) -> is_u8 (line_cb l) ->
  Forall (fun x => is_u8 x.2) (sent (data_written v l)) /\ is_u8 (line_cb (data_written v l)).
Proof. unfold data_written. intros Hv Hl Hc. repeat case_match; try done; (split; [by apply says_u8|done]). Qed.

Lemma shows l d b q n : sent l = (d, b) :: q -> is_u8 b -> forall k, exists st k',
  presents (mkWires l n k) n st b (mkWires (l <| sent := q |>) 1 k') /\ anyset st kMouseData = is_mouse d /\ (k' <= k)%nat.
Proof.
  intros E Hb. rewrite <- (u8_id b Hb). induction n as [|n IH]; intros k.
  - assert (exists z, status_of (mkWires l 0 k) = z /\ is_u8 z /\ anyset z kOutputReady = true /\ anyset z kMouseData = is_mouse d) as (z & Hz & Hu & Hr & Hm).
    { eexists. split; [reflexivity|]. unfold status_of. cbn [wait line load]. rewrite E. unfold is_u8. destruct d, k; repeat split; done. }
    exists z, (pred k). split; [|split; [done|lia]]. rewrite <- (u8_id z Hu).
    refine (presents_now (H := wires) _ z (mkWires l 0 (pred k)) b _ _ _ _); [unfold inb, wires_io, wires_inb; simpl; by rewrite Hz|by rewrite u8_id|].
    unfold inb, wires_io, wires_inb. simpl. by rewrite E.
  - destruct (IH (pred k)) as (st & k' & Hp & Hm & Hk). exists st, k'. split; [|split; [done|lia]].
    refine (presents_later (H := wires) _ (status_of (mkWires l (S n) k)) (mkWires l n (pred k)) _ _ _ _ _ _ Hp); [done|].
    unfold status_of. cbn [wait line load]. by destruct k.
Qed.

Lemma rests l n k c : sent l = [] -> exists n' k', silent c (mkWires l n k) (mkWires l n' k') /\ (n' <= n)%nat /\ (k' <= k)%nat.
Proof.
  intros E. revert n k. induction c as [|c IH]; intros n k; [exists n, k; split; [constructor|lia]|].
  destruct (IH (pred n) (pred k)) as (n' & k' & Hs & Hn & Hk). exists n', k'. split; [|lia].
  refine (silent_S (H := wires) c _ (status_of (mkWires l n k)) (mkWires l (pred n) (pred k)) _ _ _ Hs); [done|].
  unfold status_of. cbn [wait line load]. rewrite E. by destruct n, k.
Qed.

Lemma idle_input l n : anyset (u8 (status_of (mkWires l n 0))) kInputBusy = false.
Proof. unfold status_of. cbn [wait line load]. destruct n; [|done]. destruct (sent l) as [|[[] ?]]; done. Qed.
Lemma busy_input l n k : anyset (u8 (status_of (mkWires l n (S k)))) kInputBusy = true.
Proof. unfold status_of. cbn [wait line load]. destruct n; [|done]. destruct (sent l) as [|[[] ?]]; done. Qed.

Lemma takes_input c : (load c <= 1)%nat -> exists n w, (n < 2)%nat /\ accepts n c (mkWires (line c) w 0) /\ (w <= wait c)%nat.
Proof.
  destruct c as [l n k]. simpl. intros Hk. destruct k as [|[|]]; [| |lia].
  - exists O, (pred n). split; [lia|]. split; [|lia].
    refine (accepts_now (H := wires) _ _ (mkWires l (pred n) 0) _ _); [reflexivity|apply idle_input].
  - exists 1%nat, (pred (pred n)). split; [lia|]. split; [|lia].
    refine (accepts_later (H := wires) 0 _ _ (mkWires l (pred n) 0) _ _ _ _); [reflexivity|apply busy_input|].
    refine (accepts_now (H := wires) _ _ (mkWires l (pred (pred n)) 0) _ _); [reflexivity|apply idle_input].
Qed.

#[global] Program Instance wires_wired : Wired wires K A := {| wired := connected; latency := 2; busy_time := 2 |}.
Next Obligation. done. Qed.
Next Obligation.
  intros c l (El & Hw & Hl & Hs & Hc). subst l. destruct (takes_input c Hl) as (n & w & Hn & Ha & Hww). exists n, (mkWires (line c) w 0).
  split; [done|]. split; [done|]. split; [split; simpl; [done|]; repeat split; try done; try lia; apply Hc|]. split.
  - intros v l' E. destruct (command_u8 v _ l' E Hs Hc) as [Hs' Hc']. unfold outb, wires_io, wires_outb. cbn [load line]. rewrite E.
    split; [done|]. simpl. split; [case_match; lia|]. done.
  - intros v Hv. destruct (data_u8 v (line c) Hv Hs Hc) as [Hs' Hc']. unfold outb, wires_io, wires_outb. cbn [load line].
    split; [done|]. simpl. split; [case_match; lia|]. done.
Qed.
Next Obligation.
  intros [l0 n k] l d b q (El & Hw & Hl & Hs & Hc) Hq. simpl in *. subst l0. rewrite Hq in Hs. inversion Hs as [|? ? Hb Hs']. subst. simpl in Hb.
  destruct (shows l d b q n Hq Hb k) as (st & k' & Hp & Hm & Hk). exists n, st, (mkWires (l <| sent := q |>) 1 k').
  split; [done|]. split; [done|]. split; [done|]. split; [done|]. simpl. repeat split; try done; try lia; apply Hc.
Qed.
Next Obligation.
  intros [l0 n k] l c (El & Hw & Hl & Hs & Hc) Hq. simpl in *. subst l0. destruct (rests l n k c Hq) as (n' & k' & Hr & Hn & Hk).
  exists (mkWires l n' k'). split; [done|]. split; [done|]. simpl. repeat split; try done; try lia; apply Hc.
Qed.
Next Obligation. done. Qed.
End wires.
Arguments wires K A : clear implicits.
Arguments mkWires {K A} _ _ _.
End Wires.

(** ** Two devices that acknowledge and remember *)

Module Heard.
#[export] Instance logger : Device (list Z) := fun log v => (log ++ [v], kSC_Acknowledge :: (if v =? kDP_GetId then [3] else [])).
Definition ctl2 : ApplePS2Controller := Demo.ctl0 <| _requestQueueLock := true |>
  <| _requestQueue := [heap_request [cmd kPS2C_WriteDataPort kDP_SetKeyboardLEDs; cmd kPS2C_ReadDataPortAndCompare kSC_Acknowledge]] |>.
(** A key and a byte of the mouse are waiting already. *)
Definition before : Line (list Z) (list Z) := mkLine [] [] 0x47 None [(kDT_Keyboard, 0x1E); (kDT_Mouse, 0x08)].
Definition after : Line (list Z) (list Z) := mkLine [kDP_SetKeyboardLEDs] [kDP_GetId] 0x47 None [].
Definition ask_id : PS2Request := stack_request [cmd kPS2C_SendMouseCommandAndCompareAck kDP_GetId; cmd kPS2C_ReadDataPort 0].
Definition told_id : PS2Request := stack_request [cmd kPS2C_SendMouseCommandAndCompareAck kDP_GetId; cmd kPS2C_ReadDataPort 3].
Definition leds : PS2Request := heap_request [cmd kPS2C_WriteDataPort kDP_SetKeyboardLEDs; cmd kPS2C_ReadDataPortAndCompare kSC_Acknowledge].

Lemma able2 : able ctl2.
Proof.
  assert (ctl_wf ctl2) as Hw by (repeat split; simpl; eauto; done). split; [by split|done|done| |done]. unfold is_s32. simpl. lia.
Qed.
Lemma connected_before : Wires.connected (Wires.mkWires before 1 1) before.
Proof. split; [done|]. repeat split; simpl; try lia. repeat constructor; simpl; unfold is_u8; lia. Qed.
End Heard.
Import Heard.

Lemma request_conversation_witness : exists h',
  submitRequestAndBlock Demo.call (fun _ _ _ => mret tt) 20 ask_id
    (mkWorld ctl2 (Wires.mkWires before 1 1) [] true []) =
  Done (told_id, mkWorld (ctl2 <| _requestQueue := [] |>) h' [(3%positive, 0x08); (1%positive, 0x1E)] true
    [EvSignal kDT_Mouse; EvSignal kDT_Keyboard; EvFreeRequest leds]) /\ Wires.line h' = after.
Proof.
  destruct (request_conversation (D := list (positive * Z)) Demo.call (fun _ _ _ => mret tt) 20) with (r := ask_id)
    (w := mkWorld ctl2 (Wires.mkWires before 1 1) ([] : list (positive * Z)) true []) (l := before) (r' := told_id)
    (l' := after) (hs := [Handed kDT_Mouse 8; Handed kDT_Keyboard 0x1E; Freed leds]) as (h' & E & Hw).
  - simpl. lia.
  - exact able2.
  - exact connected_before.
  - reflexivity.
  - exists h'. split; [exact E|exact (proj1 Hw)].
Defined.
