(* ===== verification/ControllerPower.v ===== *)
(** * ControllerPower: invariants of the controller and the power states

    [keeps] is what every port access, request and driver callback respects;
    [op] lists the entry points of the controller, [reachable] what they can
    lead to, and the invariant ties [_hardwareOffline], [_ignoreInterrupts]
    and the installed actions to the power state.  The last part shows what a
    transition to sleep does to the command byte, and a whole sleep/wake cycle
    on the executable chip. *)

From S2P Require Import Prelude PS2Defs PortIO Controller ControllerSpec.

(** The controller without the fields a request may change. *)
Definition core (c : ApplePS2Controller) : ApplePS2Controller :=
  c <| _requestQueue := [] |> <| _suppressTimeout := false |>.

Definition keeps {H D} (w w' : World H D) : Prop :=
  is_s32 (_ignoreInterrupts (ctl w)) ->
  core (ctl w') = core (ctl w) /\
  (_suppressTimeout (ctl w) = false -> _suppressTimeout (ctl w') = false).

#[export] Instance keeps_preorder {H D} : PreOrder (@keeps H D).
Proof.
  split; [by intros w|]. intros w1 w2 w3 H12 H23 Hs. destruct (H12 Hs) as [E1 S1].
  assert (_ignoreInterrupts (ctl w2) = _ignoreInterrupts (ctl w1)) as Hi by apply (f_equal _ignoreInterrupts E1).
  destruct H23 as [E2 S2]; [by rewrite Hi|]. split; [congruence|auto].
Qed.

Lemma keeps_ctl {H D} (w w' : World H D) : ctl w' = ctl w -> keeps w w'.
Proof. intros E _. by rewrite E. Qed.

(** ** Port level

    What talks to the chip and hands bytes to the drivers leaves the
    controller alone: it satisfies every preorder that relates worlds with
    the same controller. *)

Class SameCtl {H D} (R : World H D -> World H D -> Prop) : Prop := same_ctl w w' : ctl w' = ctl w -> R w w'.

#[export] Instance keeps_same {H D} : SameCtl (@keeps H D).
Proof. exact keeps_ctl. Qed.

Section ports.
  Context {H D : Type} `{PortIO H}.
  Abbreviation W := (World H D).
  Context (callInterrupt : positive -> option positive -> Z -> D -> PS2InterruptResult * D).
  Context (fuel : nat).
  Context (R : W -> W -> Prop) `{!PreOrder R} `{!SameCtl R}.
  Implicit Types (w : W).

Ltac keep_ctl := intros ? ? ? E; apply same_ctl; revert E.

Lemma ports_emit e : pres R (emit e : M W unit).
Proof. apply pres_modify. intros w. by apply same_ctl. Qed.
Lemma ports_inb p : pres R (inb_ p : M W Z).
Proof. keep_ctl. unfold inb_. destruct (inb p _). by intros [= _ <-]. Qed.
Lemma ports_outb p v : pres R (outb_ p v : M W unit).
Proof. apply pres_modify. intros w. by apply same_ctl. Qed.
Lemma ports_delay : pres R (delay : M W unit).
Proof. apply pres_modify. intros w. by apply same_ctl. Qed.
Lemma ports_sleep ms : pres R (sleep_ ms : M W unit).
Proof. apply pres_modify. intros w. by apply same_ctl. Qed.
Lemma ports_int b : pres R (modify (fun w => w <| int_enabled := b |>) : M W unit).
Proof. apply pres_modify. intros w. by apply same_ctl. Qed.
Lemma ports_getc {A} (f : ApplePS2Controller -> A) : pres R (getc f : M W A).
Proof. apply pres_gets. apply _. Qed.
Lemma ports_call a t b : pres R (call_interrupt callInterrupt a t b : M W _).
Proof.
  destruct a; [|apply pres_undef]. keep_ctl. simpl. destruct (callInterrupt _ _ _ _). by intros [= _ <-].
Qed.
Hint Resolve ports_emit ports_inb ports_outb ports_delay ports_sleep ports_int ports_getc ports_call : pres.

Lemma ports_wait_not_busy n : pres R (wait_not_busy n : M W unit).
Proof. induction n; cbn [wait_not_busy]; pres_auto. Qed.
Hint Resolve ports_wait_not_busy : pres.
Lemma ports_writeDataPort b : pres R (writeDataPort fuel b : M W unit).
Proof. unfold writeDataPort. pres_auto. Qed.
Lemma ports_writeCommandPort b : pres R (writeCommandPort fuel b : M W unit).
Proof. unfold writeCommandPort. pres_auto. Qed.
Lemma ports_wait_ready n s : pres R (wait_ready n s : M W _).
Proof. revert s. induction n; intros s; cbn [wait_ready]; pres_auto. Qed.
Lemma ports_signal d : pres R (signal d : M W unit).
Proof. unfold signal. pres_auto. Qed.
Hint Resolve ports_writeDataPort ports_writeCommandPort ports_wait_ready ports_signal : pres.
Lemma ports_hand d b : pres R (_dispatchDriverInterrupt callInterrupt d b : M W _).
Proof. unfold _dispatchDriverInterrupt. pres_auto. Qed.
Hint Resolve ports_hand : pres.
Lemma ports_dispatch d b : pres R (dispatchDriverInterrupt callInterrupt d b : M W unit).
Proof. unfold dispatchDriverInterrupt. pres_auto. Qed.
Hint Resolve ports_dispatch : pres.

Lemma ports_readDataPort d : pres R (readDataPort callInterrupt fuel d : M W Z).
Proof.
  unfold readDataPort. generalize timeoutCounter0. generalize fuel. intros n.
  induction n as [|n IH]; intros c; cbn [readDataPort_loop]; pres_auto; apply IH.
Qed.

Lemma ports_readDataPortExpect d e : pres R (readDataPortExpect callInterrupt fuel d e : M W Z).
Proof.
  unfold readDataPortExpect. generalize timeoutCounter0 (@None Z). generalize fuel. intros n.
  induction n as [|n IH]; intros c held; cbn [readDataPortExpect_loop]; pres_auto; apply IH.
Qed.

Lemma ports_flush n k : pres R (flush n k : M W Z).
Proof. revert k. induction n as [|n IH]; intros k; cbn [flush]; pres_auto. Qed.
Hint Resolve ports_readDataPort ports_readDataPortExpect ports_flush : pres.

Lemma ports_exec_command c s : pres R (exec_command callInterrupt fuel c s : M W _).
Proof. unfold exec_command. destruct (command c); pres_auto. Qed.
Hint Resolve ports_exec_command : pres.

Lemma ports_commands_loop k i s r : pres R (commands_loop callInterrupt fuel k i s r : M W _).
Proof. revert i s r. induction k as [|k IH]; intros i s r; cbn [commands_loop]; pres_auto; apply IH. Qed.
Hint Resolve ports_commands_loop : pres.
End ports.
#[export] Hint Resolve ports_emit ports_inb ports_outb ports_delay ports_sleep ports_int ports_getc ports_call ports_wait_not_busy ports_writeDataPort ports_writeCommandPort ports_wait_ready ports_signal ports_hand ports_dispatch ports_readDataPort ports_readDataPortExpect ports_flush ports_exec_command ports_commands_loop : pres.
#[export] Hint Extern 1 (PreOrder _) => apply _ : pres.
#[export] Hint Extern 1 (SameCtl _) => apply _ : pres.

Section power.
  Context {H D : Type} `{PortIO H}.
  Abbreviation W := (World H D).
  Context (callInterrupt : positive -> option positive -> Z -> D -> PS2InterruptResult * D).
  Context (callPacket : positive -> option positive -> M W unit).
  Context (callPower : positive -> option positive -> Z -> M W unit).
  Context (callCompletion : positive -> positive -> PS2Request -> M W unit).
  Context (callMessage : positive -> PS2Message -> Payload -> M W Payload).
  Context (fuel : nat).
  Implicit Types (w : W).

(** ** Bracketing with [_ignoreInterrupts] *)

Lemma core_up c c' : core c' = core (ignore_up c) -> is_s32 (_ignoreInterrupts c) ->
  core (ignore_down c') = core c.
Proof.
  intros E Hs. transitivity (core (ignore_down (ignore_up c))).
  - unfold core in *. destruct c', c; simpl in *. unfold ignore_down, ignore_up, set in *; simpl in *.
    injection E. intros; subst. done.
  - by rewrite ignore_up_down.
Qed.

Lemma s32_range z : is_s32 (s32 z).
Proof. unfold s32, is_s32. pose proof (Z.mod_pos_bound (z + 2147483648) 4294967296). lia. Qed.

Definition up : M W unit :=
  setc (fun c => c <| _ignoreInterrupts := s32 (_ignoreInterrupts c + 1) |>).
Definition down : M W unit :=
  setc (fun c => c <| _ignoreInterrupts := s32 (_ignoreInterrupts c - 1) |>).

Lemma keeps_ignored {A B} (m : M W A) (f : A -> M W B) :
  pres keeps m -> (forall a, exists k, f a = (down;; k) /\ pres keeps k) ->
  pres keeps (up;; a ← m; f a).
Proof.
  intros Hm Hf w b w'. munfold. unfold up, setc, modify.
  destruct (m _) as [[a w1]| |] eqn:E; [|done|done]. destruct (Hf a) as (k & -> & Hk).
  intros E2. apply Hm in E. apply Hk in E2.
  etrans; [|exact E2]. intros Hs. destruct E as [E1 S1]; [apply s32_range|].
  split; [by apply core_up|exact S1].
Qed.

Lemma keeps_ignored2 {A B} (m1 : M W unit) (m : M W A) (f : A -> M W B) :
  pres keeps m1 -> pres keeps m -> (forall a, exists k, f a = (down;; k) /\ pres keeps k) ->
  pres keeps (up;; m1;; a ← m; f a).
Proof.
  intros H1 Hm Hf w b w' E. apply (keeps_ignored (m1;; m) f (pres_bind _ _ _ H1 (fun _ => Hm)) Hf w b w').
  rewrite <- E. unfold mbind, M_bind. destruct (up w) as [[[] w1]| |]; [|done|done].
  by destruct (m1 w1) as [[[] w2]| |].
Qed.

Section callbacks.
  Context (Hpacket : forall a t, pres keeps (callPacket a t)).
  Context (Hpower : forall a t x, pres keeps (callPower a t x)).
  Context (Hcompletion : forall a t r, pres keeps (callCompletion a t r)).
  Context (Hmessage : forall s m x, pres keeps (callMessage s m x)).
  Hint Resolve Hpacket Hpower Hcompletion Hmessage : pres.

Lemma keeps_finish f i r : pres keeps (finish_request callCompletion f i r).
Proof. unfold finish_request. pres_auto. Qed.
Hint Resolve keeps_finish : pres.

Lemma keeps_processRequest r : pres keeps (processRequest callInterrupt callCompletion fuel r).
Proof.
  unfold processRequest. apply pres_bind; [apply _|apply ports_getc; apply _|]. intros [].
  - apply keeps_finish.
  - apply keeps_ignored; [pres_auto|]. intros [[failed index] r']. eexists. split; [done|pres_auto].
Qed.
Hint Resolve keeps_processRequest : pres.

Lemma keeps_queue f : pres keeps (setc (fun c => c <| _requestQueue := f c |>) : M W unit).
Proof. apply pres_modify. by intros w _. Qed.
Hint Resolve keeps_queue : pres.

Lemma keeps_processRequestQueue : pres keeps (processRequestQueue callInterrupt callCompletion fuel).
Proof. unfold processRequestQueue, lockQueue. pres_auto. Qed.
Hint Resolve keeps_processRequestQueue : pres.

Lemma keeps_submitRequest r : pres keeps (submitRequest r : M W bool).
Proof. unfold submitRequest, lockQueue. pres_auto. Qed.

Lemma keeps_submitRequestAndBlock r :
  pres keeps (submitRequestAndBlock callInterrupt callCompletion fuel r).
Proof. unfold submitRequestAndBlock, gated, submitRequestAndBlockGated. pres_auto. Qed.

(** ** The command byte, interrupts and messages *)

Lemma keeps_setCommandByte sb cb : pres keeps (setCommandByte callInterrupt fuel sb cb : M W Z).
Proof.
  unfold setCommandByte, gated. apply pres_bind; [apply _| |intros ?; pres_auto].
  apply pres_bind; [apply _|pres_auto|intros []; [|pres_auto]].
  unfold setCommandByteGated. apply pres_bind; [apply _|pres_auto|]. intros c.
  apply keeps_ignored2; [pres_auto|pres_auto|]. intros old. eexists. split; [reflexivity|pres_auto].
Qed.
Hint Resolve keeps_setCommandByte : pres.

Lemma keeps_handleInterrupt d : pres keeps (handleInterrupt callInterrupt fuel d : M W unit).
Proof.
  unfold handleInterrupt. apply pres_bind; [apply _| |intros []; pres_auto].
  generalize false at 1. generalize false. generalize fuel. intros n.
  induction n as [|n IH]; intros x y; cbn [handleInterrupt_loop]; pres_auto; try apply IH.
  all: apply pres_modify; intros w; by apply keeps_ctl.
Qed.
Hint Resolve keeps_handleInterrupt : pres.

Lemma keeps_interruptHandlers :
  pres keeps (interruptHandlerMouse callInterrupt fuel : M W unit) /\
  pres keeps (interruptHandlerKeyboard callInterrupt fuel : M W unit).
Proof. unfold interruptHandlerMouse, interruptHandlerKeyboard. split; pres_auto. Qed.

Lemma keeps_packetReady :
  pres keeps (packetReadyMouse callPacket) /\ pres keeps (packetReadyKeyboard callPacket).
Proof. unfold packetReadyMouse, packetReadyKeyboard. split; pres_auto. Qed.

Lemma keeps_deliver_message l m x : pres keeps (deliver_message callMessage l m x).
Proof. revert x. induction l as [|s l IH]; intros x; simpl; pres_auto. Qed.
Hint Resolve keeps_deliver_message : pres.

Lemma keeps_dispatchMessage m x : pres keeps (dispatchMessage callMessage m x).
Proof. unfold dispatchMessage, gated, dispatchMessageGated. pres_auto. Qed.

Lemma keeps_powerControl x d : pres keeps (dispatchDriverPowerControl callPower x d).
Proof. unfold dispatchDriverPowerControl. pres_auto. Qed.
Hint Resolve keeps_powerControl : pres.

(** [resetController] turns [_suppressTimeout] on and off again. *)
Definition restores {A} (m : M W A) : Prop :=
  forall w a w', m w = Done (a, w') -> is_s32 (_ignoreInterrupts (ctl w)) ->
    core (ctl w') = core (ctl w) /\ _suppressTimeout (ctl w') = false.

Lemma restores_bind {A B} (m : M W A) (f : A -> M W B) :
  pres keeps m -> (forall a, restores (f a)) -> restores (m ≫= f).
Proof.
  intros Hm Hf w b w' (a & w1 & E1 & E2)%bind_done_inv Hs. destruct (Hm _ _ _ E1 Hs) as [C1 _].
  destruct (Hf _ _ _ _ E2) as [C2 S2]; [|split; [congruence|done]].
  by rewrite (f_equal _ignoreInterrupts C1 : _ignoreInterrupts (ctl w1) = _ignoreInterrupts (ctl w)).
Qed.

Lemma restores_clear {A} (k : M W A) :
  pres keeps k -> restores (setc (fun c => c <| _suppressTimeout := false |>);; k).
Proof. intros Hk w a w' E%Hk Hs. destruct (E Hs) as [C S]. split; [exact C|]. apply S. reflexivity. Qed.

Lemma keeps_suppressed {A} (k : M W A) :
  restores k -> pres keeps (setc (fun c => c <| _suppressTimeout := true |>);; k).
Proof. intros Hk w a w' E%Hk Hs. destruct (E Hs) as [C S]. split; [exact C|done]. Qed.

Lemma keeps_resetController : pres keeps (resetController callInterrupt fuel : M W unit).
Proof.
  unfold resetController. apply keeps_suppressed.
  repeat (apply restores_clear || (apply restores_bind; [solve [pres_auto]|intros ?])).
  pres_auto.
Qed.
Hint Resolve keeps_resetController : pres.

(** ** Entry points and the invariant *)

(** The calls that reach the controller: from IOKit, from the interrupt
    controller and from the drivers. *)
Inductive op :=
| OpInterruptMouse
| OpInterruptKeyboard
| OpPacketReadyMouse
| OpPacketReadyKeyboard
| OpProcessRequestQueue
| OpSubmitRequest (r : PS2Request)
| OpSubmitRequestAndBlock (r : PS2Request)
| OpSetCommandByte (sb cb : Z)
| OpInstallInterrupt (d : PS2DeviceType) (target interruptAction packetAction : positive)
| OpUninstallInterrupt (d : PS2DeviceType)
| OpInstallPower (d : PS2DeviceType) (target action : positive)
| OpUninstallPower (d : PS2DeviceType)
| OpSetPowerState (p : Z)
| OpNotification (newService notifier : positive)
| OpDispatchMessage (m : PS2Message) (x : Payload).

Definition run_op (o : op) : M W unit :=
  match o with
  | OpInterruptMouse => interruptHandlerMouse callInterrupt fuel
  | OpInterruptKeyboard => interruptHandlerKeyboard callInterrupt fuel
  | OpPacketReadyMouse => packetReadyMouse callPacket
  | OpPacketReadyKeyboard => packetReadyKeyboard callPacket
  | OpProcessRequestQueue => processRequestQueue callInterrupt callCompletion fuel
  | OpSubmitRequest r => submitRequest r;; mret tt
  | OpSubmitRequestAndBlock r => submitRequestAndBlock callInterrupt callCompletion fuel r;; mret tt
  | OpSetCommandByte sb cb => setCommandByte callInterrupt fuel sb cb;; mret tt
  | OpInstallInterrupt d t i p => installInterruptAction callInterrupt fuel d t i p
  | OpUninstallInterrupt d => uninstallInterruptAction callInterrupt fuel d
  | OpInstallPower d t a => installPowerControlAction d t a
  | OpUninstallPower d => uninstallPowerControlAction d
  | OpSetPowerState p => setPowerStateGated callInterrupt callPower fuel p
  | OpNotification s n => notificationHandlerGated s n
  | OpDispatchMessage m x => dispatchMessage callMessage m x;; mret tt
  end.

(** The power states the controller registers. *)
Definition legal_op (o : op) : Prop :=
  match o with OpSetPowerState p => 0 <= p <= 2 | _ => True end.

Inductive step : W -> W -> Prop :=
| step_op o w w' : legal_op o -> run_op o w = Done (tt, w') -> step w w'.

Definition asleep (c : ApplePS2Controller) : bool := _currentPowerState c =? kPS2PowerStateSleep.

Record power_inv (c : ApplePS2Controller) : Prop := {
  pi_state : 0 <= _currentPowerState c <= 2;
  pi_offline : _hardwareOffline c = asleep c;
  pi_ignore : _ignoreInterrupts c = if asleep c then 1 else 0;
  pi_suppress : _suppressTimeout c = false;
  pi_wf : ctl_wf c;
}.

(** *** Assertions on the controller between two statements *)

Definition hoare {A} (P : ApplePS2Controller -> Prop) (m : M W A) (Q : ApplePS2Controller -> Prop) :=
  forall w a w', P (ctl w) -> m w = Done (a, w') -> Q (ctl w').

(** What a run that [keeps] cannot invalidate. *)
Definition stable (P : ApplePS2Controller -> Prop) : Prop :=
  forall c c', P c -> is_s32 (_ignoreInterrupts c) /\
    (core c' = core c -> (_suppressTimeout c = false -> _suppressTimeout c' = false) -> P c').

Lemma hoare_keeps {A} P (m : M W A) : stable P -> pres keeps m -> hoare P m P.
Proof.
  intros HP Hm w a w' Hw E. destruct (HP _ (ctl w') Hw) as [Hs Hc].
  destruct (Hm _ _ _ E Hs). by apply Hc.
Qed.

Lemma hoare_bind {A B} P Q R (m : M W A) (f : A -> M W B) :
  hoare P m Q -> (forall a, hoare Q (f a) R) -> hoare P (m ≫= f) R.
Proof. intros Hm Hf w b w' Hw (a & w1 & E1 & E2)%bind_done_inv. eapply Hf; [|done]. by eapply Hm. Qed.

(** A statement that [keeps] in front of the rest. *)
Lemma hoare_seq {A B} P R (m : M W A) (f : A -> M W B) :
  stable P -> pres keeps m -> (forall a, hoare P (f a) R) -> hoare P (m ≫= f) R.
Proof. intros HP Hm Hf. eapply hoare_bind; [by apply hoare_keeps|exact Hf]. Qed.

Lemma hoare_setc P f : hoare (fun c => P (f c)) (setc f : M W unit) P.
Proof. intros w a w' Hw [= _ <-]. exact Hw. Qed.

Lemma hoare_set {B} P Q R f (k : unit -> M W B) :
  (forall c, P c -> Q (f c)) -> (forall u, hoare Q (k u) R) -> hoare P (setc f ≫= k) R.
Proof.
  intros Hf Hk. eapply hoare_bind; [|exact Hk]. intros w a w' Hw [= _ <-]. by apply Hf.
Qed.

Lemma hoare_get {A B} P R (g : ApplePS2Controller -> A) (f : A -> M W B) :
  (forall c, P c -> hoare (fun c' => c' = c) (f (g c)) R) -> hoare P (getc g ≫= f) R.
Proof. intros Hf w b w' Hw E. eapply (Hf (ctl w)); [done|reflexivity|exact E]. Qed.

Lemma hoare_pre {A} (P P' : ApplePS2Controller -> Prop) R (m : M W A) :
  (forall c, P c -> P' c) -> hoare P' m R -> hoare P m R.
Proof. intros Hp Hm w a w' Hw E. eapply Hm; [|exact E]. auto. Qed.

Lemma hoare_ret {A} P (a : A) : hoare P (mret a) P.
Proof. by intros w b w' Hw [= _ <-]. Qed.

Definition st (s : Z) (off : bool) (ign : Z) (Q : ApplePS2Controller -> Prop) (c : ApplePS2Controller) : Prop :=
  _currentPowerState c = s /\ _hardwareOffline c = off /\ _ignoreInterrupts c = ign /\
  _suppressTimeout c = false /\ ctl_wf c /\ Q (core c).

Lemma st_stable s off ign Q : is_s32 ign -> stable (st s off ign Q).
Proof.
  intros Hi c c' (H1 & H2 & H3 & H4 & H5 & H6). split; [by rewrite H3|]. intros E S.
  split; [rewrite <- H1; exact (f_equal _currentPowerState E)|].
  split; [rewrite <- H2; exact (f_equal _hardwareOffline E)|].
  split; [rewrite <- H3; exact (f_equal _ignoreInterrupts E)|].
  split; [auto|]. split; [|by rewrite E]. change (ctl_wf (core c')). rewrite E. exact H5.
Qed.

Lemma power_inv_st c :
  power_inv c <-> exists s, 0 <= s <= 2 /\ st s (s =? 0) (if s =? 0 then 1 else 0) (fun _ => True) c.
Proof.
  split.
  - intros [H1 H2 H3 H4 H5]. exists (_currentPowerState c).
    exact (conj H1 (conj eq_refl (conj H2 (conj H3 (conj H4 (conj H5 I)))))).
  - intros (s & Hs & <- & H2 & H3 & H4 & H5 & _). by split.
Qed.

Lemma ign_s32 s : is_s32 (if s =? 0 then 1 else 0).
Proof. unfold is_s32. case_match; lia. Qed.

(** *** Every entry point *)

Definition settled (s : Z) (Q : ApplePS2Controller -> Prop) : ApplePS2Controller -> Prop :=
  st s (s =? 0) (if s =? 0 then 1 else 0) Q.

Lemma settled_stable s Q : stable (settled s Q).
Proof. apply st_stable, ign_s32. Qed.

Ltac hstep := first
  [ apply hoare_ret
  | apply hoare_seq; [solve [apply settled_stable | apply st_stable; unfold is_s32; lia]|solve [pres_auto]|intros ?]
  | apply hoare_keeps; [solve [apply settled_stable | apply st_stable; unfold is_s32; lia]|solve [pres_auto]] ].

Lemma hoare_powerDown s :
  hoare (st s false 0 (fun _ => True)) (powerDown callInterrupt callPower fuel)
        (st s true 1 (fun _ => True)).
Proof.
  unfold powerDown. apply (hoare_set _ (st s false 1 (fun _ => True))); [|intros _].
  { intros c (H1 & H2 & H3 & H4 & H5 & _). unfold st; simpl. rewrite H3. by repeat (split; [done|]). }
  do 3 hstep. apply (hoare_set _ (st s true 1 (fun _ => True))); [|intros _; repeat hstep].
  intros c (H1 & H2 & H3 & H4 & H5 & _). by repeat (split; [done|]).
Qed.

Lemma hoare_powerUp s :
  hoare (st s true 1 (fun _ => True)) (powerUp callInterrupt callPower fuel)
        (st s false 0 (fun _ => True)).
Proof.
  unfold powerUp. do 4 hstep. apply (hoare_set _ (st s false 1 (fun _ => True))); [|intros _].
  { intros c (H1 & H2 & H3 & H4 & H5 & _). by repeat (split; [done|]). }
  do 3 hstep. intros w b w' (H1 & H2 & H3 & H4 & H5 & _) [= _ <-].
  unfold st; simpl. rewrite H3. by repeat (split; [done|]).
Qed.

Lemma hoare_setPowerState s p :
  0 <= s <= 2 -> 0 <= p <= 2 ->
  hoare (settled s (fun _ => True)) (setPowerStateGated callInterrupt callPower fuel p)
        (settled p (fun _ => True)).
Proof.
  intros Hs Hp. unfold setPowerStateGated. apply hoare_get. intros c Hc.
  assert (_currentPowerState c = s) as -> by apply Hc.
  apply (hoare_pre _ (settled s (fun _ => True))); [by intros ? ->|]. clear c Hc.
  eapply hoare_bind; [|intros ?; hstep]. destruct (Z.eqb_spec s p) as [->|Hne]; simpl; [hstep|].
  assert (forall off ign, hoare (st s off ign (fun _ => True))
    (setc (fun c => c <| _currentPowerState := p |>) : M W unit) (st p off ign (fun _ => True))) as Hset.
  { intros off ign w a w' (H1 & H2 & H3 & H4 & H5 & _) [= _ <-]. by repeat (split; [done|]). }
  unfold settled. destruct (Z.eqb_spec p kPS2PowerStateSleep) as [->|Hp0].
  - rewrite (proj2 (Z.eqb_neq s 0)) by done.
    eapply hoare_bind; [apply hoare_powerDown|intros ?; apply Hset].
  - assert ((p =? kPS2PowerStateDoze) || (p =? kPS2PowerStateNormal) = true) as ->.
    { unfold kPS2PowerStateDoze, kPS2PowerStateNormal, kPS2PowerStateSleep in *. lia. }
    rewrite (proj2 (Z.eqb_neq p 0)) by done.
    destruct (Z.eqb_spec s kPS2PowerStateSleep) as [->|Hs0]; simpl.
    + eapply hoare_bind; [apply hoare_powerUp|intros ?; apply Hset].
    + rewrite (proj2 (Z.eqb_neq s 0)) by done. eapply hoare_bind; [apply hoare_ret|intros ?; apply Hset].
Qed.

(** An update of fields that only [ctl_wf] and [Q] look at. *)
Lemma settled_set s Q Q' (f : ApplePS2Controller -> ApplePS2Controller) :
  (forall c, _currentPowerState (f c) = _currentPowerState c /\ _hardwareOffline (f c) = _hardwareOffline c /\
     _ignoreInterrupts (f c) = _ignoreInterrupts c /\ _suppressTimeout (f c) = _suppressTimeout c) ->
  (forall c, ctl_wf c -> Q (core c) -> ctl_wf (f c) /\ Q' (core (f c))) ->
  forall c, settled s Q c -> settled s Q' (f c).
Proof.
  intros Hf Hw c (H1 & H2 & H3 & H4 & H5 & H6). destruct (Hf c) as (F1 & F2 & F3 & F4).
  destruct (Hw c H5 H6). unfold settled, st. rewrite F1, F2, F3, F4. by repeat (split; [done|]).
Qed.

Ltac upd s Q := apply (hoare_set _ (settled s Q));
  [apply settled_set; [done|unfold ctl_wf, core; simpl; intuition (discriminate || eauto)]|intros ?].
Ltac upd_last := eapply hoare_pre; [|apply hoare_setc];
  apply settled_set; [done|unfold ctl_wf, core; simpl; intuition (discriminate || eauto)].

Lemma hoare_installInterrupt s d t i p :
  hoare (settled s (fun _ => True)) (installInterruptAction callInterrupt fuel d t i p)
        (settled s (fun _ => True)).
Proof.
  unfold installInterruptAction. apply hoare_get. unfold id. intros c (H1 & H2 & H3 & H4 & H5 & _).
  destruct (is_kbd d && negb (_interruptInstalledKeyboard c) && _interruptSourceKeyboard c) eqn:E1;
    [|destruct (is_mouse d && negb (_interruptInstalledMouse c) && _interruptSourceMouse c) eqn:E2].
  - bool_hyps. apply (hoare_pre _ (settled s (fun c => _interruptInstalledKeyboard c = false /\
      _interruptSourceKeyboard c = true))); [by intros ? ->; repeat (split; [done|])|].
    hstep. upd s (fun c => _interruptSourceKeyboard c = true /\ is_Some (_interruptActionKeyboard c) /\
      is_Some (_packetActionKeyboard c)).
    do 4 hstep. upd_last.
  - bool_hyps. apply (hoare_pre _ (settled s (fun c => _interruptInstalledMouse c = false /\
      _interruptSourceMouse c = true))); [by intros ? ->; repeat (split; [done|])|].
    hstep. upd s (fun c => _interruptSourceMouse c = true /\ is_Some (_interruptActionMouse c) /\
      is_Some (_packetActionMouse c)).
    do 4 hstep. upd_last.
  - apply (hoare_pre _ (settled s (fun _ => True))); [by intros ? ->; repeat (split; [done|])|]. hstep.
Qed.

Lemma hoare_settled_get {B} s (f : ApplePS2Controller -> M W B) :
  (forall c, hoare (settled s (fun _ => True)) (f c) (settled s (fun _ => True))) ->
  hoare (settled s (fun _ => True)) (getc id ≫= f) (settled s (fun _ => True)).
Proof. intros Hf. apply hoare_get. intros c Hc. eapply hoare_pre; [|apply Hf]. by intros ? ->. Qed.

Lemma hoare_uninstallInterrupt s d :
  hoare (settled s (fun _ => True)) (uninstallInterruptAction callInterrupt fuel d)
        (settled s (fun _ => True)).
Proof.
  unfold uninstallInterruptAction. apply hoare_settled_get. intros c.
  case_match; [|case_match; [|hstep]].
  all: do 4 hstep; upd s (fun _ : ApplePS2Controller => True); hstep; upd_last.
Qed.

Lemma hoare_powerActions s d t a :
  hoare (settled s (fun _ => True)) (installPowerControlAction d t a) (settled s (fun _ => True)) /\
  hoare (settled s (fun _ => True)) (uninstallPowerControlAction d) (settled s (fun _ => True)).
Proof.
  split; [unfold installPowerControlAction|unfold uninstallPowerControlAction];
    apply hoare_settled_get; intros c; (case_match; [|case_match; [|hstep]]).
  1,2: hstep; upd_last.
  all: upd s (fun _ : ApplePS2Controller => True); hstep; upd_last.
Qed.

Lemma hoare_notification s n1 n2 :
  hoare (settled s (fun _ => True)) (notificationHandlerGated n1 n2) (settled s (fun _ => True)).
Proof.
  unfold notificationHandlerGated. apply hoare_settled_get. intros c.
  apply (hoare_bind _ (settled s (fun _ => True))); [|intros ?].
  all: unfold when; match goal with |- context [bool_decide ?P] => destruct (bool_decide P) end;
    [upd_last|hstep].
Qed.

Lemma step_inv w w' : step w w' -> power_inv (ctl w) -> power_inv (ctl w').
Proof.
  intros [o w0 w0' Ho E] (s & Hs & Hst)%power_inv_st. apply power_inv_st.
  destruct keeps_interruptHandlers as [Hi1 Hi2]. destruct keeps_packetReady as [Hp1 Hp2].
  assert (exists s', 0 <= s' <= 2 /\ hoare (settled s (fun _ => True)) (run_op o) (settled s' (fun _ => True)))
    as (s' & Hs' & Ht); [|exists s'; split; [done|by eapply Ht]].
  destruct o; simpl in *.
  13: exists p; split; [done|by apply hoare_setPowerState].
  all: exists s; split; [done|].
  all: first [ apply hoare_keeps; [apply settled_stable|solve [assumption]]
             | apply hoare_seq; [apply settled_stable| |intros ?; apply hoare_ret]
             | apply hoare_installInterrupt | apply hoare_uninstallInterrupt
             | apply hoare_powerActions; exact 1%positive | apply hoare_notification | idtac ].
  - apply hoare_keeps; [apply settled_stable|apply keeps_processRequestQueue].
  - apply keeps_submitRequest.
  - apply keeps_submitRequestAndBlock.
  - apply keeps_setCommandByte.
  - apply keeps_dispatchMessage.
Qed.

(** C20: whatever calls reach the controller, in any order, starting from a
    controller that satisfies the invariant: the hardware is marked offline
    exactly in the sleep state, interrupts are ignored exactly then,
    [_suppressTimeout] is never left on, and an installed driver always has
    its actions.  The drivers are assumed to reach the controller only through
    requests, as [keeps] says. *)
Theorem power_invariant w w' : rtc step w w' -> power_inv (ctl w) -> power_inv (ctl w').
Proof. induction 1; [done|]. intros Hi. eauto using step_inv. Qed.

End callbacks.

(** ** What a transition to sleep leaves behind *)

Section sleep.
  Context `{!CommandByteLaws H} (Hfuel : (busy_bound < fuel)%nat).

(** A power action of a driver returns, leaves the controller alone, the chip
    at rest and the interrupt enables as they were. *)
Definition power_action_ok : Prop := forall a t x w,
  ready (ctl w) -> quiet (hw w) -> exists w', callPower a t x w = Done (tt, w') /\
    ctl w' = ctl w /\ quiet (hw w') /\
    Z.land (cb_of (hw w')) 0x03 = Z.land (cb_of (hw w)) 0x03.

(** Both clock lines disabled, both interrupt enables off. *)
Definition disarmed (cb : Z) : Prop := Z.land cb 0x33 = 0x30.

Context (Hok : power_action_ok).

Lemma powerControl_ok x d w :
  ready (ctl w) -> quiet (hw w) -> exists w', dispatchDriverPowerControl callPower x d w = Done (tt, w') /\
    ctl w' = ctl w /\ quiet (hw w') /\
    Z.land (cb_of (hw w')) 0x03 = Z.land (cb_of (hw w)) 0x03.
Proof.
  intros Hr Hq. destruct (ready_wf _ Hr) as (_ & _ & Wk & Wm).
  unfold dispatchDriverPowerControl, getc, id. msimpl.
  destruct d; simpl.
  - destruct (_powerControlInstalledKeyboard (ctl w)); [|eauto 6].
    destruct (Wk eq_refl) as [a ->]. by apply Hok.
  - destruct (_powerControlInstalledMouse (ctl w)) eqn:Ei; [|eauto 6].
    destruct (Wm eq_refl) as [a ->].
    destruct (Hok a (_powerControlTargetMouse (ctl w)) x w Hr Hq) as (w' & -> & Hrest).
    eauto.
Qed.

Lemma irq_off old : is_u8 old -> Z.land (new_cb old 0 (Z.lor kCB_EnableKeyboardIRQ kCB_EnableMouseIRQ)) 0x03 = 0.
Proof. intros Hu. apply Z.eqb_eq. revert old Hu. apply byte_forall. vm_compute. reflexivity. Qed.

Lemma clocks_off old : is_u8 old -> Z.land old 0x03 = 0 ->
  disarmed (new_cb old (Z.lor kCB_DisableKeyboardClock kCB_DisableMouseClock) 0).
Proof.
  unfold disarmed.
  intros Hu H3. apply Z.eqb_eq in H3. apply Z.eqb_eq. apply (implb_true_iff (Z.land old 0x03 =? 0)); [|done].
  clear H3. revert old Hu. apply byte_forall. vm_compute. reflexivity.
Qed.

(** C21: going to sleep from an awake state always completes, whatever the
    installed drivers do within their contract: the chip ends at rest with
    both clock lines disabled and both interrupt enables off, and the
    controller refuses requests and ignores interrupts from then on. *)
Theorem sleep_disarms w :
  ready (ctl w) -> quiet (hw w) -> _currentPowerState (ctl w) <> kPS2PowerStateSleep ->
  _ignoreInterrupts (ctl w) = 0 ->
  exists w', setPowerStateGated callInterrupt callPower fuel kPS2PowerStateSleep w = Done (tt, w') /\
    quiet (hw w') /\ disarmed (cb_of (hw w')) /\
    ctl w' = (ctl w) <| _ignoreInterrupts := 1 |> <| _hardwareOffline := true |>
               <| _currentPowerState := kPS2PowerStateSleep |>.
Proof.
  intros Hr Hq Hst Hign. set (c1 := (ctl w) <| _ignoreInterrupts := 1 |>).
  assert (ready c1) as Hr1 by (destruct Hr; split; [done..|unfold is_s32; simpl; lia]).
  pose (w1 := w <| ctl := c1 |>).
  destruct (setCommandByte_ok callInterrupt fuel Hfuel w1 0 (Z.lor kCB_EnableKeyboardIRQ kCB_EnableMouseIRQ) Hr1 Hq)
    as (h2 & E2 & Hq2 & Hcb2).
  pose (w2 := w1 <| hw := h2 |>).
  destruct (powerControl_ok kPS2C_DisableDevice kDT_Mouse w2) as (w3 & E3 & C3 & Hq3 & I3); [done..|].
  destruct (powerControl_ok kPS2C_DisableDevice kDT_Keyboard w3) as (w4 & E4 & C4 & Hq4 & I4);
    [by rewrite C3|done|].
  pose (w5 := w4 <| ctl := c1 <| _hardwareOffline := true |> |>).
  destruct (setCommandByte_ok callInterrupt fuel Hfuel w5 (Z.lor kCB_DisableKeyboardClock kCB_DisableMouseClock) 0)
    as (h6 & E6 & Hq6 & Hcb6); [by destruct Hr1; split|done|].
  assert (ctl w4 = c1) as C4' by (by rewrite C4, C3).
  exists (w5 <| hw := h6 |> <| ctl := c1 <| _hardwareOffline := true |> <| _currentPowerState := kPS2PowerStateSleep |> |>
     <| evs := evs w4 ++ [EvAcknowledgeSetPowerState] |>).
  split; [|split; [done|split; [|done]]].
  - unfold setPowerStateGated, getc. munfold. rewrite (proj2 (Z.eqb_neq _ _) Hst). cbn [negb].
    change (kPS2PowerStateSleep =? kPS2PowerStateSleep) with true. cbn beta iota.
    unfold powerDown, setc. munfold. rewrite Hign. change (s32 (0 + 1)) with 1. fold c1. fold w1.
    rewrite E2. fold w2. cbn beta iota. rewrite E3. cbn beta iota. rewrite E4. cbn beta iota.
    rewrite C4'. fold w5. rewrite E6. reflexivity.
  - simpl. rewrite Hcb6. apply clocks_off; [by apply cb_u8|]. simpl.
    rewrite I4, I3. simpl. rewrite Hcb2. apply irq_off. by apply cb_u8.
Qed.
End sleep.
End power.

(** ** A sleep/wake cycle on the executable chip *)

(** The run finished in a state that satisfies [P]. *)
Definition done_with {V} (m : outcome (unit * V)) (P : V -> bool) : bool :=
  match m with Done (_, w) => P w | _ => false end.

Lemma done_with_true {V} (m : outcome (unit * V)) (P : V -> bool) :
  done_with m P = true -> exists w, m = Done (tt, w) /\ P w = true.
Proof. destruct m as [[[] w]| |]; [eauto|done|done]. Qed.

Module Cycle.
Abbreviation DW := Demo.DW.
(** The power actions of the demonstration drivers send their device a
    command through a request, as the real ones do. *)
Definition device_cmd (x : Z) : Z :=
  if x =? kPS2C_EnableDevice then kDP_Enable else kDP_SetDefaultsAndDisable.
Definition power (a : positive) (t : option positive) (x : Z) : M DW unit :=
  submitRequestAndBlock Demo.call Demo.completion 20
    (stack_request
       (if (a =? 5)%positive
        then [cmd kPS2C_WriteDataPort (device_cmd x); cmd kPS2C_ReadDataPortAndCompare kSC_Acknowledge]
        else [cmd kPS2C_SendMouseCommandAndCompareAck (device_cmd x)]));;
  mret tt.
Definition packet (a : positive) (t : option positive) : M DW unit := mret tt.
Definition message (a : positive) (m : PS2Message) (x : Payload) : M DW Payload := mret x.

Definition ctl1 : ApplePS2Controller :=
  Demo.ctl0 <| _powerControlActionKeyboard := Some 5%positive |> <| _powerControlInstalledKeyboard := true |>
    <| _powerControlActionMouse := Some 6%positive |> <| _powerControlInstalledMouse := true |>.
Definition world (cb : Z) : DW := mkWorld ctl1 (Chip.idle cb) [] true [].

Definition set_power (p : Z) : M DW unit := setPowerStateGated Demo.call power 20 p.

(** What is checked after the cycle. *)
Definition awake_ok (old : Z) (w : DW) : bool :=
  let cb := Chip.cmdbyte (hw w) in
  (Z.land cb 0x77 =? 0x47) && (Z.land cb 0x88 =? Z.land old 0x88) &&
  negb (_hardwareOffline (ctl w)) && (_ignoreInterrupts (ctl w) =? 0) &&
  (_currentPowerState (ctl w) =? kPS2PowerStateNormal) &&
  bool_decide (Chip.to_kbd (hw w) = [0xF5; 0xF5; 0xF4]) &&
  bool_decide (Chip.to_mouse (hw w) = [0xF5; 0xF5; 0xF4]).
End Cycle.

Lemma cycle_all : forall cb, is_u8 cb ->
  done_with ((Cycle.set_power kPS2PowerStateSleep;; Cycle.set_power kPS2PowerStateNormal) (Cycle.world cb))
    (Cycle.awake_ok cb) = true.
Proof.
  refine (byte_forall (fun cb => done_with
    ((Cycle.set_power kPS2PowerStateSleep;; Cycle.set_power kPS2PowerStateNormal) (Cycle.world cb))
    (Cycle.awake_ok cb)) _).
  vm_compute. reflexivity.
Qed.



Lemma sleep_disarms_witness :
  let w := Demo.world (Chip.idle 0x47) in
  exists w', setPowerStateGated Demo.call (fun _ _ _ => mret tt) 5 kPS2PowerStateSleep w = Done (tt, w') /\
    quiet (hw w') /\ disarmed (cb_of (hw w')) /\
    ctl w' = (ctl w) <| _ignoreInterrupts := 1 |> <| _hardwareOffline := true |>
               <| _currentPowerState := kPS2PowerStateSleep |>.
Proof.
  intros w. refine (sleep_disarms (H := Chip.chip) Demo.call (fun _ _ _ => mret tt) 5 _ _ w _ _ _ _).
  - vm_compute. lia.
  - intros a t x w0 _ Hq. exists w0. done.
  - apply Demo.ctl0_ready.
  - repeat split; simpl; lia.
  - done.
  - reflexivity.
Defined.

(** The controller sleeps, refuses a request, and wakes again. *)
Lemma power_invariant_witness :
  exists w', rtc (step Demo.call (fun _ _ => mret tt) (fun _ _ _ => mret tt) Demo.completion (fun _ _ x => mret x) 20)
      (Demo.world (Chip.idle 0x47)) w' /\ _currentPowerState (ctl w') = kPS2PowerStateSleep /\
    power_inv (ctl w').
Proof.
  destruct (setPowerStateGated Demo.call (fun _ _ _ => mret tt) 20 kPS2PowerStateSleep
    (Demo.world (Chip.idle 0x47))) as [[[] w1]| |] eqn:E1.
  2, 3: exfalso; revert E1; vm_compute; discriminate.
  assert (rtc (step Demo.call (fun _ _ => mret tt) (fun _ _ _ => mret tt) Demo.completion (fun _ _ x => mret x) 20)
      (Demo.world (Chip.idle 0x47)) w1) as Hstep.
  { eapply rtc_l; [|apply rtc_refl]. apply (step_op _ _ _ _ _ _ (OpSetPowerState kPS2PowerStateSleep)); [simpl; unfold kPS2PowerStateSleep; lia|exact E1]. }
  exists w1. split; [exact Hstep|]. split.
  - revert E1. vm_compute. intros [= <-]. reflexivity.
  - refine (power_invariant Demo.call _ _ Demo.completion _ 20 _ _ _ _ _ _ Hstep _).
    1-4: intros; apply pres_ret; apply _.
    split; [simpl; unfold kPS2PowerStateNormal; lia|reflexivity..|apply Demo.ctl0_wf].
Defined.
