(* ===== verification/PowerCall.v ===== *)
(** * PowerCall: how a change of power state reaches the controller

    [setPowerState] of VoodooPS2Controller.cpp, called by power management on any
    thread, hands the new state to a thread call, whose callout enters the work
    loop.  A call that is already pending is not queued a second time but gets the
    new argument; the controller is retained as long as a call is outstanding. *)

From S2P Require Import Prelude PS2Defs PortIO Controller ControllerSpec ControllerPower.

Record PWorld (H D : Type) := mkPWorld {
  pbase : World H D;
  call_pending : option Z;         (* the thread call is queued, with its argument *)
  call_running : list Z;           (* callouts that have started, oldest first *)
  retains : Z;                     (* retain() less release() *)
}.
Arguments mkPWorld {H D} _ _ _ _.
Arguments pbase {H D} _.
Arguments call_pending {H D} _.
Arguments call_running {H D} _.
Arguments retains {H D} _.
#[export] Instance PWorld_eta H D : Settable (PWorld H D) := mkSettable _ (fun w => mkPWorld (pbase w) (call_pending w) (call_running w) (retains w)).

Section calls.
  Context {H D : Type} `{PortIO H}.
  Abbreviation W := (PWorld H D).
  Context (callInterrupt : positive -> option positive -> Z -> D -> PS2InterruptResult * D).
  Context (callPower : positive -> option positive -> Z -> M (World H D) unit).
  Context (fuel : nat).
  (** The argument of a pending call that is entered again: the kernel's. *)
  Context (kept : Z -> Z -> Z).
  Notation "'prog' A" := (M W A) (at level 10, A at next level).

Definition retain : prog unit := modify (fun w => w <| retains := retains w + 1 |>).
Definition release : prog unit := modify (fun w => w <| retains := retains w - 1 |>).

(** [thread_call_enter1] queues the call, if it is not pending already: was it? *)
Definition thread_call_enter1 (param : Z) : prog bool :=
  old ← gets call_pending;
  modify (fun w => w <| call_pending := Some (match old with Some o => kept o param | None => param end) |>);;
  mret (bool_decide (is_Some old)).

(** The result is the time allowed for the change, in microseconds. *)
Definition setPowerState (powerStateOrdinal : Z) : prog Z :=
  retain;;
  already ← thread_call_enter1 powerStateOrdinal;
  when already release;;
  mret 5000000.

Definition setPowerStateAction (arg0 : Z) : M (World H D) unit := setPowerStateGated callInterrupt callPower fuel (u32 arg0).

(** The part of the callout that is not the release. *)
Definition enter_workloop (param1 : Z) : M (World H D) unit :=
  wl ← getc _workLoop; when wl (setPowerStateAction param1).
Definition setPowerStateCallout (param1 : Z) : prog unit :=
  fun w => match enter_workloop param1 (pbase w) with
           | Done (_, b) => release (w <| pbase := b |>)
           | Undef => Undef
           | NoFuel => NoFuel
           end.

(** Power management asks; a kernel thread takes the pending call; the oldest
    callout that was taken runs. *)
Inductive PInput := PSet (state : Z) | PFire | PRun.

Definition power_step (i : PInput) : prog unit :=
  match i with
  | PSet p => setPowerState p;; mret tt
  | PFire =>
      q ← gets call_pending;
      match q with
      | Some p => modify (fun w => w <| call_pending := None |> <| call_running := call_running w ++ [p] |>)
      | None => mret tt
      end
  | PRun =>
      r ← gets call_running;
      match r with
      | p :: r => modify (fun w => w <| call_running := r |>);; setPowerStateCallout p
      | [] => mret tt
      end
  end.

(** ** What is served *)

(** Pending, running, and what the work loop has been given so far. *)
Fixpoint calls_spec (ins : list PInput) (pending : option Z) (running : list Z) : option Z * list Z * list Z :=
  match ins with
  | [] => (pending, running, [])
  | PSet p :: ins => calls_spec ins (Some (match pending with Some o => kept o p | None => p end)) running
  | PFire :: ins => match pending with Some p => calls_spec ins None (running ++ [p]) | None => calls_spec ins None running end
  | PRun :: ins =>
      match running with
      | p :: r => let '(q, r, served) := calls_spec ins pending r in (q, r, p :: served)
      | [] => calls_spec ins pending []
      end
  end.

(** The last state asked for. *)
Definition requested (ins : list PInput) : list Z := omap (fun i => match i with PSet p => Some p | _ => None end) ins.

Definition waiting_calls (q : option Z) (r : list Z) : list Z := r ++ option_list q.

Record calls_sim (q : option Z) (r : list Z) (w : W) : Prop := {
  cs_pending : call_pending w = q;
  cs_running : call_running w = r;
  cs_retains : retains w = Z.of_nat (length (waiting_calls q r));
}.

Lemma waiting_length q r : length (waiting_calls q r) = (length r + match q with Some _ => 1 | None => 0 end)%nat.
Proof. unfold waiting_calls. rewrite length_app. by destruct q. Qed.

Lemma set_ok p q r w : calls_sim q r w ->
  exists w', setPowerState p w = Done (5000000, w') /\ calls_sim (Some (match q with Some o => kept o p | None => p end)) r w' /\ pbase w' = pbase w.
Proof.
  intros [E1 E2 E3]. unfold setPowerState, retain, release, thread_call_enter1. munfold. simpl. rewrite E1. rewrite waiting_length in E3.
  destruct q as [q|]; [rewrite bool_decide_eq_true_2 by done|rewrite bool_decide_eq_false_2 by (by intros [])]; eexists; (split; [reflexivity|]);
    (split; [|done]); split; simpl; try done; rewrite waiting_length; simpl in *; lia.
Qed.

Lemma calls_ok ins q r w : calls_sim q r w ->
  let '(q', r', served) := calls_spec ins q r in
  forall b', forM_ served enter_workloop (pbase w) = Done (tt, b') ->
  exists w', forM_ ins power_step w = Done (tt, w') /\ calls_sim q' r' w' /\ pbase w' = b'.
Proof.
  revert q r w. induction ins as [|[p| |] ins IH]; intros q r w Hw; cbn [calls_spec].
  - intros b' [= Hb]. by exists w.
  - destruct (set_ok p q r w Hw) as (w1 & E1 & Hw1 & B1). specialize (IH _ _ w1 Hw1). destruct (calls_spec ins (Some _) r) as [[q' r'] served].
    intros b' Hb. destruct (IH b') as (w2 & E2 & H2); [by rewrite B1|]. exists w2. split; [|done]. cbn [forM_ power_step].
    rewrite (bind_done _ _ w tt w1) by (by rewrite (bind_done _ _ _ _ _ E1)). done.
  - pose proof Hw as [E1 E2 E3]. cbn [forM_ power_step]. destruct q as [p|].
    + pose (w1 := w <| call_pending := None |> <| call_running := call_running w ++ [p] |>).
      assert (calls_sim None (r ++ [p]) w1) as Hw1.
      { split; simpl; [done|by rewrite E2|]. rewrite E3, !waiting_length, length_app. simpl. lia. }
      specialize (IH _ _ w1 Hw1). destruct (calls_spec ins None (r ++ [p])) as [[q' r'] served]. intros b' Hb.
      destruct (IH b' Hb) as (w2 & E & H2). exists w2. split; [|done]. rewrite (bind_done _ _ w tt w1); [done|]. munfold. by rewrite E1.
    + specialize (IH _ _ w Hw). destruct (calls_spec ins None r) as [[q' r'] served]. intros b' Hb. destruct (IH b' Hb) as (w2 & E & H2).
      exists w2. split; [|done]. rewrite (bind_done _ _ w tt w); [done|]. munfold. by rewrite E1.
  - pose proof Hw as [E1 E2 E3]. cbn [forM_ power_step]. destruct r as [|p r].
    + specialize (IH _ _ w Hw). destruct (calls_spec ins q []) as [[q' r'] served]. intros b' Hb. destruct (IH b' Hb) as (w2 & E & H2).
      exists w2. split; [|done]. rewrite (bind_done _ _ w tt w); [done|]. munfold. by rewrite E2.
    + destruct (calls_spec ins q r) as [[q' r'] served] eqn:Es. intros b' Hb. cbn [forM_] in Hb. apply bind_done_inv in Hb as ([] & b1 & Eb & Hb).
      pose (w1 := w <| call_running := r |> <| pbase := b1 |> <| retains := retains w - 1 |>).
      assert (calls_sim q r w1) as Hw1.
      { split; simpl; [done|done|]. rewrite E3, !waiting_length. simpl. lia. }
      specialize (IH _ _ w1 Hw1). rewrite Es in IH. destruct (IH b' Hb) as (w2 & E & H2). exists w2. split; [|done].
      rewrite (bind_done _ _ w tt w1); [done|]. munfold. rewrite E2. unfold setPowerStateCallout. simpl. by rewrite Eb.
Qed.

(** The last thing given or still to be given to the work loop is the last
    thing asked for. *)
Context (Hkept : forall old new, kept old new = new).

Lemma calls_last ins q r : let '(q', r', served) := calls_spec ins q r in
  last (served ++ waiting_calls q' r') = match last (requested ins) with Some p => Some p | None => last (waiting_calls q r) end.
Proof.
  revert q r. induction ins as [|[p| |] ins IH]; intros q r; cbn [calls_spec].
  - done.
  - replace (match q with Some o => kept o p | None => p end) with p by (by destruct q; rewrite ?Hkept).
    specialize (IH (Some p) r). destruct (calls_spec ins (Some p) r) as [[q' r'] served]. rewrite IH.
    change (requested (PSet p :: ins)) with (p :: requested ins). rewrite last_cons. change (waiting_calls (Some p) r) with (r ++ [p]).
    rewrite last_snoc. by destruct (last (requested ins)).
  - change (requested (PFire :: ins)) with (requested ins). destruct q as [p|].
    + specialize (IH None (r ++ [p])). destruct (calls_spec ins None (r ++ [p])) as [[q' r'] served]. rewrite IH.
      change (waiting_calls None (r ++ [p])) with ((r ++ [p]) ++ []). by rewrite app_nil_r.
    + specialize (IH None r). by destruct (calls_spec ins None r) as [[q' r'] served].
  - change (requested (PRun :: ins)) with (requested ins). destruct r as [|p r].
    + specialize (IH q []). by destruct (calls_spec ins q []) as [[q' r'] served].
    + specialize (IH q r). destruct (calls_spec ins q r) as [[q' r'] served].
      change ((p :: served) ++ waiting_calls q' r') with (p :: (served ++ waiting_calls q' r')).
      change (waiting_calls q (p :: r)) with (p :: waiting_calls q r). rewrite !last_cons, IH. by destruct (last (requested ins)).
Qed.

End calls.

(** Sleep is asked for, then waking, before the call is taken; then sleep again,
    while the first callout has started. *)
Definition hurried : list PInput := [PSet kPS2PowerStateSleep; PSet kPS2PowerStateNormal; PFire; PSet kPS2PowerStateSleep; PRun; PFire; PRun].

Definition awake_world : PWorld Chip.chip (list (positive * Z)) := mkPWorld (Cycle.world 0x47) None [] 0.

