(* ===== verification/Config.v ===== *)
(** * Config: configuration dictionaries

    The last part of src/VoodooPS2Controller/VoodooPS2Controller.cpp: platform
    identification, the merge of Default, platform and RMCF settings that every
    driver's [probe] starts from, and the translation of an ACPI package into
    a dictionary.  IOKit's containers are values of [OSObject]; a dictionary is
    an association list with distinct keys.  [translateArray] rewrites arrays in
    place, so the model returns the rewritten original beside the result.

    The registry is what the caller passes: the entries from the controller to
    the root, each with its properties and, for an ACPI device, the function
    that evaluates one of its methods. *)

From S2P Require Import Prelude PS2Defs Controller.
From Stdlib Require Import Ascii.
From Stdlib Require String.

#[local] Open Scope string_scope.
#[local] Open Scope list_scope.
#[local] Open Scope Z_scope.

(** ** Objects *)

#[warnings="-register-all"]
Inductive OSObject :=
| OSBoolean (b : bool)
| OSNumber (n : Z)
| OSString (s : string)
| OSData (d : list Z)
| OSArray (l : list OSObject)
| OSDictionary (l : list (string * OSObject)).

Definition OSDict := list (string * OSObject).

(** [OSDynamicCast] *)
Definition asBoolean (o : OSObject) : option bool := match o with OSBoolean b => Some b | _ => None end.
Definition asNumber (o : OSObject) : option Z := match o with OSNumber n => Some n | _ => None end.
Definition asString (o : OSObject) : option string := match o with OSString s => Some s | _ => None end.
Definition asData (o : OSObject) : option (list Z) := match o with OSData d => Some d | _ => None end.
Definition asArray (o : OSObject) : option (list OSObject) := match o with OSArray l => Some l | _ => None end.
Definition asDict (o : OSObject) : option OSDict := match o with OSDictionary l => Some l | _ => None end.

Fixpoint getObject (k : string) (d : OSDict) : option OSObject :=
  match d with
  | [] => None
  | (k', o) :: d => if String.eqb k k' then Some o else getObject k d
  end.

Fixpoint setObject (k : string) (o : OSObject) (d : OSDict) : OSDict :=
  match d with
  | [] => [(k, o)]
  | (k', o') :: d => if String.eqb k k' then (k, o) :: d else (k', o') :: setObject k o d
  end.

(** [OSDictionary::merge] *)
Definition merge (d other : OSDict) : OSDict := fold_left (fun d ko => setObject ko.1 ko.2 d) other d.

Definition keys (d : OSDict) : list string := d.*1.

Lemma getObject_setObject k k' o d :
  getObject k (setObject k' o d) = if String.eqb k k' then Some o else getObject k d.
Proof.
  induction d as [|[k1 o1] d IH]; simpl.
  - done.
  - destruct (String.eqb_spec k' k1) as [->|Hne]; simpl.
    + by destruct (String.eqb_spec k k1).
    + rewrite IH. destruct (String.eqb_spec k k1), (String.eqb_spec k k'); congruence.
Qed.

Lemma getObject_None k d : getObject k d = None <-> k ∉ keys d.
Proof.
  induction d as [|[k1 o1] d IH]; simpl; [split; [intros _; apply not_elem_of_nil|done]|].
  unfold keys in *. simpl. rewrite not_elem_of_cons.
  destruct (String.eqb_spec k k1) as [->|Hne]; [naive_solver|]. rewrite IH. naive_solver.
Qed.

Lemma getObject_Some_keys k d o : getObject k d = Some o -> k ∈ keys d.
Proof.
  intros E. destruct (decide (k ∈ keys d)) as [|Hn]; [done|]. apply getObject_None in Hn. congruence.
Qed.

(** Later settings win. *)
Lemma getObject_merge k other d :
  NoDup (keys other) ->
  getObject k (merge d other) = match getObject k other with Some o => Some o | None => getObject k d end.
Proof.
  unfold merge. revert d. induction other as [|[k1 o1] other IH]; intros d Hnd; simpl; [done|].
  unfold keys in Hnd. simpl in Hnd. apply NoDup_cons in Hnd as [Hni Hnd]. rewrite IH by done. simpl.
  rewrite getObject_setObject. destruct (String.eqb_spec k k1) as [->|Hne]; [|done].
  by rewrite (proj2 (getObject_None k1 other)).
Qed.

Lemma getObject_app k d d' :
  getObject k (d ++ d')%list = match getObject k d with Some o => Some o | None => getObject k d' end.
Proof. induction d as [|[k1 o1] d IH]; simpl; [done|]. by destruct (String.eqb k k1). Qed.

Lemma setObject_new k o d : k ∉ keys d -> setObject k o d = (d ++ [(k, o)])%list.
Proof.
  induction d as [|[k1 o1] d IH]; simpl; [done|]. unfold keys in *. simpl. rewrite not_elem_of_cons.
  intros [Hne Hni]. apply String.eqb_neq in Hne. rewrite Hne. by rewrite IH.
Qed.

Lemma keys_cons k o d : keys ((k, o) :: d) = k :: keys d.
Proof. reflexivity. Qed.

Lemma keys_setObject k o d : keys (setObject k o d) = if decide (k ∈ keys d) then keys d else (keys d ++ [k])%list.
Proof.
  induction d as [|[k1 o1] d IH]; [done|]. cbn [setObject].
  destruct (String.eqb_spec k k1) as [->|Hne]; rewrite !keys_cons.
  - rewrite decide_True by (apply elem_of_cons; auto). done.
  - rewrite IH. destruct (decide (k ∈ keys d)) as [Hi|Hi].
    + rewrite decide_True by (apply elem_of_cons; auto). done.
    + rewrite decide_False by (rewrite elem_of_cons; tauto). done.
Qed.

Lemma NoDup_setObject k o d : NoDup (keys d) -> NoDup (keys (setObject k o d)).
Proof.
  rewrite keys_setObject. intros Hn. destruct (decide _) as [|Hi]; [done|].
  apply NoDup_app. split; [done|]. split; [set_solver|apply NoDup_singleton].
Qed.

(** ** Platform identification *)

Definition space : ascii := " ".

Definition string_of_bytes (l : list Z) : string :=
  fold_right (fun b s => String (ascii_of_N (Z.to_N b)) s) EmptyString l.

(** What a C string function sees of a NUL terminated buffer. *)
Fixpoint c_string (l : list Z) : list Z :=
  match l with
  | [] => []
  | b :: l => if b =? 0 then [] else b :: c_string l
  end.

(** [stripTrailingSpaces]: the second loop, from the end backwards. *)
Fixpoint strip_rev (l : list Z) : list Z :=
  match l with
  | b :: l' => if b =? 32 then strip_rev l' else l
  | [] => []
  end.
Definition stripTrailingSpaces (str : list Z) : list Z := rev (strip_rev (rev (c_string str))).

(** A registry entry: its properties, and its methods if it is an ACPI device. *)
Record IORegistryEntry := mkEntry {
  properties : OSDict;
  evaluateObject : option (string -> option OSObject);
}.

(** The entries from a service up to the root. *)
Definition IORegistry := list IORegistryEntry.

Fixpoint getPlatformOverride (reg : IORegistry) (sz : string) : option string :=
  match reg with
  | [] => None
  | e :: reg =>
      match getObject sz (properties e) ≫= asString with
      | Some id => Some id
      | None => getPlatformOverride reg sz
      end
  end.

Definition DSDT_SIGNATURE : Z := 0x54445344.
Definition sizeof_DSDT_HEADER : nat := 36.

(** [getDSDT]: the "ACPI Tables" property of the platform expert; the bytes of
    a header with the right signature. *)
Definition getDSDT (tables : option OSObject) : option (list Z) :=
  d ← tables ≫= asDict;
  data ← getObject "DSDT" d ≫= asData;
  if (length data <? sizeof_DSDT_HEADER)%nat then None
  else match data with
       | b0 :: b1 :: b2 :: b3 :: _ =>
           if Z.lor (Z.lor b0 (Z.shiftl b1 8)) (Z.lor (Z.shiftl b2 16) (Z.shiftl b3 24)) =? DSDT_SIGNATURE
           then Some data else None
       | _ => None
       end.

(** oemID is at offset 10, 6 bytes; oemTableID at 16, 8 bytes. *)
Definition getPlatformManufacturer (tables : option OSObject) (reg : IORegistry) : option string :=
  match getPlatformOverride reg "RM,oem-id" with
  | Some id => Some id
  | None =>
      pDSDT ← getDSDT tables;
      Some (string_of_bytes (stripTrailingSpaces (slice pDSDT 10 6)))
  end.

Definition getPlatformProduct (tables : option OSObject) (reg : IORegistry) : option string :=
  match getPlatformOverride reg "RM,oem-table-id" with
  | Some id => Some id
  | None =>
      pDSDT ← getDSDT tables;
      Some (string_of_bytes (stripTrailingSpaces (slice pDSDT 16 8)))
  end.

(** ** Looking up a node *)

(** The part of a link before ';'. *)
Fixpoint before_semicolon (s : string) : string :=
  match s with
  | EmptyString => EmptyString
  | String a s => if Ascii.eqb a ";" then EmptyString else String a (before_semicolon s)
  end.

(** [_getConfigurationNode]: a string is a link to another entry; [fuel]
    bounds the links followed. *)
Fixpoint _getConfigurationNode (fuel : nat) (root : OSDict) (name : string) : outcome (option OSDict) :=
  match fuel with
  | O => NoFuel
  | S fuel =>
      match getObject name root with
      | Some (OSDictionary d) => Done (Some d)
      | Some (OSString link) => _getConfigurationNode fuel root (before_semicolon link)
      | _ => Done None
      end
  end.

Definition kDefault : string := "Default".

Definition getConfigurationNode (fuel : nat) (tables : option OSObject) (entry : IORegistry) (list : OSDict)
  : outcome (option OSDict) :=
  match getPlatformManufacturer tables entry with
  | None => Done None
  | Some manufacturer =>
      match getObject manufacturer list ≫= asDict with
      | None => Done None
      | Some node =>
          c ← (match getPlatformProduct tables entry with
               | Some product => _getConfigurationNode fuel node product
               | None => Done None
               end);
          match c with
          | Some d => Done (Some d)
          | None => _getConfigurationNode fuel node kDefault
          end
      end
  end.

(** ** Translating ACPI packages *)

Definition translateString (sz : string) : option OSObject :=
  match sz with
  | ">y" => Some (OSBoolean true)
  | ">n" => Some (OSBoolean false)
  | ">>y" => Some (OSString ">y")
  | ">>n" => Some (OSString ">n")
  | _ => None
  end%string.

(** The two loops of [translateArray], over the entries of an array and over
    key/value pairs; a pair of results is the translation, if there is one, and
    the object as the translation leaves it. *)
Section translate_loops.
Context (translate : OSObject -> option OSObject * OSObject).

Fixpoint translate_each (l : list OSObject) : list OSObject :=
  match l with
  | [] => []
  | o :: l => let '(t, o') := translate o in default o' t :: translate_each l
  end.

Fixpoint translate_pairs (l : list OSObject) (dict : OSDict) : option OSDict * list OSObject :=
  match l with
  | OSString key :: o :: l =>
      let '(t, o') := translate o in
      let '(r, l') := translate_pairs l (setObject key (default o' t) dict) in
      (r, OSString key :: o' :: l')
  | [] => (Some dict, [])
  | _ => (None, l)
  end.
End translate_loops.

(** [translateEntry], with [translateArray] as its case for arrays. *)
Fixpoint translateEntry (obj : OSObject) : option OSObject * OSObject :=
  match obj with
  | OSArray array =>
      match array with
      | [] => (None, obj)
      | OSArray [] :: rest =>
          let rest := translate_each translateEntry rest in (Some (OSArray rest), OSArray rest)
      | _ =>
          if Nat.odd (length array) then (None, obj)
          else let '(r, array') := translate_pairs translateEntry array [] in
               (OSDictionary <$> r, OSArray array')
      end
  | OSString sz => (translateString sz, obj)
  | _ => (None, obj)
  end.

Definition translateArray (array : list OSObject) : option OSObject := (translateEntry (OSArray array)).1.

Definition getConfigurationOverride (acpi : string -> option OSObject) (method : string) : option OSDict :=
  r ← acpi method;
  array ← asArray r;
  obj ← translateArray array;
  asDict obj.

(** ** The configuration of a driver *)

Fixpoint find_acpi (reg : IORegistry) : option (string -> option OSObject) :=
  match reg with
  | [] => None
  | e :: reg => match evaluateObject e with Some f => Some f | None => find_acpi reg end
  end.

(** [makeConfigurationNode]: the node and the new value of [_rmcfCache]. *)
Definition makeConfigurationNode (fuel : nat) (tables : option OSObject) (this : IORegistry)
  (_rmcfCache : option OSDict) (list : option OSDict) (section : string)
  : outcome (option OSDict * option OSDict) :=
  match list with
  | None => Done (None, _rmcfCache)
  | Some list =>
      defaultNode ← _getConfigurationNode fuel list kDefault;
      platformNode ← getConfigurationNode fuel tables this list;
      let result :=
        match defaultNode, platformNode with
        | Some d, Some p => Some (merge d p)
        | Some d, None => Some d
        | None, p => p
        end in
      let over :=
        match _rmcfCache with
        | Some o => Some o
        | None => acpi ← find_acpi this; getConfigurationOverride acpi "RMCF"
        end in
      let result :=
        match (over ≫= getObject section) ≫= asDict with
        | Some sect => Some (match result with None => sect | Some r => merge r sect end)
        | None => result
        end in
      Done (result, over)
  end.

(** [setPropertiesGated] of the controller. *)
Definition setPropertiesGated (props : OSObject) (c : ApplePS2Controller) : ApplePS2Controller :=
  match asDict props with
  | None => c
  | Some dict =>
      let c := match getObject "WakeDelay" dict ≫= asNumber with
               | Some n => c <| _wakedelay := s32 (u32 n) |>
               | None => c
               end in
      match getObject "MouseWakeFirst" dict ≫= asBoolean with
      | Some b => c <| _mouseWakeFirst := b |>
      | None => c
      end
  end.

(** ** Links terminate or loop forever *)

Section links.
Context (root : OSDict).

Definition next (name : string) : option string :=
  match getObject name root with Some (OSString link) => Some (before_semicolon link) | _ => None end.

Fixpoint walk (k : nat) (name : string) : option string :=
  match k with O => Some name | S k => next name ≫= walk k end.

Lemma walk_add a b x : walk (a + b) x = walk a x ≫= walk b.
Proof. revert x. induction a as [|a IH]; intros x; simpl; [done|]. destruct (next x); simpl; auto. Qed.

Lemma walk_NoFuel k x : _getConfigurationNode k root x = NoFuel <-> is_Some (walk k x).
Proof.
  revert x. induction k as [|k IH]; intros x; [split; [by eexists|done]|].
  simpl. unfold next. destruct (getObject x root) as [[]|]; simpl; try (split; [done|by intros []]).
  apply IH.
Qed.

Lemma walk_first k x : walk k x = None -> exists m, (m <= k)%nat /\ walk m x = None /\
  forall i, (i < m)%nat -> is_Some (walk i x).
Proof.
  induction k as [|k IH]; [done|]. intros E. destruct (walk k x) as [y|] eqn:Ek.
  - exists (S k). split; [lia|]. split; [done|]. intros i Hi.
    destruct (walk i x) eqn:Ei; [by eexists|].
    replace k with (i + (k - i))%nat in Ek by lia. rewrite walk_add, Ei in Ek. done.
  - destruct (IH eq_refl) as (m & Hm & Hrest). exists m. split; [lia|done].
Qed.

Lemma next_key x y : next x = Some y -> x ∈ keys root.
Proof.
  unfold next. destruct (getObject x root) as [[]|] eqn:E; intros [=]. by eapply getObject_Some_keys.
Qed.

(** Two equal names in a chain that ends would end it earlier. *)
Lemma walk_inj m x i j : walk m x = None -> (forall i, (i < m)%nat -> is_Some (walk i x)) ->
  (i < j < m)%nat -> walk i x <> walk j x.
Proof.
  intros Hm Hmin Hij E. destruct (Hmin (i + (m - j))%nat) as [y Hy]; [lia|].
  rewrite walk_add, E, <- walk_add in Hy. replace (j + (m - j))%nat with m in Hy by lia. congruence.
Qed.

Lemma walk_bound m x : walk m x = None -> (forall i, (i < m)%nat -> is_Some (walk i x)) ->
  (m <= S (length root))%nat.
Proof.
  intros Hm Hmin. set (f := fun i => default x (walk i x)).
  assert (forall i, (i < m)%nat -> walk i x = Some (f i)) as Hf.
  { intros i Hi. unfold f. by destruct (Hmin i Hi) as [y ->]. }
  assert (length (f <$> seq 0 (m - 1)) <= length (keys root))%nat as Hle.
  { apply submseteq_length, NoDup_submseteq.
    - apply NoDup_fmap_2_strong; [|apply NoDup_seq]. intros i j Hi%elem_of_seq Hj%elem_of_seq Eij.
      destruct (Nat.lt_total i j) as [Hlt|[->|Hlt]]; [|done|]; exfalso;
        [apply (walk_inj m x i j)|apply (walk_inj m x j i)]; try done; try lia;
        rewrite !Hf by lia; congruence.
    - intros y (i & -> & Hi%elem_of_seq)%list_elem_of_fmap.
      destruct (Hmin (i + 1)%nat) as [z Hz]; [lia|]. rewrite walk_add, Hf in Hz by lia. simpl in Hz.
      destruct (next (f i)) as [w|] eqn:Ew; [|done]. by eapply next_key. }
  rewrite length_fmap, length_seq in Hle. unfold keys in Hle. rewrite length_fmap in Hle. lia.
Qed.
End links.

(** Looking up a configuration node either ends after following at most one
    link per entry of the dictionary, or the links form a cycle and the lookup
    never ends. *)
Theorem configuration_links root name :
  (exists r, _getConfigurationNode (S (length root)) root name = Done r) \/
  (forall fuel, _getConfigurationNode fuel root name = NoFuel).
Proof.
  destruct (walk root (S (length root)) name) as [y|] eqn:E.
  - right. intros fuel. apply walk_NoFuel. destruct (walk root fuel name) eqn:Ef; [by eexists|].
    apply walk_first in Ef as (m & Hm & Hn & Hmin). pose proof (walk_bound root m name Hn Hmin) as Hb.
    replace (S (length root)) with (m + (S (length root) - m))%nat in E by lia.
    rewrite walk_add, Hn in E. done.
  - left. destruct (_getConfigurationNode (S (length root)) root name) eqn:Er; [by eexists| |].
    + exfalso. revert Er. generalize name. generalize (S (length root)). clear.
      intros k. induction k as [|k IH]; intros x; simpl; [done|]. destruct (getObject x root) as [[]|]; try done. apply IH.
    + apply walk_NoFuel in Er as [z Hz]. congruence.
Qed.

(** ** Precedence of the settings *)

(** The value of [key] in a chain of layers, the first that has it. *)
Fixpoint layered (key : string) (layers : list (option OSDict)) : option OSObject :=
  match layers with
  | [] => None
  | l :: ls => match l ≫= getObject key with Some o => Some o | None => layered key ls end
  end.

Definition keys_ok (l : option OSDict) : Prop := match l with Some d => NoDup (keys d) | None => True end.

Lemma layered_merge key r d : NoDup (keys d) ->
  Some (match r with None => d | Some r => merge r d end) ≫= getObject key = layered key [Some d; r].
Proof.
  intros Hd. destruct r as [r|]; cbn -[merge getObject].
  - rewrite getObject_merge by done. by destruct (getObject key d), (getObject key r).
  - by destruct (getObject key d).
Qed.

(** The override in force: the cached one, or a fresh evaluation of RMCF. *)
Definition override_of (this : IORegistry) (cache : option OSDict) : option OSDict :=
  match cache with
  | Some o => Some o
  | None => acpi ← find_acpi this; getConfigurationOverride acpi "RMCF"
  end.

(** C32: the configuration a driver gets for a section is, key by key, the RMCF
    section over the platform's node over Default; the override is cached. *)
Theorem configuration_precedence fuel tables this cache list section dn pn key :
  _getConfigurationNode fuel list kDefault = Done dn ->
  getConfigurationNode fuel tables this list = Done pn ->
  keys_ok pn -> keys_ok ((override_of this cache ≫= getObject section) ≫= asDict) ->
  exists result,
    makeConfigurationNode fuel tables this cache (Some list) section =
      Done (result, override_of this cache) /\
    result ≫= getObject key =
      layered key [(override_of this cache ≫= getObject section) ≫= asDict; pn; dn].
Proof.
  intros Hdn Hpn Hpk Hok. unfold makeConfigurationNode. rewrite Hdn. cbn [mbind outcome_bind].
  rewrite Hpn. cbn [mbind outcome_bind]. fold (override_of this cache).
  pose (r := match dn, pn with Some d, Some p => Some (merge d p) | Some d, None => Some d | None, p => p end).
  assert (r ≫= getObject key = layered key [pn; dn]) as Hr.
  { subst r. destruct dn as [d|], pn as [p|]; cbn -[merge getObject];
      [rewrite getObject_merge by done|..]; repeat case_match; congruence. }
  fold r. eexists. split; [reflexivity|]. clearbody r.
  destruct ((override_of this cache ≫= getObject section) ≫= asDict) as [sect|] eqn:Es.
  - rewrite layered_merge by done. cbn [layered]. rewrite Hr. cbn [layered].
    repeat case_match; congruence.
  - exact Hr.
Qed.

(** ** ACPI packages carry every configuration *)

(** How a DSDT author writes a value: dictionaries as key/value packages,
    arrays marked with an empty package, booleans as ">y" and ">n". *)
Definition encodeString (s : string) : string :=
  match s with ">y" => ">>y" | ">n" => ">>n" | _ => s end%string.

Fixpoint encode (o : OSObject) : OSObject :=
  match o with
  | OSBoolean b => OSString (if b then ">y" else ">n")
  | OSString s => OSString (encodeString s)
  | OSArray l => OSArray (OSArray [] :: map encode l)
  | OSDictionary l => OSArray (flat_map (fun '(k, v) => [OSString k; encode v]) l)
  | OSNumber _ | OSData _ => o
  end.

(** The values the encoding can carry: dictionaries are not empty and the two
    strings that look like escapes do not occur. *)
#[warnings="-register-all"]
Inductive encodable : OSObject -> Prop :=
| enc_bool b : encodable (OSBoolean b)
| enc_number n : encodable (OSNumber n)
| enc_data d : encodable (OSData d)
| enc_string s : s <> ">>y"%string -> s <> ">>n"%string -> encodable (OSString s)
| enc_array l : Forall encodable l -> encodable (OSArray l)
| enc_dict l : l <> [] -> NoDup (keys l) -> Forall (fun kv => encodable kv.2) l -> encodable (OSDictionary l).

Definition decode (o : OSObject) : OSObject := let '(t, o') := translateEntry o in default o' t.

Lemma translate_each_map f l :
  translate_each f l = map (fun o => let '(t, o') := f o in default o' t) l.
Proof. induction l as [|o l IH]; simpl; [done|]. destruct (f o). by rewrite IH. Qed.

Lemma translate_pairs_flat f (l : OSDict) d :
  (translate_pairs f (flat_map (fun '(k, v) => [OSString k; v]) l) d).1 =
  Some (merge d (map (fun kv => (kv.1, let '(t, o') := f kv.2 in default o' t)) l)).
Proof.
  unfold merge. revert d. induction l as [|[k v] l IH]; intros d; simpl; [done|].
  destruct (f v) as [t o']. specialize (IH (setObject k (default o' t) d)).
  destruct (translate_pairs f _ _) as [r l']. simpl in *. by rewrite IH.
Qed.

Lemma merge_new d l : NoDup (keys l) -> (forall k, k ∈ keys l -> k ∉ keys d) -> merge d l = d ++ l.
Proof.
  unfold merge. revert d. induction l as [|[k o] l IH]; intros d Hn Hd; simpl; [by rewrite app_nil_r|].
  rewrite keys_cons in Hn. apply NoDup_cons in Hn as [Hk Hn]. setoid_rewrite keys_cons in Hd.
  rewrite setObject_new by (apply Hd; apply elem_of_cons; auto).
  rewrite IH; [by rewrite <- app_assoc|done|].
  intros k' Hk'. unfold keys. rewrite fmap_app, not_elem_of_app. split; [apply Hd, elem_of_cons; auto|].
  simpl. intros ->%list_elem_of_singleton. done.
Qed.

Lemma flat_map_even (l : OSDict) :
  Nat.odd (length (flat_map (fun '(k, v) => [OSString k; v]) l)) = false.
Proof. induction l as [|[k v] l IH]; simpl; [done|]. exact IH. Qed.

Lemma encodeString_ok s : s <> ">>y"%string -> s <> ">>n"%string ->
  decode (OSString (encodeString s)) = OSString s.
Proof.
  intros H1 H2. destruct (decide (s = ">y"%string)) as [->|]; [done|].
  destruct (decide (s = ">n"%string)) as [->|]; [done|].
  assert (encodeString s = s) as -> by (unfold encodeString; repeat case_match; congruence).
  unfold decode. simpl. assert (translateString s = None) as ->; [|done].
  unfold translateString. repeat case_match; congruence.
Qed.

Lemma flat_map_encode (l : OSDict) :
  flat_map (fun '(k, v) => [OSString k; encode v]) l =
  flat_map (fun '(k, v) => [OSString k; v]) (map (fun kv => (kv.1, encode kv.2)) l).
Proof. induction l as [|[k v] l IH]; simpl; [done|]. by rewrite IH. Qed.

Lemma decode_array l : decode (OSArray (OSArray [] :: l)) = OSArray (map decode l).
Proof. unfold decode. cbn [translateEntry]. by rewrite translate_each_map. Qed.

Lemma decode_dict (l : OSDict) : l <> [] -> NoDup (keys l) ->
  decode (OSArray (flat_map (fun '(k, v) => [OSString k; v]) l)) =
  OSDictionary (map (fun kv => (kv.1, decode kv.2)) l).
Proof.
  intros Hne Hn. destruct l as [|[k v] l]; [done|]. unfold decode at 1. cbn [flat_map app translateEntry].
  pose proof (flat_map_even ((k, v) :: l)) as He. cbn [flat_map app] in He. rewrite He.
  pose proof (translate_pairs_flat translateEntry ((k, v) :: l) []) as Hp. cbn [flat_map app] in Hp.
  destruct (translate_pairs translateEntry _ _) as [r a']. cbn [fst] in Hp. subst r. cbn [fmap option_fmap option_map default].
  f_equal. change (fun kv => _) with (fun kv : string * OSObject => (kv.1, decode kv.2)).
  rewrite merge_new; [done| |]; [|intros ? _; apply not_elem_of_nil].
  unfold keys in *. rewrite <- list_fmap_compose. exact Hn.
Qed.

(** C33: every configuration value with non-empty dictionaries survives the trip
    through an ACPI package: translating its encoding gives it back. *)
Theorem acpi_roundtrip o : encodable o -> decode (encode o) = o.
Proof.
  revert o. fix IH 2. intros o Ho. destruct Ho as [b|n|d|s H1 H2|l Hl|l Hne Hn Hl].
  - by destruct b.
  - done.
  - done.
  - by apply encodeString_ok.
  - cbn [encode]. rewrite decode_array, map_map. f_equal. induction Hl as [|o l Ho Hl IHl]; simpl; [done|].
    by rewrite IH, IHl.
  - cbn [encode]. rewrite flat_map_encode, decode_dict.
    + rewrite map_map. f_equal. clear Hne Hn. induction Hl as [|[k o] l Ho Hl IHl]; [done|].
      cbn [map fst snd]. f_equal; [|exact IHl]. by rewrite (IH o Ho).
    + by destruct l.
    + unfold keys in *. rewrite <- list_fmap_compose. exact Hn.
Qed.

Lemma acpi_roundtrip_witness :
  let o := OSDictionary [("Keyboard"%string, OSDictionary [("LogScanCodes"%string, OSNumber 1);
    ("Swap command and option"%string, OSBoolean false); ("Custom PS2 Map"%string, OSArray [OSString "e037=64"])])] in
  decode (encode o) = o.
Proof.
  intros o. apply acpi_roundtrip. unfold o.
  repeat (constructor || (intros [=]) || (apply not_elem_of_cons; split) || apply not_elem_of_nil || discriminate).
Defined.

Definition demo_list : OSDict :=
  [("Default"%string, OSDictionary [("A"%string, OSNumber 1); ("B"%string, OSNumber 2)]);
   ("DELL"%string, OSDictionary [("Default"%string, OSString "WN09;old"); ("WN09"%string, OSDictionary [("B"%string, OSNumber 3)])])].
Definition demo_registry : IORegistry :=
  [mkEntry [("RM,oem-id"%string, OSString "DELL")] None;
   mkEntry [] (Some (fun _ => Some (OSArray [OSString "Mouse"; OSArray [OSString "A"; OSString ">n"]])))].

Lemma configuration_precedence_witness :
  exists result, makeConfigurationNode 3 None demo_registry None (Some demo_list) "Mouse" =
      Done (result, override_of demo_registry None) /\
    result ≫= getObject "A"%string = Some (OSBoolean false).
Proof.
  destruct (configuration_precedence 3 None demo_registry None demo_list "Mouse" 
    (Some [("A"%string, OSNumber 1); ("B"%string, OSNumber 2)]) (Some [("B"%string, OSNumber 3)]) "A"%string)
    as (r & E & El).
  - reflexivity.
  - reflexivity.
  - simpl. apply NoDup_singleton.
  - simpl. apply NoDup_singleton.
  - exists r. split; [exact E|]. rewrite El. reflexivity.
Defined.
