(* ===== verification/ControllerLife.v ===== *)
(** * ControllerLife: probe, start and stop of the controller, and its nubs

    What ApplePS2Controller (src/VoodooPS2Controller/VoodooPS2Controller.cpp)
    acquires when it starts and gives back when it stops or when starting fails,
    and ApplePS2Device, the nub through which a driver reaches the controller.
    Every acquisition and release is an event, so that they can be counted. *)

From S2P Require Import Prelude PS2Defs PortIO Controller ControllerSpec ControllerPower Config.
From Stdlib Require String.

#[local] Open Scope string_scope.
#[local] Open Scope list_scope.
#[local] Open Scope Z_scope.

(** ** State *)

(** The members of the controller that Controller.v does not need. *)
Record Lifecycle := mkLife {
  _powerChangeThreadCall : bool;
  _rmcfCache : option OSDict;
  _cmdbyteLock : bool;
  notification_set : bool;         (* the OSSet behind _notificationServices *)
}.
#[export] Instance Lifecycle_eta : Settable Lifecycle := mkSettable _ (fun r => mkLife (_powerChangeThreadCall r) (_rmcfCache r) (_cmdbyteLock r) (notification_set r)).

(** What [init] and [start] acquire. *)
Inductive Resource :=
| RCmdbyteLock | RNotificationServices
| RPublishNotify | RTerminateNotify | RQueueLock | RWorkLoop | RSourceMouse | RSourceKeyboard | RSourceQueue | RCmdGate
| RThreadCall | RKeyboardNub | RMouseNub.
#[export] Instance Resource_eq : EqDecision Resource.
Proof. solve_decision. Defined.

Inductive LifeEvent :=
| LSetProperty (key : string)
| LAcquire (r : Resource)
| LRelease (r : Resource)
| LRemoveNotification (r : Resource)
| LAddEventSource (r : Resource)
| LEnableSource
| LPMinit
| LRegisterPowerDriver
| LJoinPMtree
| LPMstop
| LRegisterService (nub : option PS2DeviceType)
| LFlushServices
| LRetainController
| LReleaseController
| LLock
| LUnlock
| LSuperStop
| LSuperFree.

Record LWorld (H D : Type) := mkLWorld {
  base : World H D;
  life : Lifecycle;
  levs : list LifeEvent;
}.
Arguments mkLWorld {H D} _ _ _.
Arguments base {H D} _.
Arguments life {H D} _.
Arguments levs {H D} _.
#[export] Instance LWorld_eta H D : Settable (LWorld H D) := mkSettable _ (fun w => mkLWorld (base w) (life w) (levs w)).

(** Which allocations and calls of IOKit succeed. *)
Record LEnv := {
  super_init : bool;
  super_probe : bool;
  publishNotify : option positive;
  terminateNotify : option positive;
  existing : list positive;          (* services with kDeliverNotifications that are there already *)
  super_start : bool;
  available : Resource -> bool;
  addEventSource : Resource -> bool;
  nub_super_init : PS2DeviceType -> bool;
  nub_super_attach : PS2DeviceType -> bool;
}.

(** A member that is a pointer or, for the model, a flag. *)
Definition has (r : Resource) (c : ApplePS2Controller) (l : Lifecycle) : bool :=
  match r with
  | RCmdbyteLock => _cmdbyteLock l
  | RNotificationServices => notification_set l
  | RPublishNotify => bool_decide (is_Some (_publishNotify c))
  | RTerminateNotify => bool_decide (is_Some (_terminateNotify c))
  | RQueueLock => _requestQueueLock c
  | RWorkLoop => _workLoop c
  | RSourceMouse => _interruptSourceMouse c
  | RSourceKeyboard => _interruptSourceKeyboard c
  | RSourceQueue => _interruptSourceQueue c
  | RCmdGate => _cmdGate c
  | RThreadCall => _powerChangeThreadCall l
  | RKeyboardNub => _keyboardDevice c
  | RMouseNub => _mouseDevice c
  end.

(** The nub a driver attaches to. *)
Record ApplePS2Device := mkDevice {
  _controller : bool;
  _deviceType : PS2DeviceType;
}.
#[export] Instance ApplePS2Device_eta : Settable ApplePS2Device := mkSettable _ (fun d => mkDevice (_controller d) (_deviceType d)).

Section life.
  Context {H D : Type} `{PortIO H}.
  Abbreviation W := (LWorld H D).
  Context (callInterrupt : positive -> option positive -> Z -> D -> PS2InterruptResult * D).
  Context (callCompletion : positive -> positive -> PS2Request -> M (World H D) unit).
  Context (fuel : nat).
  Context (env : LEnv).
  Notation "'prog' A" := (M W A) (at level 10, A at next level).

Definition lemit (e : LifeEvent) : prog unit := modify (fun w => w <| levs := levs w ++ [e] |>).
(** A member function of Controller.v. *)
Definition on_base {A} (m : M (World H D) A) : prog A :=
  fun w => match m (base w) with Done (a, b) => Done (a, w <| base := b |>) | Undef => Undef | NoFuel => NoFuel end.
Definition setlc (f : ApplePS2Controller -> ApplePS2Controller) : prog unit :=
  modify (fun w => w <| base := (base w) <| ctl := f (ctl (base w)) |> |>).
Definition getlc {A} (f : ApplePS2Controller -> A) : prog A := gets (fun w => f (ctl (base w))).

Definition assign (r : Resource) (b : bool) (w : W) : W :=
  let c := ctl (base w) in
  let put c := w <| base := (base w) <| ctl := c |> |> in
  match r with
  | RCmdbyteLock => w <| life := (life w) <| _cmdbyteLock := b |> |>
  | RNotificationServices => w <| life := (life w) <| notification_set := b |> |>
  | RPublishNotify => put (c <| _publishNotify := if b then publishNotify env else None |>)
  | RTerminateNotify => put (c <| _terminateNotify := if b then terminateNotify env else None |>)
  | RQueueLock => put (c <| _requestQueueLock := b |>)
  | RWorkLoop => put (c <| _workLoop := b |>)
  | RSourceMouse => put (c <| _interruptSourceMouse := b |>)
  | RSourceKeyboard => put (c <| _interruptSourceKeyboard := b |>)
  | RSourceQueue => put (c <| _interruptSourceQueue := b |>)
  | RCmdGate => put (c <| _cmdGate := b |>)
  | RThreadCall => w <| life := (life w) <| _powerChangeThreadCall := b |> |>
  | RKeyboardNub => put (c <| _keyboardDevice := b |>)
  | RMouseNub => put (c <| _mouseDevice := b |>)
  end.

(** [member = allocate()]; [ok] says whether it could. *)
Definition acquire (r : Resource) (ok : bool) : prog unit :=
  modify (assign r ok);; when ok (lemit (LAcquire r)).
(** [OSSafeReleaseNULL(member)] and the like. *)
Definition release (r : Resource) : prog unit :=
  w ← gets id;
  when (has r (ctl (base w)) (life w)) (modify (assign r false);; lemit (LRelease r)).

(** A call through a member, which has to exist. *)
Definition through (r : Resource) (e : LifeEvent) : prog unit :=
  w ← gets id;
  if has r (ctl (base w)) (life w) then lemit e else undef.

(** [ApplePS2Controller::init].  The allocation of the set is not checked. *)
Definition initController : prog bool :=
  if negb (super_init env) then mret false else
  acquire RCmdbyteLock (available env RCmdbyteLock);;
  if negb (available env RCmdbyteLock) then mret false else
  setlc (fun _ => init);;
  modify (fun w => w <| life := (life w) <| _rmcfCache := None |> |>);;
  acquire RNotificationServices (available env RNotificationServices);;
  mret true.

Definition stop : prog unit :=
  through RPublishNotify (LRemoveNotification RPublishNotify);;
  through RTerminateNotify (LRemoveNotification RTerminateNotify);;
  release RPublishNotify;;
  release RTerminateNotify;;
  through RNotificationServices LFlushServices;;
  setlc (fun c => c <| _notificationServices := [] |>);;
  release RNotificationServices;;
  release RKeyboardNub;;
  release RMouseNub;;
  release RSourceKeyboard;;
  release RSourceMouse;;
  release RSourceQueue;;
  release RCmdGate;;
  release RWorkLoop;;
  modify (fun w => w <| life := (life w) <| _rmcfCache := None |> |>);;
  lock ← getlc _requestQueueLock;
  when lock (setlc (fun c => c <| _hardwareOffline := true |>);;
    on_base (processRequestQueue callInterrupt callCompletion fuel);;
    release RQueueLock);;
  release RThreadCall;;
  lemit LPMstop;;
  lemit LSuperStop.

(** [init] of the two nubs. *)
Definition ApplePS2KeyboardDevice_init : bool * ApplePS2Device :=
  let result := nub_super_init env kDT_Keyboard in (result, mkDevice false kDT_Keyboard).
Definition ApplePS2MouseDevice_init : bool * ApplePS2Device :=
  let result := nub_super_init env kDT_Mouse in (result, mkDevice false kDT_Mouse).
Definition nub_init (d : PS2DeviceType) : bool * ApplePS2Device :=
  match d with kDT_Keyboard => ApplePS2KeyboardDevice_init | kDT_Mouse => ApplePS2MouseDevice_init end.

Definition attach (dev : ApplePS2Device) : prog (bool * ApplePS2Device) :=
  if negb (nub_super_attach env (_deviceType dev)) then mret (false, dev)
  else lemit LRetainController;; mret (true, dev <| _controller := true |>).

Definition detach (dev : ApplePS2Device) : prog ApplePS2Device :=
  if _controller dev then lemit LReleaseController;; mret (dev <| _controller := false |>) else undef.

(** A nub: [OSTypeAlloc], [init] and [attach]; without it, no interrupt source. *)
Definition create_nub (d : PS2DeviceType) (nub source : Resource) : prog unit :=
  acquire nub (available env nub);;
  ok ← (if available env nub then
          let '(ok, dev) := nub_init d in
          if ok : bool then '(ok, _) ← attach dev; mret ok else mret false
        else mret false);
  when (negb ok) (release nub;; release source).

Definition register_nub (d : PS2DeviceType) (nub : Resource) : prog unit :=
  w ← gets id;
  when (has nub (ctl (base w)) (life w)) (lemit (LRegisterService (Some d))).

(** After the reset of the chip; false for [goto fail]. *)
Definition start_allocate : prog bool :=
  acquire RQueueLock (available env RQueueLock);;
  if negb (available env RQueueLock) then mret false else
  forM_ [RWorkLoop; RSourceMouse; RSourceKeyboard; RSourceQueue; RCmdGate] (fun r => acquire r (available env r));;
  if negb (forallb (available env) [RWorkLoop; RSourceMouse; RSourceKeyboard; RSourceQueue; RCmdGate]) then mret false else
  lemit (LAddEventSource RSourceQueue);;
  if negb (addEventSource env RSourceQueue) then mret false else
  lemit (LAddEventSource RCmdGate);;
  if negb (addEventSource env RCmdGate) then mret false else
  lemit LEnableSource;;
  acquire RThreadCall (available env RThreadCall);;
  if negb (available env RThreadCall) then mret false else
  lemit LPMinit;;
  lemit LRegisterPowerDriver;;
  lemit LJoinPMtree;;
  create_nub kDT_Keyboard RKeyboardNub RSourceKeyboard;;
  create_nub kDT_Mouse RMouseNub RSourceMouse;;
  register_nub kDT_Keyboard RKeyboardNub;;
  register_nub kDT_Mouse RMouseNub;;
  lemit (LRegisterService None);;
  mret true.

(** The handler of both notifications. *)
Definition notificationHandler (newService notifier : positive) : prog bool :=
  on_base (gated (notificationHandlerGated newService notifier));; mret true.

(** [addMatchingNotification] calls the handler for the services that are there
    already before it returns the notifier. *)
Definition start_notifications : prog unit :=
  lemit (LSetProperty "RM,Version");;
  lemit (LSetProperty "RM,Build");;
  match publishNotify env with
  | Some n => forM_ (existing env) (fun s => notificationHandler s n;; mret tt)
  | None => mret tt
  end;;
  acquire RPublishNotify (bool_decide (is_Some (publishNotify env)));;
  acquire RTerminateNotify (bool_decide (is_Some (terminateNotify env))).

Definition start : prog bool :=
  start_notifications;;
  if negb (super_start env) then mret false
  else
    on_base (resetController callInterrupt fuel);;
    ok ← start_allocate;
    if ok : bool then mret true else stop;; mret false.

(** [probe] with the settings of the "Controller" section of the platform's
    profile; the override it reads on the way is kept for the drivers. *)
Definition probe (tables : option OSObject) (this : IORegistry) (profiles : option OSDict) : prog bool :=
  if negb (super_probe env) then mret false else
  cache ← gets (fun w => _rmcfCache (life w));
  match makeConfigurationNode fuel tables this cache profiles "Controller" with
  | Done (config, cache) =>
      modify (fun w => w <| life := (life w) <| _rmcfCache := cache |> |>);;
      match config with Some d => setlc (setPropertiesGated (OSDictionary d)) | None => mret tt end;;
      mret true
  | Undef => undef
  | NoFuel => nofuel
  end.

(** [setProperties]: through the gate, if there is one yet. *)
Definition setProperties (props : OSObject) : prog unit :=
  g ← getlc _cmdGate; when g (setlc (setPropertiesGated props)).

Definition getWorkLoop : prog bool := getlc _workLoop.

Definition free : prog unit := release RCmdbyteLock;; lemit LSuperFree.

(** The lock that drivers take around command byte changes. *)
Definition lock : prog unit := through RCmdbyteLock LLock.
Definition unlock : prog unit := through RCmdbyteLock LUnlock.
End life.

(** ** Nothing is leaked *)

(** Acquired and not yet released. *)
Definition outstanding (r : Resource) (evs : list LifeEvent) : Z :=
  fold_left (fun n e => match e with
    | LAcquire r' => if bool_decide (r = r') then n + 1 else n
    | LRelease r' => if bool_decide (r = r') then n - 1 else n
    | _ => n end) evs 0.

Lemma outstanding_snoc r evs e : outstanding r (evs ++ [e]) = match e with
    | LAcquire r' => if bool_decide (r = r') then outstanding r evs + 1 else outstanding r evs
    | LRelease r' => if bool_decide (r = r') then outstanding r evs - 1 else outstanding r evs
    | _ => outstanding r evs end.
Proof. unfold outstanding. by rewrite fold_left_app. Qed.

(** The set of resources that are held. *)
Definition upd (S : Resource -> bool) (r : Resource) (b : bool) : Resource -> bool := fun r' => if bool_decide (r' = r) then b else S r'.
Definition none : Resource -> bool := fun _ => false.

Section balance.
  Context {H D : Type} `{PortIO H}.
  Abbreviation W := (LWorld H D).
  Context (callInterrupt : positive -> option positive -> Z -> D -> PS2InterruptResult * D).
  Context (callCompletion : positive -> positive -> PS2Request -> M (World H D) unit).
  Context (fuel : nat).
  Context (env : LEnv).
  Context (Hpublish : is_Some (publishNotify env)) (Hterminate : is_Some (terminateNotify env)) (Hexisting : existing env = []).

(** Queued requests are fire-and-forget. *)
Definition unclaimed (b : World H D) : Prop := Forall (fun r => completionTarget r = NullTarget) (_requestQueue (ctl b)).

(** The members and the account agree: [S] is held. *)
Record held (S : Resource -> bool) (w : W) : Prop := {
  hd_members : forall r, has r (ctl (base w)) (life w) = S r;
  hd_account : forall r, outstanding r (levs w) = if S r then 1 else 0;
  hd_queue : unclaimed (base w);
}.

Definition leads {A} (S : Resource -> bool) (m : M W A) (P : A -> (Resource -> bool) -> Prop) : Prop :=
  forall w, held S w -> exists a w' S', m w = Done (a, w') /\ held S' w' /\ P a S'.

Lemma leads_bind {A B} S (m : M W A) (f : A -> M W B) P Q :
  leads S m P -> (forall a S', P a S' -> leads S' (f a) Q) -> leads S (m ≫= f) Q.
Proof.
  intros Hm Hf w Hw. destruct (Hm w Hw) as (a & w1 & S1 & E1 & H1 & Ha). destruct (Hf a S1 Ha w1 H1) as (b & w2 & S2 & E2 & H2 & Hb).
  exists b, w2, S2. by rewrite (bind_done _ _ _ _ _ E1).
Qed.
(** One step whose effect on what is held is known. *)
Lemma leads_step {A B} S S1 (m : M W A) (f : A -> M W B) Q :
  leads S m (fun _ S' => S' = S1) -> (forall a, leads S1 (f a) Q) -> leads S (m ≫= f) Q.
Proof. intros Hm Hf. eapply leads_bind; [exact Hm|]. intros a S' ->. apply Hf. Qed.
Lemma leads_ret {A} S (a : A) (P : A -> (Resource -> bool) -> Prop) : P a S -> leads S (mret a) P.
Proof. intros HP w Hw. by exists a, w, S. Qed.
Lemma leads_when S b (m : M W unit) S' : (b = true -> leads S m (fun _ S1 => S1 = S')) -> (b = false -> S' = S) -> leads S (when b m) (fun _ S1 => S1 = S').
Proof. intros H1 H2. destruct b; [by apply H1|]. apply leads_ret. by rewrite H2. Qed.

Definition neutral (e : LifeEvent) : bool := match e with LAcquire _ | LRelease _ => false | _ => true end.
Lemma leads_emit S e : neutral e = true -> leads S (lemit e) (fun _ S' => S' = S).
Proof.
  intros He w [Hm Ha Hq]. exists tt. do 2 eexists. split; [reflexivity|]. split; [|done]. split; simpl; [done| |done].
  intros r. rewrite outstanding_snoc. by destruct e.
Qed.

Lemma has_assign r r' b (w : W) : has r' (ctl (base (assign env r b w))) (life (assign env r b w)) = upd (fun r => has r (ctl (base w)) (life w)) r b r'.
Proof.
  unfold upd. case_bool_decide as E; [subst|]; destruct r; try destruct r'; try done; simpl; destruct b; try done.
  - by apply bool_decide_eq_true_2. - by apply bool_decide_eq_true_2.
Qed.
Lemma queue_assign r b (w : W) : _requestQueue (ctl (base (assign env r b w))) = _requestQueue (ctl (base w)).
Proof. by destruct r. Qed.
Lemma levs_assign r b (w : W) : levs (assign env r b w) = levs w.
Proof. by destruct r. Qed.

Lemma leads_acquire S r ok : S r = false -> leads S (acquire env r ok) (fun _ S' => S' = upd S r ok).
Proof.
  intros Hr w [Hm Ha Hq]. exists tt, (if ok then (assign env r ok w) <| levs := levs w ++ [LAcquire r] |> else assign env r ok w), (upd S r ok).
  split; [unfold acquire, when, lemit; munfold; destruct ok; by rewrite ?levs_assign|]. split; [|done].
  assert (forall r', has r' (ctl (base (assign env r ok w))) (life (assign env r ok w)) = upd S r ok r') as HA.
  { intros r'. rewrite has_assign. unfold upd. by rewrite Hm. }
  assert (_requestQueue (ctl (base (assign env r ok w))) = _requestQueue (ctl (base w))) as HQ by apply queue_assign.
  destruct ok; split; try done; try (unfold unclaimed; simpl; by rewrite HQ); simpl; intros r'.
  - rewrite outstanding_snoc, Ha. unfold upd. case_bool_decide as E; [subst; by rewrite Hr|done].
  - rewrite levs_assign, Ha. unfold upd. case_bool_decide as E; [subst; by rewrite Hr|done].
Qed.

Lemma leads_release S r : leads S (release env r) (fun _ S' => S' = upd S r false).
Proof.
  intros w [Hm Ha Hq]. unfold release. munfold. unfold id. rewrite Hm.
  exists tt, (if S r then (assign env r false w) <| levs := levs w ++ [LRelease r] |> else w), (upd S r false).
  split; [unfold when, lemit; destruct (S r); munfold; by rewrite ?levs_assign|]. split; [|done].
  destruct (S r) eqn:Hr.
  - assert (forall r', has r' (ctl (base (assign env r false w))) (life (assign env r false w)) = upd S r false r') as HA.
    { intros r'. rewrite has_assign. unfold upd. by rewrite Hm. }
    split; [exact HA| |unfold unclaimed; simpl; by rewrite queue_assign]. intros r'. simpl. rewrite outstanding_snoc, Ha.
    unfold upd. case_bool_decide as E; [subst; by rewrite Hr|done].
  - split; [| |done]; intros r'; unfold upd; case_bool_decide as E; subst; rewrite ?Hm, ?Ha, ?Hr; done.
Qed.

Lemma leads_through S r e : neutral e = true -> S r = true -> leads S (through r e) (fun _ S' => S' = S).
Proof.
  intros He Hr w Hw. unfold through. munfold. unfold id. rewrite (hd_members _ _ Hw), Hr. by apply leads_emit.
Qed.

Lemma leads_setlc S f : (forall c l r, has r (f c) l = has r c l) -> (forall c, _requestQueue (f c) = _requestQueue c) ->
  leads S (setlc f) (fun _ S' => S' = S).
Proof.
  intros Hf Hq w [Hm Ha Hu]. exists tt. do 2 eexists. split; [reflexivity|]. split; [|done]. split; simpl; [|done|unfold unclaimed; simpl; by rewrite Hq].
  intros r. by rewrite Hf.
Qed.

(** The queue is emptied without the hardware. *)
Lemma leads_queue S : S RQueueLock = true ->
  leads S (setlc (fun c => c <| _hardwareOffline := true |>);; on_base (processRequestQueue callInterrupt callCompletion fuel)) (fun _ S' => S' = S).
Proof.
  intros HS w [Hm Ha Hu]. pose proof (Hm RQueueLock) as Hl. cbn [has] in Hl. rewrite HS in Hl.
  unfold setlc, on_base. munfold. rewrite offline_queue_ok by done. exists tt. do 2 eexists. split; [reflexivity|]. split; [|done].
  split; simpl; [|done|by constructor]. intros r. rewrite <- Hm. by destruct r.
Qed.

Lemma upd_same S r b : upd S r b r = b.
Proof. unfold upd. by rewrite bool_decide_eq_true_2. Qed.

Lemma leads_life S f : (forall c l r, has r c (f l) = has r c l) ->
  leads S (modify (fun w : W => w <| life := f (life w) |>)) (fun _ S' => S' = S).
Proof.
  intros Hf w [Hm Ha Hu]. exists tt. do 2 eexists. split; [reflexivity|]. split; [|done]. split; simpl; [|done|done].
  intros r. by rewrite Hf.
Qed.

(** [stop] gives everything back but what [free] will. *)
Lemma leads_stop S : S RPublishNotify = true -> S RTerminateNotify = true -> S RNotificationServices = true ->
  leads S (stop callInterrupt callCompletion fuel env) (fun _ S' => forall r, S' r = upd none RCmdbyteLock (S RCmdbyteLock) r).
Proof.
  intros H1 H2 H3. unfold stop.
  do 2 (eapply leads_step; [by apply leads_through|intros _]).
  do 2 (eapply leads_step; [apply leads_release|intros _]).
  eapply leads_step; [by apply leads_through|intros _].
  eapply leads_step; [apply leads_setlc; [by intros c l []|done]|intros _].
  do 8 (eapply leads_step; [apply leads_release|intros _]).
  set (S1 := upd _ RWorkLoop false).
  eapply (leads_step S1 S1); [by apply leads_life; intros c l []|].
  intros _. eapply (leads_bind _ _ _ (fun b S' => S' = S1 /\ b = S1 RQueueLock)).
  { intros w Hw. exists (_requestQueueLock (ctl (base w))), w, S1. split; [done|]. split; [done|]. split; [done|]. apply (hd_members _ _ Hw RQueueLock). }
  intros lock S' [-> ->]. apply (leads_step _ (upd S1 RQueueLock false)).
  { destruct (S1 RQueueLock) eqn:E; cbn [when].
    - intros w Hw. destruct (leads_queue S1 E w Hw) as ([] & w1 & S2 & E1 & Hw1 & ->).
      destruct (leads_release S1 RQueueLock w1 Hw1) as ([] & w2 & S2 & E2 & Hw2 & ->). exists tt, w2. eexists.
      split; [|split; [exact Hw2|done]]. apply bind_done_inv in E1 as (u & w0 & E0 & E1). by rewrite (bind_done _ _ _ _ _ E0), (bind_done _ _ _ _ _ E1).
    - intros w Hw. exists tt, w, (upd S1 RQueueLock false). split; [done|]. split; [|done]. destruct Hw as [Hm Ha Hu].
      split; [| |done]; intros r; unfold upd; case_bool_decide; subst; rewrite ?Hm, ?Ha, ?E; done. }
  intros _. eapply leads_step; [apply leads_release|intros _]. eapply leads_step; [by apply leads_emit|intros _].
  intros w Hw. destruct (leads_emit _ LSuperStop eq_refl w Hw) as ([] & w' & S' & E & Hw' & ->). exists tt, w'. eexists.
  split; [exact E|]. split; [exact Hw'|]. by intros [].
Qed.

(** What a started controller holds. *)
Definition essential : list Resource := [RCmdbyteLock; RNotificationServices; RPublishNotify; RTerminateNotify; RQueueLock; RWorkLoop; RSourceQueue; RCmdGate; RThreadCall].
Definition working (S : Resource -> bool) : Prop :=
  Forall (fun r => S r = true) essential /\ S RSourceKeyboard = S RKeyboardNub /\ S RSourceMouse = S RMouseNub.

Lemma leads_nub S d nub source : nub <> source -> S nub = false -> S source = true ->
  leads S (create_nub env d nub source) (fun _ S' => S' = let b := available env nub && nub_super_init env d && nub_super_attach env d in upd (upd S nub b) source b).
Proof.
  intros Hne Hn Hs. unfold create_nub. eapply leads_step; [by apply leads_acquire|intros _]. cbv zeta.
  eapply (leads_bind _ _ _ (fun ok S' => S' = upd S nub (available env nub) /\ ok = available env nub && nub_super_init env d && nub_super_attach env d)).
  { destruct (available env nub); [|by apply leads_ret].
    assert (nub_init env d = (nub_super_init env d, mkDevice false d)) as -> by (by destruct d). unfold attach. cbn [_deviceType].
    destruct (nub_super_init env d); [|by apply leads_ret].
    eapply (leads_bind _ _ _ (fun p S' => S' = upd S nub true /\ p.1 = nub_super_attach env d)).
    - destruct (nub_super_attach env d); cbn [negb]; [|by apply leads_ret].
      eapply leads_step; [by apply leads_emit|intros _]. by apply leads_ret.
    - intros [ok dev] S' [-> E]. simpl in E. subst. by apply leads_ret. }
  intros b S' [-> ->]. set (b := available env nub && _ && _). destruct b eqn:Eb; cbn [when negb].
  - intros w Hw. exists tt, w. eexists. split; [reflexivity|]. split; [|reflexivity]. unfold b in Eb. apply andb_true_iff in Eb as [[Ea _]%andb_true_iff _].
    rewrite Ea in Hw. destruct Hw as [Hm Ha Hu].
    split; [| |done]; intros r; rewrite ?Hm, ?Ha; unfold upd; repeat case_bool_decide; subst; try done; by rewrite Hs.
  - eapply leads_bind; [apply leads_release|]. intros _ S' ->. intros w Hw. destruct (leads_release _ source w Hw) as (u & w' & S' & E & Hw' & ->).
    exists u, w'. eexists. split; [exact E|]. split; [|reflexivity]. destruct Hw' as [Hm Ha Hu].
    split; [| |done]; intros r; rewrite ?Hm, ?Ha; unfold upd; repeat case_bool_decide; subst; done.
Qed.

(** *** The reset of the chip holds on to everything *)

Definition same_queue (b b' : World H D) : Prop := _requestQueue (ctl b') = _requestQueue (ctl b).
#[local] Instance same_queue_preorder : PreOrder same_queue.
Proof. split; [done|]. unfold same_queue. congruence. Qed.
#[local] Instance same_queue_ctl : SameCtl same_queue.
Proof. intros w w' E. unfold same_queue. by rewrite E. Qed.
Lemma reset_queue : pres same_queue (resetController callInterrupt fuel).
Proof.
  unfold resetController. repeat (apply pres_bind; [apply _| |intros ?]); try solve [eauto with pres nocore]; try (by apply pres_ret; apply _);
    by apply pres_modify.
Qed.

Lemma has_core r c c' l : core c' = core c -> has r c' l = has r c l.
Proof.
  intros E. destruct r; try done; cbn [has].
  1,2: change (_publishNotify c') with (_publishNotify (core c')) || change (_terminateNotify c') with (_terminateNotify (core c')); by rewrite E.
  - exact (f_equal _requestQueueLock E).
  - exact (f_equal _workLoop E).
  - exact (f_equal _interruptSourceMouse E).
  - exact (f_equal _interruptSourceKeyboard E).
  - exact (f_equal _interruptSourceQueue E).
  - exact (f_equal _cmdGate E).
  - exact (f_equal _keyboardDevice E).
  - exact (f_equal _mouseDevice E).
Qed.

Lemma reset_held S w b : held S w -> is_s32 (_ignoreInterrupts (ctl (base w))) ->
  resetController callInterrupt fuel (base w) = Done (tt, b) -> held S (w <| base := b |>).
Proof.
  intros [Hm Ha Hu] Hi E. destruct (keeps_resetController _ _ _ _ _ E Hi) as [C _]. pose proof (reset_queue _ _ _ E) as Q.
  split; simpl; [|done|unfold unclaimed; rewrite Q; exact Hu]. intros r. rewrite <- Hm. by apply has_core.
Qed.

(** *** Start *)

(** After [init], and after the notifications. *)
Definition initialised : Resource -> bool := upd (upd none RCmdbyteLock true) RNotificationServices true.
Definition notified : Resource -> bool := upd (upd initialised RPublishNotify true) RTerminateNotify true.

Lemma leads_initController : super_init env = true -> available env RCmdbyteLock = true -> available env RNotificationServices = true ->
  leads none (initController env : M W bool) (fun ok S' => ok = true /\ S' = initialised).
Proof.
  intros Hi Hc Hs. unfold initController. rewrite Hi, Hc, Hs. cbn [negb]. eapply leads_step; [by apply leads_acquire|intros _]. cbn [negb].
  eapply (leads_step _ (upd none RCmdbyteLock true)).
  { intros w [Hm Ha Hu]. exists tt. do 2 eexists. split; [reflexivity|]. split; [|done]. split; simpl; [|done|by constructor].
    intros r. pose proof (Hm r) as Hr. destruct r; try done; by rewrite <- Hr. }
  intros _. eapply leads_step; [by apply leads_life; intros c l []|intros _].
  eapply leads_step; [by apply leads_acquire|intros _]. by apply leads_ret.
Qed.

Lemma leads_notifications : leads initialised (start_notifications env : M W unit) (fun _ S' => S' = notified).
Proof.
  unfold start_notifications. do 2 (eapply leads_step; [by apply leads_emit|intros _]). rewrite Hexisting.
  eapply (leads_step _ initialised); [by destruct (publishNotify env); apply leads_ret|intros _].
  rewrite !bool_decide_eq_true_2 by done. eapply leads_step; [by apply leads_acquire|intros _]. by apply leads_acquire.
Qed.

Ltac grab := eapply leads_step; [by apply leads_acquire|intros _].
Ltac tell := eapply leads_step; [by apply leads_emit|intros _].
Ltac bail_unless b := destruct b; cbn [negb andb]; [|by apply leads_ret].

Lemma leads_register S d nub : leads S (register_nub d nub : M W unit) (fun _ S' => S' = S).
Proof.
  intros w Hw. unfold register_nub. munfold. unfold id. rewrite (hd_members _ _ Hw).
  destruct (S nub); cbn [when]; [by apply leads_emit|exact (leads_ret S tt (fun _ S' => S' = S) eq_refl w Hw)].
Qed.

(** Whatever fails, the notifications are there for [stop]. *)
Definition stoppable (S : Resource -> bool) : Prop :=
  S RCmdbyteLock = true /\ S RNotificationServices = true /\ S RPublishNotify = true /\ S RTerminateNotify = true.

Lemma leads_allocate : leads notified (start_allocate env : M W bool) (fun ok S' => stoppable S' /\ (ok = true -> working S')).
Proof.
  unfold start_allocate. grab. bail_unless (available env RQueueLock). cbn [forM_ forallb].
  eapply (leads_bind _ _ _ (fun _ S' => S' = upd (upd (upd (upd (upd (upd notified RQueueLock true) RWorkLoop (available env RWorkLoop))
    RSourceMouse (available env RSourceMouse)) RSourceKeyboard (available env RSourceKeyboard)) RSourceQueue (available env RSourceQueue))
    RCmdGate (available env RCmdGate))).
  { do 5 grab. by apply leads_ret. }
  intros _ S' ->.
  bail_unless (available env RWorkLoop). bail_unless (available env RSourceMouse). bail_unless (available env RSourceKeyboard).
  bail_unless (available env RSourceQueue). bail_unless (available env RCmdGate). cbn [andb negb].
  tell. bail_unless (addEventSource env RSourceQueue). tell. bail_unless (addEventSource env RCmdGate). tell. grab.
  bail_unless (available env RThreadCall). do 3 tell.
  do 2 (eapply leads_step; [by apply leads_nub|intros _]). cbv zeta.
  do 2 (eapply leads_step; [apply leads_register|intros _]). tell. apply leads_ret. split; [done|]. intros _.
  split; [|done]. by repeat constructor.
Qed.

(** What is left for [free]. *)
Definition stopped : Resource -> bool := upd none RCmdbyteLock true.

Lemma held_ext S S' w : (forall r, S r = S' r) -> held S w -> held S' w.
Proof. intros E [Hm Ha Hu]. split; [| |done]; intros r; by rewrite <- E. Qed.

Lemma stop_releases S w : stoppable S -> held S w ->
  exists w', stop callInterrupt callCompletion fuel env w = Done (tt, w') /\ held stopped w'.
Proof.
  intros (Hc & Hs & Hp & Ht) Hw. destruct (leads_stop S Hp Ht Hs w Hw) as ([] & w' & S' & E & Hw' & Hr).
  exists w'. split; [done|]. apply (held_ext S'); [|done]. intros r. by rewrite Hr, Hc.
Qed.

Lemma free_ok w : held stopped w -> exists w', free env w = Done (tt, w') /\ held none w'.
Proof.
  intros Hw. destruct (leads_release stopped RCmdbyteLock w Hw) as ([] & w1 & S1 & E1 & H1 & ->).
  destruct (leads_emit _ LSuperFree eq_refl w1 H1) as ([] & w2 & S2 & E2 & H2 & ->). exists w2. unfold free. rewrite (bind_done _ _ _ _ _ E1).
  split; [done|]. revert H2. apply held_ext. by intros [].
Qed.

(** The controller that resets the chip. *)
Definition notified_base (w : W) : World H D :=
  (base w) <| ctl := (ctl (base w)) <| _publishNotify := publishNotify env |> <| _terminateNotify := terminateNotify env |> |>.

Lemma notifications_base w w' : start_notifications env w = Done (tt, w') -> base w' = notified_base w.
Proof.
  unfold start_notifications, acquire, lemit, notified_base. rewrite Hexisting. destruct Hpublish as [p Ep], Hterminate as [q Eq]. rewrite Ep, Eq. cbn [forM_]. munfold.
  rewrite !bool_decide_eq_true_2 by done. intros E. simplify_eq. simpl. by rewrite Ep, Eq.
Qed.

Lemma init_base (w w' : W) : super_init env = true -> available env RCmdbyteLock = true ->
  initController env w = Done (true, w') -> base w' = (base w) <| ctl := init |>.
Proof.
  unfold initController, acquire, setlc, lemit, when. munfold. intros -> ->. simpl.
  destruct (available env RNotificationServices); intros E; by simplify_eq.
Qed.

Lemma start_outcome w b : held initialised w -> super_start env = true -> is_s32 (_ignoreInterrupts (ctl (base w))) ->
  resetController callInterrupt fuel (notified_base w) = Done (tt, b) ->
  exists ok w', start callInterrupt callCompletion fuel env w = Done (ok, w') /\
    if ok : bool then exists S, working S /\ stoppable S /\ held S w' else held stopped w'.
Proof.
  intros Hw Hss Hi Hr. destruct (leads_notifications w Hw) as ([] & w1 & S1 & E1 & H1 & ->).
  pose proof (notifications_base _ _ E1) as Eb. unfold start. rewrite (bind_done _ _ _ _ _ E1), Hss. cbn [negb].
  assert (on_base (resetController callInterrupt fuel) w1 = Done (tt, w1 <| base := b |>)) as E2 by (unfold on_base; by rewrite Eb, Hr).
  rewrite (bind_done _ _ _ _ _ E2).
  assert (held notified (w1 <| base := b |>)) as H2 by (apply reset_held; rewrite ?Eb; done).
  destruct (leads_allocate _ H2) as (ok & w3 & S3 & E3 & H3 & Hst & Hwork). rewrite (bind_done _ _ _ _ _ E3). destruct ok.
  - exists true, w3. split; [done|]. exists S3. split; [by apply Hwork|done].
  - destruct (stop_releases S3 w3 Hst H3) as (w4 & E4 & H4). exists false, w4. by rewrite (bind_done _ _ _ _ _ E4).
Qed.

(** A service that wants notifications and is there before the controller starts
    reaches the handler before the command gate exists. *)
Lemma early_consumer s l (w : W) : existing env = s :: l -> _cmdGate (ctl (base w)) = false ->
  start callInterrupt callCompletion fuel env w = Undef.
Proof.
  intros Ex Hg. unfold start, start_notifications. rewrite Ex. destruct Hpublish as [p Ep]. rewrite Ep.
  unfold lemit, forM_, notificationHandler, on_base, gated, getc. munfold. simpl. by rewrite Hg.
Qed.

End balance.

(** ** The nubs

    A driver calls its nub, which calls the controller it is attached to with
    its own device type. *)
Section nub.
  Context {H D : Type} `{PortIO H}.
  Abbreviation W := (LWorld H D).
  Context (callInterrupt : positive -> option positive -> Z -> D -> PS2InterruptResult * D).
  Context (callCompletion : positive -> positive -> PS2Request -> M (World H D) unit).
  Context (callMessage : positive -> PS2Message -> Payload -> M (World H D) Payload).
  Context (fuel : nat).
  Context (dev : ApplePS2Device).
  Notation "'prog' A" := (M W A) (at level 10, A at next level).

(** [_controller->f(...)] *)
Definition call {A} (m : prog A) : prog A := if _controller dev then m else undef.

(** A request of [max] commands whose contents are unspecified; the model has them zero. *)
Definition allocateRequest (max : Z) : prog PS2Request :=
  mret (mkRequest 0 NullTarget None 0 (replicate (Z.to_nat max) (mkCommand kPS2C_ReadDataPort 0))).
Definition freeRequest (r : PS2Request) : prog unit := on_base (emit (EvFreeRequest r)).

Definition nub_allocateRequest (max : Z) : prog PS2Request := call (allocateRequest max).
Definition nub_freeRequest (r : PS2Request) : prog unit := call (freeRequest r).
Definition nub_submitRequest (r : PS2Request) : prog bool := call (on_base (submitRequest r)).
Definition nub_submitRequestAndBlock (r : PS2Request) : prog PS2Request :=
  call (on_base (submitRequestAndBlock callInterrupt callCompletion fuel r)).
Definition nub_setCommandByte (setBits clearBits : Z) : prog Z :=
  call (on_base (setCommandByte callInterrupt fuel setBits clearBits)).
Definition nub_lock : prog unit := call lock.
Definition nub_unlock : prog unit := call unlock.
Definition nub_installInterruptAction (target interruptAction packetAction : positive) : prog unit :=
  call (on_base (installInterruptAction callInterrupt fuel (_deviceType dev) target interruptAction packetAction)).
Definition nub_uninstallInterruptAction : prog unit :=
  call (on_base (uninstallInterruptAction callInterrupt fuel (_deviceType dev))).
Definition nub_installPowerControlAction (target action : positive) : prog unit :=
  call (on_base (installPowerControlAction (_deviceType dev) target action)).
Definition nub_uninstallPowerControlAction : prog unit :=
  call (on_base (uninstallPowerControlAction (_deviceType dev))).
Definition nub_dispatchMessage (message : PS2Message) (data : Payload) : prog Payload :=
  call (on_base (dispatchMessage callMessage message data)).

(** *** Installing and uninstalling through the nub *)

(** No driver has installed its actions for [d]. *)
Definition vacant (d : PS2DeviceType) (c : ApplePS2Controller) : Prop :=
  match d with
  | kDT_Keyboard => _interruptInstalledKeyboard c = false /\ _interruptTargetKeyboard c = None /\
      _interruptActionKeyboard c = None /\ _packetActionKeyboard c = None
  | kDT_Mouse => _interruptInstalledMouse c = false /\ _interruptTargetMouse c = None /\
      _interruptActionMouse c = None /\ _packetActionMouse c = None
  end.

Definition irq_of (d : PS2DeviceType) : Z := match d with kDT_Keyboard => kIRQ_Keyboard | kDT_Mouse => kIRQ_Mouse end.
Definition irq_bit (d : PS2DeviceType) : Z := match d with kDT_Keyboard => kCB_EnableKeyboardIRQ | kDT_Mouse => kCB_EnableMouseIRQ end.

(** What the world sees of a driver that comes and goes. *)
Definition visit (d : PS2DeviceType) (target : positive) : list Event :=
  [EvRetain (Some target); EvAddSource d; EvRegisterInterrupt (irq_of d); EvEnableInterrupt (irq_of d);
   EvDisableInterrupt (irq_of d); EvUnregisterInterrupt (irq_of d); EvRemoveSource d; EvRelease (Some target)].

Definition with_actions (d : PS2DeviceType) (target ia pa : positive) (b : bool) (c : ApplePS2Controller) : ApplePS2Controller :=
  match d with
  | kDT_Keyboard => c <| _interruptTargetKeyboard := Some target |> <| _interruptActionKeyboard := Some ia |>
      <| _packetActionKeyboard := Some pa |> <| _interruptInstalledKeyboard := b |>
  | kDT_Mouse => c <| _interruptTargetMouse := Some target |> <| _interruptActionMouse := Some ia |>
      <| _packetActionMouse := Some pa |> <| _interruptInstalledMouse := b |>
  end.

Context `{!CommandByteLaws H} (Hfuel : (busy_bound < fuel)%nat).

(** Bring the world of [setCommandByte] into the shape [E] knows. *)
Ltac at_world E :=
  match type of E with _ ?x = _ => match goal with |- context [setCommandByte _ _ _ _ ?y] => replace y with x end end.

Lemma with_actions_ready d target ia pa b c : ready c -> source_of d c = true -> ready (with_actions d target ia pa b c).
Proof.
  intros [(Hk & Hm & Hpk & Hpm) Hg Ht Hi] Hs. destruct d; simpl in Hs; split; try done; split; simpl; eauto; repeat split; eauto.
Qed.

Lemma install_ok d target ia pa (b : World H D) : ready (ctl b) -> PortIO.quiet (hw b) -> _workLoop (ctl b) = true ->
  source_of d (ctl b) = true -> vacant d (ctl b) ->
  exists h, installInterruptAction callInterrupt fuel d target ia pa b =
      Done (tt, b <| ctl := with_actions d target ia pa true (ctl b) |> <| hw := h |> <| evs := evs b ++ take 4 (visit d target) |>) /\
    PortIO.quiet h /\ cb_of h = new_cb (cb_of (hw b)) (irq_bit d) 0.
Proof.
  intros Hr Hq Hwl Hs Hv. set (e := [EvRetain (Some target); EvAddSource d]).
  destruct (setCommandByte_ok callInterrupt fuel Hfuel
    (b <| ctl := with_actions d target ia pa false (ctl b) |> <| evs := evs b ++ e |>) (irq_bit d) 0) as (h & E & Hq' & Hcb);
    [by apply with_actions_ready|done|].
  exists h. split; [|done]. unfold installInterruptAction, getc. unfold mbind at 1, M_bind at 1, gets at 1. unfold id.
  destruct d; destruct Hv as (Hv1 & Hv2 & Hv3 & Hv4); simpl in Hs; cbn [is_kbd is_mouse negb andb]; rewrite Hv1, Hs; cbn [andb negb];
    unfold emit, setc; munfold; rewrite Hwl; munfold; unfold e in E; cbn [with_actions irq_bit] in E.
  all: at_world E; [rewrite E; simpl; rewrite <- !app_assoc; by destruct b as [[]]|].
  all: simpl; rewrite <- app_assoc; destruct b as [[]]; simpl in *; by subst.
Qed.

Lemma uninstall_ok d target ia pa (b : World H D) c : ready c -> PortIO.quiet (hw b) -> _workLoop c = true ->
  source_of d c = true -> vacant d c -> ctl b = with_actions d target ia pa true c ->
  exists h, uninstallInterruptAction callInterrupt fuel d b =
      Done (tt, b <| ctl := c |> <| hw := h |> <| evs := evs b ++ drop 4 (visit d target) |>) /\
    PortIO.quiet h /\ cb_of h = new_cb (cb_of (hw b)) 0 (irq_bit d).
Proof.
  intros Hr Hq Hwl Hs Hv Hc.
  destruct (setCommandByte_ok callInterrupt fuel Hfuel b 0 (irq_bit d)) as (h & E & Hq' & Hcb);
    [rewrite Hc; by apply with_actions_ready|done|].
  exists h. split; [|done]. unfold uninstallInterruptAction, getc. unfold mbind at 1, M_bind at 1, gets at 1. unfold id.
  destruct d; destruct Hv as (Hv1 & Hv2 & Hv3 & Hv4); cbn [irq_bit] in E; rewrite !Hc; cbn [is_kbd is_mouse negb andb with_actions];
    simpl; rewrite (bind_done _ _ _ _ _ E); unfold emit, setc; munfold; rewrite Hwl; munfold;
    simpl; rewrite Hc, <- !app_assoc; destruct b, c; simpl in *; by subst.
Qed.

Lemma irq_bit_cleared old d : new_cb (new_cb old (irq_bit d) 0) 0 (irq_bit d) = clear old (irq_bit d).
Proof.
  unfold new_cb, clear. apply Z.bits_inj'. intros n Hn. change (u8 0) with 0.
  assert (u8 (irq_bit d) = irq_bit d) as -> by by destruct d.
  rewrite !Z.ldiff_spec, !Z.lor_spec, Z.ldiff_spec, Z.lor_spec, Z.bits_0, !orb_false_r. simpl. rewrite andb_true_r.
  by destruct (Z.testbit old n), (Z.testbit (irq_bit d) n).
Qed.
Lemma irq_bit_set old d : anyset (new_cb old (irq_bit d) 0) (irq_bit d) = true.
Proof.
  assert (irq_bit d = Z.shiftl 1 (match d with kDT_Keyboard => 0 | kDT_Mouse => 1 end)) as E by by destruct d.
  rewrite E at 2. rewrite anyset_bit by (by destruct d). unfold new_cb, clear. change (u8 0) with 0.
  rewrite Z.ldiff_spec, Z.lor_spec, Z.bits_0, andb_true_r. destruct d; simpl; by rewrite orb_true_r.
Qed.

End nub.

(** ** A concrete machine *)

Module LifeDemo.
(** Everything can be allocated, but the mouse nub does not attach. *)
Definition one_nub : LEnv := {|
  super_init := true; super_probe := true; publishNotify := Some 1%positive; terminateNotify := Some 2%positive; existing := []; super_start := true;
  available := fun _ => true; addEventSource := fun _ => true; nub_super_init := fun _ => true; nub_super_attach := is_kbd;
|}.
(** No thread call. *)
Definition no_thread : LEnv := {|
  super_init := true; super_probe := true; publishNotify := Some 1%positive; terminateNotify := Some 2%positive; existing := []; super_start := true;
  available := fun r => negb (bool_decide (r = RThreadCall)); addEventSource := fun _ => true; nub_super_init := fun _ => true; nub_super_attach := fun _ => true;
|}.
Definition fresh : LWorld Chip.chip (list (positive * Z)) :=
  mkLWorld (mkWorld init (Chip.idle 0x47) [] true []) (mkLife false None false false) [].
Lemma fresh_held : held none fresh.
Proof. split; [by intros []|done|by constructor]. Qed.

(** Whether the controller starts, and whether it has a mouse nub then. *)
Definition verdict (env : LEnv) : option (bool * bool) :=
  match (initController env ≫= fun _ => start Demo.call Demo.completion 20 env) fresh with
  | Done (ok, w) => Some (ok, has RMouseNub (ctl (base w)) (life w))
  | _ => None
  end.

Lemma verdict_of env w0 ok w' : initController env fresh = Done (true, w0) ->
  start Demo.call Demo.completion 20 env w0 = Done (ok, w') -> verdict env = Some (ok, has RMouseNub (ctl (base w')) (life w')).
Proof. intros E0 E. unfold verdict. by rewrite (bind_done _ _ _ _ _ E0), E. Qed.
Lemma one_nub_starts : verdict one_nub = Some (true, false).
Proof. vm_compute. reflexivity. Qed.
Lemma no_thread_fails : verdict no_thread = Some (false, false).
Proof. vm_compute. reflexivity. Qed.
Lemma resets env : publishNotify env = Some 1%positive -> terminateNotify env = Some 2%positive ->
  exists b, resetController Demo.call 20 (notified_base env (fresh <| base := (base fresh) <| ctl := init |> |>)) = Done (tt, b).
Proof.
  intros E1 E2. unfold notified_base. rewrite E1, E2.
  destruct (done_with_true (resetController Demo.call 20 (notified_base one_nub (fresh <| base := (base fresh) <| ctl := init |> |>))) (fun _ => true))
    as (b & E & _); [vm_compute; reflexivity|]. by exists b.
Qed.

(** A started controller with no drivers yet. *)
Definition lone : LWorld Chip.chip (list (positive * Z)) :=
  mkLWorld (mkWorld (init <| _workLoop := true |> <| _cmdGate := true |> <| _interruptSourceKeyboard := true |> <| _interruptSourceMouse := true |>)
    (Chip.idle 0x44) [] true []) (mkLife true None true true) [].
End LifeDemo.


