(* ===== verification/DebugBuild.v ===== *)
(** * DebugBuild: the controller built with the debugger key sequence

    VoodooPS2Controller.cpp with DEBUGGER_SUPPORT and HANDLE_INTERRUPT_DATA_LATER
    set: the keyboard interrupt reads one byte, watches for the key sequence that
    enters the kernel debugger, and queues the byte in one of 32 preallocated
    elements; the work loop takes the bytes from the queue and hands them to the
    driver; a read of the keyboard takes them from the queue before it polls the
    port.  The rest of the controller is the one of Controller.v. *)

From S2P Require Import Prelude RingBuffer PS2Defs PortIO Controller ControllerSpec.

(** ** State *)

Definition kKeyboardQueueSize : nat := 32.
Definition kModifierShiftLeft : Z := 0x01.
Definition kModifierShiftRight : Z := 0x02.
Definition kModifierCtrlLeft : Z := 0x04.
Definition kModifierCtrlRight : Z := 0x08.
Definition kModifierAltLeft : Z := 0x10.
Definition kModifierAltRight : Z := 0x20.
Definition kModifierWindowsLeft : Z := 0x40.
Definition kModifierWindowsRight : Z := 0x80.

(** An element of [_keyboardQueueAlloc], by its index, with its [data]. *)
Record KeyboardQueueElement := mkElement { element : nat; data : Z }.

Record Debugging := mkDebugging {
  _extendedState : bool;
  _modifierState : Z;
  _debuggingEnabled : bool;
  _keyboardQueue : list KeyboardQueueElement;
  _keyboardQueueUnused : list KeyboardQueueElement;
}.
#[export] Instance Debugging_eta : Settable Debugging := mkSettable _ (fun r =>
  mkDebugging (_extendedState r) (_modifierState r) (_debuggingEnabled r) (_keyboardQueue r) (_keyboardQueueUnused r)).

(** After [init] and the allocation in [start]. *)
Definition debugging0 (enabled : bool) : Debugging :=
  mkDebugging false 0 enabled [] ((fun i => mkElement i 0) <$> seq 0 kKeyboardQueueSize).

Record GWorld (H D : Type) := mkGWorld {
  gbase : World H D;
  dbg : Debugging;
  stops : nat;                     (* calls of Debugger("Programmer Key") *)
}.
Arguments mkGWorld {H D} _ _ _.
Arguments gbase {H D} _.
Arguments dbg {H D} _.
Arguments stops {H D} _.
#[export] Instance GWorld_eta H D : Settable (GWorld H D) := mkSettable _ (fun w => mkGWorld (gbase w) (dbg w) (stops w)).

(** The table of [doEscape]: scan code, extended, modifier. *)
Definition modifierTable : list (Z * bool * Z) :=
  [(kSC_Alt, false, kModifierAltLeft); (kSC_Alt, true, kModifierAltRight);
   (kSC_Ctrl, false, kModifierCtrlLeft); (kSC_Ctrl, true, kModifierCtrlRight);
   (kSC_ShiftLeft, false, kModifierShiftLeft); (kSC_ShiftRight, false, kModifierShiftRight);
   (kSC_WindowsLeft, true, kModifierWindowsLeft); (kSC_WindowsRight, true, kModifierWindowsRight)].

(** Where a byte came from, with the polls left and the status it arrived with. *)
Inductive Fetched := FQueued (b : Z) | FTimeout | FPort (timeoutCounter : nat) (status b : Z).

Section debug.
  Context {H D : Type} `{PortIO H}.
  Abbreviation W := (GWorld H D).
  Context (callInterrupt : positive -> option positive -> Z -> D -> PS2InterruptResult * D).
  Context (callPacket : positive -> option positive -> M (World H D) unit).
  Context (fuel : nat).
  Notation "'prog' A" := (M W A) (at level 10, A at next level).

Definition on_ctl {A} (m : M (World H D) A) : prog A :=
  fun w => match m (gbase w) with Done (a, b) => Done (a, w <| gbase := b |>) | Undef => Undef | NoFuel => NoFuel end.
Definition getd {A} (f : Debugging -> A) : prog A := gets (fun w => f (dbg w)).
Definition setd (f : Debugging -> Debugging) : prog unit := modify (fun w => w <| dbg := f (dbg w) |>).

(** The simple lock also disables interrupts; its result is what to restore. *)
Definition lockController : prog bool :=
  state ← gets (fun w => int_enabled (gbase w));
  modify (fun w => w <| gbase := (gbase w) <| int_enabled := false |> |>);;
  mret state.
Definition unlockController (state : bool) : prog unit :=
  modify (fun w => w <| gbase := (gbase w) <| int_enabled := state |> |>).

Definition enqueueKeyboardData (key : Z) : prog unit :=
  d ← getd id;
  match _keyboardQueueUnused d with
  | e :: unused => setd (fun d => d <| _keyboardQueueUnused := unused |> <| _keyboardQueue := _keyboardQueue d ++ [mkElement (element e) key] |>)
  | [] => mret tt
  end.

Definition dequeueKeyboardData : prog (option Z) :=
  d ← getd id;
  match _keyboardQueue d with
  | e :: queue =>
      setd (fun d => d <| _keyboardQueue := queue |> <| _keyboardQueueUnused := _keyboardQueueUnused d ++ [e] |>);;
      mret (Some (data e))
  | [] => mret None
  end.

(** Is the byte part of the sequence, and to be dropped? *)
Definition doEscape (scancode : Z) : prog bool :=
  let upBit := anyset scancode kSC_UpBit in
  if scancode =? kSC_Extend then setd (fun d => d <| _extendedState := true |>);; mret false
  else
    let scancode := clear scancode kSC_UpBit in
    d ← getd id;
    match List.find (fun '(s, e, _) => (s =? scancode) && Bool.eqb e (_extendedState d)) modifierTable with
    | Some (_, _, modifier) =>
        setd (fun d => d <| _modifierState := if upBit then clear (_modifierState d) modifier else Z.lor (_modifierState d) modifier |>
                         <| _extendedState := false |>);;
        mret false
    | None =>
        let releaseModifiers := (scancode =? kSC_Delete) && (_modifierState d =? Z.lor kModifierAltLeft kModifierAltRight) in
        when releaseModifiers (
          on_ctl (writeCommandPort fuel kCP_DisableMouseClock);;
          modify (fun w => w <| stops := S (stops w) |>);;
          on_ctl (writeCommandPort fuel kCP_EnableMouseClock));;
        when releaseModifiers (
          forM_ modifierTable (fun '(s, extended, modifier) =>
            held ← getd _modifierState;
            when (anyset held modifier) (when extended (enqueueKeyboardData kSC_Extend);; enqueueKeyboardData (Z.lor s kSC_UpBit)));;
          setd (fun d => d <| _modifierState := 0 |>));;
        setd (fun d => d <| _extendedState := false |>);;
        mret releaseModifiers
    end.

Definition interruptHandlerMouse_later : prog unit :=
  i ← on_ctl (getc _ignoreInterrupts);
  if negb (i =? 0) then mret tt else on_ctl (signal kDT_Mouse).

Definition interruptHandlerKeyboard_debug : prog unit :=
  i ← on_ctl (getc _ignoreInterrupts);
  if negb (i =? 0) then mret tt
  else
    state ← lockController;
    status ← on_ctl (inb_ kCommandPort);
    when (anyset status kOutputReady) (
      if anyset status kMouseData then interruptHandlerMouse_later
      else
        on_ctl delay;;
        key ← on_ctl (inb_ kDataPort);
        enabled ← getd _debuggingEnabled;
        drop ← (if enabled : bool then doEscape key else mret false);
        when (negb drop) (enqueueKeyboardData key);;
        on_ctl (signal kDT_Keyboard));;
    unlockController state.

(** A complete packet is handled at once. *)
Definition dispatchDriverInterrupt_later (deviceType : PS2DeviceType) (b : Z) : M (World H D) unit :=
  result ← _dispatchDriverInterrupt callInterrupt deviceType b;
  match result with
  | kPS2IR_packetReady =>
      c ← getc id;
      match deviceType, _packetActionMouse c, _packetActionKeyboard c with
      | kDT_Mouse, Some a, _ => callPacket a (_interruptTargetMouse c)
      | kDT_Keyboard, _, Some a => callPacket a (_interruptTargetKeyboard c)
      | _, _, _ => undef
      end
  | kPS2IR_packetBuffering => mret tt
  end.

(** [while (1)] of [interruptOccurred], with at most [n] bytes. *)
Fixpoint drain_loop (n : nat) (state : bool) : prog unit :=
  match n with
  | O => nofuel
  | S n =>
      key ← dequeueKeyboardData;
      match key with
      | Some key =>
          unlockController state;;
          on_ctl (dispatchDriverInterrupt_later kDT_Keyboard key);;
          state ← lockController;
          drain_loop n state
      | None =>
          status ← on_ctl (inb_ kCommandPort);
          if Z.land status (Z.lor kOutputReady kMouseData) =? Z.lor kOutputReady kMouseData then
            unlockController state;;
            on_ctl delay;;
            b ← on_ctl (inb_ kDataPort);
            on_ctl (dispatchDriverInterrupt_later kDT_Mouse b);;
            state ← lockController;
            drain_loop n state
          else unlockController state
      end
  end.

Definition interruptOccurred_debug : prog unit :=
  offline ← on_ctl (getc _hardwareOffline);
  if offline : bool then mret tt else state ← lockController; drain_loop fuel state.

(** What both [readDataPort] functions do first, under the lock: take a byte of the
    keyboard from the queue if there is one, else wait for the port. *)
Definition fetch (deviceType : PS2DeviceType) (timeoutCounter : nat) : prog Fetched :=
  state ← lockController;
  key ← (if is_kbd deviceType then dequeueKeyboardData else mret None);
  match key with
  | Some readByte => unlockController state;; mret (FQueued readByte)
  | None =>
      '(timeoutCounter, status) ← on_ctl (wait_ready timeoutCounter 0);
      match timeoutCounter with
      | O => unlockController state;; mret FTimeout
      | S _ =>
          on_ctl delay;;
          readByte ← on_ctl (inb_ kDataPort);
          unlockController state;;
          mret (FPort timeoutCounter status readByte)
      end
  end.

Fixpoint readDataPort_debug_loop (n : nat) (deviceType : PS2DeviceType) (timeoutCounter : nat) : prog Z :=
  match n with
  | O => nofuel
  | S n =>
      f ← fetch deviceType timeoutCounter;
      match f with
      | FQueued readByte => mret readByte
      | FTimeout =>
          suppress ← on_ctl (getc _suppressTimeout);
          when (negb suppress) (on_ctl (emit (EvLogTimeout deviceType)));;
          mret 0
      | FPort timeoutCounter status readByte =>
          suppress ← on_ctl (getc _suppressTimeout);
          if suppress : bool then mret readByte
          else if anyset status kMouseData && is_mouse deviceType then mret readByte
          else if negb (anyset status kMouseData) && is_kbd deviceType then mret readByte
          else
            on_ctl (dispatchDriverInterrupt_later (other_device deviceType) readByte);;
            readDataPort_debug_loop n deviceType timeoutCounter
      end
  end.

Definition readDataPort_debug (deviceType : PS2DeviceType) : prog Z := readDataPort_debug_loop fuel deviceType timeoutCounter0.

(** After the label [skipForwardToY], for a byte of the requested stream: the byte
    to return, or the byte to hold back. *)
Definition expected_or_held (deviceType : PS2DeviceType) (expectedByte readByte : Z) (held : option Z) : prog (Z + Z) :=
  ignore ← on_ctl (getc _ignoreOutOfOrder);
  match held with
  | None => mret (if readByte =? expectedByte then inl readByte else inr readByte)
  | Some firstByte =>
      if readByte =? expectedByte then
        when (ignore =? 0) (on_ctl (dispatchDriverInterrupt_later deviceType firstByte));; mret (inl readByte)
      else
        when (ignore =? 0) (on_ctl (dispatchDriverInterrupt_later deviceType readByte));; mret (inl firstByte)
  end.

Fixpoint readDataPortExpect_debug_loop (n : nat) (deviceType : PS2DeviceType) (expectedByte : Z) (timeoutCounter : nat) (held : option Z) : prog Z :=
  match n with
  | O => nofuel
  | S n =>
      let requested readByte timeoutCounter :=
        r ← expected_or_held deviceType expectedByte readByte held;
        match r with
        | inl b => mret b
        | inr firstByte => readDataPortExpect_debug_loop n deviceType expectedByte timeoutCounter (Some firstByte)
        end in
      f ← fetch deviceType timeoutCounter;
      match f with
      | FQueued readByte => requested readByte timeoutCounter
      | FTimeout =>
          match held with
          | Some firstByte => mret firstByte
          | None => on_ctl (emit (EvLogTimeout deviceType));; mret 0
          end
      | FPort timeoutCounter status readByte =>
          if (if anyset status kMouseData then is_mouse deviceType else is_kbd deviceType) then requested readByte timeoutCounter
          else
            ignore ← on_ctl (getc _ignoreOutOfOrder);
            when (ignore =? 0) (on_ctl (dispatchDriverInterrupt_later (other_device deviceType) readByte));;
            readDataPortExpect_debug_loop n deviceType expectedByte timeoutCounter held
      end
  end.

Definition readDataPortExpect_debug (deviceType : PS2DeviceType) (expectedByte : Z) : prog Z :=
  readDataPortExpect_debug_loop fuel deviceType expectedByte timeoutCounter0 None.
End debug.

(** ** The abstract keyboard of the debugger build *)

Record Keys := mkKeys { k_ext : bool; k_mods : Z; k_queue : list Z; k_stops : nat }.
#[export] Instance Keys_eta : Settable Keys := mkSettable _ (fun r => mkKeys (k_ext r) (k_mods r) (k_queue r) (k_stops r)).

(** A byte is queued if fewer than 32 are waiting. *)
Definition put (k : Z) (a : Keys) : Keys := a <| k_queue := Fifo.push 32 (k_queue a) k |>.

Definition modifier_of (code : Z) (ext : bool) : option Z :=
  snd <$> List.find (fun '(s, e, _) => (s =? code) && Bool.eqb e ext) modifierTable.

(** The sequence that enters the debugger: Delete, pressed or released, while
    both Alt keys and no other modifier are down. *)
Definition escapes (k : Z) (a : Keys) : bool := (clear k kSC_UpBit =? kSC_Delete) && (k_mods a =? 0x30).

Definition key_in (enabled : bool) (k : Z) (a : Keys) : Keys :=
  if negb enabled then put k a
  else if k =? kSC_Extend then put k (a <| k_ext := true |>)
  else match modifier_of (clear k kSC_UpBit) (k_ext a) with
       | Some m => put k (a <| k_mods := if anyset k kSC_UpBit then clear (k_mods a) m else Z.lor (k_mods a) m |> <| k_ext := false |>)
       | None =>
           if escapes k a then
             (* the releases of both Alt keys instead of the byte *)
             foldl (flip put) (a <| k_ext := false |> <| k_mods := 0 |> <| k_stops := S (k_stops a) |>) [0xB8; 0xE0; 0xB8]
           else put k (a <| k_ext := false |>)
       end.

Section refinement.
  Context {H D : Type} `{PortIO H}.
  Abbreviation W := (GWorld H D).
  Context (callInterrupt : positive -> option positive -> Z -> D -> PS2InterruptResult * D).
  Context (callPacket : positive -> option positive -> M (World H D) unit).
  Context (fuel : nat) (c : ApplePS2Controller) (enabled : bool).
  Implicit Types (w : W).

(** The chip takes the two commands. *)
Context (Q : H -> Prop).
Context (Hcommand : forall (b : World H D) x, x = kCP_DisableMouseClock \/ x = kCP_EnableMouseClock -> Q (hw b) -> exists h', writeCommandPort fuel x b = Done (tt, b <| hw := h' |>) /\ Q h').

Record keys_sim (a : Keys) (w : W) : Prop := {
  ks_ctl : ctl (gbase w) = c;
  ks_enabled : _debuggingEnabled (dbg w) = enabled;
  ks_ext : _extendedState (dbg w) = k_ext a;
  ks_mods : _modifierState (dbg w) = k_mods a;
  ks_stops : stops w = k_stops a;
  ks_queue : data <$> _keyboardQueue (dbg w) = k_queue a;
  ks_elements : element <$> _keyboardQueue (dbg w) ++ _keyboardQueueUnused (dbg w) ≡ₚ seq 0 kKeyboardQueueSize;
}.

(** What only the queues and the debugger's members see. *)
Definition same_base (w w' : W) : Prop := gbase w' = gbase w.

Lemma enqueue_ok a w k : keys_sim a w -> exists w', enqueueKeyboardData k w = Done (tt, w') /\ keys_sim (put k a) w' /\ same_base w w'.
Proof.
  intros []. unfold enqueueKeyboardData, getd, setd. munfold. unfold id, put, Fifo.push.
  pose proof (Permutation_length ks_elements0) as Hl. rewrite length_fmap, length_app, length_seq in Hl.
  rewrite <- ks_queue0, length_fmap. unfold kKeyboardQueueSize in Hl.
  destruct (_keyboardQueueUnused (dbg w)) as [|e unused] eqn:Eu; simpl in Hl.
  - rewrite (proj2 (Z.ltb_ge _ _)) by lia. exists w. split; [done|]. split; [|done]. split; try done. by rewrite Eu.
  - rewrite (proj2 (Z.ltb_lt _ _)) by lia. eexists. split; [reflexivity|]. split; [|done].
    split; simpl; try done; [by rewrite fmap_app|]. rewrite <- app_assoc. simpl. rewrite !fmap_app, !fmap_cons in *. done.
Qed.

Lemma dequeue_ok a w : keys_sim a w -> exists w', dequeueKeyboardData w = Done (head (k_queue a), w') /\
  keys_sim (a <| k_queue := tail (k_queue a) |>) w' /\ same_base w w'.
Proof.
  intros []. unfold dequeueKeyboardData, getd, setd. munfold. unfold id. rewrite <- ks_queue0.
  destruct (_keyboardQueue (dbg w)) as [|e queue] eqn:Eq; simpl; (eexists; split; [reflexivity|]); (split; [|done]); split; simpl; try done.
  - by rewrite Eq. - by rewrite Eq.
  - rewrite app_assoc, fmap_app, Permutation_app_comm. exact ks_elements0.
Qed.

(** The releases of the modifiers. *)
Lemma release_alts a w : keys_sim a w -> k_mods a = 0x30 ->
  exists w', forM_ modifierTable (fun '(s, extended, modifier) =>
      held ← getd _modifierState;
      when (anyset held modifier) (when extended (enqueueKeyboardData kSC_Extend);; enqueueKeyboardData (Z.lor s kSC_UpBit))) w = Done (tt, w') /\
    keys_sim (foldl (flip put) a [0xB8; 0xE0; 0xB8]) w' /\ same_base w w'.
Proof.
  intros Hw Hm. assert (forall w, _modifierState (dbg w) = 0x30 -> getd _modifierState w = Done (0x30, w)) as Hg.
  { intros w' E. unfold getd. munfold. by rewrite E. }
  destruct (enqueue_ok a w 0xB8 Hw) as (w1 & E1 & H1 & S1). destruct (enqueue_ok _ w1 0xE0 H1) as (w2 & E2 & H2 & S2).
  destruct (enqueue_ok _ w2 0xB8 H2) as (w3 & E3 & H3 & S3). exists w3. split; [|split; [done|unfold same_base in *; congruence]].
  cbn [forM_ modifierTable]. rewrite (bind_done _ _ w tt w1).
  2: { rewrite (bind_done _ _ _ _ _ (Hg w ltac:(by rewrite (ks_mods _ _ Hw)))). exact E1. }
  rewrite (bind_done _ _ w1 tt w3).
  2: { rewrite (bind_done _ _ _ _ _ (Hg w1 ltac:(by rewrite (ks_mods _ _ H1)))). cbn [when]. exact (eq_trans (bind_done _ _ _ _ _ E2) E3). }
  do 6 (rewrite (bind_done _ _ w3 tt w3); [|by rewrite (bind_done _ _ _ _ _ (Hg w3 ltac:(by rewrite (ks_mods _ _ H3))))]). done.
Qed.

(** What a byte does but for the queueing of the byte itself. *)
Definition escape (k : Z) (a : Keys) : bool * Keys :=
  if k =? kSC_Extend then (false, a <| k_ext := true |>)
  else match modifier_of (clear k kSC_UpBit) (k_ext a) with
       | Some m => (false, a <| k_mods := if anyset k kSC_UpBit then clear (k_mods a) m else Z.lor (k_mods a) m |> <| k_ext := false |>)
       | None =>
           if escapes k a then
             (true, foldl (flip put) (a <| k_ext := false |> <| k_mods := 0 |> <| k_stops := S (k_stops a) |>) [0xB8; 0xE0; 0xB8])
           else (false, a <| k_ext := false |>)
       end.

Lemma key_in_escape k a : key_in true k a = let '(drop, a) := escape k a in if drop then a else put k a.
Proof. unfold key_in, escape. cbn [negb]. repeat case_match; by simplify_eq. Qed.

(** The base only talks to the chip. *)
Definition same_but_chip (w w' : W) : Prop := exists h, gbase w' = (gbase w) <| hw := h |> /\ Q h.

Lemma debugger_ok a w : keys_sim a w -> Q (hw (gbase w)) -> exists w',
  (on_ctl (writeCommandPort fuel kCP_DisableMouseClock);; modify (fun w => w <| stops := S (stops w) |>);;
   on_ctl (writeCommandPort fuel kCP_EnableMouseClock)) w = Done (tt, w') /\
  keys_sim (a <| k_stops := S (k_stops a) |>) w' /\ same_but_chip w w'.
Proof.
  intros [] Hq. destruct (Hcommand (gbase w) kCP_DisableMouseClock ltac:(by left) Hq) as (h1 & E1 & Hq1).
  destruct (Hcommand ((gbase w) <| hw := h1 |>) kCP_EnableMouseClock) as (h2 & E2 & Hq2); [by right|done|].
  unfold on_ctl. munfold. rewrite E1. cbn [gbase]. simpl. rewrite E2. eexists. split; [reflexivity|].
  split; [split; simpl; done || congruence|]. by exists h2.
Qed.

Lemma doEscape_ok k a w : keys_sim a w -> Q (hw (gbase w)) -> exists w',
  doEscape fuel k w = Done ((escape k a).1, w') /\ keys_sim (escape k a).2 w' /\ same_but_chip w w'.
Proof.
  intros Hw Hq. pose proof Hw as []. assert (same_but_chip w w) as Hrefl by (exists (hw (gbase w)); by destruct w as [[]]).
  unfold doEscape, escape. destruct (k =? kSC_Extend).
  { eexists. split; [reflexivity|]. split; [by split|exact Hrefl]. }
  unfold modifier_of. unfold mbind at 1, M_bind at 1, getd at 1, gets at 1. unfold id. rewrite ks_ext0.
  destruct (List.find _ modifierTable) as [[[s e] m]|]; cbn [fmap option_fmap option_map snd].
  { eexists. split; [reflexivity|]. split; [|exact Hrefl]. split; simpl; try done. by rewrite ks_mods0. }
  unfold escapes. rewrite ks_mods0. change (Z.lor kModifierAltLeft kModifierAltRight) with 0x30.
  destruct (Z.eqb_spec (clear k kSC_UpBit) kSC_Delete) as [Ek|]; cbn [andb];
    [destruct (Z.eqb_spec (k_mods a) 0x30) as [Em|]|]; cbn [andb when].
  2, 3: eexists; split; [reflexivity|]; split; [by split|exact Hrefl].
  destruct (debugger_ok a w Hw Hq) as (w1 & E1 & H1 & h1 & S1 & Hq1). rewrite (bind_done _ _ _ _ _ E1).
  destruct (release_alts _ w1 H1 Em) as (w2 & E2 & H2 & S2).
  pose (w3 := w2 <| dbg := (dbg w2) <| _modifierState := 0 |> |>).
  rewrite (bind_done _ _ w1 tt w3) by (by rewrite (bind_done _ _ _ _ _ E2)).
  eexists. split; [reflexivity|]. split; [|exists h1; simpl; by rewrite S2, S1]. destruct H2. split; simpl in *; done.
Qed.

(** ** Interrupts and the work loop in any order *)

(** A keyboard interrupt that finds the byte [k] in the chip, or the work loop
    with no byte of the mouse waiting. *)
Inductive GInput :=
| GKey (h : H) (st : Z) (h1 : H) (k : Z) (h2 : H)
| GDrain (h : H) (st : Z) (h' : H).

Definition legal_input (i : GInput) : Prop :=
  match i with
  | GKey h st h1 k h2 => inb kCommandPort h = (st, h1) /\ anyset (u8 st) kOutputReady = true /\ anyset (u8 st) kMouseData = false /\
      inb kDataPort (IODelay kDataDelay h1) = (k, h2) /\ Q h2
  | GDrain h st h' => inb kCommandPort h = (st, h') /\ (Z.land (u8 st) 0x21 =? 0x21) = false
  end.

Definition debug_step (i : GInput) : M W unit :=
  match i with
  | GKey h _ _ _ _ => modify (fun w => w <| gbase := (gbase w) <| hw := h |> |>);; interruptHandlerKeyboard_debug fuel
  | GDrain h _ _ => modify (fun w => w <| gbase := (gbase w) <| hw := h |> |>);; interruptOccurred_debug callInterrupt callPacket fuel
  end.

(** The bytes the driver gets. *)
Fixpoint debug_spec (ins : list GInput) (a : Keys) : Keys * list Z :=
  match ins with
  | [] => (a, [])
  | GKey _ _ _ k _ :: ins => debug_spec ins (key_in enabled (u8 k) a)
  | GDrain _ _ _ :: ins => let '(a', fed) := debug_spec ins (a <| k_queue := [] |>) in (a', k_queue a ++ fed)
  end.

(** The keyboard driver, with its packet action. *)
Context (feed : D -> Z -> D).
Context (Hfeed : forall (b : World H D) k, ctl b = c ->
  dispatchDriverInterrupt_later callInterrupt callPacket kDT_Keyboard k b = Done (tt, b <| drv := feed (drv b) k |>)).
Context (Hignore : _ignoreInterrupts c = 0) (Honline : _hardwareOffline c = false) (Hsource : _interruptSourceKeyboard c = true).
Context (Hfuel : (32 < fuel)%nat).

Lemma accept_ok k a w : keys_sim a w -> Q (hw (gbase w)) -> exists drop w1 w2,
  (if enabled then doEscape fuel k else mret false) w = Done (drop, w1) /\ when (negb drop) (enqueueKeyboardData k) w1 = Done (tt, w2) /\
  keys_sim (key_in enabled k a) w2 /\ same_but_chip w w2.
Proof.
  intros Hw Hq. destruct enabled.
  - destruct (doEscape_ok k a w Hw Hq) as (w1 & E1 & Hw1 & h1 & S1 & Hq1). rewrite key_in_escape. destruct (escape k a) as [drop a1]. simpl in *.
    exists drop, w1. destruct drop; cbn [negb when].
    + exists w1. split; [done|]. split; [done|]. split; [done|]. by exists h1.
    + destruct (enqueue_ok a1 w1 k Hw1) as (w2 & E2 & Hw2 & S2). exists w2. split; [done|]. split; [done|]. split; [done|].
      exists h1. unfold same_base in S2. split; [congruence|done].
  - destruct (enqueue_ok a w k Hw) as (w2 & E2 & Hw2 & S2). exists false, w, w2. split; [done|]. split; [done|]. split; [done|].
    exists (hw (gbase w)). rewrite S2. by destruct w as [[]].
Qed.

Lemma key_interrupt_ok h st h1 k h2 a w : keys_sim a w -> legal_input (GKey h st h1 k h2) ->
  exists w', debug_step (GKey h st h1 k h2) w = Done (tt, w') /\ keys_sim (key_in enabled (u8 k) a) w' /\
    drv (gbase w') = drv (gbase w) /\ int_enabled (gbase w') = int_enabled (gbase w).
Proof.
  intros Hw (E1 & Hr & Hm & E2 & Hq). pose proof Hw as []. unfold debug_step, interruptHandlerKeyboard_debug, lockController, on_ctl, getc.
  munfold. simpl. rewrite ks_ctl0, Hignore. cbn [Z.eqb negb]. unfold inb_ at 1. simpl. rewrite E1. simpl. rewrite Hr. cbn [when]. rewrite Hm.
  munfold. unfold delay, modify, inb_ at 1. simpl. rewrite E2. simpl. unfold getd. munfold. simpl. rewrite ks_enabled0.
  match goal with |- context [(if enabled then _ else _) ?x] => set (w0 := x) end.
  assert (keys_sim a w0) as Hw0 by (by split). destruct (accept_ok (u8 k) a w0 Hw0 Hq) as (drop & w1 & w2 & E3 & E4 & Hw2 & h3 & Hb & _).
  unfold mret, M_ret in E3. unfold when, mret, M_ret in E4. rewrite E3. cbn beta iota. rewrite E4. cbn beta iota. unfold signal, getc, emit. munfold. rewrite (ks_ctl _ _ Hw2). cbn [source_of].
  rewrite Hsource. unfold unlockController. munfold. eexists. split; [reflexivity|]. destruct Hw2. split; [by split|]. simpl. by rewrite Hb.
Qed.

(** The queue is emptied into the driver. *)
Lemma drain_queue_ok q n a w st h' : keys_sim a w -> k_queue a = q -> (length q < n)%nat ->
  inb kCommandPort (hw (gbase w)) = (st, h') -> (Z.land (u8 st) 0x21 =? 0x21) = false -> forall state,
  exists w', drain_loop callInterrupt callPacket n state w = Done (tt, w') /\ keys_sim (a <| k_queue := [] |>) w' /\
    drv (gbase w') = fold_left feed q (drv (gbase w)).
Proof.
  revert n a w. induction q as [|k q IH]; intros n a w Hw Eq Hn E Hst state; (destruct n as [|n]; [simpl in Hn; lia|]); cbn [drain_loop];
    destruct (dequeue_ok a w Hw) as (w1 & E1 & Hw1 & S1); rewrite (bind_done _ _ _ _ _ E1), Eq in *; cbn [head tail] in *.
  - rewrite (bind_done _ _ w1 (u8 st) (w1 <| gbase := (gbase w1) <| hw := h' |> |>)).
    2: { unfold on_ctl, inb_. by rewrite S1, E. }
    change (Z.lor kOutputReady kMouseData) with 0x21. rewrite Hst. eexists. split; [reflexivity|].
    split; [destruct Hw1; by split|]. simpl. by rewrite S1.
  - unfold unlockController at 1, lockController at 1, on_ctl at 1. munfold. cbn [gbase]. simpl.
    rewrite Hfeed by (simpl; by rewrite (ks_ctl _ _ Hw1)).
    match goal with |- context [drain_loop _ _ n ?s ?x] => set (w2 := x); set (s2 := s) end.
    destruct (IH n (a <| k_queue := q |>) w2) with (state := s2) as (w3 & E3 & Hw3 & D3).
    + destruct Hw1. split; simpl; done.
    + done.
    + simpl in Hn. lia.
    + simpl. rewrite S1. exact E.
    + done.
    + exists w3. split; [exact E3|]. split; [exact Hw3|]. rewrite D3. simpl. by rewrite S1.
Qed.

Lemma waiting_bound a w : keys_sim a w -> (length (k_queue a) <= 32)%nat.
Proof.
  intros []. pose proof (Permutation_length ks_elements0) as Hl. rewrite length_fmap, length_app, length_seq in Hl.
  rewrite <- ks_queue0, length_fmap. unfold kKeyboardQueueSize in Hl. lia.
Qed.

Lemma drain_ok_debug h st h' a w : keys_sim a w -> legal_input (GDrain h st h') ->
  exists w', debug_step (GDrain h st h') w = Done (tt, w') /\ keys_sim (a <| k_queue := [] |>) w' /\
    drv (gbase w') = fold_left feed (k_queue a) (drv (gbase w)).
Proof.
  intros Hw [E Hst]. pose proof Hw as []. unfold debug_step, interruptOccurred_debug, lockController, on_ctl, getc. munfold. simpl.
  rewrite ks_ctl0, Honline. cbn beta iota. match goal with |- context [drain_loop _ _ _ ?s ?x] => set (w0 := x); set (s0 := s) end.
  destruct (drain_queue_ok (k_queue a) fuel a w0 st h') with (state := s0) as (w1 & E1 & Hw1 & D1); [by split|done| |done|done|].
  - pose proof (waiting_bound _ _ Hw). lia.
  - exists w1. split; [exact E1|]. split; [exact Hw1|]. by rewrite D1.
Qed.

End refinement.

(** ** Reading in this build *)

Section reads.
  Context {H D : Type} `{PortIO H}.
  Abbreviation W := (GWorld H D).
  Context (callInterrupt : positive -> option positive -> Z -> D -> PS2InterruptResult * D).
  Context (callPacket : positive -> option positive -> M (World H D) unit).
  Context (fuel : nat) (c : ApplePS2Controller) (enabled : bool).
  Implicit Types (w : W).

(** The two drivers, each with its packet action. *)
Context (feed : PS2DeviceType -> D -> Z -> D).
Context (Hfeed : forall (b : World H D) d k, ctl b = c ->
  dispatchDriverInterrupt_later callInterrupt callPacket d k b = Done (tt, b <| drv := feed d (drv b) k |>)).
Context (Hsuppress : _suppressTimeout c = false) (Horder : _ignoreOutOfOrder c = 0).

(** The bytes of a list, to their drivers. *)
Definition feed_all (l : list (PS2DeviceType * Z)) (x : D) : D := fold_left (fun x '(d, b) => feed d x b) l x.

(** The queue comes first, for the keyboard. *)
Definition from_queue (d : PS2DeviceType) (a : Keys) : option (Z * list Z) :=
  match d, k_queue a with kDT_Keyboard, k :: q => Some (k, q) | _, _ => None end.

Lemma fetch_queued d t a w k q : keys_sim c enabled a w -> from_queue d a = Some (k, q) ->
  exists w', fetch d t w = Done (FQueued k, w') /\ keys_sim c enabled (a <| k_queue := q |>) w' /\ gbase w' = gbase w.
Proof.
  intros Hw Hq. destruct d; [|done]. unfold from_queue in Hq. destruct (k_queue a) as [|k' q'] eqn:Eq; [done|]. injection Hq as -> ->.
  unfold fetch, lockController. munfold. cbn [is_kbd gbase].
  match goal with |- context [dequeueKeyboardData ?x] => set (w1 := x) end.
  assert (keys_sim c enabled a w1) as Hw1 by (destruct Hw; by split).
  destruct (dequeue_ok c enabled a w1 Hw1) as (w2 & E2 & Hw2 & S2). rewrite E2, Eq in *. simpl in *. unfold unlockController, modify.
  eexists. split; [reflexivity|]. split; [destruct Hw2; by split|]. simpl. rewrite S2. by destruct w as [[]].
Qed.

(** Without a byte in the queue it is the port. *)
Lemma unqueued d a w : keys_sim c enabled a w -> from_queue d a = None -> exists w',
  (if is_kbd d then dequeueKeyboardData else mret None) w = Done (None, w') /\ keys_sim c enabled a w' /\ gbase w' = gbase w.
Proof.
  intros Hw Hq. destruct d; cbn [is_kbd]; [|by exists w]. unfold from_queue in Hq. destruct (k_queue a) eqn:Eq; [|done].
  destruct (dequeue_ok c enabled a w Hw) as (w' & E & Hw' & S'). rewrite Eq in *. exists w'. split; [exact E|]. split; [|exact S'].
  destruct a. simpl in *. by subst.
Qed.

Lemma sim_base a w b : keys_sim c enabled a w -> ctl b = ctl (gbase w) -> keys_sim c enabled a (w <| gbase := b |>).
Proof. intros [] Hb. split; simpl; try done. by rewrite Hb. Qed.

(** With the lock taken and nothing in the queue. *)
Lemma fetch_waits d t a w : keys_sim c enabled a w -> from_queue d a = None -> exists w1,
  keys_sim c enabled a w1 /\ gbase w1 = (gbase w) <| int_enabled := false |> /\
  fetch d t w = ('(t, status) ← on_ctl (wait_ready t 0);
    match t with
    | O => unlockController (int_enabled (gbase w));; mret FTimeout
    | S _ => on_ctl delay;; readByte ← on_ctl (inb_ kDataPort); unlockController (int_enabled (gbase w));; mret (FPort t status readByte)
    end) w1.
Proof.
  intros Hw Hq. set (b1 := (gbase w) <| int_enabled := false |>).
  destruct (unqueued d a (w <| gbase := b1 |>)) as (w1 & E1 & Hw1 & S1); [by apply sim_base|done|]. exists w1. split; [done|]. split; [done|].
  unfold fetch, lockController. rewrite bind_assoc. rewrite (bind_done _ _ w (int_enabled (gbase w)) w) by done.
  rewrite bind_assoc. rewrite (bind_done _ _ w tt (w <| gbase := b1 |>)) by done.
  unfold mret at 1, M_ret at 1. rewrite (bind_done _ _ (w <| gbase := b1 |>) (int_enabled (gbase w)) (w <| gbase := b1 |>)) by done.
  by rewrite (bind_done _ _ _ _ _ E1).
Qed.

Lemma fetch_port d t a w n st b h' : keys_sim c enabled a w -> from_queue d a = None -> presents (hw (gbase w)) n st b h' -> (n < t)%nat ->
  exists w', fetch d t w = Done (FPort (t - n) st b, w') /\ keys_sim c enabled a w' /\ gbase w' = (gbase w) <| hw := h' |>.
Proof.
  intros Hw Hq Hp Hn. destruct (fetch_waits d t a w Hw Hq) as (w1 & Hw1 & S1 & ->).
  destruct (wait_ready_ok t 0 n st b (gbase w1) h') as (h1 & b0 & F1 & F2 & F3); [by rewrite S1|done|].
  rewrite (bind_done _ _ w1 ((t - n)%nat, st) (w1 <| gbase := (gbase w1) <| hw := h1 |> |>)) by (unfold on_ctl; by rewrite F1).
  destruct (t - n)%nat eqn:Et; [lia|]. unfold on_ctl, delay, inb_, unlockController. munfold. simpl. rewrite F2. rewrite <- F3.
  eexists. split; [reflexivity|]. split; [destruct Hw1; by split|]. simpl. rewrite S1. by destruct w as [[]].
Qed.

Lemma fetch_silent d t a w h' : keys_sim c enabled a w -> from_queue d a = None -> silent t (hw (gbase w)) h' ->
  exists w', fetch d t w = Done (FTimeout, w') /\ keys_sim c enabled a w' /\ gbase w' = (gbase w) <| hw := h' |>.
Proof.
  intros Hw Hq Hp. destruct (fetch_waits d t a w Hw Hq) as (w1 & Hw1 & S1 & ->).
  destruct (wait_ready_silent t 0 (gbase w1) h') as (st & F1); [by rewrite S1|].
  rewrite (bind_done _ _ w1 (O, st) (w1 <| gbase := (gbase w1) <| hw := h' |> |>)) by (unfold on_ctl; by rewrite F1).
  eexists. split; [reflexivity|]. split; [destruct Hw1; by split|]. simpl. rewrite S1. by destruct w as [[]].
Qed.

(** A byte goes to its driver and its packet action at once. *)
Lemma fed a w d b : keys_sim c enabled a w -> exists w', on_ctl (dispatchDriverInterrupt_later callInterrupt callPacket d b) w = Done (tt, w') /\
  keys_sim c enabled a w' /\ gbase w' = (gbase w) <| drv := feed d (drv (gbase w)) b |>.
Proof.
  intros Hw. unfold on_ctl. rewrite Hfeed by apply Hw. eexists. split; [reflexivity|]. split; [by apply sim_base|done].
Qed.

Lemma read_ctl {T} (f : ApplePS2Controller -> T) a w : keys_sim c enabled a w -> on_ctl (getc f) w = Done (f c, w).
Proof. intros []. unfold on_ctl, getc, gets. rewrite ks_ctl0. by destruct w as [[]]. Qed.

Definition fed_then (d : PS2DeviceType) (r : option Z) (l : list (PS2DeviceType * Z)) (h' : H) (b : World H D) : World H D :=
  log_timeout d r (b <| drv := feed_all l (drv b) |> <| hw := h' |>).

Lemma debug_read_port d t h l r h' : ref_read d t h l r h' -> forall n a w, keys_sim c enabled a w -> from_queue d a = None ->
  hw (gbase w) = h -> (length l < n)%nat ->
  exists w', readDataPort_debug_loop callInterrupt callPacket n d t w = Done (default 0 r, w') /\ keys_sim c enabled a w' /\
    gbase w' = fed_then d r ((fun b => (other_device d, b)) <$> l) h' (gbase w).
Proof.
  induction 1 as [t h n0 st b h' Hp Hn Hs|t h n0 st b h1 l r h' Hp Hn Hs Hr IH|t h h' Hp]; intros [|n] a w Hw Hq Eh Hl; simpl in Hl; try lia;
    cbn [readDataPort_debug_loop]; subst h.
  - destruct (fetch_port d t a w n0 st b h' Hw Hq Hp Hn) as (w1 & E1 & Hw1 & S1). rewrite (bind_done _ _ _ _ _ E1).
    rewrite (bind_done _ _ _ _ _ (read_ctl _suppressTimeout a w1 Hw1)), Hsuppress. rewrite on_stream_test in Hs. exists w1.
    split; [|split; [done|rewrite S1; by destruct (gbase w)]]. destruct (anyset st kMouseData && is_mouse d); [done|]. simpl in Hs. by rewrite Hs.
  - destruct (fetch_port d t a w n0 st b h1 Hw Hq Hp Hn) as (w1 & E1 & Hw1 & S1). rewrite (bind_done _ _ _ _ _ E1).
    rewrite (bind_done _ _ _ _ _ (read_ctl _suppressTimeout a w1 Hw1)), Hsuppress. rewrite on_stream_test in Hs. apply orb_false_iff in Hs as [-> ->].
    destruct (fed a w1 (other_device d) b Hw1) as (w2 & E2 & Hw2 & S2). rewrite (bind_done _ _ _ _ _ E2).
    destruct (IH n a w2 Hw2 Hq) as (w3 & E3 & Hw3 & S3); [by rewrite S2, S1|lia|]. exists w3. split; [done|]. split; [done|]. by rewrite S3, S2, S1.
  - destruct (fetch_silent d t a w h' Hw Hq Hp) as (w1 & E1 & Hw1 & S1). rewrite (bind_done _ _ _ _ _ E1).
    rewrite (bind_done _ _ _ _ _ (read_ctl _suppressTimeout a w1 Hw1)), Hsuppress. unfold on_ctl, emit. munfold. eexists. split; [reflexivity|].
    split; [by apply sim_base|]. simpl. rewrite S1. by destruct (gbase w).
Qed.

(** Reading an expected byte: the bytes [q] of the queue count as the first bytes
    of the keyboard, after them [ref_expect] says what the port gives.  [l] goes
    to the drivers, [r] is returned, [q'] stays; [k] bytes are looked at. *)
Inductive debug_expect (d : PS2DeviceType) (e : Z) : nat -> option Z -> list Z -> H -> nat -> list (PS2DeviceType * Z) -> option Z -> list Z -> H -> Prop :=
| de_hit t q h : d = kDT_Keyboard -> debug_expect d e t None (e :: q) h 1 [] (Some e) q h
| de_hit_held t f q h : d = kDT_Keyboard -> debug_expect d e t (Some f) (e :: q) h 1 [(d, f)] (Some e) q h
| de_hold t b q h k l r q' h' : d = kDT_Keyboard -> b <> e -> debug_expect d e t (Some b) q h k l r q' h' ->
    debug_expect d e t None (b :: q) h (S k) l r q' h'
| de_miss t f b q h : d = kDT_Keyboard -> b <> e -> debug_expect d e t (Some f) (b :: q) h 1 [(d, b)] (Some f) q h
| de_port t held q h rd l r h' : d = kDT_Mouse \/ q = [] -> ref_expect d e t held h rd l r h' -> debug_expect d e t held q h (length rd) l r q h'.

Lemma requested_hit d e a w : keys_sim c enabled a w -> expected_or_held callInterrupt callPacket d e e None w = Done (inl e, w).
Proof. intros Hw. unfold expected_or_held. rewrite (bind_done _ _ _ _ _ (read_ctl _ a w Hw)). by rewrite Z.eqb_refl. Qed.

Lemma requested_hold d e b a w : b <> e -> keys_sim c enabled a w -> expected_or_held callInterrupt callPacket d e b None w = Done (inr b, w).
Proof. intros Hb Hw. unfold expected_or_held. rewrite (bind_done _ _ _ _ _ (read_ctl _ a w Hw)). by rewrite (proj2 (Z.eqb_neq b e)). Qed.

(** One of two bytes is returned, the other goes to the driver. *)
Lemma requested_second d e b f a w : keys_sim c enabled a w -> exists w',
  expected_or_held callInterrupt callPacket d e b (Some f) w = Done (inl (if b =? e then b else f), w') /\ keys_sim c enabled a w' /\
  gbase w' = (gbase w) <| drv := feed d (drv (gbase w)) (if b =? e then f else b) |>.
Proof.
  intros Hw. unfold expected_or_held. rewrite (bind_done _ _ _ _ _ (read_ctl _ a w Hw)), Horder. cbn [Z.eqb when].
  destruct (b =? e); [destruct (fed a w d f Hw) as (w1 & E1 & Hw1 & S1)|destruct (fed a w d b Hw) as (w1 & E1 & Hw1 & S1)]; exists w1; by rewrite (bind_done _ _ _ _ _ E1).
Qed.

Lemma debug_expect_port d e t held h rd l r h' : ref_expect d e t held h rd l r h' -> forall n a w, keys_sim c enabled a w -> from_queue d a = None ->
  hw (gbase w) = h -> (length rd < n)%nat ->
  exists w', readDataPortExpect_debug_loop callInterrupt callPacket n d e t held w = Done (default 0 r, w') /\ keys_sim c enabled a w' /\
    gbase w' = fed_then d r l h' (gbase w).
Proof.
  induction 1 as [t h n0 st h' Hp Hn Hs|t h n0 st f h' Hp Hn Hs|t h n0 st b h1 rd l r h' Hp Hn Hs Hne Hr IH|t h n0 st b f h' Hp Hn Hs Hne
    |t held h n0 st b h1 rd l r h' Hp Hn Hs Hr IH|t held h h' Hp]; intros [|n] a w Hw Hq Eh Hl; simpl in Hl; try lia;
    cbn [readDataPortExpect_debug_loop]; subst h.
  6: { destruct (fetch_silent d t a w h' Hw Hq Hp) as (w1 & E1 & Hw1 & S1). rewrite (bind_done _ _ _ _ _ E1).
       destruct held as [f|]; [exists w1; split; [done|]; split; [done|]; rewrite S1; by destruct (gbase w)|].
       eexists. split; [reflexivity|]. split; [by apply sim_base|]. simpl. rewrite S1. by destruct (gbase w). }
  all: destruct (fetch_port d t a w n0 st _ _ Hw Hq Hp Hn) as (w1 & E1 & Hw1 & S1); rewrite (bind_done _ _ _ _ _ E1); rewrite on_stream_sel in Hs; rewrite Hs.
  - rewrite (bind_done _ _ _ _ _ (requested_hit d e a w1 Hw1)). exists w1. split; [done|]. split; [done|]. rewrite S1. by destruct (gbase w).
  - destruct (requested_second d e e f a w1 Hw1) as (w2 & E2 & Hw2 & S2). rewrite (bind_done _ _ _ _ _ E2). rewrite Z.eqb_refl in *. exists w2.
    split; [done|]. split; [done|]. rewrite S2, S1. by destruct (gbase w).
  - rewrite (bind_done _ _ _ _ _ (requested_hold d e b a w1 Hne Hw1)).
    destruct (IH n a w1 Hw1 Hq) as (w2 & E2 & Hw2 & S2); [by rewrite S1|lia|]. exists w2. split; [done|]. split; [done|]. by rewrite S2, S1.
  - destruct (requested_second d e b f a w1 Hw1) as (w2 & E2 & Hw2 & S2). rewrite (bind_done _ _ _ _ _ E2). rewrite (proj2 (Z.eqb_neq b e) Hne) in *. exists w2.
    split; [done|]. split; [done|]. rewrite S2, S1. by destruct (gbase w).
  - rewrite (bind_done _ _ _ _ _ (read_ctl _ignoreOutOfOrder a w1 Hw1)), Horder. cbn [Z.eqb when].
    destruct (fed a w1 (other_device d) b Hw1) as (w2 & E2 & Hw2 & S2). rewrite (bind_done _ _ _ _ _ E2).
    destruct (IH n a w2 Hw2 Hq) as (w3 & E3 & Hw3 & S3); [by rewrite S2, S1|lia|]. exists w3. split; [done|]. split; [done|]. by rewrite S3, S2, S1.
Qed.

Lemma queued_head d k q a : d = kDT_Keyboard -> k_queue a = k :: q -> from_queue d a = Some (k, q).
Proof. intros -> E. unfold from_queue. by rewrite E. Qed.

(** Reading an expected byte in the debugger build ends and does what
    [debug_expect] says: the out-of-order correction sees the bytes the interrupt
    routine queued before those of the port, each is returned, handed to its
    driver or still queued, and the interrupt flag is as before. *)
Theorem debug_expect_refines d e t held q h k l r q' h' : debug_expect d e t held q h k l r q' h' -> forall n a w, keys_sim c enabled a w -> k_queue a = q ->
  hw (gbase w) = h -> (k < n)%nat ->
  exists w', readDataPortExpect_debug_loop callInterrupt callPacket n d e t held w = Done (default 0 r, w') /\ keys_sim c enabled (a <| k_queue := q' |>) w' /\
    gbase w' = fed_then d r l h' (gbase w).
Proof.
  induction 1 as [t q h Hd|t f q h Hd|t b q h k l r q' h' Hd Hb He IH|t f b q h Hd Hb|t held q h rd l r h' Hd Hr]; intros n a w Hw Hq Eh Hn.
  5: { assert (from_queue d a = None) as Hn0 by (unfold from_queue; rewrite Hq; destruct Hd as [-> | ->]; [done|by destruct d]).
       destruct (debug_expect_port d e t held h rd l r h' Hr n a w Hw Hn0 Eh Hn) as (w' & E & Hw' & S'). exists w'. split; [done|]. split; [|done].
       destruct a. simpl in *. by subst. }
  all: destruct n as [|n]; [lia|]; cbn [readDataPortExpect_debug_loop];
    destruct (fetch_queued d t a w _ _ Hw (queued_head _ _ _ _ Hd Hq)) as (w1 & E1 & Hw1 & S1); rewrite (bind_done _ _ _ _ _ E1); subst h.
  - rewrite (bind_done _ _ _ _ _ (requested_hit d e _ w1 Hw1)). exists w1. split; [done|]. split; [done|]. rewrite S1. by destruct (gbase w).
  - destruct (requested_second d e e f _ w1 Hw1) as (w2 & E2 & Hw2 & S2). rewrite (bind_done _ _ _ _ _ E2). rewrite Z.eqb_refl in *. exists w2.
    split; [done|]. split; [done|]. rewrite S2, S1. by destruct (gbase w).
  - rewrite (bind_done _ _ _ _ _ (requested_hold d e b _ w1 Hb Hw1)).
    destruct (IH n _ w1 Hw1 eq_refl) as (w2 & E2 & Hw2 & S2); [by rewrite S1|lia|]. exists w2. split; [done|]. split; [done|]. by rewrite S2, S1.
  - destruct (requested_second d e b f _ w1 Hw1) as (w2 & E2 & Hw2 & S2). rewrite (bind_done _ _ _ _ _ E2). rewrite (proj2 (Z.eqb_neq b e) Hb) in *. exists w2.
    split; [done|]. split; [done|]. rewrite S2, S1. by destruct (gbase w).
Qed.

(** And so does reading any byte: a queued byte of the keyboard is returned without
    looking at the port. *)
Theorem debug_read_refines d t n a w : keys_sim c enabled a w ->
  match from_queue d a with
  | Some (k, q) => (0 < n)%nat -> exists w', readDataPort_debug_loop callInterrupt callPacket n d t w = Done (k, w') /\
      keys_sim c enabled (a <| k_queue := q |>) w' /\ gbase w' = gbase w
  | None => forall l r h', ref_read d t (hw (gbase w)) l r h' -> (length l < n)%nat ->
      exists w', readDataPort_debug_loop callInterrupt callPacket n d t w = Done (default 0 r, w') /\ keys_sim c enabled a w' /\
        gbase w' = fed_then d r ((fun b => (other_device d, b)) <$> l) h' (gbase w)
  end.
Proof.
  intros Hw. destruct (from_queue d a) as [[k q]|] eqn:Eq.
  - intros Hn. destruct n as [|n]; [lia|]. destruct (fetch_queued d t a w k q Hw Eq) as (w1 & E1 & Hw1 & S1). exists w1.
    cbn [readDataPort_debug_loop]. by rewrite (bind_done _ _ _ _ _ E1).
  - intros l r h' Hr Hl. by apply (debug_read_port d t _ l r h' Hr).
Qed.
End reads.

(** With the extended Delete key the prefix E0 has already been queued when the
    sequence is recognised: the release of the left Alt key that follows becomes
    another release of the right one, and the left Alt key stays down. *)
Example extended_delete_sticks : k_queue (foldl (flip (key_in true)) (mkKeys false 0 [] 0) [0x38; 0xE0; 0x38; 0xE0; 0x53]) =
  [0x38; 0xE0; 0x38; 0xE0; 0xB8; 0xE0; 0xB8].
Proof. reflexivity. Qed.

(** ** A concrete machine *)

Module DebugDemo.
Abbreviation chip_key k := (Demo.holding [(false, k)]).
Definition packet (a : positive) (t : option positive) : M Demo.DW unit := mret tt.
Definition at_port (k : Z) : GInput := GKey (chip_key k) 1 (chip_key k) k (Demo.holding []).
Definition no_mouse : GInput := GDrain (Demo.holding []) 0 (Demo.holding []).
Definition machine : GWorld Chip.chip (list (positive * Z)) := mkGWorld (Demo.world (Demo.holding [])) (debugging0 true) 0.
Definition free_chip (h : Chip.chip) : Prop := Chip.outbuf h = [] /\ Chip.busy h = O.

Lemma takes_commands (b : Demo.DW) x : x = kCP_DisableMouseClock \/ x = kCP_EnableMouseClock -> free_chip (hw b) ->
  exists h', writeCommandPort 40 x b = Done (tt, b <| hw := h' |>) /\ free_chip h'.
Proof.
  intros Hx [Ho Hb]. eexists. split; [apply (writeCommandPort_ok 40 0 b); [by apply Chip.rest_accepts|lia]|].
  by destruct Hx as [-> | ->], (hw b).
Qed.

Lemma logs (b : Demo.DW) k : ctl b = Demo.ctl0 ->
  dispatchDriverInterrupt_later Demo.call packet kDT_Keyboard k b = Done (tt, b <| drv := drv b ++ [(1%positive, k)] |>).
Proof. intros Hb. unfold dispatchDriverInterrupt_later, _dispatchDriverInterrupt, getc. munfold. rewrite Hb. simpl. by rewrite Hb. Qed.
(** Both Alt keys, then Delete, with the work loop in between. *)
Definition sequence : list GInput := [at_port 0x38; at_port 0xE0; no_mouse; at_port 0x38; at_port 0x53; no_mouse].
End DebugDemo.

