(* ===== verification/Watchdog.v ===== *)
(** * Watchdog: two more ways to build the interrupt code

    VoodooPS2Controller.cpp with WATCHDOG_TIMER set: a timer looks for keyboard
    bytes whose interrupt was missed, and leaves bytes of the mouse alone.  And
    with HANDLE_INTERRUPT_DATA_LATER but without DEBUGGER_SUPPORT: the interrupt
    only wakes the work loop, which reads the port and hands each byte to its
    driver, and each complete packet to the packet action at once. *)

From S2P Require Import Prelude PS2Defs PortIO Controller ControllerSpec DebugBuild.

Definition kWatchdogTimerInterval : Z := 100.

(** Who called: a device, or [kDT_Watchdog]. *)
Inductive Caller := CDevice (d : PS2DeviceType) | kDT_Watchdog.
Definition is_watchdog (c : Caller) : bool := match c with kDT_Watchdog => true | CDevice _ => false end.

Section variants.
  Context {H D : Type} `{PortIO H}.
  Abbreviation W := (World H D).
  Notation "'prog' A" := (M W A) (at level 10, A at next level).
  Context (callInterrupt : positive -> option positive -> Z -> D -> PS2InterruptResult * D).
  Context (callPacket : positive -> option positive -> prog unit).
  Context (fuel : nat).

(** [handleInterrupt] of the watchdog build. *)
Fixpoint watchdog_loop (n : nat) (deviceType : Caller) (wakeMouse wakeKeyboard : bool) : prog (bool * bool) :=
  match n with
  | O => nofuel
  | S n =>
      enable ← gets int_enabled;
      modify (fun w => w <| int_enabled := false |>);;
      delay;;
      status ← inb_ kCommandPort;
      if negb (anyset status kOutputReady) then
        modify (fun w => w <| int_enabled := enable |>);;
        mret (wakeMouse, wakeKeyboard)
      else if is_watchdog deviceType && anyset status kMouseData then
        modify (fun w => w <| int_enabled := enable |>);;
        mret (wakeMouse, wakeKeyboard)
      else
        delay;;
        data ← inb_ kDataPort;
        modify (fun w => w <| int_enabled := enable |>);;
        if anyset status kMouseData then
          r ← _dispatchDriverInterrupt callInterrupt kDT_Mouse data;
          watchdog_loop n deviceType (bool_decide (kPS2IR_packetReady = r) || wakeMouse) wakeKeyboard
        else
          r ← _dispatchDriverInterrupt callInterrupt kDT_Keyboard data;
          watchdog_loop n deviceType wakeMouse (bool_decide (kPS2IR_packetReady = r) || wakeKeyboard)
  end.

Definition handleInterrupt_watchdog (deviceType : Caller) : prog unit :=
  '(wakeMouse, wakeKeyboard) ← watchdog_loop fuel deviceType false false;
  when wakeMouse (signal kDT_Mouse);;
  when wakeKeyboard (signal kDT_Keyboard).

(** The time the timer is set to afterwards. *)
Definition onWatchdogTimer : prog Z :=
  i ← getc _ignoreInterrupts;
  when (i =? 0) (handleInterrupt_watchdog kDT_Watchdog);;
  mret kWatchdogTimerInterval.

(** [handleInterrupt] of the build that reads on the work loop. *)
Fixpoint later_loop (n : nat) (deviceType : Caller) : prog unit :=
  match n with
  | O => nofuel
  | S n =>
      status ← inb_ kCommandPort;
      if negb (anyset status kOutputReady) then mret tt
      else if is_watchdog deviceType && anyset status kMouseData then mret tt
      else
        delay;;
        data ← inb_ kDataPort;
        dispatchDriverInterrupt_later callInterrupt callPacket (if anyset status kMouseData then kDT_Mouse else kDT_Keyboard) data;;
        delay;;
        later_loop n deviceType
  end.

Definition handleInterrupt_later (deviceType : Caller) : prog unit := delay;; later_loop fuel deviceType.

(** The action of both interrupt sources in that build. *)
Definition interruptOccurred_later (deviceType : PS2DeviceType) : prog unit :=
  offline ← getc _hardwareOffline;
  if offline : bool then mret tt else handleInterrupt_later (CDevice deviceType).

(** ** The watchdog *)

(** The bytes [l] of the keyboard, then nothing more or a byte of the mouse, which
    is not read. *)
Inductive watched : H -> list Z -> H -> Prop :=
| watched_end h st h' :
    inb kCommandPort (IODelay kDataDelay h) = (st, h') -> anyset (u8 st) kOutputReady = false \/ anyset (u8 st) kMouseData = true -> watched h [] h'
| watched_key h st h1 b h2 l h' :
    inb kCommandPort (IODelay kDataDelay h) = (st, h1) -> anyset (u8 st) kOutputReady = true -> anyset (u8 st) kMouseData = false ->
    inb kDataPort (IODelay kDataDelay h1) = (b, h2) -> watched h2 l h' -> watched h (u8 b :: l) h'.

Definition keys (l : list Z) : list (PS2DeviceType * Z) := pair kDT_Keyboard <$> l.

Lemma watchdog_loop_ok k l (w : W) h' wm wk : watched (hw w) l h' -> ctl_wf (ctl w) -> (length l < k)%nat ->
  watchdog_loop k kDT_Watchdog wm wk w =
    Done ((wm, wk || wakes kDT_Keyboard (hand_all callInterrupt (keys l) w).1), (hand_all callInterrupt (keys l) w).2 <| hw := h' |>).
Proof.
  intros Hd. remember (hw w) as h eqn:Eh. revert k w wm wk Eh.
  induction Hd as [h st h' E Hr|h st h1 b h2 l h' E Hr Hm E2 Hd IH]; intros [|k] w wm wk -> Hwf Hk; simpl in Hk; try lia; cbn [watchdog_loop];
    unfold delay, inb_; munfold; simpl; rewrite E; simpl.
  - destruct (negb (anyset (u8 st) kOutputReady)) eqn:Eo.
    + rewrite orb_false_r. by destruct w.
    + destruct Hr as [Hr|Hr]; [by rewrite Hr in Eo|]. rewrite Hr, orb_false_r. by destruct w.
  - rewrite Hr, Hm. simpl. rewrite E2. simpl.
    assert (Ew : w <| int_enabled := false |> <| hw := IODelay kDataDelay (hw w) |> <| hw := h1 |>
      <| hw := IODelay kDataDelay h1 |> <| hw := h2 |> <| int_enabled := int_enabled w |> = w <| hw := h2 |>) by (by destruct w).
    rewrite Ew. pose proof (hand_ctl callInterrupt kDT_Keyboard (u8 b) w) as Hc.
    rewrite hand_ok, hand_hw by done. destruct (hand callInterrupt kDT_Keyboard (u8 b) w) as [r w1]. simpl in *.
    specialize (IH k (w1 <| hw := h2 |>)). simpl in IH. rewrite Hc, hand_all_hw in IH. simpl in IH. fold (keys l).
    destruct (hand_all callInterrupt (keys l) w1) as [ds w2]. simpl in *. rewrite IH by (done || lia). rewrite wakes_cons.
    rewrite (bool_decide_eq_true_2 (kDT_Keyboard = kDT_Keyboard)) by done. cbn [andb]. do 3 f_equal. rewrite orb_assoc. f_equal. apply orb_comm.
Qed.

(** The watchdog timer takes the bytes of the keyboard that wait at the head of the
    chip's output buffer, hands them to the keyboard driver in order and wakes the
    work loop if a packet is complete; a byte of the mouse stays where it is, and so
    does all while interrupts are ignored.  Either way the timer is set again. *)
Theorem watchdog_tick l (w : W) h' : watched (hw w) l h' -> ctl_wf (ctl w) -> (length l < fuel)%nat ->
  let '(ds, w1) := hand_all callInterrupt (keys l) w in
  onWatchdogTimer w = Done (kWatchdogTimerInterval,
    if negb (_ignoreInterrupts (ctl w) =? 0) then w
    else w1 <| hw := h' |> <| evs := evs w1 ++ (if wakes kDT_Keyboard ds then [EvSignal kDT_Keyboard] else []) |>).
Proof.
  intros Hd Hwf Hf. pose proof (watchdog_loop_ok fuel l w h' false false Hd Hwf Hf) as El.
  pose proof (hand_all_ctl callInterrupt (keys l) w) as Hc. pose proof (hand_all_source callInterrupt (keys l) w kDT_Keyboard Hwf) as Hs.
  destruct (hand_all callInterrupt (keys l) w) as [ds w1]. simpl in *. unfold onWatchdogTimer, getc.
  rewrite (bind_done _ _ w (_ignoreInterrupts (ctl w)) w) by done. destruct (_ignoreInterrupts (ctl w) =? 0); [|done]. cbn [negb when].
  unfold handleInterrupt_watchdog. rewrite bind_assoc, (bind_done _ _ _ _ _ El). cbn beta iota. cbn [when orb]. rewrite bind_assoc. unfold mret at 1, M_ret at 1.
  rewrite (bind_done _ _ (w1 <| hw := h' |>) tt (w1 <| hw := h' |>)) by done. destruct (wakes kDT_Keyboard ds) eqn:Ew; cbn [when].
  - unfold signal, getc, emit. munfold. change (ctl (w1 <| hw := h' |>)) with (ctl w1). rewrite Hc. cbn [source_of] in *. by rewrite Hs.
  - munfold. rewrite app_nil_r. by destruct w1.
Qed.

(** ** Reading on the work loop *)

Section later.
  Context (c : ApplePS2Controller) (feed : PS2DeviceType -> D -> Z -> D).
  Context (Hfeed : forall (b : W) d k, ctl b = c ->
    dispatchDriverInterrupt_later callInterrupt callPacket d k b = Done (tt, b <| drv := feed d (drv b) k |>)).

Lemma later_loop_ok k l h h' d (w : W) : drains h l h' -> hw w = IODelay kDataDelay h -> ctl w = c -> (length l < k)%nat ->
  later_loop k (CDevice d) w = Done (tt, w <| drv := feed_all feed l (drv w) |> <| hw := h' |>).
Proof.
  intros Hd. revert k w. induction Hd as [h st h' E Hr|h st h1 b h2 l h' E Hr E2 Hd IH]; intros [|k] w Eh Hc Hk; simpl in Hk; try lia; cbn [later_loop].
  - unfold inb_. munfold. rewrite Eh, E. cbn [negb]. rewrite Hr. by destruct w.
  - rewrite (bind_done _ _ w (u8 st) (w <| hw := h1 |>)) by (unfold inb_; by rewrite Eh, E). rewrite Hr. cbn [negb is_watchdog andb].
    rewrite (bind_done _ _ (w <| hw := h1 |>) tt (w <| hw := IODelay kDataDelay h1 |>)) by done.
    rewrite (bind_done _ _ _ (u8 b) (w <| hw := h2 |>)) by (unfold inb_; cbn [hw]; change (hw (w <| hw := ?h |>)) with h; by rewrite E2).
    set (d' := if anyset (u8 st) kMouseData then kDT_Mouse else kDT_Keyboard).
    rewrite (bind_done _ _ _ tt (w <| drv := feed d' (drv w) (u8 b) |> <| hw := h2 |>)) by (by rewrite Hfeed).
    rewrite (bind_done _ _ _ tt (w <| drv := feed d' (drv w) (u8 b) |> <| hw := IODelay kDataDelay h2 |>)) by done.
    by rewrite (IH k) by (done || lia).
Qed.

(** In the build that reads on the work loop, one run of the interrupt action takes
    all bytes that wait, of both devices, and each goes to its driver and packet
    action in order; while the hardware is offline nothing is read. *)
Theorem later_drains d l h' (w : W) : drains (hw w) l h' -> ctl w = c -> (length l < fuel)%nat ->
  interruptOccurred_later d w = Done (tt, if _hardwareOffline c then w else w <| drv := feed_all feed l (drv w) |> <| hw := h' |>).
Proof.
  intros Hd Hc Hl. unfold interruptOccurred_later, getc. rewrite (bind_done _ _ w (_hardwareOffline c) w) by (unfold gets; by rewrite Hc).
  destruct (_hardwareOffline c); [done|]. unfold handleInterrupt_later, delay at 1.
  rewrite (bind_done _ _ w tt (w <| hw := IODelay kDataDelay (hw w) |>)) by done. by rewrite (later_loop_ok fuel l (hw w) h' d).
Qed.
End later.
End variants.

(** A key, a byte of the mouse and another key wait: the timer takes the first key
    only, the interrupt of the mouse the rest. *)
Definition three_waiting : World Chip.chip (list (positive * Z)) := Demo.world (Demo.holding [(false, 0x1E); (true, 8); (false, 0x9E)]).

Example watchdog_leaves_mouse : exists t w, onWatchdogTimer Demo.call 5 three_waiting = Done (t, w) /\ t = kWatchdogTimerInterval /\
  drv w = [(1%positive, 0x1E)] /\ length (Chip.outbuf (hw w)) = 2%nat.
Proof. eexists _, _. split; [vm_compute; reflexivity|]. vm_compute. done. Qed.
