(* ===== verification/KeyMaps.v ===== *)
(** * KeyMaps: the tables of the keyboard driver

    The translation from scan codes to ADB codes and the modifier flags
    (src/VoodooPS2Keyboard/ApplePS2ToADBMap.h, with PROBOOK defined as the
    header does), and the key map handed to the HID system
    ([defaultKeymapOfLength] of VoodooPS2Keyboard.cpp).  The NX_ constants of
    the system headers are a parameter of the key map.  Theorems: sizes and
    ranges the driver's array accesses rely on, one bit per modifier, and that
    the key map's counts agree with its contents. *)

From S2P Require Import Prelude.

Definition DEADKEY : Z := 0x80.
Definition BRIGHTNESS_DOWN : Z := 0x6b.
Definition BRIGHTNESS_UP : Z := 0x71.
Definition ADB_CONVERTER_LEN : Z := 256 * 2.
Definition ADB_CONVERTER_EX_START : Z := 256.

Definition kMaskLeftControl : Z := 0x0001.
Definition kMaskRightControl : Z := 0x0002.
Definition kMaskLeftShift : Z := 0x0004.
Definition kMaskRightShift : Z := 0x0008.
Definition kMaskLeftAlt : Z := 0x0010.
Definition kMaskRightAlt : Z := 0x0020.
Definition kMaskLeftWindows : Z := 0x0040.
Definition kMaskRightWindows : Z := 0x0080.
Definition kMaskLeftFn : Z := 0x0100.
Definition kMaskWindowsContext : Z := 0x0200.

(** [PS2ToADBMapStock], entries 0x000 to 0x07f. *)
Definition PS2ToADBMapStock_0 : list Z := [
  DEADKEY; 0x35; 0x12; 0x13; 0x14; 0x15; 0x17; 0x16; 0x1a; 0x1c; 0x19; 0x1d; 0x1b; 0x18; 0x33; 0x30;
  0x0c; 0x0d; 0x0e; 0x0f; 0x11; 0x10; 0x20; 0x22; 0x1f; 0x23; 0x21; 0x1e; 0x24; 0x3b; 0x00; 0x01;
  0x02; 0x03; 0x05; 0x04; 0x26; 0x28; 0x25; 0x29; 0x27; 0x32; 0x38; 0x2a; 0x06; 0x07; 0x08; 0x09;
  0x0b; 0x2d; 0x2e; 0x2b; 0x2f; 0x2c; 0x3c; 0x43; 0x3a; 0x31; 0x39; 0x7a; 0x78; 0x63; 0x76; 0x60;
  0x61; 0x62; 0x64; 0x65; 0x6d; 0x47; 0x6b; 0x59; 0x5b; 0x5c; 0x4e; 0x56; 0x57; 0x58; 0x45; 0x53;
  0x54; 0x55; 0x52; 0x41; 0x44; 0x46; 0x0a; 0x67; 0x6f; 0x51; DEADKEY; DEADKEY; 0x5f; DEADKEY; DEADKEY; DEADKEY;
  DEADKEY; DEADKEY; DEADKEY; DEADKEY; 0x69; 0x6b; 0x71; 0x6a; 0x40; 0x4f; 0x50; 0x5a; DEADKEY; DEADKEY; DEADKEY; DEADKEY;
  0x68; DEADKEY; DEADKEY; 0x5e; DEADKEY; DEADKEY; DEADKEY; 0x68; 0x68; 0x68; DEADKEY; 0x66; DEADKEY; 0x5d; 0x5f; DEADKEY].

(** [PS2ToADBMapStock], entries 0x080 to 0x0ff. *)
Definition PS2ToADBMapStock_1 : list Z := [
  DEADKEY; DEADKEY; DEADKEY; DEADKEY; DEADKEY; DEADKEY; DEADKEY; DEADKEY; DEADKEY; DEADKEY; DEADKEY; DEADKEY; DEADKEY; DEADKEY; DEADKEY; DEADKEY;
  DEADKEY; DEADKEY; DEADKEY; DEADKEY; DEADKEY; DEADKEY; DEADKEY; DEADKEY; DEADKEY; DEADKEY; DEADKEY; DEADKEY; DEADKEY; DEADKEY; DEADKEY; DEADKEY;
  DEADKEY; DEADKEY; DEADKEY; DEADKEY; DEADKEY; DEADKEY; DEADKEY; DEADKEY; DEADKEY; DEADKEY; DEADKEY; DEADKEY; DEADKEY; DEADKEY; DEADKEY; DEADKEY;
  DEADKEY; DEADKEY; DEADKEY; DEADKEY; DEADKEY; DEADKEY; DEADKEY; DEADKEY; DEADKEY; DEADKEY; DEADKEY; DEADKEY; DEADKEY; DEADKEY; DEADKEY; DEADKEY;
  DEADKEY; DEADKEY; DEADKEY; DEADKEY; DEADKEY; DEADKEY; DEADKEY; DEADKEY; DEADKEY; DEADKEY; DEADKEY; DEADKEY; DEADKEY; DEADKEY; DEADKEY; DEADKEY;
  DEADKEY; DEADKEY; DEADKEY; DEADKEY; DEADKEY; DEADKEY; DEADKEY; DEADKEY; DEADKEY; DEADKEY; DEADKEY; DEADKEY; DEADKEY; DEADKEY; DEADKEY; DEADKEY;
  DEADKEY; DEADKEY; DEADKEY; DEADKEY; DEADKEY; DEADKEY; DEADKEY; DEADKEY; DEADKEY; DEADKEY; DEADKEY; DEADKEY; DEADKEY; DEADKEY; DEADKEY; DEADKEY;
  DEADKEY; 0x66; 0x68; DEADKEY; DEADKEY; DEADKEY; DEADKEY; DEADKEY; DEADKEY; DEADKEY; DEADKEY; DEADKEY; DEADKEY; DEADKEY; DEADKEY; DEADKEY].

(** [PS2ToADBMapStock], entries 0x100 to 0x17f. *)
Definition PS2ToADBMapStock_2 : list Z := [
  DEADKEY; DEADKEY; DEADKEY; DEADKEY; DEADKEY; BRIGHTNESS_DOWN; BRIGHTNESS_UP; DEADKEY; DEADKEY; 0x83; 0xa0; DEADKEY; DEADKEY; DEADKEY; DEADKEY; DEADKEY;
  0x4d; DEADKEY; BRIGHTNESS_DOWN; DEADKEY; DEADKEY; DEADKEY; DEADKEY; BRIGHTNESS_UP; DEADKEY; 0x42; DEADKEY; DEADKEY; 0x4c; 0x3e; DEADKEY; DEADKEY;
  0x4a; DEADKEY; 0x34; DEADKEY; DEADKEY; DEADKEY; DEADKEY; DEADKEY; DEADKEY; DEADKEY; DEADKEY; DEADKEY; DEADKEY; DEADKEY; 0x49; DEADKEY;
  0x48; DEADKEY; DEADKEY; DEADKEY; DEADKEY; 0x4b; DEADKEY; 0x69; 0x3d; DEADKEY; DEADKEY; DEADKEY; DEADKEY; DEADKEY; DEADKEY; DEADKEY;
  DEADKEY; DEADKEY; DEADKEY; DEADKEY; DEADKEY; 0x71; DEADKEY; 0x73; 0x7e; 0x74; DEADKEY; 0x7b; DEADKEY; 0x7c; BRIGHTNESS_UP; 0x77;
  0x7d; 0x79; 0x92; 0x75; DEADKEY; DEADKEY; DEADKEY; DEADKEY; DEADKEY; BRIGHTNESS_UP; DEADKEY; 0x37; 0x36; 0x6e; 0x7f; DEADKEY;
  DEADKEY; DEADKEY; DEADKEY; DEADKEY; DEADKEY; DEADKEY; DEADKEY; DEADKEY; DEADKEY; DEADKEY; DEADKEY; DEADKEY; DEADKEY; DEADKEY; 0x70; DEADKEY;
  DEADKEY; DEADKEY; DEADKEY; DEADKEY; DEADKEY; DEADKEY; DEADKEY; DEADKEY; DEADKEY; DEADKEY; DEADKEY; DEADKEY; DEADKEY; DEADKEY; DEADKEY; DEADKEY].

(** [PS2ToADBMapStock], entries 0x180 to 0x1ff. *)
Definition PS2ToADBMapStock_3 : list Z := [
  DEADKEY; DEADKEY; DEADKEY; DEADKEY; DEADKEY; DEADKEY; DEADKEY; DEADKEY; DEADKEY; DEADKEY; DEADKEY; DEADKEY; DEADKEY; DEADKEY; DEADKEY; DEADKEY;
  DEADKEY; DEADKEY; DEADKEY; DEADKEY; DEADKEY; DEADKEY; DEADKEY; DEADKEY; DEADKEY; DEADKEY; DEADKEY; DEADKEY; DEADKEY; DEADKEY; DEADKEY; DEADKEY;
  DEADKEY; DEADKEY; DEADKEY; DEADKEY; DEADKEY; DEADKEY; DEADKEY; DEADKEY; DEADKEY; DEADKEY; DEADKEY; DEADKEY; DEADKEY; DEADKEY; DEADKEY; DEADKEY;
  DEADKEY; DEADKEY; DEADKEY; DEADKEY; DEADKEY; DEADKEY; DEADKEY; DEADKEY; DEADKEY; DEADKEY; DEADKEY; DEADKEY; DEADKEY; DEADKEY; DEADKEY; DEADKEY;
  DEADKEY; DEADKEY; DEADKEY; DEADKEY; DEADKEY; DEADKEY; DEADKEY; DEADKEY; DEADKEY; DEADKEY; DEADKEY; DEADKEY; DEADKEY; DEADKEY; DEADKEY; DEADKEY;
  DEADKEY; DEADKEY; DEADKEY; DEADKEY; DEADKEY; DEADKEY; DEADKEY; DEADKEY; DEADKEY; DEADKEY; DEADKEY; DEADKEY; DEADKEY; DEADKEY; DEADKEY; DEADKEY;
  DEADKEY; DEADKEY; DEADKEY; DEADKEY; DEADKEY; DEADKEY; DEADKEY; DEADKEY; DEADKEY; DEADKEY; DEADKEY; DEADKEY; DEADKEY; DEADKEY; DEADKEY; DEADKEY;
  DEADKEY; DEADKEY; DEADKEY; DEADKEY; DEADKEY; DEADKEY; DEADKEY; DEADKEY; DEADKEY; DEADKEY; DEADKEY; DEADKEY; DEADKEY; DEADKEY; DEADKEY; DEADKEY].

Definition PS2ToADBMapStock : list Z := PS2ToADBMapStock_0 ++ PS2ToADBMapStock_1 ++ PS2ToADBMapStock_2 ++ PS2ToADBMapStock_3.

(** [_PS2flagsStock], entries 0x000 to 0x07f. *)
Definition _PS2flagsStock_0 : list Z := [
  0; 0; 0; 0; 0; 0; 0; 0; 0; 0; 0; 0; 0; 0; 0; 0;
  0; 0; 0; 0; 0; 0; 0; 0; 0; 0; 0; 0; 0; 0x0100; 0; 0;
  0; 0; 0; 0; 0; 0; 0; 0; 0; 0; 0x0300; 0; 0; 0; 0; 0;
  0; 0; 0; 0; 0; 0; 0x0400; 0; 0x0500; 0; 0; 0; 0; 0; 0; 0;
  0; 0; 0; 0; 0; 0; 0; 0; 0; 0; 0; 0; 0; 0; 0; 0;
  0; 0; 0; 0; 0; 0; 0; 0; 0; 0; 0; 0; 0; 0; 0; 0;
  0; 0; 0; 0; 0; 0; 0; 0; 0; 0; 0; 0; 0; 0; 0; 0;
  0; 0; 0; 0; 0; 0; 0; 0; 0; 0; 0; 0; 0; 0; 0; 0].

(** [_PS2flagsStock], entries 0x080 to 0x0ff. *)
Definition _PS2flagsStock_1 : list Z := [
  0; 0; 0; 0; 0; 0; 0; 0; 0; 0; 0; 0; 0; 0; 0; 0;
  0; 0; 0; 0; 0; 0; 0; 0; 0; 0; 0; 0; 0; 0; 0; 0;
  0; 0; 0; 0; 0; 0; 0; 0; 0; 0; 0; 0; 0; 0; 0; 0;
  0; 0; 0; 0; 0; 0; 0; 0; 0; 0; 0; 0; 0; 0; 0; 0;
  0; 0; 0; 0; 0; 0; 0; 0; 0; 0; 0; 0; 0; 0; 0; 0;
  0; 0; 0; 0; 0; 0; 0; 0; 0; 0; 0; 0; 0; 0; 0; 0;
  0; 0; 0; 0; 0; 0; 0; 0; 0; 0; 0; 0; 0; 0; 0; 0;
  0; 0; 0; 0; 0; 0; 0; 0; 0; 0; 0; 0; 0; 0; 0; 0].

(** [_PS2flagsStock], entries 0x100 to 0x17f. *)
Definition _PS2flagsStock_2 : list Z := [
  0; 0; 0; 0; 0; 0; 0; 0; 0; 0; 0; 0; 0; 0; 0; 0;
  0; 0; 0; 0; 0; 0; 0; 0; 0; 0; 0; 0; 0; 0x0200; 0; 0;
  0; 0; 0; 0; 0; 0; 0; 0; 0; 0; 0; 0; 0; 0; 0; 0;
  0; 0; 0; 0; 0; 0; 0; 0; 0x0600; 0; 0; 0; 0; 0; 0; 0;
  0; 0; 0; 0; 0; 0; 0; 0; 0; 0; 0; 0; 0; 0; 0; 0;
  0; 0; 0; 0; 0; 0; 0; 0; 0; 0; 0; 0x0700; 0x0800; 0x0a00; 0; 0;
  0; 0; 0; 0x0900; 0; 0; 0; 0; 0; 0; 0; 0; 0; 0; 0; 0;
  0; 0; 0; 0; 0; 0; 0; 0; 0; 0; 0; 0; 0; 0; 0; 0].

(** [_PS2flagsStock], entries 0x180 to 0x1ff. *)
Definition _PS2flagsStock_3 : list Z := [
  0; 0; 0; 0; 0; 0; 0; 0; 0; 0; 0; 0; 0; 0; 0; 0;
  0; 0; 0; 0; 0; 0; 0; 0; 0; 0; 0; 0; 0; 0; 0; 0;
  0; 0; 0; 0; 0; 0; 0; 0; 0; 0; 0; 0; 0; 0; 0; 0;
  0; 0; 0; 0; 0; 0; 0; 0; 0; 0; 0; 0; 0; 0; 0; 0;
  0; 0; 0; 0; 0; 0; 0; 0; 0; 0; 0; 0; 0; 0; 0; 0;
  0; 0; 0; 0; 0; 0; 0; 0; 0; 0; 0; 0; 0; 0; 0; 0;
  0; 0; 0; 0; 0; 0; 0; 0; 0; 0; 0; 0; 0; 0; 0; 0;
  0; 0; 0; 0; 0; 0; 0; 0; 0; 0; 0; 0; 0; 0; 0; 0].

Definition _PS2flagsStock : list Z := _PS2flagsStock_0 ++ _PS2flagsStock_1 ++ _PS2flagsStock_2 ++ _PS2flagsStock_3.

(** ** The default key map *)

(** Constants of IOKit's ev_keymap.h and ev_keymap types. *)
Record NXConstants := mkNX {
  NX_MODIFIERKEY_SHIFT : Z;
  NX_MODIFIERKEY_CONTROL : Z;
  NX_MODIFIERKEY_ALTERNATE : Z;
  NX_MODIFIERKEY_COMMAND : Z;
  NX_MODIFIERKEY_NUMERICPAD : Z;
  NX_MODIFIERKEY_HELP : Z;
  NX_MODIFIERKEY_SECONDARYFN : Z;
  NX_MODIFIERKEY_RSHIFT : Z;
  NX_MODIFIERKEY_RCONTROL : Z;
  NX_MODIFIERKEY_RALTERNATE : Z;
  NX_MODIFIERKEY_RCOMMAND : Z;
  NX_KEYTYPE_CAPS_LOCK : Z;
  NX_KEYTYPE_HELP : Z;
  NX_POWER_KEY : Z;
  NX_KEYTYPE_MUTE : Z;
  NX_KEYTYPE_SOUND_UP : Z;
  NX_KEYTYPE_SOUND_DOWN : Z;
  NX_KEYTYPE_NUM_LOCK : Z;
  NX_KEYTYPE_VIDMIRROR : Z;
  NX_KEYTYPE_PLAY : Z;
  NX_KEYTYPE_NEXT : Z;
  NX_KEYTYPE_PREVIOUS : Z;
  NX_KEYTYPE_BRIGHTNESS_UP : Z;
  NX_KEYTYPE_BRIGHTNESS_DOWN : Z;
  NX_KEYTYPE_EJECT : Z;
}.

Section keymap.
Context (nx : NXConstants).

Definition keymap_modifiers : list Z := [
  0; 0;
  0x0b;
  NX_MODIFIERKEY_SHIFT nx; 0x01; 0x38;
  NX_MODIFIERKEY_CONTROL nx; 0x01; 0x3b;
  NX_MODIFIERKEY_ALTERNATE nx; 0x01; 0x3a;
  NX_MODIFIERKEY_COMMAND nx; 0x01; 0x37;
  NX_MODIFIERKEY_NUMERICPAD nx; 0x15; 0x52; 0x41; 0x4c; 0x53; 0x54; 0x55; 0x45; 0x58; 0x57; 0x56; 0x5b; 0x5c; 0x43; 0x4b; 0x51; 0x7b; 0x7d; 0x7e; 0x7c; 0x4e; 0x59;
  NX_MODIFIERKEY_HELP nx; 0x01; 0x72;
  NX_MODIFIERKEY_SECONDARYFN nx; 0x01; 0x3f;
  NX_MODIFIERKEY_RSHIFT nx; 0x01; 0x3c;
  NX_MODIFIERKEY_RCONTROL nx; 0x01; 0x3e;
  NX_MODIFIERKEY_RALTERNATE nx; 0x01; 0x3d;
  NX_MODIFIERKEY_RCOMMAND nx; 0x01; 0x36].

Definition keymap_keys_a : list Z := [
  0xa2;
  0x0d; 0; 0x61; 0; 0x41; 0; 0x01; 0; 0x01; 0; 0xca; 0; 0xc7; 0; 0x01; 0; 0x01;
  0x0d; 0; 0x73; 0; 0x53; 0; 0x13; 0; 0x13; 0; 0xfb; 0; 0xa7; 0; 0x13; 0; 0x13;
  0x0d; 0; 0x64; 0; 0x44; 0; 0x04; 0; 0x04; 0x01; 0x44; 0x01; 0xb6; 0; 0x04; 0; 0x04;
  0x0d; 0; 0x66; 0; 0x46; 0; 0x06; 0; 0x06; 0; 0xa6; 0x01; 0xac; 0; 0x06; 0; 0x06;
  0x0d; 0; 0x68; 0; 0x48; 0; 0x08; 0; 0x08; 0; 0xe3; 0; 0xeb; 0; 0; 0x18; 0;
  0x0d; 0; 0x67; 0; 0x47; 0; 0x07; 0; 0x07; 0; 0xf1; 0; 0xe1; 0; 0x07; 0; 0x07;
  0x0d; 0; 0x7a; 0; 0x5a; 0; 0x1a; 0; 0x1a; 0; 0xcf; 0x01; 0x57; 0; 0x1a; 0; 0x1a;
  0x0d; 0; 0x78; 0; 0x58; 0; 0x18; 0; 0x18; 0x01; 0xb4; 0x01; 0xce; 0; 0x18; 0; 0x18;
  0x0d; 0; 0x63; 0; 0x43; 0; 0x03; 0; 0x03; 0x01; 0xe3; 0x01; 0xd3; 0; 0x03; 0; 0x03;
  0x0d; 0; 0x76; 0; 0x56; 0; 0x16; 0; 0x16; 0x01; 0xd6; 0x01; 0xe0; 0; 0x16; 0; 0x16;
  0x02; 0; 0x3c; 0; 0x3e;
  0x0d; 0; 0x62; 0; 0x42; 0; 0x02; 0; 0x02; 0x01; 0xe5; 0x01; 0xf2; 0; 0x02; 0; 0x02;
  0x0d; 0; 0x71; 0; 0x51; 0; 0x11; 0; 0x11; 0; 0xfa; 0; 0xea; 0; 0x11; 0; 0x11;
  0x0d; 0; 0x77; 0; 0x57; 0; 0x17; 0; 0x17; 0x01; 0xc8; 0x01; 0xc7; 0; 0x17; 0; 0x17;
  0x0d; 0; 0x65; 0; 0x45; 0; 0x05; 0; 0x05; 0; 0xc2; 0; 0xc5; 0; 0x05; 0; 0x05;
  0x0d; 0; 0x72; 0; 0x52; 0; 0x12; 0; 0x12; 0x01; 0xe2; 0x01; 0xd2; 0; 0x12; 0; 0x12;
  0x0d; 0; 0x79; 0; 0x59; 0; 0x19; 0; 0x19; 0; 0xa5; 0x01; 0xdb; 0; 0x19; 0; 0x19;
  0x0d; 0; 0x74; 0; 0x54; 0; 0x14; 0; 0x14; 0x01; 0xe4; 0x01; 0xd4; 0; 0x14; 0; 0x14;
  0x0a; 0; 0x31; 0; 0x21; 0x01; 0xad; 0; 0xa1;
  0x0e; 0; 0x32; 0; 0x40; 0; 0x32; 0; 0; 0; 0xb2; 0; 0xb3; 0; 0; 0; 0;
  0x0a; 0; 0x33; 0; 0x23; 0; 0xa3; 0x01; 0xba;
  0x0a; 0; 0x34; 0; 0x24; 0; 0xa2; 0; 0xa8;
  0x0e; 0; 0x36; 0; 0x5e; 0; 0x36; 0; 0x1e; 0; 0xb6; 0; 0xc3; 0; 0x1e; 0; 0x1e;
  0x0a; 0; 0x35; 0; 0x25; 0x01; 0xa5; 0; 0xbd;
  0x0a; 0; 0x3d; 0; 0x2b; 0x01; 0xb9; 0x01; 0xb1;
  0x0a; 0; 0x39; 0; 0x28; 0; 0xac; 0; 0xab;
  0x0a; 0; 0x37; 0; 0x26; 0x01; 0xb0; 0x01; 0xab;
  0x0e; 0; 0x2d; 0; 0x5f; 0; 0x1f; 0; 0x1f; 0; 0xb1; 0; 0xd0; 0; 0x1f; 0; 0x1f;
  0x0a; 0; 0x38; 0; 0x2a; 0; 0xb7; 0; 0xb4;
  0x0a; 0; 0x30; 0; 0x29; 0; 0xad; 0; 0xbb;
  0x0e; 0; 0x5d; 0; 0x7d; 0; 0x1d; 0; 0x1d; 0; 0x27; 0; 0xba; 0; 0x1d; 0; 0x1d;
  0x0d; 0; 0x6f; 0; 0x4f; 0; 0x0f; 0; 0x0f; 0; 0xf9; 0; 0xe9; 0; 0x0f; 0; 0x0f;
  0x0d; 0; 0x75; 0; 0x55; 0; 0x15; 0; 0x15; 0; 0xc8; 0; 0xcd; 0; 0x15; 0; 0x15;
  0x0e; 0; 0x5b; 0; 0x7b; 0; 0x1b; 0; 0x1b; 0; 0x60; 0; 0xaa; 0; 0x1b; 0; 0x1b;
  0x0d; 0; 0x69; 0; 0x49; 0; 0x09; 0; 0x09; 0; 0xc1; 0; 0xf5; 0; 0x09; 0; 0x09;
  0x0d; 0; 0x70; 0; 0x50; 0; 0x10; 0; 0x10; 0x01; 0x70; 0x01; 0x50; 0; 0x10; 0; 0x10;
  0x10; 0; 0x0d; 0; 0x03;
  0x0d; 0; 0x6c; 0; 0x4c; 0; 0x0c; 0; 0x0c; 0; 0xf8; 0; 0xe8; 0; 0x0c; 0; 0x0c;
  0x0d; 0; 0x6a; 0; 0x4a; 0; 0x0a; 0; 0x0a; 0; 0xc6; 0; 0xae; 0; 0x0a; 0; 0x0a;
  0x0a; 0; 0x27; 0; 0x22; 0; 0xa9; 0x01; 0xae;
  0x0d; 0; 0x6b; 0; 0x4b; 0; 0x0b; 0; 0x0b; 0; 0xce; 0; 0xaf; 0; 0x0b; 0; 0x0b;
  0x0a; 0; 0x3b; 0; 0x3a; 0x01; 0xb2; 0x01; 0xa2;
  0x0e; 0; 0x5c; 0; 0x7c; 0; 0x1c; 0; 0x1c; 0; 0xe3; 0; 0xeb; 0; 0x1c; 0; 0x1c;
  0x0a; 0; 0x2c; 0; 0x3c; 0; 0xcb; 0x01; 0xa3;
  0x0a; 0; 0x2f; 0; 0x3f; 0x01; 0xb8; 0; 0xbf;
  0x0d; 0; 0x6e; 0; 0x4e; 0; 0x0e; 0; 0x0e; 0; 0xc4; 0x01; 0xaf; 0; 0x0e; 0; 0x0e;
  0x0d; 0; 0x6d; 0; 0x4d; 0; 0x0d; 0; 0x0d; 0x01; 0x6d; 0x01; 0xd8; 0; 0x0d; 0; 0x0d;
  0x0a; 0; 0x2e; 0; 0x3e; 0; 0xbc; 0x01; 0xb3;
  0x02; 0; 0x09; 0; 0x19;
  0x0c; 0; 0x20; 0; 0; 0; 0x80; 0; 0;
  0x0a; 0; 0x60; 0; 0x7e; 0; 0x60; 0x01; 0xbb;
  0x02; 0; 0x7f; 0; 0x08;
  0xff;
  0x02; 0; 0x1b; 0; 0x7e;
  0xff;
  0xff;
  0xff;
  0xff;
  0xff;
  0xff;
  0xff;
  0xff;
  0xff;
  0xff].

Definition keymap_keys_b : list Z := [
  0; 0xfe; 0x36;
  0; 0; 0x2e;
  0xff;
  0; 0; 0x2a;
  0xff;
  0; 0; 0x2b;
  0xff;
  0; 0; 0x1b;
  0xff;
  0xff;
  0xff;
  0x0e; 0; 0x2f; 0; 0x5c; 0; 0x2f; 0; 0x1c; 0; 0x2f; 0; 0x5c; 0; 0; 0x0a; 0;
  0; 0; 0x0d;
  0xff;
  0; 0; 0x2d;
  0; 0xfe; 0x37;
  0; 0xfe; 0x38;
  0x0e; 0; 0x3d; 0; 0x7c; 0; 0x3d; 0; 0x1c; 0; 0x3d; 0; 0x7c; 0; 0; 0x18; 0x46;
  0; 0; 0x30;
  0; 0; 0x31;
  0; 0; 0x32;
  0; 0; 0x33;
  0; 0; 0x34;
  0; 0; 0x35;
  0; 0; 0x36;
  0; 0; 0x37;
  0; 0xfe; 0x39;
  0; 0; 0x38;
  0; 0; 0x39;
  0xff;
  0xff;
  0xff;
  0; 0xfe; 0x24;
  0; 0xfe; 0x25;
  0; 0xfe; 0x26;
  0; 0xfe; 0x22;
  0; 0xfe; 0x27;
  0; 0xfe; 0x28;
  0xff;
  0; 0xfe; 0x2a;
  0xff;
  0; 0xfe; 0x32;
  0; 0xfe; 0x35;
  0; 0xfe; 0x33;
  0xff;
  0; 0xfe; 0x29;
  0xff;
  0; 0xfe; 0x2b;
  0xff;
  0; 0xfe; 0x34;
  0xff;
  0; 0xfe; 0x2e;
  0; 0xfe; 0x30;
  0; 0xfe; 0x2d;
  0; 0xfe; 0x23;
  0; 0xfe; 0x2f;
  0; 0xfe; 0x21;
  0; 0xfe; 0x31;
  0; 0xfe; 0x20;
  0; 0x01; 0xac;
  0; 0x01; 0xae;
  0; 0x01; 0xaf;
  0; 0x01; 0xad;
  0; 0; 0;
  0; 0; 0;
  0; 0; 0;
  0; 0; 0;
  0; 0; 0;
  0; 0; 0;
  0; 0; 0;
  0; 0; 0;
  0; 0; 0;
  0; 0; 0;
  0; 0; 0;
  0; 0; 0;
  0; 0; 0;
  0; 0; 0;
  0; 0; 0;
  0; 0; 0;
  0; 0; 0;
  0; 0; 0;
  0; 0; 0;
  0; 0; 0;
  0; 0; 0;
  0; 0; 0;
  0; 0; 0;
  0; 0; 0;
  0; 0; 0;
  0; 0; 0;
  0; 0; 0;
  0; 0; 0;
  0; 0; 0;
  0; 0; 0;
  0; 0; 0;
  0; 0; 0;
  0; 0; 0;
  0; 0; 0;
  0; 0; 0].

Definition keymap_sequences : list Z := [
  0x11;
  0x02; 0xff; 0x04; 0; 0x31;
  0x02; 0xff; 0x04; 0; 0x32;
  0x02; 0xff; 0x04; 0; 0x33;
  0x02; 0xff; 0x04; 0; 0x34;
  0x02; 0xff; 0x04; 0; 0x35;
  0x02; 0xff; 0x04; 0; 0x36;
  0x02; 0xff; 0x04; 0; 0x37;
  0x02; 0xff; 0x04; 0; 0x38;
  0x02; 0xff; 0x04; 0; 0x39;
  0x02; 0xff; 0x04; 0; 0x30;
  0x02; 0xff; 0x04; 0; 0x2d;
  0x02; 0xff; 0x04; 0; 0x3d;
  0x02; 0xff; 0x04; 0; 0x70;
  0x02; 0xff; 0x04; 0; 0x5d;
  0x02; 0xff; 0x04; 0; 0x5b;
  0x03; 0xff; 0x04; 0xff; 0x01; 0; 0x5b;
  0x03; 0xff; 0x04; 0xff; 0x01; 0; 0x5d].

Definition keymap_special : list Z := [
  0x0e;
  NX_KEYTYPE_CAPS_LOCK nx; 0x39;
  NX_KEYTYPE_HELP nx; 0x72;
  NX_POWER_KEY nx; 0x7f;
  NX_KEYTYPE_MUTE nx; 0x4a;
  NX_KEYTYPE_SOUND_UP nx; 0x48;
  NX_KEYTYPE_SOUND_DOWN nx; 0x49;
  NX_KEYTYPE_NUM_LOCK nx; 0x47;
  NX_KEYTYPE_VIDMIRROR nx; 0x70;
  NX_KEYTYPE_PLAY nx; 0x34;
  NX_KEYTYPE_NEXT nx; 0x42;
  NX_KEYTYPE_PREVIOUS nx; 0x4d;
  NX_KEYTYPE_BRIGHTNESS_UP nx; 0x90;
  NX_KEYTYPE_BRIGHTNESS_DOWN nx; 0x91;
  NX_KEYTYPE_EJECT nx; 0x92].

Definition appleUSAKeyMap : list Z :=
  keymap_modifiers ++ keymap_keys_a ++ keymap_keys_b ++ keymap_sequences ++ keymap_special.
End keymap.

(** ** Reading a key map back

    The format is the one the comments of the table give: the modifier keys,
    the characters of each ADB code, the key sequences, the special keys, each
    preceded by their number. *)

Fixpoint popcount (bits : nat) (m : Z) : nat :=
  match bits with
  | O => O
  | S n => ((if Z.testbit m (Z.of_nat n) then 1 else 0) + popcount n m)%nat
  end.

Definition take_n (n : nat) (l : list Z) : option (list Z * list Z) :=
  if (length l <? n)%nat then None else Some (take n l, drop n l).

(** [n] records, each read by [one]. *)
Fixpoint repeat_n {A} (one : list Z -> option (A * list Z)) (n : nat) (l : list Z) : option (list A * list Z) :=
  match n with
  | O => Some ([], l)
  | S n => '(x, l) ← one l; '(xs, l) ← repeat_n one n l; Some (x :: xs, l)
  end.

Definition counted {A} (one : list Z -> option (A * list Z)) (l : list Z) : option (list A * list Z) :=
  match l with n :: l => repeat_n one (Z.to_nat n) l | [] => None end.

Definition read_modifier (l : list Z) : option ((Z * list Z) * list Z) :=
  match l with m :: n :: l => '(ks, l) ← take_n (Z.to_nat n) l; Some ((m, ks), l) | _ => None end.

Definition read_key (l : list Z) : option (list Z * list Z) :=
  match l with
  | mask :: l => if mask =? 0xff then Some ([], l) else take_n (2 * 2 ^ popcount 8 mask) l
  | [] => None
  end.

Definition read_sequence (l : list Z) : option (list Z * list Z) :=
  match l with n :: l => take_n (2 * Z.to_nat n) l | [] => None end.

Definition read_special (l : list Z) : option ((Z * Z) * list Z) :=
  match l with t :: k :: l => Some ((t, k), l) | _ => None end.

Record Keymap := mkKeymap {
  km_modifiers : list (Z * list Z);
  km_keys : list (list Z);
  km_sequences : list (list Z);
  km_special : list (Z * Z);
}.

Definition read_keymap (l : list Z) : option Keymap :=
  match l with
  | 0 :: 0 :: l =>
      '(ms, l) ← counted read_modifier l;
      '(ks, l) ← counted read_key l;
      '(ss, l) ← counted read_sequence l;
      '(sp, l) ← counted read_special l;
      match l with [] => Some (mkKeymap ms ks ss sp) | _ => None end
  | _ => None
  end.


(** ** The stock tables *)

Lemma length_PS2ToADBMapStock : length PS2ToADBMapStock = 512%nat.
Proof. reflexivity. Qed.
Lemma length_PS2flagsStock : length _PS2flagsStock = 512%nat.
Proof. reflexivity. Qed.

Lemma forallb_Forall {A} (P : A -> bool) l : forallb P l = true -> Forall (fun x => P x = true) l.
Proof. intros HP. apply Forall_forall. intros x Hx%list_elem_of_In. by apply (proj1 (forallb_forall P l)). Qed.

Lemma PS2ToADBMapStock_u8 : Forall is_u8 PS2ToADBMapStock.
Proof.
  apply (Forall_impl (fun c => (0 <=? c) && (c <? 256) = true)); [|intros c Hc; bool_hyps; unfold is_u8; lia].
  apply (forallb_Forall (fun c => (0 <=? c) && (c <? 256))). vm_compute. reflexivity.
Qed.

(** The modifier a scan code stands for: bit number plus one, zero for none. *)
Definition modifier_bit (flags : Z) : Z := Z.shiftr flags 8.

Definition modifier_of (i : nat) : option Z :=
  f ← _PS2flagsStock !! i; if modifier_bit f =? 0 then None else Some (Z.shiftl 1 (modifier_bit f - 1)).

(** The flag table gives a modifier to exactly ten scan codes, each its own
    bit, the one its mask constant names. *)
Lemma modifier_table i m :
  modifier_of i = Some m <->
  (Z.of_nat i, m) ∈ [(0x1d, kMaskLeftControl); (0x11d, kMaskRightControl); (0x2a, kMaskLeftShift);
    (0x36, kMaskRightShift); (0x38, kMaskLeftAlt); (0x138, kMaskRightAlt); (0x15b, kMaskLeftWindows);
    (0x15c, kMaskRightWindows); (0x163, kMaskLeftFn); (0x15d, kMaskWindowsContext)].
Proof.
  set (tbl := [_; _; _; _; _; _; _; _; _; _]).
  destruct (Nat.lt_ge_cases i 512) as [Hi|Hi].
  - assert (forallb (fun i => bool_decide (modifier_of i = snd <$> find (fun p => p.1 =? Z.of_nat i) tbl)) (seq 0 512) = true)
      as Hall by (vm_compute; reflexivity).
    apply forallb_Forall, Forall_forall with (x := i) in Hall; [|apply elem_of_seq; lia].
    apply bool_decide_eq_true in Hall. rewrite Hall. clear Hall Hi.
    split.
    + intros Hf. destruct (find _ tbl) as [[a b]|] eqn:E; [|done]. simpl in Hf. injection Hf as ->.
      apply find_some in E as [Hin Heq]. simpl in Heq. apply Z.eqb_eq in Heq. subst a.
      by apply list_elem_of_In.
    + intros Hin. repeat (apply elem_of_cons in Hin as [[= Ei ->]|Hin];
        [apply (f_equal Z.to_nat) in Ei; rewrite Nat2Z.id in Ei; subst i; reflexivity|]).
      by apply not_elem_of_nil in Hin.
  - split.
    + unfold modifier_of. by rewrite lookup_ge_None_2.
    + intros Hin. exfalso. repeat (apply elem_of_cons in Hin as [[= Ei _]|Hin]; [lia|]).
      by apply not_elem_of_nil in Hin.
Qed.
