(* ===== verification/Keyboard.v ===== *)
(** * Keyboard: ApplePS2Keyboard

    The keyboard driver, src/VoodooPS2Keyboard/VoodooPS2Keyboard.cpp/.h (the
    release build: DEBUG undefined): the parsers of its configuration strings,
    the key tables and their remapping, the scan code decoder that runs at
    interrupt time, the ring buffer of packets, macro inversion, the dispatch
    of key events with its special cases, brightness and backlight levels, and
    the requests it sends to its device.

    What the driver does to the outside (key events, ACPI calls, timers,
    requests, messages) is a trace of [KEvent]; what it learns from the outside
    (clock, ACPI results, replies to messages) is the parameter [env]. *)

From S2P Require Import Prelude RingBuffer PS2Defs Controller Config KeyMaps.
From Stdlib Require Import Ascii.
From Stdlib Require String.

#[local] Open Scope string_scope.
#[local] Open Scope list_scope.
#[local] Open Scope Z_scope.

(** ** Constants *)

Definition KBV_NUM_KEYCODES : Z := 512.
Definition KBV_BITS_MASK : Z := 31.
Definition KBV_BITS_SHIFT : Z := 5.
Definition KBV_NUNITS : Z := (KBV_NUM_KEYCODES + (32 - 1)) / 32.
Definition KBV_NUM_SCANCODES : Z := 256.
Definition kBreaklessKey : Z := 0x01.
Definition kPacketLength : Z := 2 + 6 + 8.
Definition kPacketTimeOffset : Z := 8.
Definition kPacketKeyDataLength : Z := 2.

Definition kOutputBytesOffset : Z := 2.
Definition kModifierBytesOffset : Z := 4.
Definition kPrefixBytes : Z := 8.
Definition kSequenceBytesOffset : Z := 8.
Definition kMinMacroInversion : Z := 10.

(** ** Parsing *)

Definition code (a : ascii) : Z := Z.of_N (N_of_ascii a).

(** The value of a hexadecimal digit. *)
Definition hex_digit (a : ascii) : option Z :=
  let c := code a in
  if (48 <=? c) && (c <=? 57) then Some (c - 48)
  else if (97 <=? c) && (c <=? 102) then Some (c - 97 + 10)
  else if (65 <=? c) && (c <=? 70) then Some (c - 65 + 10)
  else None.

(** [parseHex]: the rest of the string, from the terminator on, and the
    number, which wraps at 32 bits. *)
Fixpoint parseHex_from (n : Z) (psz : string) (term1 term2 : ascii) : option (string * Z) :=
  match psz with
  | String.EmptyString => Some (psz, n)
  | String.String c rest =>
      if Ascii.eqb c term1 || Ascii.eqb c term2 then Some (psz, n)
      else d ← hex_digit c; parseHex_from (u32 (Z.shiftl n 4 + d)) rest term1 term2
  end.
Definition parseHex (psz : string) (term1 term2 : ascii) : option (string * Z) :=
  parseHex_from 0 psz term1 term2.

Definition NUL : ascii := zero.
Definition newline : ascii := "010".

Definition parseRemap (psz : string) : option (Z * Z) :=
  match parseHex psz "=" NUL with
  | Some (String.String "=" rest, n) =>
      if n >? 0xFFFF then None
      else match parseHex rest newline ";" with
           | Some (_, n') => if n' >? 0xFFFF then None else Some (n, n')
           | None => None
           end
  | _ => None
  end.

(** [while ( *++psz == ' ');] after the comma. *)
Fixpoint skip_spaces (psz : string) : string :=
  match psz with
  | String.String " " rest => skip_spaces rest
  | _ => psz
  end.

(** The loop of [parseAction]: the destination, how far it was filled, and
    whether the text was accepted. *)
Fixpoint parseAction_loop (fuel : nat) (psz : string) (dest : list Z) (i size : Z)
  : outcome (bool * list Z * Z) :=
  match psz with
  | String.EmptyString => Done (true, dest, i)
  | _ =>
      if negb (i <? size) then Done (true, dest, i)
      else
        match fuel with
        | O => NoFuel
        | S fuel =>
            match parseHex psz " " NUL with
            | Some (String.String " " (String.String c rest), n) =>
                if negb (Ascii.eqb c "d" || Ascii.eqb c "u") then Done (false, dest, i)
                else
                  dest ← aset dest i (u16 (Z.lor n (if Ascii.eqb c "u" then 0x1000 else 0)));
                  match rest with
                  | String.EmptyString => Done (true, dest, i + 1)
                  | String.String "," rest => parseAction_loop fuel (skip_spaces rest) dest (i + 1) size
                  | _ => Done (false, dest, i + 1)
                  end
            | _ => Done (false, dest, i)
            end
        end
  end.

Definition parseAction (psz : string) (dest : list Z) (size : Z) : outcome (bool * list Z) :=
  '(ok, dest, i) ← parseAction_loop (S (String.length psz)) psz dest 0 size;
  if negb ok || (i >=? size) then dest ← aset dest 0 0; Done (false, dest)
  else dest ← aset dest i 0; Done (true, dest).

(** ** State *)

Inductive TimerFunc := kTimerSleep | kTimerEject.

Record ApplePS2Keyboard := mkKeyboard {
  _device : bool;
  _keyBitVector : list Z;
  _extendCount : Z;
  _ringBuffer : RingBuffer Z;
  _lastdata : Z;
  _interruptHandlerInstalled : bool;
  _powerControlHandlerInstalled : bool;
  _ledState : Z;
  _cmdGate : bool;
  _PS2modifierState : Z;
  _PS2ToPS2Map : list Z;
  _PS2flags : list Z;
  _PS2ToADBMap : list Z;
  _PS2ToADBMapMapped : list Z;
  _fkeymode : Z;
  _fkeymodesupported : bool;
  _keysStandard : option (list OSObject);
  _keysSpecial : option (list OSObject);
  _swapcommandoption : bool;
  _logscancodes : Z;
  _f12ejectdelay : Z;
  _timerFunc : TimerFunc;
  _sleepEjectTimer : bool;
  _maxsleeppresstime : Z;
  _actionSwipeUp : list Z;
  _actionSwipeDown : list Z;
  _actionSwipeLeft : list Z;
  _actionSwipeRight : list Z;
  _provider : bool;
  _brightnessLevels : option (list Z);
  _brightnessCount : Z;
  _backlightLevels : option (list Z);
  _backlightCount : Z;
  _brightnessHack : bool;
  _macroTranslation : option (list (list Z));
  _macroInversion : option (list (list Z));
  _macroBuffer : option (list Z);
  _macroMax : Z;
  _macroCurrent : Z;
  _macroMaxTime : Z;
  _macroTimer : bool;
  firsttime : bool;               (* static in dispatchKeyboardEventWithPacket *)
}.
#[export] Instance ApplePS2Keyboard_eta : Settable ApplePS2Keyboard := mkSettable _ (fun k =>
  mkKeyboard (_device k) (_keyBitVector k) (_extendCount k) (_ringBuffer k) (_lastdata k)
    (_interruptHandlerInstalled k) (_powerControlHandlerInstalled k) (_ledState k) (_cmdGate k)
    (_PS2modifierState k) (_PS2ToPS2Map k) (_PS2flags k) (_PS2ToADBMap k) (_PS2ToADBMapMapped k)
    (_fkeymode k) (_fkeymodesupported k) (_keysStandard k) (_keysSpecial k) (_swapcommandoption k)
    (_logscancodes k) (_f12ejectdelay k) (_timerFunc k) (_sleepEjectTimer k) (_maxsleeppresstime k)
    (_actionSwipeUp k) (_actionSwipeDown k) (_actionSwipeLeft k) (_actionSwipeRight k) (_provider k)
    (_brightnessLevels k) (_brightnessCount k) (_backlightLevels k) (_backlightCount k)
    (_brightnessHack k) (_macroTranslation k) (_macroInversion k) (_macroBuffer k) (_macroMax k)
    (_macroCurrent k) (_macroMaxTime k) (_macroTimer k) (firsttime k)).

Inductive Timer := TSleepEject | TMacro.

(** What the driver does to the outside, oldest first in a trace. *)
Inductive KEvent :=
| KKey (adb : Z) (goingDown : bool) (time : Z)        (* dispatchKeyboardEventX *)
| KMessage (m : PS2Message) (data : Payload)          (* _device->dispatchMessage *)
| KAcpi (method : string) (arg : Z)                   (* _provider->evaluateObject(method, NULL, &num, 1) *)
| KSetTimer (t : Timer) (ns : Z)
| KCancelTimer (t : Timer)
| KSleepNow                                           (* kIOPMSleepNow to the root domain *)
| KSetFKeyMode (mode : Z)                             (* HIDFKeyMode handed to IOHIDSystem *)
| KSubmit (r : PS2Request)                            (* submitRequest *)
| KSubmitBlock (r : PS2Request)                       (* submitRequestAndBlock *)
| KSetCommandByte (setBits clearBits : Z)
| KSetProperty (key : string) (v : OSObject)
| KInstallInterruptAction
| KInstallPowerControlAction
| KUninstallInterruptAction
| KUninstallPowerControlAction.

(** What it learns from the outside. *)
Record KEnv := {
  uptime : nat -> Z;                                  (* the n-th reading of the clock *)
  absolutetime_to_nanoseconds : Z -> Z;
  reply : list KEvent -> PS2Message -> Payload -> Payload;   (* the data of a message, as the receivers leave it *)
  evaluateInteger : list KEvent -> string -> option Z;
  validateObject : string -> bool;
  evaluateLevels : string -> option OSObject;         (* KBCL, KKCL *)
  has_PS2K : bool;                                    (* the ACPI device exists *)
  getWorkLoop : bool;                                 (* the work loop exists *)
  alloc_gate : bool;                                  (* do these allocations succeed? *)
  alloc_sleep_timer : bool;
  alloc_macro_timer : bool;
  rootDomain : bool;
  hidSystem : bool;
  version_major : Z;
  stack_time : Z;                                     (* eight bytes of uninitialised stack *)
  stack_bool : bool;
}.

Record KWorld := mkKWorld {
  kbd : ApplePS2Keyboard;
  ticks : nat;                                        (* readings of the clock so far *)
  kevs : list KEvent;
}.
#[export] Instance KWorld_eta : Settable KWorld := mkSettable _ (fun w => mkKWorld (kbd w) (ticks w) (kevs w)).

Section keyboard.
  Context (env : KEnv).
  Notation "'prog' A" := (M KWorld A) (at level 10, A at next level).

Definition kemit (e : KEvent) : prog unit := modify (fun w => w <| kevs := kevs w ++ [e] |>).
Definition getk {A} (f : ApplePS2Keyboard -> A) : prog A := gets (fun w => f (kbd w)).
Definition setk (f : ApplePS2Keyboard -> ApplePS2Keyboard) : prog unit :=
  modify (fun w => w <| kbd := f (kbd w) |>).

Definition clock_get_uptime : prog Z :=
  fun w => Done (u64 (uptime env (ticks w)), w <| ticks := S (ticks w) |>).

Definition dispatchKeyboardEventX (keyCode : Z) (goingDown : bool) (time : Z) : prog unit :=
  kemit (KKey keyCode goingDown time).

(** [_device->dispatchMessage(m, &data)]: the receivers may write [data]. *)
Definition dispatchMessage (m : PS2Message) (data : Payload) : prog Payload :=
  evs ← gets kevs;
  kemit (KMessage m data);;
  mret (reply env evs m data).

Definition setTimerTimeout (t : Timer) (ns : Z) : prog unit := kemit (KSetTimer t ns).
Definition cancelTimer (t : Timer) : prog unit := kemit (KCancelTimer t).

(** ** The key bit vector *)

Definition KBV_BIT (n : Z) : Z := Z.shiftl 1 (Z.land n KBV_BITS_MASK).

Definition KBV_KEYDOWN (n : Z) : prog unit :=
  v ← getk _keyBitVector;
  x ← lift (aget v (Z.shiftr n KBV_BITS_SHIFT));
  v ← lift (aset v (Z.shiftr n KBV_BITS_SHIFT) (Z.lor x (KBV_BIT n)));
  setk (fun k => k <| _keyBitVector := v |>).

Definition KBV_KEYUP (n : Z) : prog unit :=
  v ← getk _keyBitVector;
  x ← lift (aget v (Z.shiftr n KBV_BITS_SHIFT));
  v ← lift (aset v (Z.shiftr n KBV_BITS_SHIFT) (clear x (KBV_BIT n)));
  setk (fun k => k <| _keyBitVector := v |>).

Definition KBV_IS_KEYDOWN (n : Z) : prog bool :=
  v ← getk _keyBitVector;
  x ← lift (aget v (Z.shiftr n KBV_BITS_SHIFT));
  mret (anyset x (KBV_BIT n)).

Definition checkModifierState (mask : Z) : prog bool :=
  s ← getk _PS2modifierState; mret (mask =? Z.land s mask).

(** ** Packets *)

(** The eight bytes of a time stamp, least significant first. *)
Definition time_bytes (t : Z) : list Z :=
  map (fun i => u8 (Z.shiftr t (8 * Z.of_nat i))) (seq 0 8).
Definition time_of_bytes (l : list Z) : Z :=
  fold_right (fun b t => b + 256 * t) 0 l.

(** [*(uint64_t* )(&p[off])] *)
Definition read_time (p : list Z) (off : Z) : outcome Z :=
  if (off <? 0) || (Z.of_nat (length p) <? off + 8) then Undef
  else Done (time_of_bytes (slice p (Z.to_nat off) 8)).

(** ** Configuration *)

Definition is_ex (ex : Z) : bool := (ex =? 0) || (ex =? 0xe0).
(** Index of a scan code in the tables, the extended ones in the second half. *)
Definition map_index (scan : Z) : Z :=
  Z.land scan 0xff + (if Z.shiftr scan 8 =? 0xe0 then KBV_NUM_SCANCODES else 0).

Definition is_comment (psz : string) : bool :=
  match psz with String.String c _ => Ascii.eqb c ";" | _ => false end.

Definition loadCustomPS2Map_entry (o : OSObject) : prog unit :=
  match asString o with
  | None => mret tt
  | Some psz =>
      if is_comment psz then mret tt
      else match parseRemap psz with
           | None => mret tt
           | Some (scanIn, scanOut) =>
               if negb (is_ex (u8 (Z.shiftr scanIn 8))) || negb (is_ex (u8 (Z.shiftr scanOut 8)))
               then mret tt
               else
                 m ← getk _PS2ToPS2Map;
                 m ← lift (aset m (map_index scanIn) (map_index scanOut));
                 setk (fun k => k <| _PS2ToPS2Map := m |>)
           end
  end.

Definition loadCustomPS2Map (pArray : option (list OSObject)) : prog unit :=
  match pArray with None => mret tt | Some l => forM_ l loadCustomPS2Map_entry end.

Definition loadBreaklessPS2_entry (o : OSObject) : prog unit :=
  match asString o with
  | None => mret tt
  | Some psz =>
      if is_comment psz then mret tt
      else match parseHex psz newline ";" with
           | None => mret tt
           | Some (_, scanIn) =>
               let exIn := u8 (Z.shiftr scanIn 8) in
               if negb (is_ex exIn) then mret tt
               else
                 let index := Z.land scanIn 0xff + (if exIn =? 0xe0 then KBV_NUM_SCANCODES else 0) in
                 f ← getk _PS2flags;
                 x ← lift (aget f index);
                 f ← lift (aset f index (Z.lor x kBreaklessKey));
                 setk (fun k => k <| _PS2flags := f |>)
           end
  end.

Definition loadBreaklessPS2 (dict : OSDict) (name : string) : prog unit :=
  match getObject name dict ≫= asArray with
  | None => mret tt
  | Some l => forM_ l loadBreaklessPS2_entry
  end.

Definition loadCustomADBMap_entry (o : OSObject) : prog unit :=
  match asString o with
  | None => mret tt
  | Some psz =>
      if is_comment psz then mret tt
      else match parseRemap psz with
           | None => mret tt
           | Some (scanIn, adbOut) =>
               if negb (is_ex (u8 (Z.shiftr scanIn 8))) || (adbOut >? 0xFF) then mret tt
               else
                 m ← getk _PS2ToADBMapMapped;
                 m ← lift (aset m (map_index scanIn) adbOut);
                 setk (fun k => k <| _PS2ToADBMapMapped := m |>)
           end
  end.

Definition loadCustomADBMap (dict : OSDict) (name : string) : prog unit :=
  match getObject name dict ≫= asArray with
  | None => mret tt
  | Some l => forM_ l loadCustomADBMap_entry
  end.

(** The entries of a macro array that are kept. *)
Definition valid_macro (d : list Z) : bool :=
  (kMinMacroInversion <=? Z.of_nat (length d)) && negb (Z.odd (Z.of_nat (length d))) &&
  match d with b0 :: b1 :: _ => (b0 =? 0xFF) && (b1 =? 0xFF) | _ => false end.

Definition loadMacroData (dict : OSDict) (name : string) : option (list (list Z)) :=
  match getObject name dict ≫= asArray with
  | None => None
  | Some l =>
      match List.filter valid_macro (omap asData l) with
      | [] => None
      | ms => Some ms
      end
  end.

(** [_PS2ToADBMap[dst] = _PS2ToADBMapMapped[src]] *)
Definition set_adb (dst v : Z) : prog unit :=
  m ← getk _PS2ToADBMap;
  m ← lift (aset m dst v);
  setk (fun k => k <| _PS2ToADBMap := m |>).
Definition copy_adb (dst src : Z) : prog unit :=
  m ← getk _PS2ToADBMapMapped;
  v ← lift (aget m src);
  set_adb dst v.

Definition kSleepPressTime := "SleepPressTime".
Definition kHIDFKeyMode := "HIDFKeyMode".
Definition kHIDF12EjectDelay := "HIDF12EjectDelay".
Definition kFunctionKeysStandard := "Function Keys Standard".
Definition kFunctionKeysSpecial := "Function Keys Special".
Definition kSwapCapsLockLeftControl := "Swap capslock and left control".
Definition kSwapCommandOption := "Swap command and option".
Definition kMakeApplicationKeyRightWindows := "Make Application key into right windows".
Definition kMakeApplicationKeyAppleFN := "Make Application key into Apple Fn key".
Definition kMakeRightModsHangulHanja := "Make right modifier keys into Hangul and Hanja".
Definition kUseISOLayoutKeyboard := "Use ISO layout keyboard".
Definition kLogScanCodes := "LogScanCodes".
Definition kActionSwipeUp := "ActionSwipeUp".
Definition kActionSwipeDown := "ActionSwipeDown".
Definition kActionSwipeLeft := "ActionSwipeLeft".
Definition kActionSwipeRight := "ActionSwipeRight".
Definition kBrightnessHack := "BrightnessHack".
Definition kMacroInversion := "Macro Inversion".
Definition kMacroTranslation := "Macro Translation".
Definition kMaxMacroTime := "MaximumMacroTime".

Definition setProperty (key : string) (v : OSObject) : prog unit := kemit (KSetProperty key v).

(** A setting that is a number, respectively a boolean. *)
Definition with_number (dict : OSDict) (key : string) (act : Z -> prog unit) : prog unit :=
  match getObject key dict ≫= asNumber with Some n => act n | None => mret tt end.
Definition with_boolean (dict : OSDict) (key : string) (act : bool -> prog unit) : prog unit :=
  match getObject key dict ≫= asBoolean with
  | Some b => act b;; setProperty key (OSBoolean b)
  | None => mret tt
  end.

Definition actionSize : Z := 16.

(** One of the four swipe actions. *)
Definition with_action (dict : OSDict) (key : string) (get : ApplePS2Keyboard -> list Z)
  (put : list Z -> ApplePS2Keyboard -> ApplePS2Keyboard) : prog unit :=
  match getObject key dict ≫= asString with
  | None => mret tt
  | Some str =>
      dest ← getk get;
      '(_, dest) ← lift (parseAction str dest actionSize);
      setk (put dest);;
      setProperty key (OSString str)
  end.

Definition setTimes (dict : OSDict) : prog unit :=
  with_number dict kSleepPressTime (fun n =>
    setk (fun k => k <| _maxsleeppresstime := u32 n |>);; setProperty kSleepPressTime (OSNumber (u32 n)));;
  with_number dict kHIDF12EjectDelay (fun n =>
    setk (fun k => k <| _f12ejectdelay := u32 n |>);; setProperty kHIDF12EjectDelay (OSNumber (u32 n)));;
  with_number dict kMaxMacroTime (fun n =>
    setk (fun k => k <| _macroMaxTime := u64 n |>);; setProperty kMaxMacroTime (OSNumber (u64 n))).

Definition setFKeyMode (dict : OSDict) : prog unit :=
  k ← getk id;
  if _fkeymodesupported k then
    let oldfkeymode := _fkeymode k in
    with_number dict kHIDFKeyMode (fun n =>
      setk (fun k => k <| _fkeymode := u32 n |>);; setProperty kHIDFKeyMode (OSNumber (u32 n)));;
    k ← getk id;
    if negb (oldfkeymode =? _fkeymode k) then
      loadCustomPS2Map (if negb (_fkeymode k =? 0) then _keysStandard k else _keysSpecial k)
    else mret tt
  else mret tt.

Definition setSwaps (dict : OSDict) : prog unit :=
  with_boolean dict kSwapCapsLockLeftControl (fun b =>
    if b : bool then copy_adb 0x3a 0x1d;; copy_adb 0x1d 0x3a
    else copy_adb 0x3a 0x3a;; copy_adb 0x1d 0x1d);;
  with_boolean dict kSwapCommandOption (fun b =>
    setk (fun k => k <| _swapcommandoption := b |>);;
    if b : bool then copy_adb 0x38 0x15b;; copy_adb 0x15b 0x38;; copy_adb 0x138 0x15c;; copy_adb 0x15c 0x138
    else copy_adb 0x38 0x38;; copy_adb 0x15b 0x15b;; copy_adb 0x138 0x138;; copy_adb 0x15c 0x15c);;
  match getObject kBrightnessHack dict ≫= asBoolean with
  | Some true => setk (fun k => k <| _brightnessHack := true |>)
  | _ => mret tt
  end.

Definition setApplicationKey (dict : OSDict) : prog unit :=
  with_boolean dict kMakeApplicationKeyRightWindows (fun b =>
    if b : bool then swap ← getk _swapcommandoption; set_adb 0x15d (if swap : bool then 0x3d else 0x36)
    else copy_adb 0x15d 0x15d);;
  let temp := bool_decide (getObject kMakeApplicationKeyRightWindows dict ≫= asBoolean = Some true) in
  with_boolean dict kMakeApplicationKeyAppleFN (fun b =>
    if negb temp then (if b : bool then set_adb 0x15d 0x3f else copy_adb 0x15d 0x15d) else mret tt).

Definition setLayout (dict : OSDict) : prog unit :=
  with_boolean dict kMakeRightModsHangulHanja (fun b =>
    if b : bool then copy_adb 0x138 0xf2;; copy_adb 0x11d 0xf1
    else
      swap ← getk _swapcommandoption;
      (if swap : bool then copy_adb 0x138 0x15c else copy_adb 0x138 0x138);;
      copy_adb 0x11d 0x11d);;
  with_boolean dict kUseISOLayoutKeyboard (fun b =>
    if b : bool then copy_adb 0x29 0x56;; copy_adb 0x56 0x29
    else copy_adb 0x29 0x29;; copy_adb 0x56 0x56).

Definition setActions (dict : OSDict) : prog unit :=
  with_number dict kLogScanCodes (fun n =>
    setk (fun k => k <| _logscancodes := s32 (u32 n) |>);; setProperty kLogScanCodes (OSNumber n));;
  with_action dict kActionSwipeUp _actionSwipeUp (fun l k => k <| _actionSwipeUp := l |>);;
  with_action dict kActionSwipeDown _actionSwipeDown (fun l k => k <| _actionSwipeDown := l |>);;
  with_action dict kActionSwipeLeft _actionSwipeLeft (fun l k => k <| _actionSwipeLeft := l |>);;
  with_action dict kActionSwipeRight _actionSwipeRight (fun l k => k <| _actionSwipeRight := l |>).

Definition setParamPropertiesGated (dict : option OSDict) : prog unit :=
  match dict with
  | None => mret tt
  | Some dict =>
      setTimes dict;; setFKeyMode dict;; setSwaps dict;; setApplicationKey dict;; setLayout dict;;
      setActions dict
  end.

(** [deviceType]: the registry may override it. *)
Definition APPLEPS2KEYBOARD_DEVICE_TYPE : Z := 3.
Definition deviceType (alt_handler_id : option OSObject) : Z :=
  match alt_handler_id ≫= asNumber with Some n => u32 n | None => APPLEPS2KEYBOARD_DEVICE_TYPE end.

(** The two ways settings reach a started driver; nothing happens without the
    gate.  The first does not go through it. *)
Definition setParamProperties (dict : option OSDict) : prog unit :=
  g ← getk _cmdGate; when g (setParamPropertiesGated dict).
Definition setProperties (props : OSObject) : prog unit :=
  match asDict props with
  | Some dict => g ← getk _cmdGate; when g (setParamPropertiesGated (Some dict))
  | None => mret tt
  end.

(** ** Levels *)

(** [while (index < count) { if (levels[index] >= current) break; ++index; }];
    at most [n] further steps. *)
Fixpoint find_level (n : nat) (levels : list Z) (index count current : Z) : outcome Z :=
  if negb (index <? count) then Done index
  else match n with
       | O => NoFuel
       | S n => x ← aget levels index;
                if x >=? current then Done index else find_level n levels (index + 1) count current
       end.

(** The level a brightness key selects: the neighbour of the first level that
    is not below the current one, within the table from [first] on. *)
Definition step_level (levels : list Z) (count first current : Z) (up : bool) : outcome Z :=
  index ← find_level (Z.to_nat count) levels first count current;
  let index := index + (if up then 1 else -1) in
  let index := if index >=? count then count - 1 else index in
  let index := if index <? first then first else index in
  aget levels index.

Definition modifyScreenBrightness (adbKeyCode : Z) (goingDown : bool) : prog unit :=
  evs ← gets kevs;
  match evaluateInteger env evs "KBQC" with
  | None => mret tt
  | Some result =>
      k ← getk id;
      match _brightnessLevels k with
      | None => undef
      | Some levels =>
          level ← lift (step_level levels (_brightnessCount k) 2 (s32 (u32 result)) (adbKeyCode =? 0x90));
          when goingDown (kemit (KAcpi "KBCM" (u32 level)))
      end
  end.

Definition modifyKeyboardBacklight (keyCode : Z) (goingDown : bool) : prog unit :=
  evs ← gets kevs;
  match evaluateInteger env evs "KKQC" with
  | None => mret tt
  | Some result =>
      k ← getk id;
      match _backlightLevels k with
      | None => undef
      | Some levels =>
          level ← lift (step_level levels (_backlightCount k) 0 (s32 (u32 result)) (keyCode =? 0x4e));
          when goingDown (kemit (KAcpi "KKCM" (u32 level)))
      end
  end.

Definition onSleepEjectTimer : prog unit :=
  f ← getk _timerFunc;
  match f with
  | kTimerSleep => when (rootDomain env) (kemit KSleepNow)
  | kTimerEject => now_abs ← clock_get_uptime; dispatchKeyboardEventX 0x92 true now_abs
  end.

(** ** Dispatch of a packet *)

Definition set_adb_key (goingDown : bool) (now_abs key : Z) : prog unit :=
  isdown ← KBV_IS_KEYDOWN key;
  if isdown : bool then
    m ← getk _PS2ToADBMap; v ← lift (aget m key); dispatchKeyboardEventX v goingDown now_abs
  else mret tt.

(** The name of the ACPI method for codes e0f0 to e0ff: RKA0 to RKAF. *)
Definition rka_digit (n : Z) : ascii := ascii_of_N (Z.to_N (if n <? 10 then n + 48 else n - 10 + 65)).
Definition rka_method (keyCode : Z) : string :=
  String.append "RKA" (String.String (rka_digit (keyCode - 0x01f0)) String.EmptyString).

(** Case 0x0127, reached by fall through from 0x0137 as well. *)
Definition toggle_fkeymode (goingDown : bool) : prog Z :=
  k ← getk id;
  when (goingDown && _fkeymodesupported k && hidSystem env)
    (kemit (KSetFKeyMode (if _fkeymode k =? 0 then 1 else 0)));;
  mret 0.

(** The [switch (keyCode)] of [dispatchKeyboardEventWithPacket]: the key code
    that remains to be dispatched, 0 for none. *)
Definition special_keyCode (keyCode : Z) (goingDown : bool) (now_abs : Z) : prog Z :=
  if (keyCode =? 0x4e) || (keyCode =? 0x4a) then
    k ← getk id;
    ctrl_alt ← checkModifierState (Z.lor kMaskLeftControl kMaskLeftAlt);
    ctrl_shift ← checkModifierState (Z.lor kMaskLeftControl kMaskLeftShift);
    if bool_decide (is_Some (_backlightLevels k)) && ctrl_alt then
      modifyKeyboardBacklight keyCode goingDown;; mret 0
    else if _brightnessHack k && ctrl_shift then
      win ← checkModifierState kMaskLeftWindows;
      let keys := if win : bool then [0x1d] else [0x2a; 0x1d] in
      forM_ keys (set_adb_key false now_abs);;
      dispatchKeyboardEventX (if keyCode =? 0x4e then 0x90 else 0x91) goingDown now_abs;;
      forM_ keys (set_adb_key true now_abs);;
      mret 0
    else mret keyCode
  else if keyCode =? 0x0153 then
    ctrl_alt ← checkModifierState (Z.lor kMaskLeftControl kMaskLeftAlt);
    if ctrl_alt : bool then
      (if negb goingDown then
         dispatchKeyboardEventX 0x37 false now_abs;;
         dispatchKeyboardEventX 0x3b false now_abs;;
         dispatchKeyboardEventX 0x7f true now_abs;;
         dispatchKeyboardEventX 0x7f false now_abs
       else mret tt);;
      mret 0
    else mret keyCode
  else if keyCode =? 0x015f then
    k ← getk id;
    (if goingDown then
       setk (fun k => k <| _timerFunc := kTimerSleep |>);;
       if negb (_fkeymode k =? 0) || (_maxsleeppresstime k =? 0) then onSleepEjectTimer
       else setTimerTimeout TSleepEject (_maxsleeppresstime k * 1000000)
     else cancelTimer TSleepEject);;
    mret 0
  else if (keyCode =? 0x0128) || (keyCode =? 0x0137) then
    if negb goingDown then mret 0
    else
      ctrl ← checkModifierState kMaskLeftControl;
      if negb ctrl then
        enabled ← dispatchMessage kPS2M_getDisableTouchpad (PBool (stack_bool env));
        match enabled with
        | PBool e => dispatchMessage kPS2M_setDisableTouchpad (PBool (negb e));; mret 0
        | _ => undef
        end
      else if negb (keyCode =? 0x0137) then mret 0
      else toggle_fkeymode goingDown
  else if keyCode =? 0x0127 then toggle_fkeymode goingDown
  else mret keyCode.

(** The [switch (adbKeyCode)]: the ADB code that remains and [eatKey]. *)
Definition special_adb (adbKeyCode : Z) (goingDown : bool) : prog (Z * bool) :=
  k ← getk id;
  if (adbKeyCode =? 0x90) || (adbKeyCode =? 0x91) then
    if bool_decide (is_Some (_brightnessLevels k)) then
      modifyScreenBrightness adbKeyCode goingDown;; mret (DEADKEY, false)
    else mret (adbKeyCode, false)
  else if adbKeyCode =? 0x92 then
    if _PS2modifierState k =? 0 then
      if goingDown then
        setk (fun k => k <| _timerFunc := kTimerEject |>);;
        (if _f12ejectdelay k =? 0 then onSleepEjectTimer
         else setTimerTimeout TSleepEject (_f12ejectdelay k * 1000000));;
        mret (adbKeyCode, true)
      else cancelTimer TSleepEject;; mret (adbKeyCode, false)
    else mret (adbKeyCode, false)
  else mret (adbKeyCode, false).

(** Press and release, each with a time stamp of its own. *)
Definition dispatch_click (adb : Z) : prog unit :=
  now_abs ← clock_get_uptime;
  dispatchKeyboardEventX adb true now_abs;;
  now_abs ← clock_get_uptime;
  dispatchKeyboardEventX adb false now_abs.

(** The tail of [dispatchKeyboardEventWithPacket], once the key codes are known. *)
Definition dispatch_key (keyCodeRaw keyCode : Z) (goingDown : bool) (now_abs now_ns : Z) : prog bool :=
  m ← getk _PS2ToADBMap;
  adbKeyCode ← lift (aget m keyCode);
  '(adbKeyCode, eat) ← special_adb adbKeyCode goingDown;
  info ← dispatchMessage kPS2M_notifyKeyPressed (PKeyInfo (mkKeyInfo now_ns adbKeyCode goingDown eat));
  if (adbKeyCode =? 0x39) && (version_major env >=? 16) then
    (if goingDown then
       first ← getk firsttime;
       dispatch_click adbKeyCode;;
       when (negb first) (dispatch_click adbKeyCode);;
       setk (fun k => k <| firsttime := false |>)
     else mret tt);;
    mret true
  else
    match info with
    | PKeyInfo info =>
        (if negb (keyCode =? 0) && negb (eatKey info) then
           flags ← getk _PS2flags;
           f ← lift (aget flags keyCodeRaw);
           let breakless := anyset f kBreaklessKey in
           when (goingDown || negb breakless) (dispatchKeyboardEventX adbKeyCode goingDown now_abs);;
           when (goingDown && breakless) (dispatchKeyboardEventX adbKeyCode false now_abs)
         else mret tt);;
        mret true
    | _ => undef
    end.

Definition track_modifier (keyCodeRaw : Z) (goingDown : bool) : prog unit :=
  flags ← getk _PS2flags;
  f ← lift (aget flags keyCodeRaw);
  let bit := u8 (Z.shiftr f 8) in
  if negb (bit =? 0) then
    let mask := u16 (Z.shiftl 1 (bit - 1)) in
    setk (fun k => k <| _PS2modifierState :=
      if goingDown then Z.lor (_PS2modifierState k) mask else clear (_PS2modifierState k) mask |>)
  else mret tt.

Definition dispatchKeyboardEventWithPacket (packet : list Z) : prog bool :=
  p0 ← lift (aget packet 0);
  scanCode ← lift (aget packet 1);
  let extended := u8 (p0 - 1) in
  let keyCodeRaw := clear scanCode kSC_UpBit in
  let goingDown := negb (anyset scanCode kSC_UpBit) in
  now_abs ← lift (read_time packet kPacketTimeOffset);
  let now_ns := absolutetime_to_nanoseconds env now_abs in
  map ← getk _PS2ToPS2Map;
  if (extended =? 0) && ((scanCode =? 0xf2) || (scanCode =? 0xf1)) then
    m ← getk _PS2ToADBMap;
    adb ← lift (aget m scanCode);
    dispatch_click adb;;
    mret true
  else
    let keyCodeRaw := if extended =? 0 then keyCodeRaw else keyCodeRaw + KBV_NUM_SCANCODES in
    keyCode ← lift (aget map keyCodeRaw);
    if negb (extended =? 0) && (keyCodeRaw =? 0x012a) then mret false
    else
      track_modifier keyCodeRaw goingDown;;
      prov ← getk _provider;
      when ((0x01f0 <=? keyCode) && (keyCode <=? 0x01ff) && prov)
        (kemit (KAcpi (rka_method keyCode) (if goingDown then 1 else 0)));;
      keyCode ← special_keyCode keyCode goingDown now_abs;
      dispatch_key keyCodeRaw keyCode goingDown now_abs now_ns.

(** ** Macro inversion *)

Definition compareMacro_at (buffer data : list Z) (i : Z) : outcome bool :=
  b0 ← aget buffer (i * kPacketLength);
  d0 ← aget data (kSequenceBytesOffset + i * kPacketKeyDataLength);
  if negb (b0 =? d0) then Done false
  else
    b1 ← aget buffer (i * kPacketLength + 1);
    d1 ← aget data (kSequenceBytesOffset + i * kPacketKeyDataLength + 1);
    Done (b1 =? d1).

(** [compareMacro(buffer, data + kSequenceBytesOffset, count)], from packet [i]. *)
Fixpoint compareMacro (buffer data : list Z) (i : Z) (count : nat) : outcome bool :=
  match count with
  | O => Done true
  | S count =>
      same ← compareMacro_at buffer data i;
      if same : bool then compareMacro buffer data (i + 1) count else Done false
  end.

(** [memcpy(buffer + off, vs, length vs)] *)
Definition memcpy (buffer : list Z) (off : Z) (vs : list Z) : outcome (list Z) :=
  if (off <? 0) || (Z.of_nat (length buffer) <? off + Z.of_nat (length vs)) then Undef
  else Done (splice buffer (Z.to_nat off) vs).

Definition macro_buffer : prog (list Z) :=
  b ← getk _macroBuffer; match b with Some b => mret b | None => undef end.

Fixpoint dispatch_buffer (n : nat) (buffer : list Z) : prog unit :=
  match n with
  | O => mret tt
  | S n => dispatchKeyboardEventWithPacket buffer;; dispatch_buffer n (drop (Z.to_nat kPacketLength) buffer)
  end.

Definition dispatchInvertBuffer : prog unit :=
  buffer ← macro_buffer;
  current ← getk _macroCurrent;
  dispatch_buffer (Z.to_nat current) buffer;;
  setk (fun k => k <| _macroCurrent := 0 |>);;
  cancelTimer TMacro.

(** [now_ns - prev > _macroMaxTime], with [prev] the time stamp of the last
    buffered packet; unsigned 64-bit arithmetic. *)
Definition macro_too_late (now_abs : Z) : prog bool :=
  buffer ← macro_buffer;
  k ← getk id;
  prev ← lift (read_time buffer ((_macroCurrent k - 1) * kPacketLength + kPacketTimeOffset));
  mret (u64 (absolutetime_to_nanoseconds env now_abs - absolutetime_to_nanoseconds env prev) >? _macroMaxTime k).

(** Do the modifiers held satisfy the macro's mask and comparison? *)
Definition macro_modifiers (data : list Z) (mods : Z) : outcome bool :=
  m0 ← aget data kModifierBytesOffset;
  m1 ← aget data (kModifierBytesOffset + 1);
  c0 ← aget data (kModifierBytesOffset + 2);
  c1 ← aget data (kModifierBytesOffset + 3);
  let mask := u16 (Z.shiftl m0 8 + m1) in
  let compare := u16 (Z.shiftl c0 8 + c1) in
  Done (((0xFFFF =? compare) && anyset mods mask) || (Z.land mods mask =? compare)).

(** The loop over [_macroInversion] in [invertMacros]. *)
Fixpoint match_macros (ms : list (list Z)) (buffered : Z) : prog bool :=
  match ms with
  | [] => mret false
  | data :: ms =>
      let length := Z.of_nat (length data) - kPrefixBytes in
      let total := buffered * kPacketKeyDataLength in
      if negb (total <=? length) then match_macros ms buffered
      else
        buffer ← macro_buffer;
        same ← lift (compareMacro buffer data 0 (Z.to_nat buffered));
        if negb same then match_macros ms buffered
        else if total =? length then
          mods ← getk _PS2modifierState;
          ok ← lift (macro_modifiers data mods);
          if negb ok then match_macros ms buffered
          else
            o0 ← lift (aget data kOutputBytesOffset);
            o1 ← lift (aget data (kOutputBytesOffset + 1));
            buffer ← lift (aset buffer 0 o0);
            buffer ← lift (aset buffer 1 o1);
            setk (fun k => k <| _macroBuffer := Some buffer |>);;
            dispatchKeyboardEventWithPacket buffer;;
            cancelTimer TMacro;;
            setk (fun k => k <| _macroCurrent := 0 |>);;
            mret true
        else
          t ← getk _macroMaxTime;
          cancelTimer TMacro;;
          setTimerTimeout TMacro t;;
          setk (fun k => k <| _macroCurrent := s32 (_macroCurrent k + 1) |>);;
          mret true
  end.

Definition invertMacros (packet : list Z) : prog bool :=
  k ← getk id;
  match _macroInversion k with
  | None => undef
  | Some macros =>
      if negb (_macroTimer k) || bool_decide (_macroBuffer k = None) then mret false
      else
        (if _macroCurrent k >? 0 then
           now ← lift (read_time packet kPacketTimeOffset);
           late ← macro_too_late now;
           if late : bool then dispatchInvertBuffer else mret tt
         else mret tt);;
        buffer ← macro_buffer;
        current ← getk _macroCurrent;
        buffer ← lift (memcpy buffer (current * kPacketLength) packet);
        setk (fun k => k <| _macroBuffer := Some buffer |>);;
        done ← match_macros macros (current + 1);
        if done : bool then mret true
        else
          current ← getk _macroCurrent;
          (if current >? 0 then dispatchInvertBuffer else mret tt);;
          mret false
  end.

(** [if (!_macroInversion || !invertMacros(packet)) dispatchKeyboardEventWithPacket(packet);] *)
Definition invert_or_dispatch (packet : list Z) : prog unit :=
  inv ← getk _macroInversion;
  eaten ← (if bool_decide (is_Some inv) then invertMacros packet else mret false);
  if eaten : bool then mret tt
  else dispatchKeyboardEventWithPacket packet;; mret tt.

(** ** Interrupt time *)

(** Size of [_ringBuffer], 32 packets. *)
Definition ringSize : Z := kPacketLength * 32.

(** The writes that make a packet at [head()]. *)
Definition packet_writes (p0 p1 time : Z) : list (Z * Z) :=
  (0, p0) :: (1, p1) ::
  zip (Z.of_nat <$> seq (Z.to_nat kPacketTimeOffset) 8) (time_bytes time).

(** [packet[0] = p0; packet[1] = p1; clock_get_uptime(...);
    _ringBuffer.advanceHead(kPacketLength);] *)
Definition push_packet (p0 p1 : Z) : prog unit :=
  time ← clock_get_uptime;
  rb ← getk _ringBuffer;
  rb ← lift (head_writes rb (packet_writes p0 p1 time));
  setk (fun k => k <| _ringBuffer := advanceHead ringSize rb kPacketLength |>).

(** The key bit vector's part of [interruptOccurred]: true for a repeated make. *)
Definition note_key (k : ApplePS2Keyboard) (keyCodeRaw data : Z) : prog bool :=
  f ← lift (aget (_PS2flags k) keyCodeRaw);
  if negb (anyset f kBreaklessKey) then
    if negb (anyset data kSC_UpBit) then
      isdown ← KBV_IS_KEYDOWN keyCodeRaw;
      if isdown : bool then mret true else KBV_KEYDOWN keyCodeRaw;; mret false
    else KBV_KEYUP keyCodeRaw;; mret false
  else mret false.

Definition interruptOccurred (data : Z) : prog PS2InterruptResult :=
  k ← getk id;
  if (kSC_Reset =? _lastdata k) && (data =? 0x00) then
    push_packet 0x00 kSC_Reset;;
    setk (fun k => k <| _extendCount := 0 |>);;
    mret kPS2IR_packetReady
  else
    setk (fun k => k <| _lastdata := data |>);;
    if (kSC_Acknowledge =? data) || (kSC_Resend =? data) then mret kPS2IR_packetBuffering
    else if data =? kSC_Extend then
      setk (fun k => k <| _extendCount := 1 |>);; mret kPS2IR_packetBuffering
    else if data =? kSC_Pause then
      setk (fun k => k <| _extendCount := 2 |>);; mret kPS2IR_packetBuffering
    else
      let extended := _extendCount k in
      (if negb (extended =? 0) then setk (fun k => k <| _extendCount := u8 (extended - 1) |>) else mret tt);;
      if (extended =? 0) || (u8 (extended - 1) =? 0) then
        let keyCodeRaw := Z.lor (Z.shiftl extended 8) (clear data kSC_UpBit) in
        repeat ← note_key k keyCodeRaw data;
        if repeat : bool then mret kPS2IR_packetBuffering
        else
          push_packet (u8 (extended + 1)) data;;
          mret kPS2IR_packetReady
      else mret kPS2IR_packetBuffering.

(** [while (_ringBuffer.count() >= kPacketLength)]; at most [n] packets. *)
Fixpoint packetReady_loop (n : nat) : prog unit :=
  rb ← getk _ringBuffer;
  if count ringSize rb >=? kPacketLength then
    match n with
    | O => nofuel
    | S n =>
        packet ← lift (tail_read rb 0 (Z.to_nat kPacketLength));
        p0 ← lift (aget packet 0);
        (if negb (p0 =? 0) then invert_or_dispatch packet else mret tt);;
        setk (fun k => k <| _ringBuffer := advanceTail ringSize (_ringBuffer k) kPacketLength |>);;
        packetReady_loop n
    end
  else mret tt.

(** A ring of 32 packets holds at most 31. *)
Definition packetReady : prog unit := packetReady_loop 32.

Definition onMacroTimer : prog unit :=
  packetReady;;
  current ← getk _macroCurrent;
  if current >? 0 then
    now_abs ← clock_get_uptime;
    late ← macro_too_late now_abs;
    if late : bool then dispatchInvertBuffer else mret tt
  else mret tt.

(** ** Swipes and ACPI notifications *)

(** [for (; *pKeys; ++pKeys)]: reading past the array is undefined. *)
Fixpoint sendKeySequence (pKeys : list Z) : prog unit :=
  match pKeys with
  | [] => undef
  | key :: rest =>
      if key =? 0 then mret tt
      else
        now_abs ← clock_get_uptime;
        dispatchKeyboardEventX (Z.land key 0xFF) (negb (anyset key 0x1000)) now_abs;;
        sendKeySequence rest
  end.

(** A packet on the stack; the six bytes in the middle are never read. *)
Definition stack_packet (p0 p1 time : Z) : list Z :=
  [p0; p1] ++ replicate 6 0 ++ time_bytes time.

Inductive KbdMessage :=
| MsgSwipeDown
| MsgSwipeLeft
| MsgSwipeRight
| MsgSwipeUp
| MsgACPINotification (arg : option Z)      (* kIOACPIMessageDeviceNotification *)
| MsgOther.

Definition message (m : KbdMessage) : prog unit :=
  match m with
  | MsgSwipeDown => a ← getk _actionSwipeDown; sendKeySequence a
  | MsgSwipeLeft => a ← getk _actionSwipeLeft; sendKeySequence a
  | MsgSwipeRight => a ← getk _actionSwipeRight; sendKeySequence a
  | MsgSwipeUp => a ← getk _actionSwipeUp; sendKeySequence a
  | MsgACPINotification None | MsgOther => mret tt
  | MsgACPINotification (Some arg) =>
      if anyset arg 0xFFFF0000 then mret tt
      else
        let p0 := u8 (Z.shiftr arg 8) in
        let p1 := u8 arg in
        if (p0 =? 1) || (p0 =? 2) then
          now ← clock_get_uptime;
          invert_or_dispatch (stack_packet p0 p1 now)
        else if (p0 =? 3) || (p0 =? 4) then
          now ← clock_get_uptime;
          invert_or_dispatch (stack_packet (p0 - 2) p1 now);;
          now ← clock_get_uptime;
          invert_or_dispatch (stack_packet (p0 - 2) (Z.lor p1 0x80) now)
        else mret tt
  end.

(** ** Requests to the device *)

Definition led_request (ledState : Z) : PS2Request :=
  heap_request [cmd kPS2C_WriteDataPort kDP_SetKeyboardLEDs;
                cmd kPS2C_ReadDataPortAndCompare kSC_Acknowledge;
                cmd kPS2C_WriteDataPort ledState;
                cmd kPS2C_ReadDataPortAndCompare kSC_Acknowledge].

Definition setLEDs (ledState : Z) : prog unit := kemit (KSubmit (led_request ledState)).

Definition setAlphaLockFeedback (locked : bool) : prog unit :=
  setk (fun k => k <| _ledState := if locked then Z.lor (_ledState k) kLED_CapsLock
                                   else clear (_ledState k) kLED_CapsLock |>);;
  s ← getk _ledState; setLEDs s.

Definition setNumLockFeedback (locked : bool) : prog unit :=
  setk (fun k => k <| _ledState := if locked then Z.lor (_ledState k) kLED_NumLock
                                   else clear (_ledState k) kLED_NumLock |>);;
  s ← getk _ledState; setLEDs s.

Definition enable_request (enable : bool) : PS2Request :=
  stack_request [cmd kPS2C_WriteDataPort (if enable then kDP_Enable else kDP_SetDefaultsAndDisable);
                 cmd kPS2C_ReadDataPortAndCompare kSC_Acknowledge].

Definition setKeyboardEnable (enable : bool) : prog unit := kemit (KSubmitBlock (enable_request enable)).

Definition defaults_request : PS2Request :=
  stack_request [cmd kPS2C_WriteDataPort kDP_SetDefaults;
                 cmd kPS2C_ReadDataPortAndCompare kSC_Acknowledge].

(** A key-up for every key that is down; the time stamp of the packet is not
    initialised. *)
Definition release_key (scanCode : Z) : prog unit :=
  isdown ← KBV_IS_KEYDOWN scanCode;
  if isdown : bool then
    dispatchKeyboardEventWithPacket
      (stack_packet (if scanCode <? KBV_NUM_SCANCODES then 1 else 2) (u8 (Z.lor scanCode kSC_UpBit))
         (u64 (stack_time env)));;
    mret tt
  else mret tt.

Definition initKeyboard : prog unit :=
  kemit (KSubmitBlock defaults_request);;
  forM_ (Z.of_nat <$> seq 0 (Z.to_nat KBV_NUM_KEYCODES)) release_key;;
  setk (fun k => k <| _keyBitVector := replicate (Z.to_nat KBV_NUNITS) 0 |> <| _PS2modifierState := 0 |>);;
  s ← getk _ledState;
  setLEDs s;;
  setk (fun k => k <| _extendCount := 0 |> <| _ringBuffer := reset (_ringBuffer k) |>);;
  setKeyboardEnable true;;
  kemit (KSetCommandByte kCB_TranslateMode 0).

Definition setDevicePowerState (whatToDo : Z) : prog unit :=
  if whatToDo =? kPS2C_DisableDevice then setKeyboardEnable false
  else if whatToDo =? kPS2C_EnableDevice then initKeyboard
  else mret tt.

(** ** Life cycle *)

(** The largest sequence of the macros, in bytes. *)
Definition macro_max (ms : list (list Z)) : Z :=
  fold_left (fun max m => Z.max max (Z.of_nat (length m) - kPrefixBytes)) ms 0.

(** [probe], given the configuration of the "Keyboard" section; false when the
    device is disabled by configuration. *)
Definition probe (config : option OSDict) : prog bool :=
  if bool_decide ((d ← config; getObject "DisableDevice" d ≫= asBoolean) = Some true) then mret false
  else
    match config with
    | None => mret tt
    | Some config =>
        loadCustomPS2Map (getObject "Custom PS2 Map" config ≫= asArray);;
        loadBreaklessPS2 config "Breakless PS2";;
        loadCustomADBMap config "Custom ADB Map";;
        match getObject kFunctionKeysStandard config ≫= asArray,
              getObject kFunctionKeysSpecial config ≫= asArray with
        | Some std, Some spec =>
            setk (fun k => k <| _keysStandard := Some std |> <| _keysSpecial := Some spec |>
                             <| _fkeymodesupported := true |>);;
            setProperty kHIDFKeyMode (OSNumber 0);;
            loadCustomPS2Map (Some spec)
        | _, _ =>
            setk (fun k => k <| _keysStandard := None |> <| _keysSpecial := None |>
                             <| _fkeymodesupported := false |>)
        end;;
        setk (fun k => k <| _macroTranslation := loadMacroData config kMacroTranslation |>
                         <| _macroInversion := loadMacroData config kMacroInversion |>);;
        match loadMacroData config kMacroInversion with
        | Some ms =>
            setk (fun k => k <| _macroBuffer := Some (replicate (Z.to_nat (macro_max ms * kPacketLength)) 0) |>
                             <| _macroMax := macro_max ms |>)
        | None => mret tt
        end
    end;;
    setk (fun k => k <| _PS2ToADBMap := _PS2ToADBMapMapped k |>);;
    setParamPropertiesGated config;;
    mret true.

(** The levels an ACPI package lists, at least [min] of them. *)
Definition read_levels (min : Z) (o : option OSObject) : option (list Z) :=
  array ← o ≫= asArray;
  if Z.of_nat (length array) <? min then None
  else Some ((fun x => match asNumber x with Some n => s32 (u32 n) | None => 0 end) <$> array).

Definition has_methods (l : list string) : bool := forallb (validateObject env) l.

(** The ACPI levels for the brightness and the backlight keys. *)
Definition start_levels : prog unit :=
  (if has_PS2K env && has_methods ["KBCL"; "KBCM"; "KBQC"] then
     match read_levels 4 (evaluateLevels env "KBCL") with
     | Some l => setk (fun k => k <| _brightnessLevels := Some l |> <| _brightnessCount := Z.of_nat (length l) |>)
     | None => mret tt
     end
   else mret tt);;
  (if has_PS2K env && has_methods ["KKCL"; "KKCM"; "KKQC"] then
     match read_levels 2 (evaluateLevels env "KKCL") with
     | Some l => setk (fun k => k <| _backlightLevels := Some l |> <| _backlightCount := Z.of_nat (length l) |>)
     | None => mret tt
     end
   else mret tt).

Definition start : prog bool :=
  setProperty "RM,deliverNotifications" (OSBoolean true);;
  setk (fun k => k <| _device := true |> <| _cmdGate := alloc_gate env |>);;
  if negb (getWorkLoop env) || negb (alloc_gate env) then
    setk (fun k => k <| _device := false |>);; mret false
  else if negb (alloc_sleep_timer env) then
    setk (fun k => k <| _sleepEjectTimer := false |> <| _cmdGate := false |> <| _device := false |>);; mret false
  else
    setk (fun k => k <| _sleepEjectTimer := true |> <| _macroTimer := alloc_macro_timer env |>
                     <| _provider := has_PS2K env |>);;
    start_levels;;
    initKeyboard;;
    kemit KInstallInterruptAction;;
    setk (fun k => k <| _interruptHandlerInstalled := true |>);;
    kemit KInstallPowerControlAction;;
    setk (fun k => k <| _powerControlHandlerInstalled := true |>);;
    mret true.

Definition stop : prog unit :=
  setKeyboardEnable false;;
  when (getWorkLoop env)
    (setk (fun k => k <| _cmdGate := false |> <| _sleepEjectTimer := false |> <| _macroTimer := false |>));;
  k ← getk id;
  when (_interruptHandlerInstalled k) (kemit KUninstallInterruptAction);;
  setk (fun k => k <| _interruptHandlerInstalled := false |>);;
  when (_powerControlHandlerInstalled k) (kemit KUninstallPowerControlAction);;
  setk (fun k => k <| _powerControlHandlerInstalled := false |>
                   <| _device := false |> <| _provider := false |>
                   <| _brightnessLevels := None |> <| _backlightLevels := None |>
                   <| _keysStandard := None |> <| _keysSpecial := None |>
                   <| _macroInversion := None |> <| _macroTranslation := None |> <| _macroBuffer := None |>).
End keyboard.

(** [init]; IOKit hands out zeroed memory for what it does not set. *)
Definition default_action (s : string) : list Z :=
  match parseAction s (replicate (Z.to_nat actionSize) 0) actionSize with Done (_, l) => l | _ => [] end.

Definition init : ApplePS2Keyboard := {|
  _device := false;
  _keyBitVector := replicate (Z.to_nat KBV_NUNITS) 0;
  _extendCount := 0;
  _ringBuffer := mkRB (replicate (Z.to_nat ringSize) 0) 0 0;
  _lastdata := 0;
  _interruptHandlerInstalled := false; _powerControlHandlerInstalled := false;
  _ledState := 0; _cmdGate := false; _PS2modifierState := 0;
  _PS2ToPS2Map := Z.of_nat <$> seq 0 512;
  _PS2flags := _PS2flagsStock;
  _PS2ToADBMap := replicate 512 0;
  _PS2ToADBMapMapped := PS2ToADBMapStock;
  _fkeymode := 0; _fkeymodesupported := false; _keysStandard := None; _keysSpecial := None;
  _swapcommandoption := false; _logscancodes := 0; _f12ejectdelay := 250;
  _timerFunc := kTimerSleep; _sleepEjectTimer := false; _maxsleeppresstime := 0;
  _actionSwipeUp := default_action "3b d, 37 d, 7e d, 7e u, 37 u, 3b u";
  _actionSwipeDown := default_action "3b d, 37 d, 7d d, 7d u, 37 u, 3b u";
  _actionSwipeLeft := default_action "3b d, 37 d, 7b d, 7b u, 37 u, 3b u";
  _actionSwipeRight := default_action "3b d, 37 d, 7c d, 7c u, 37 u, 3b u";
  _provider := false; _brightnessLevels := None; _brightnessCount := 0;
  _backlightLevels := None; _backlightCount := 0; _brightnessHack := false;
  _macroTranslation := None; _macroInversion := None; _macroBuffer := None;
  _macroMax := 0; _macroCurrent := 0; _macroMaxTime := 25000000; _macroTimer := false;
  firsttime := true;
|}.
