(* ===== verification/KeyboardSpec.v ===== *)
(** * KeyboardSpec: what the keyboard driver guarantees

    [kb_wf] is the invariant of the driver's state: sizes of its tables, ranges
    of their entries, alignment of the ring buffer, terminated swipe actions,
    room in the macro buffer.  Every entry point is defined and keeps it,
    whatever bytes, configuration, clock and ACPI results it meets.  Then the
    behaviour: the scan code decoder against an abstract one, remapping,
    release of the keys that were down, macro inversion, levels. *)

From S2P Require Import Prelude RingBuffer PS2Defs Controller Config KeyMaps Keyboard.
From Stdlib Require Import Ascii.
From Stdlib Require String.

#[local] Open Scope string_scope.
#[local] Open Scope list_scope.
#[local] Open Scope Z_scope.

(** ** The invariant *)

(** A swipe action: sixteen codes, one of them the terminator. *)
Definition action_ok (l : list Z) : Prop := length l = 16%nat /\ 0 ∈ l.

Definition levels_ok (levels : option (list Z)) (count min : Z) : Prop :=
  match levels with Some l => Z.of_nat (length l) = count /\ min <= count < 2147483648 | None => True end.

Definition macro_ok (d : list Z) : Prop := valid_macro d = true /\ Forall is_u8 d.

Record kb_wf (k : ApplePS2Keyboard) : Prop := {
  kw_bits : length (_keyBitVector k) = 16%nat;
  kw_ext : 0 <= _extendCount k <= 2;
  kw_ring : aligned ringSize kPacketLength (_ringBuffer k);
  kw_ring8 : Forall is_u8 (m_buffer (_ringBuffer k));
  kw_map : length (_PS2ToPS2Map k) = 512%nat;
  kw_map_range : Forall (fun x => 0 <= x < 512) (_PS2ToPS2Map k);
  kw_flags : length (_PS2flags k) = 512%nat;
  kw_adb : length (_PS2ToADBMap k) = 512%nat;
  kw_adbm : length (_PS2ToADBMapMapped k) = 512%nat;
  kw_up : action_ok (_actionSwipeUp k);
  kw_down : action_ok (_actionSwipeDown k);
  kw_left : action_ok (_actionSwipeLeft k);
  kw_right : action_ok (_actionSwipeRight k);
  kw_bright : levels_ok (_brightnessLevels k) (_brightnessCount k) 3;
  kw_back : levels_ok (_backlightLevels k) (_backlightCount k) 1;
  kw_macros : match _macroInversion k with Some ms => Forall macro_ok ms | None => True end;
  kw_current : 0 <= _macroCurrent k;
  kw_buffer : match _macroInversion k, _macroBuffer k with
              | Some ms, Some b =>
                  Z.of_nat (length b) = macro_max ms * kPacketLength /\ Forall is_u8 b /\
                  2 * _macroCurrent k < macro_max ms /\ macro_max ms < 134217728
              | _, _ => _macroCurrent k = 0
              end;
}.

(** ** What dispatching a packet may change *)

Record dframe (w w' : KWorld) : Prop := {
  df_kbd : exists m t f, kbd w' = (kbd w) <| _PS2modifierState := m |> <| _timerFunc := t |> <| firsttime := f |>;
  df_ticks : (ticks w <= ticks w')%nat;
  df_evs : exists l, kevs w' = kevs w ++ l;
}.

Lemma df_same k : exists m t f, k = k <| _PS2modifierState := m |> <| _timerFunc := t |> <| firsttime := f |>.
Proof. exists (_PS2modifierState k), (_timerFunc k), (firsttime k). by destruct k. Qed.

Ltac df_fields k := match goal with |- exists m t f, ?x = _ =>
  exists (_PS2modifierState x), (_timerFunc x), (firsttime x); by destruct k end.

#[export] Instance dframe_preorder : PreOrder dframe.
Proof.
  split.
  - intros w. split; [apply df_same|done|exists []; by rewrite app_nil_r].
  - intros w1 w2 w3 [(m1 & t1 & f1 & E1) T1 (l1 & L1)] [(m2 & t2 & f2 & E2) T2 (l2 & L2)].
    split; [exists m2, t2, f2; rewrite E2, E1; by destruct (kbd w1)|lia|exists (l1 ++ l2)].
    by rewrite L2, L1, app_assoc.
Qed.

Definition inv (w : KWorld) : Prop := kb_wf (kbd w).

Lemma dframe_inv w w' : dframe w w' -> inv w -> inv w'.
Proof.
  intros [(m & t & f & E) _ _]. unfold inv. rewrite E. intros []. by split.
Qed.

(** Only the modifiers, the timer function or the caps lock flag, the clock and
    the trace changed. *)
Lemma dframe_set w f : (exists m t b, f (kbd w) = (kbd w) <| _PS2modifierState := m |> <| _timerFunc := t |> <| firsttime := b |>) ->
  dframe w (w <| kbd := f (kbd w) |>).
Proof. intros Hf. split; [exact Hf|done|exists []; by rewrite app_nil_r]. Qed.
Lemma dframe_emit w e : dframe w (w <| kevs := kevs w ++ [e] |>).
Proof.
  split; [apply df_same|done|by eexists].
Qed.

(** ** Levels *)

(** [i] is the first index from [first] on whose level is not below [current]. *)
Definition first_level (levels : list Z) (first count current i : Z) : Prop :=
  first <= i <= count /\
  (forall j x, first <= j < i -> levels !! Z.to_nat j = Some x -> x < current) /\
  (forall x, i < count -> levels !! Z.to_nat i = Some x -> current <= x).

Lemma find_level_ok n levels index count current :
  0 <= index <= count -> Z.of_nat (length levels) = count -> count - index <= Z.of_nat n ->
  exists i, find_level n levels index count current = Done i /\ first_level levels index count current i.
Proof.
  revert index. induction n as [|n IH]; intros index Hi Hl Hn; cbn [find_level].
  - exists index. rewrite (proj2 (Z.ltb_ge index count)) by lia. split; [done|].
    split; [lia|]. split; [intros; lia|intros; lia].
  - destruct (Z.ltb_spec index count) as [Hlt|Hge]; simpl.
    + destruct (aget_ok levels index) as (x & E & Hx); [lia|]. rewrite E. cbn [mbind outcome_bind].
      destruct (x >=? current) eqn:Ex.
      * exists index. split; [done|]. split; [lia|]. split; [intros; lia|]. intros y _ Hy.
        assert (y = x) as -> by congruence. lia.
      * destruct (IH (index + 1)) as (i & Ei & Hr & Hlow & Hhigh); [lia|done|lia|].
        exists i. split; [done|]. split; [lia|]. split; [|done]. intros j y Hj Hy.
        destruct (decide (j = index)) as [->|]; [|apply (Hlow j y); [lia|done]].
        assert (y = x) as -> by congruence. lia.
    + exists index. split; [done|]. split; [lia|]. split; [intros; lia|intros; lia].
Qed.

(** The index the brightness keys move to. *)
Definition next_index (first count i : Z) (up : bool) : Z :=
  Z.max first (Z.min (count - 1) (i + (if up then 1 else -1))).

Lemma step_level_ok levels count first current up :
  0 <= first < count -> Z.of_nat (length levels) = count ->
  exists i v, first_level levels first count current i /\
    step_level levels count first current up = Done v /\
    levels !! Z.to_nat (next_index first count i up) = Some v.
Proof.
  intros Hf Hl. unfold step_level.
  destruct (find_level_ok (Z.to_nat count) levels first count current) as (i & E & Hi); [lia|done|lia|].
  rewrite E. cbn [mbind outcome_bind].
  set (j := i + (if up then 1 else -1)). set (j1 := if j >=? count then count - 1 else j).
  assert ((if j1 <? first then first else j1) = next_index first count i up) as Hj.
  { unfold next_index. fold j. unfold j1. clearbody j.
    destruct (j >=? count) eqn:E1, (_ <? first) eqn:E2; bool_hyps; lia. }
  rewrite Hj. clear Hj.
  destruct (aget_ok levels (next_index first count i up)) as (v & Ev & Hv).
  { unfold next_index. destruct up; lia. }
  exists i, v. done.
Qed.

(** ** The key bit vector as a set of keys *)

Definition key_down (v : list Z) (n : Z) : bool :=
  Z.testbit (default 0 (v !! Z.to_nat (n / 32))) (n mod 32).

Lemma unit_of n : 0 <= n < 512 -> Z.shiftr n KBV_BITS_SHIFT = n / 32 /\ 0 <= n / 32 < 16 /\
  KBV_BIT n = Z.shiftl 1 (n mod 32) /\ 0 <= n mod 32 < 32.
Proof.
  intros Hn. split; [by rewrite Z.shiftr_div_pow2|].
  split; [pose proof (Z.div_pos n 32); pose proof (Z.div_lt_upper_bound n 32 16); lia|].
  split; [|apply Z.mod_pos_bound; lia]. unfold KBV_BIT. f_equal.
  change KBV_BITS_MASK with (Z.ones 5). by rewrite Z.land_ones.
Qed.

Lemma kbv_get v n : length v = 16%nat -> 0 <= n < 512 ->
  exists x, aget v (Z.shiftr n KBV_BITS_SHIFT) = Done x /\ v !! Z.to_nat (n / 32) = Some x /\
    anyset x (KBV_BIT n) = key_down v n.
Proof.
  intros Hv Hn. destruct (unit_of n Hn) as (-> & Hu & -> & Hb).
  destruct (aget_ok v (n / 32)) as (x & E & Hx); [lia|]. exists x. split; [done|]. split; [done|].
  unfold key_down. rewrite Hx. apply anyset_bit. lia.
Qed.

(** Replacing the bit of one key leaves the others alone. *)
Lemma kbv_put v n x y b : length v = 16%nat -> 0 <= n < 512 -> v !! Z.to_nat (n / 32) = Some x ->
  (forall i, 0 <= i -> Z.testbit y i = if i =? n mod 32 then b else Z.testbit x i) ->
  exists v', aset v (Z.shiftr n KBV_BITS_SHIFT) y = Done v' /\ length v' = 16%nat /\
    forall m, 0 <= m < 512 -> key_down v' m = if m =? n then b else key_down v m.
Proof.
  intros Hv Hn Hx Hy. destruct (unit_of n Hn) as (-> & Hu & _ & Hb).
  rewrite aset_ok by lia. eexists. split; [done|]. split; [by rewrite length_insert|].
  intros m Hm. unfold key_down. destruct (unit_of m Hm) as (_ & Hum & _ & Hbm).
  destruct (decide (m / 32 = n / 32)) as [E|E].
  - rewrite E, list_lookup_insert_eq by lia. rewrite Hx. simpl. rewrite Hy by lia.
    pose proof (Z.div_mod m 32). pose proof (Z.div_mod n 32).
    destruct (Z.eqb_spec (m mod 32) (n mod 32)), (Z.eqb_spec m n); lia || done.
  - rewrite list_lookup_insert_ne by lia. destruct (Z.eqb_spec m n); [congruence|done].
Qed.

(** ** The scan code decoder *)

(** Abstract state: how many bytes an extended sequence still lacks, the last
    byte, the keys that are down. *)
Record Decoder := mkDecoder {
  d_ext : Z;
  d_last : Z;
  d_down : Z -> bool;
}.

Definition upd (f : Z -> bool) (n : Z) (b : bool) : Z -> bool := fun m => if m =? n then b else f m.

(** One byte from the keyboard: the new state and the packet it completes. *)
Definition decode_byte (breakless : Z -> bool) (d : Decoder) (data : Z) : Decoder * option (Z * Z) :=
  if (d_last d =? 0xAA) && (data =? 0) then (mkDecoder 0 (d_last d) (d_down d), Some (0, 0xAA))
  else if (data =? 0xFA) || (data =? 0xFE) then (mkDecoder (d_ext d) data (d_down d), None)
  else if data =? 0xE0 then (mkDecoder 1 data (d_down d), None)
  else if data =? 0xE1 then (mkDecoder 2 data (d_down d), None)
  else if d_ext d =? 2 then (mkDecoder 1 data (d_down d), None)
  else
    let key := 256 * d_ext d + data mod 128 in
    let packet := Some (d_ext d + 1, data) in
    if breakless key then (mkDecoder 0 data (d_down d), packet)
    else if data <? 128 then
      if d_down d key then (mkDecoder 0 data (d_down d), None)
      else (mkDecoder 0 data (upd (d_down d) key true), packet)
    else (mkDecoder 0 data (upd (d_down d) key false), packet).

Definition breakless_of (k : ApplePS2Keyboard) (n : Z) : bool :=
  match _PS2flags k !! Z.to_nat n with Some f => anyset f kBreaklessKey | None => false end.

(** The driver's state represents the decoder's. *)
Record decodes (k : ApplePS2Keyboard) (d : Decoder) : Prop := {
  dc_ext : _extendCount k = d_ext d;
  dc_last : _lastdata k = d_last d;
  dc_down : forall n, 0 <= n < 512 -> key_down (_keyBitVector k) n = d_down d n;
}.

Definition result_of (p : option (Z * Z)) : PS2InterruptResult :=
  match p with Some _ => kPS2IR_packetReady | None => kPS2IR_packetBuffering end.

(** The queue after the packet, if any, stamped with [time]. *)
Definition enqueue (q : list (list (Z * Z))) (p : option (Z * Z)) (time : Z) : list (list (Z * Z)) :=
  match p with Some (p0, p1) => Fifo.push 31 q (packet_writes p0 p1 time) | None => q end.

Lemma time_bytes_u8 t : Forall is_u8 (time_bytes t).
Proof. unfold time_bytes. apply Forall_fmap, Forall_true. intros i. apply u8_range. Qed.

Lemma packet_writes_ok p0 p1 t : Forall (fun '(i, _) => 0 <= i < kPacketLength) (packet_writes p0 p1 t).
Proof. unfold packet_writes, kPacketLength. simpl. repeat constructor; lia. Qed.

Lemma packet_writes_u8 p0 p1 t : is_u8 p0 -> is_u8 p1 -> Forall (fun w => is_u8 w.2) (packet_writes p0 p1 t).
Proof.
  intros H0 H1. unfold packet_writes. do 2 (apply Forall_cons; split; [done|]). simpl.
  repeat (apply Forall_cons; split; [apply u8_range|]). by constructor.
Qed.

Lemma head_writes_Forall (P : Z -> Prop) rb ws rb' :
  head_writes rb ws = Done rb' -> Forall P (m_buffer rb) -> Forall (fun w => P w.2) ws -> Forall P (m_buffer rb').
Proof.
  revert rb. induction ws as [|[i x] ws IH]; intros rb; simpl; [by intros [= <-]|].
  unfold head_set. destruct (aset _ _ _) as [b| |] eqn:E; simpl; [|done|done].
  intros Hw Hb (Hx & Hws)%Forall_cons. apply aset_inv in E as [_ ->].
  apply (IH _ Hw); [|done]. simpl. by apply Forall_insert.
Qed.

Lemma advanceHead_buffer (rb : RingBuffer Z) n : m_buffer (advanceHead ringSize rb n) = m_buffer rb.
Proof. unfold advanceHead. by case_match. Qed.

Lemma advanceTail_buffer (rb : RingBuffer Z) n : m_buffer (advanceTail ringSize rb n) = m_buffer rb.
Proof. done. Qed.

Create HintDb dsafe.

Section safety.
  Context (env : KEnv).
  (** The receivers of a message leave its data of the type it had. *)
  Context (Hreply_bool : forall evs m b, exists b', reply env evs m (PBool b) = PBool b').
  Context (Hreply_info : forall evs m i, exists i', reply env evs m (PKeyInfo i) = PKeyInfo i').

(** Dispatching from [w0] on: the states reached differ from [w0] only in what
    [dframe] allows. *)
Section from.
  Context (w0 : KWorld) (Hw0 : inv w0).

Abbreviation dsafe := (safe (dframe w0) dframe).
Abbreviation k0 := (kbd w0).

Lemma dsafe_bind {A B} (m : M KWorld A) (f : A -> M KWorld B) Q Q' :
  dsafe m Q -> (forall a, Q a -> dsafe (f a) Q') -> dsafe (m ≫= f) Q'.
Proof. apply safe_bind; [apply _|]. intros w w' H1 H2. by etrans. Qed.

Lemma dsafe_ret {A} (a : A) (Q : A -> Prop) : Q a -> dsafe (mret a) Q.
Proof. apply safe_ret, _. Qed.

Lemma dsafe_lift {A} (o : outcome A) (Q : A -> Prop) : (exists a, o = Done a /\ Q a) -> dsafe (lift o) Q.
Proof. apply safe_lift, _. Qed.

Lemma dsafe_when b (m : M KWorld unit) : dsafe m (fun _ => True) -> dsafe (when b m) (fun _ => True).
Proof. apply safe_when, _. Qed.

Lemma dsafe_emit e : dsafe (kemit e) (fun _ => True).
Proof. apply safe_modify. intros w _. apply dframe_emit. Qed.

Lemma dsafe_get {A} (f : ApplePS2Keyboard -> A) (Q : A -> Prop) :
  (forall m t b, Q (f (k0 <| _PS2modifierState := m |> <| _timerFunc := t |> <| firsttime := b |>))) ->
  dsafe (getk f) Q.
Proof. intros HQ. apply safe_gets; [apply _|]. intros w [(m & t & b & ->) _ _]. apply HQ. Qed.

Lemma dsafe_set f :
  (forall k, exists m t b, f k = k <| _PS2modifierState := m |> <| _timerFunc := t |> <| firsttime := b |>) ->
  dsafe (setk f) (fun _ => True).
Proof. intros Hf. apply safe_modify. intros w _. by apply dframe_set. Qed.

Lemma dsafe_clock : dsafe (clock_get_uptime env) (fun _ => True).
Proof.
  intros w _. do 2 eexists. split; [reflexivity|]. split; [|done]. split; simpl; [apply df_same|lia|].
  exists []. by rewrite app_nil_r.
Qed.

Lemma dsafe_forM {A} (l : list A) (f : A -> M KWorld unit) :
  (forall x, x ∈ l -> dsafe (f x) (fun _ => True)) -> dsafe (forM_ l f) (fun _ => True).
Proof. apply safe_forM; [apply _|]. intros w w' H1 H2. by etrans. Qed.

(** Reading an entry of one of the tables. *)
Lemma dsafe_aget {B} (f : ApplePS2Keyboard -> list Z) i P (g : Z -> M KWorld B) Q :
  (forall m t b, f (k0 <| _PS2modifierState := m |> <| _timerFunc := t |> <| firsttime := b |>) = f k0) ->
  0 <= i < Z.of_nat (length (f k0)) -> Forall P (f k0) ->
  (forall v, P v -> dsafe (g v) Q) ->
  dsafe (l ← getk f; v ← lift (aget l i); g v) Q.
Proof.
  intros Hf Hi HP Hg. apply (dsafe_bind _ _ (fun l => l = f k0)); [apply dsafe_get; apply Hf|]. intros l ->.
  apply (dsafe_bind _ _ P); [|exact Hg]. apply dsafe_lift.
  destruct (aget_ok (f k0) i) as (v & E & Hv); [done|]. exists v. split; [done|]. by eapply Forall_lookup_1.
Qed.

Lemma all_True {A} (l : list A) : Forall (fun _ => True) l.
Proof. by apply Forall_true. Qed.

Lemma dsafe_adb {B} i (g : Z -> M KWorld B) Q : 0 <= i < 512 -> (forall v, dsafe (g v) Q) ->
  dsafe (m ← getk _PS2ToADBMap; v ← lift (aget m i); g v) Q.
Proof.
  intros Hi Hg. apply (dsafe_aget _ _ (fun _ => True)); [done| |apply all_True|auto].
  rewrite (kw_adb _ Hw0). lia.
Qed.

Lemma dsafe_flags {B} i (g : Z -> M KWorld B) Q : 0 <= i < 512 -> (forall v, dsafe (g v) Q) ->
  dsafe (m ← getk _PS2flags; v ← lift (aget m i); g v) Q.
Proof.
  intros Hi Hg. apply (dsafe_aget _ _ (fun _ => True)); [done| |apply all_True|auto].
  rewrite (kw_flags _ Hw0). lia.
Qed.

Lemma shift5_range n : 0 <= n < 512 -> 0 <= Z.shiftr n KBV_BITS_SHIFT < 16.
Proof.
  intros Hn. rewrite Z.shiftr_div_pow2 by done. change (2 ^ KBV_BITS_SHIFT) with 32.
  pose proof (Z.div_pos n 32). pose proof (Z.div_lt_upper_bound n 32 16). lia.
Qed.

Lemma dsafe_is_keydown n : 0 <= n < 512 -> dsafe (KBV_IS_KEYDOWN n) (fun _ => True).
Proof.
  intros Hn. apply (dsafe_aget _ _ (fun _ => True)); [done| |apply all_True|intros v _; by apply dsafe_ret].
  rewrite (kw_bits _ Hw0). by apply shift5_range.
Qed.

Lemma dsafe_set_adb_key d t n : 0 <= n < 512 -> dsafe (set_adb_key d t n) (fun _ => True).
Proof.
  intros Hn. eapply dsafe_bind; [by apply dsafe_is_keydown|]. intros [] _; [|by apply dsafe_ret].
  apply dsafe_adb; [done|]. intros v. apply dsafe_emit.
Qed.

Lemma dsafe_message m p : dsafe (dispatchMessage env m p) (fun r => exists evs, r = reply env evs m p).
Proof.
  intros w Hw. do 2 eexists. split; [reflexivity|]. split; [apply dframe_emit|by eexists].
Qed.

(** Both kinds of level keys. *)
Lemma dsafe_levels levels count first min cur up goingDown method :
  levels_ok (Some levels) count min -> 0 <= first < min ->
  dsafe (level ← lift (step_level levels count first cur up); when goingDown (kemit (KAcpi method (u32 level))))
    (fun _ => True).
Proof.
  intros [Hl Hc] Hf. apply (dsafe_bind _ _ (fun _ => True)); [|intros v _; apply dsafe_when, dsafe_emit].
  apply dsafe_lift. destruct (step_level_ok levels count first cur up) as (i & v & _ & E & _); [lia|done|].
  by exists v.
Qed.

Lemma dsafe_evs {B} (f : list KEvent -> M KWorld B) Q :
  (forall l, dsafe (f l) Q) -> dsafe (gets kevs ≫= f) Q.
Proof. intros Hf. apply (dsafe_bind _ _ (fun _ => True)); [|auto]. apply safe_gets; [apply _|done]. Qed.

Lemma dsafe_keyboard {B} (f : ApplePS2Keyboard -> M KWorld B) Q :
  (forall m t b, dsafe (f (k0 <| _PS2modifierState := m |> <| _timerFunc := t |> <| firsttime := b |>)) Q) ->
  dsafe (getk id ≫= f) Q.
Proof.
  intros Hf. apply (dsafe_bind _ _ (fun k => exists m t b, k = k0 <| _PS2modifierState := m |> <| _timerFunc := t |> <| firsttime := b |>)).
  - apply dsafe_get. by do 3 eexists.
  - by intros ? (m & t & b & ->).
Qed.

Lemma dsafe_brightness adb d : is_Some (_brightnessLevels k0) ->
  dsafe (modifyScreenBrightness env adb d) (fun _ => True).
Proof.
  intros [l Hl]. apply dsafe_evs. intros evs. destruct (evaluateInteger env evs "KBQC"); [|by apply dsafe_ret].
  apply dsafe_keyboard. intros m t b. simpl. rewrite Hl. apply (dsafe_levels _ _ 2 3); [|lia].
  rewrite <- Hl. apply Hw0.
Qed.

Lemma dsafe_backlight adb d : is_Some (_backlightLevels k0) ->
  dsafe (modifyKeyboardBacklight env adb d) (fun _ => True).
Proof.
  intros [l Hl]. apply dsafe_evs. intros evs. destruct (evaluateInteger env evs "KKQC"); [|by apply dsafe_ret].
  apply dsafe_keyboard. intros m t b. simpl. rewrite Hl. apply (dsafe_levels _ _ 0 1); [|lia].
  rewrite <- Hl. apply Hw0.
Qed.

Lemma dsafe_sleepEject : dsafe (onSleepEjectTimer env) (fun _ => True).
Proof.
  apply (dsafe_bind _ _ (fun _ => True)); [by apply dsafe_get|]. intros [] _.
  - apply dsafe_when, dsafe_emit.
  - eapply dsafe_bind; [apply dsafe_clock|]. intros t _. apply dsafe_emit.
Qed.

Lemma dsafe_mods mask : dsafe (checkModifierState mask) (fun _ => True).
Proof. apply (dsafe_bind _ _ (fun _ => True)); [by apply dsafe_get|]. intros s _. by apply dsafe_ret. Qed.

(** A statement whose value does not matter, and the rest. *)
Lemma dsafe_seq {A B} (m : M KWorld A) (f : A -> M KWorld B) Q :
  dsafe m (fun _ => True) -> (forall a, dsafe (f a) Q) -> dsafe (m ≫= f) Q.
Proof. intros Hm Hf. eapply dsafe_bind; [exact Hm|auto]. Qed.

Lemma dsafe_true {A} (m : M KWorld A) Q : dsafe m Q -> dsafe m (fun _ => True).
Proof. intros Hm. by eapply safe_mono. Qed.

Lemma dsafe_key a d t : dsafe (dispatchKeyboardEventX a d t) (fun _ => True).
Proof. apply dsafe_emit. Qed.
Lemma dsafe_setTimer x t : dsafe (setTimerTimeout x t) (fun _ => True).
Proof. apply dsafe_emit. Qed.
Lemma dsafe_cancelTimer x : dsafe (cancelTimer x) (fun _ => True).
Proof. apply dsafe_emit. Qed.

Hint Resolve dsafe_emit dsafe_mods dsafe_sleepEject dsafe_clock dsafe_key dsafe_setTimer dsafe_cancelTimer : dsafe.
Ltac dauto := repeat first
  [ progress (intros; cbn beta)
  | apply dsafe_ret; solve [auto | lia]
  | solve [eauto with dsafe nocore]
  | apply dsafe_when
  | apply dsafe_seq
  | match goal with |- safe _ _ (if ?b then _ else _) _ => destruct b eqn:? end ].

Lemma dsafe_special_keyCode c d t : 0 <= c < 512 ->
  dsafe (special_keyCode env c d t) (fun c' => 0 <= c' < 512).
Proof.
  intros Hc. unfold special_keyCode. destruct ((c =? 78) || (c =? 74)).
  { apply dsafe_keyboard. intros m t' b. simpl.
    apply dsafe_seq; [apply dsafe_mods|intros ca]. apply dsafe_seq; [apply dsafe_mods|intros cs].
    destruct (bool_decide _ && ca) eqn:Eb; [|case_match; [|by apply dsafe_ret]].
    - apply andb_true_iff in Eb as [Eb%bool_decide_eq_true _].
      apply dsafe_seq; [by apply dsafe_backlight|intros _; apply dsafe_ret; lia].
    - apply dsafe_seq; [apply dsafe_mods|intros win].
      assert (forall up, dsafe (forM_ (if win : bool then [0x1d] else [0x2a; 0x1d]) (set_adb_key up t)) (fun _ => True)) as Hk.
      { intros up. apply dsafe_forM. intros x Hx. apply dsafe_set_adb_key.
        destruct win; repeat (apply elem_of_cons in Hx as [->|Hx]; [lia|]); by apply elem_of_nil in Hx. }
      apply dsafe_seq; [apply Hk|intros _]. apply dsafe_seq; [apply dsafe_emit|intros _].
      apply dsafe_seq; [apply Hk|intros _]. apply dsafe_ret. lia. }
  destruct (c =? 0x0153); [solve [dauto]|]. destruct (c =? 0x015f).
  { apply dsafe_keyboard. intros m t' b. simpl. apply dsafe_seq; [|intros _; apply dsafe_ret; lia].
    destruct d; [|apply dsafe_emit]. apply dsafe_seq; [|intros _; case_match; [apply dsafe_sleepEject|apply dsafe_emit]].
    apply dsafe_set. intros k. df_fields k. }
  assert (dsafe (toggle_fkeymode env d) (fun c' => 0 <= c' < 512)) as Ht.
  { apply dsafe_keyboard. intros m t' b. simpl. dauto. }
  destruct ((c =? 0x0128) || (c =? 0x0137)).
  { destruct d; simpl; [|apply dsafe_ret; lia]. apply dsafe_seq; [apply dsafe_mods|intros []]; simpl.
    - case_match; [apply dsafe_ret; lia|exact Ht].
    - eapply dsafe_bind; [apply dsafe_message|]. intros r [evs ->].
      destruct (Hreply_bool evs kPS2M_getDisableTouchpad (stack_bool env)) as [b' ->].
      apply dsafe_seq; [eapply dsafe_true, dsafe_message|intros _; apply dsafe_ret; lia]. }
  destruct (c =? 0x0127); [exact Ht|by apply dsafe_ret].
Qed.

Lemma dsafe_special_adb a d : dsafe (special_adb env a d) (fun _ => True).
Proof.
  apply dsafe_keyboard. intros m t b. simpl. destruct ((a =? 144) || (a =? 145)).
  { destruct (bool_decide _) eqn:Eb; [|by apply dsafe_ret]. apply bool_decide_eq_true in Eb.
    apply dsafe_seq; [by apply dsafe_brightness|intros _; by apply dsafe_ret]. }
  destruct (a =? 146); [|by apply dsafe_ret]. destruct (m =? 0); [|by apply dsafe_ret].
  destruct d; [|dauto]. apply dsafe_seq; [|intros _; dauto].
  apply dsafe_set. intros k. df_fields k.
Qed.

Lemma dsafe_click a : dsafe (dispatch_click env a) (fun _ => True).
Proof. unfold dispatch_click. dauto. Qed.

Lemma dsafe_dispatch_key raw c d t ns : 0 <= raw < 512 -> 0 <= c < 512 ->
  dsafe (dispatch_key env raw c d t ns) (fun _ => True).
Proof.
  intros Hr Hc. apply dsafe_adb; [done|]. intros a. apply dsafe_seq; [apply dsafe_special_adb|].
  intros [a' eat]. eapply dsafe_bind; [apply dsafe_message|]. intros r [evs ->].
  destruct (Hreply_info evs kPS2M_notifyKeyPressed (mkKeyInfo ns a' d eat)) as [i ->].
  case_match.
  - apply dsafe_seq; [|intros _; by apply dsafe_ret]. destruct d; [|by apply dsafe_ret].
    apply (dsafe_bind _ _ (fun _ => True)); [by apply dsafe_get|]. intros f _.
    apply dsafe_seq; [apply dsafe_click|intros _]. apply dsafe_seq; [apply dsafe_when, dsafe_click|intros _].
    apply dsafe_set. intros k. df_fields k.
  - apply dsafe_seq; [|intros _; by apply dsafe_ret]. case_match; [|by apply dsafe_ret].
    apply dsafe_flags; [done|]. intros v. dauto.
Qed.

Lemma dsafe_track raw d : 0 <= raw < 512 -> dsafe (track_modifier raw d) (fun _ => True).
Proof.
  intros Hr. apply dsafe_flags; [done|]. intros v. cbv zeta. case_match; [|by apply dsafe_ret].
  apply dsafe_set. intros k. df_fields k.
Qed.

(** What a packet must look like. *)
Definition packet_ok (p : list Z) : Prop := (16 <= length p)%nat /\ Forall is_u8 p.

Lemma dsafe_dispatch p : packet_ok p -> dsafe (dispatchKeyboardEventWithPacket env p) (fun _ => True).
Proof.
  intros [Hl H8]. unfold dispatchKeyboardEventWithPacket.
  assert (forall i, 0 <= i < 16 -> exists v, aget p i = Done v /\ is_u8 v) as Hget.
  { intros i Hi. destruct (aget_ok p i) as (v & E & Hv); [lia|]. exists v. split; [done|].
    by eapply (Forall_lookup_1 is_u8). }
  eapply dsafe_bind; [by apply dsafe_lift, Hget|]. intros p0 Hp0.
  eapply dsafe_bind; [by apply dsafe_lift, Hget|]. intros sc Hsc. cbv zeta.
  apply (dsafe_bind _ _ (fun _ => True)).
  { apply dsafe_lift. unfold read_time, kPacketTimeOffset.
    rewrite (proj2 (Z.ltb_ge (Z.of_nat (length p)) (8 + 8))) by lia. simpl. by eexists. }
  intros now _. apply (dsafe_bind _ _ (fun m => m = _PS2ToPS2Map k0)); [by apply dsafe_get|]. intros m ->.
  assert (0 <= clear sc kSC_UpBit < 128) as Hraw.
  { revert sc Hsc. clear. intros sc Hsc. assert ((0 <=? clear sc kSC_UpBit) && (clear sc kSC_UpBit <? 128) = true) as E.
    { revert sc Hsc. apply (byte_forall (fun sc => (0 <=? clear sc kSC_UpBit) && (clear sc kSC_UpBit <? 128))). reflexivity. }
    bool_hyps. lia. }
  case_match.
  - apply dsafe_adb; [destruct Hsc; lia|]. intros a. apply dsafe_seq; [apply dsafe_click|intros _; by apply dsafe_ret].
  - set (raw := if u8 (p0 - 1) =? 0 then _ else _).
    assert (0 <= raw < 512) as Hr by (unfold raw, KBV_NUM_SCANCODES; case_match; lia). clearbody raw.
    apply (dsafe_bind _ _ (fun c => 0 <= c < 512)).
    { apply dsafe_lift. destruct (aget_ok (_PS2ToPS2Map k0) raw) as (v & E & Hv).
      - rewrite (kw_map _ Hw0). lia.
      - exists v. split; [done|]. exact (Forall_lookup_1 _ _ _ _ (kw_map_range _ Hw0) Hv). }
    intros c Hc. case_match; [by apply dsafe_ret|].
    apply dsafe_seq; [by apply dsafe_track|intros _].
    apply (dsafe_bind _ _ (fun _ => True)); [by apply dsafe_get|]. intros prov _.
    apply dsafe_seq; [apply dsafe_when, dsafe_emit|intros _].
    eapply dsafe_bind; [by apply dsafe_special_keyCode|]. intros c' Hc'. by apply dsafe_dispatch_key.
Qed.
End from.

(** ** Queueing a packet *)

Lemma push_packet_ok p0 p1 w q :
  queue_of ringSize kPacketLength (_ringBuffer (kbd w)) q -> Forall is_u8 (m_buffer (_ringBuffer (kbd w))) ->
  is_u8 p0 -> is_u8 p1 ->
  exists rb, push_packet env p0 p1 w =
      Done (tt, w <| kbd := (kbd w) <| _ringBuffer := rb |> |> <| ticks := S (ticks w) |>) /\
    queue_of ringSize kPacketLength rb (Fifo.push 31 q (packet_writes p0 p1 (u64 (uptime env (ticks w))))) /\
    Forall is_u8 (m_buffer rb).
Proof.
  intros Hq Hu H0 H1. set (ws := packet_writes p0 p1 (u64 (uptime env (ticks w)))).
  destruct (step_enqueue ringSize kPacketLength _ q ws Hq (packet_writes_ok _ _ _)) as (rb' & E & Hq').
  unfold session_step, mbind, outcome_bind in E.
  destruct (head_writes (_ringBuffer (kbd w)) ws) as [rb1| |] eqn:Ew; [|done|done].
  injection E as <-. exists (advanceHead ringSize rb1 kPacketLength). split; [|split; [exact Hq'|]].
  - unfold push_packet, clock_get_uptime, getk, setk. munfold. cbn beta iota.
    change (kbd (w <| ticks := S (ticks w) |>)) with (kbd w). fold ws. by rewrite Ew.
  - rewrite advanceHead_buffer. eapply head_writes_Forall; [exact Ew|done|by apply packet_writes_u8].
Qed.

(** ** The interrupt routine refines the decoder *)

Lemma is_keydown_ok w n : length (_keyBitVector (kbd w)) = 16%nat -> 0 <= n < 512 ->
  KBV_IS_KEYDOWN n w = Done (key_down (_keyBitVector (kbd w)) n, w).
Proof.
  intros Hl Hn. destruct (kbv_get _ n Hl Hn) as (x & E & _ & Hx).
  unfold KBV_IS_KEYDOWN, getk. munfold. rewrite E. by rewrite Hx.
Qed.

Lemma keydown_ok w n : length (_keyBitVector (kbd w)) = 16%nat -> 0 <= n < 512 ->
  exists v, KBV_KEYDOWN n w = Done (tt, w <| kbd := (kbd w) <| _keyBitVector := v |> |>) /\ length v = 16%nat /\
    forall m, 0 <= m < 512 -> key_down v m = if m =? n then true else key_down (_keyBitVector (kbd w)) m.
Proof.
  intros Hl Hn. destruct (kbv_get _ n Hl Hn) as (x & E & Hx & _). destruct (unit_of n Hn) as (_ & _ & Hbit & Hb).
  destruct (kbv_put _ n x (Z.lor x (KBV_BIT n)) true Hl Hn Hx) as (v & Ev & Hlv & Hv).
  { intros i Hi. rewrite Hbit. apply setbit_spec; lia. }
  exists v. split; [|done]. unfold KBV_KEYDOWN, getk, setk. munfold. rewrite E. cbn beta iota. by rewrite Ev.
Qed.

Lemma keyup_ok w n : length (_keyBitVector (kbd w)) = 16%nat -> 0 <= n < 512 ->
  exists v, KBV_KEYUP n w = Done (tt, w <| kbd := (kbd w) <| _keyBitVector := v |> |>) /\ length v = 16%nat /\
    forall m, 0 <= m < 512 -> key_down v m = if m =? n then false else key_down (_keyBitVector (kbd w)) m.
Proof.
  intros Hl Hn. destruct (kbv_get _ n Hl Hn) as (x & E & Hx & _). destruct (unit_of n Hn) as (_ & _ & Hbit & Hb).
  destruct (kbv_put _ n x (clear x (KBV_BIT n)) false Hl Hn Hx) as (v & Ev & Hlv & Hv).
  { intros i Hi. rewrite Hbit. apply clearbit_spec; lia. }
  exists v. split; [|done]. unfold KBV_KEYUP, getk, setk. munfold. rewrite E. cbn beta iota. by rewrite Ev.
Qed.

(** The key code of a byte: extended keys in the upper half, no up bit. *)
Lemma key_code ext data : 0 <= ext <= 1 -> is_u8 data ->
  Z.lor (Z.shiftl ext 8) (clear data kSC_UpBit) = 256 * ext + data mod 128.
Proof.
  intros He Hd. assert (ext = 0 \/ ext = 1) as [->| ->] by lia; apply Z.eqb_eq; revert data Hd;
    [apply (byte_forall (fun data => Z.lor (Z.shiftl 0 8) (clear data kSC_UpBit) =? 256 * 0 + data mod 128))
    |apply (byte_forall (fun data => Z.lor (Z.shiftl 1 8) (clear data kSC_UpBit) =? 256 * 1 + data mod 128))];
    vm_compute; reflexivity.
Qed.

Lemma up_bit data : is_u8 data -> anyset data kSC_UpBit = negb (data <? 128).
Proof.
  intros Hd. apply eqb_prop. revert data Hd.
  apply (byte_forall (fun data => Bool.eqb (anyset data kSC_UpBit) (negb (data <? 128)))). vm_compute. reflexivity.
Qed.

Lemma note_key_ok k w down key data :
  length (_PS2flags k) = 512%nat -> length (_keyBitVector (kbd w)) = 16%nat -> 0 <= key < 512 -> is_u8 data ->
  (forall n, 0 <= n < 512 -> key_down (_keyBitVector (kbd w)) n = down n) ->
  exists v,
    note_key k key data w =
      Done (negb (breakless_of k key) && (data <? 128) && down key, w <| kbd := (kbd w) <| _keyBitVector := v |> |>) /\
    length v = 16%nat /\
    forall n, 0 <= n < 512 -> key_down v n =
      if breakless_of k key then down n else upd down key (data <? 128) n.
Proof.
  intros Hf Hl Hk Hd Hdown. unfold note_key, breakless_of.
  assert (w = w <| kbd := (kbd w) <| _keyBitVector := _keyBitVector (kbd w) |> |>) as Hsame by (by destruct w as [[] ? ?]).
  destruct (aget_ok (_PS2flags k) key) as (f & E & Ef); [lia|]. rewrite Ef. munfold. rewrite E. cbn beta iota.
  destruct (anyset f kBreaklessKey); simpl.
  { exists (_keyBitVector (kbd w)). by rewrite <- Hsame. }
  rewrite up_bit, negb_involutive by done. destruct (data <? 128) eqn:Ed.
  - rewrite is_keydown_ok by done. cbn beta iota. rewrite Hdown by done. destruct (down key) eqn:Edk.
    + exists (_keyBitVector (kbd w)). rewrite <- Hsame. split; [done|]. split; [done|].
      intros n Hn. unfold upd. destruct (Z.eqb_spec n key) as [->|]; [by rewrite Hdown|by apply Hdown].
    + destruct (keydown_ok w key Hl Hk) as (v & -> & Hlv & Hv). exists v. split; [done|]. split; [done|].
      intros n Hn. rewrite Hv by done. unfold upd. by rewrite Hdown.
  - destruct (keyup_ok w key Hl Hk) as (v & -> & Hlv & Hv). exists v. split; [done|]. split; [done|].
    intros n Hn. rewrite Hv by done. unfold upd. by rewrite Hdown.
Qed.

(** The fields the interrupt routine may write. *)
Definition iframe (w w' : KWorld) : Prop :=
  exists e l v rb, kbd w' = (kbd w) <| _extendCount := e |> <| _lastdata := l |> <| _keyBitVector := v |>
    <| _ringBuffer := rb |> /\ kevs w' = kevs w.

(** After a byte: the invariant, the decoder's state, the queue. *)
Definition refined (w w' : KWorld) (d' : Decoder) (q' : list (list (Z * Z))) : Prop :=
  kb_wf (kbd w') /\ decodes (kbd w') d' /\ queue_of ringSize kPacketLength (_ringBuffer (kbd w')) q' /\ iframe w w'.

Lemma refined_intro w w' e l v rb down q' :
  kb_wf (kbd w) -> kevs w' = kevs w ->
  kbd w' = (kbd w) <| _extendCount := e |> <| _lastdata := l |> <| _keyBitVector := v |> <| _ringBuffer := rb |> ->
  length v = 16%nat -> 0 <= e <= 2 -> Forall is_u8 (m_buffer rb) ->
  (forall n, 0 <= n < 512 -> key_down v n = down n) ->
  queue_of ringSize kPacketLength rb q' -> refined w w' (mkDecoder e l down) q'.
Proof.
  intros Hk Hev E Hv He Hu Hdn Hq. unfold refined. rewrite E.
  split; [destruct Hk; split; try done; apply Hq|]. split; [by split|]. split; [done|].
  exists e, l, v, rb. by rewrite E.
Qed.

Lemma interrupt_refines w d data q :
  kb_wf (kbd w) -> decodes (kbd w) d -> is_u8 data -> queue_of ringSize kPacketLength (_ringBuffer (kbd w)) q ->
  let '(d', p) := decode_byte (breakless_of (kbd w)) d data in
  exists w', interruptOccurred env data w = Done (result_of p, w') /\
    refined w w' d' (enqueue q p (u64 (uptime env (ticks w)))).
Proof.
  intros Hk Hd Hu Hq. pose proof Hd as [He Hl Hdn]. pose proof (kw_ext _ Hk) as Hext.
  pose proof (kw_bits _ Hk) as Hbits. pose proof (kw_ring8 _ Hk) as H8.
  unfold decode_byte, interruptOccurred, getk. unfold mbind at 1, M_bind at 1, gets. unfold id.
  rewrite Hl. rewrite (Z.eqb_sym kSC_Reset (d_last d)), (Z.eqb_sym kSC_Acknowledge data), (Z.eqb_sym kSC_Resend data).
  unfold kSC_Reset, kSC_Acknowledge, kSC_Resend, kSC_Extend, kSC_Pause.
  destruct ((d_last d =? 0xAA) && (data =? 0)) eqn:Er.
  { destruct (push_packet_ok 0 0xAA w q Hq H8) as (rb & E & Hq' & Hu8); [split; lia..|].
    unfold setk. munfold. rewrite E. eexists. split; [reflexivity|].
    eapply (refined_intro w _ _ _ (_keyBitVector (kbd w)) rb); try done; try lia.
    rewrite <- Hl. by destruct w as [[] ? ?]. }
  unfold mbind at 1, M_bind at 1.
  change (setk (fun k => k <| _lastdata := data |>) w) with
    (Done (tt, w <| kbd := (kbd w) <| _lastdata := data |> |>)). cbn beta iota.
  destruct ((data =? 0xFA) || (data =? 0xFE)) eqn:Ea.
  { eexists. split; [reflexivity|].
    eapply (refined_intro w _ _ _ (_keyBitVector (kbd w)) (_ringBuffer (kbd w))); try done; [|by rewrite <- He].
    rewrite <- He. by destruct w as [[] ? ?]. }
  destruct (data =? 0xE0) eqn:E0.
  { eexists. split; [reflexivity|].
    eapply (refined_intro w _ _ _ (_keyBitVector (kbd w)) (_ringBuffer (kbd w))); try done; try lia;
      by destruct w as [[] ? ?]. }
  destruct (data =? 0xE1) eqn:E1.
  { eexists. split; [reflexivity|].
    eapply (refined_intro w _ _ _ (_keyBitVector (kbd w)) (_ringBuffer (kbd w))); try done; try lia;
      by destruct w as [[] ? ?]. }
  rewrite He. destruct (Z.eqb_spec (d_ext d) 2) as [E2|E2].
  { rewrite E2. eexists. split; [reflexivity|].
    eapply (refined_intro w _ _ _ (_keyBitVector (kbd w)) (_ringBuffer (kbd w))); try done; try lia;
      by destruct w as [[] ? ?]. }
  set (key := 256 * d_ext d + data mod 128).
  assert (0 <= key < 512) as Hkey by (unfold key; pose proof (Z.mod_pos_bound data 128); lia).
  assert (exists w1, (if negb (d_ext d =? 0) then setk (fun k => k <| _extendCount := u8 (d_ext d - 1) |>) else mret tt)
      (w <| kbd := (kbd w) <| _lastdata := data |> |>) = Done (tt, w1) /\
    w1 = w <| kbd := (kbd w) <| _lastdata := data |> <| _extendCount := 0 |> |>) as (w1 & Ew1 & Hw1).
  { assert (d_ext d = 0 \/ d_ext d = 1) as [Ee|Ee] by lia; rewrite Ee; (eexists; split; [reflexivity|]); [|done].
    rewrite Ee in He. destruct w as [[] ? ?]; simpl in *. by rewrite <- He. }
  unfold mbind at 1, M_bind at 1. rewrite Ew1. cbn beta iota.
  assert ((d_ext d =? 0) || (u8 (d_ext d - 1) =? 0) = true) as ->.
  { assert (d_ext d = 0 \/ d_ext d = 1) as [->| ->] by lia; done. }
  rewrite key_code by (done || lia). fold key.
  destruct (note_key_ok (kbd w) w1 (d_down d) key data (kw_flags _ Hk)) as (v & En & Hlv & Hv);
    [by subst w1|done|done|by subst w1|].
  unfold mbind at 1, M_bind at 1. rewrite En. cbn beta iota.
  assert (forall rb q' w2, kbd w2 = (kbd w1) <| _keyBitVector := v |> <| _ringBuffer := rb |> -> kevs w2 = kevs w ->
    Forall is_u8 (m_buffer rb) -> queue_of ringSize kPacketLength rb q' ->
    refined w w2 (mkDecoder 0 data (if breakless_of (kbd w) key then d_down d else upd (d_down d) key (data <? 128))) q') as Hfin.
  { intros rb q' w2 Ek Eev Hrb Hqr. eapply (refined_intro w _ 0 data v rb); try done; try lia.
    - rewrite Ek, Hw1. by destruct w as [[] ? ?].
    - intros n Hn. rewrite Hv by done. by case_match. }
  destruct (push_packet_ok (u8 (d_ext d + 1)) data (w1 <| kbd := (kbd w1) <| _keyBitVector := v |> |>) q)
    as (rb & Ep & Hqp & Hup); [by subst w1|by subst w1|apply u8_range|done|].
  assert (u8 (d_ext d + 1) = d_ext d + 1) as Hu8 by (apply u8_id; unfold is_u8; lia). rewrite Hu8 in *.
  assert (ticks w1 = ticks w) as Ht by (by subst w1). simpl in Hqp. rewrite Ht in Hqp.
  destruct (breakless_of (kbd w) key) eqn:Eb; [|destruct (data <? 128) eqn:Ed; [destruct (d_down d key) eqn:Edk|]];
    cbn [negb andb result_of enqueue].
  - unfold mbind, M_bind. rewrite Ep. eexists. split; [reflexivity|]. apply (Hfin rb); try done. by subst w1.
  - eexists. split; [reflexivity|].
    assert (refined w (w1 <| kbd := (kbd w1) <| _keyBitVector := v |> |>) (mkDecoder 0 data (upd (d_down d) key true)) q) as (R1 & R2 & R3 & R4).
    { apply (Hfin (_ringBuffer (kbd w))); try done; subst w1; by destruct w as [[] ? ?]. }
    split; [done|]. split; [|done]. destruct R2 as [Q1 Q2 Q3]. split; [done|done|]. simpl in *.
    intros n Hn. rewrite Q3 by done. unfold upd. by destruct (Z.eqb_spec n key) as [->|].
  - unfold mbind, M_bind. rewrite Ep. eexists. split; [reflexivity|]. apply (Hfin rb); try done. by subst w1.
  - unfold mbind, M_bind. rewrite Ep. eexists. split; [reflexivity|]. apply (Hfin rb); try done. by subst w1.
Qed.

(** ** Macros *)

(** What the interrupt routine works on. *)
Definition decoder_fields (k : ApplePS2Keyboard) := (_extendCount k, _lastdata k, _keyBitVector k, _PS2flags k).
Definition scan_state (k : ApplePS2Keyboard) := (_ringBuffer k, decoder_fields k).

(** What handling a packet may change besides the trace. *)
Record mframe (w w' : KWorld) : Prop := {
  mf_inv : inv w -> inv w';
  mf_scan : scan_state (kbd w') = scan_state (kbd w);
  mf_macros : _macroInversion (kbd w') = _macroInversion (kbd w);
}.

#[local] Instance mframe_preorder : PreOrder mframe.
Proof.
  split; [by split|]. intros w1 w2 w3 [A1 B1 C1] [A2 B2 C2]. split; [auto|congruence|congruence].
Qed.

Lemma dframe_mframe w w' : dframe w w' -> mframe w w'.
Proof.
  intros Hd. pose proof Hd as [(m & t & f & E) _ _]. split; [by apply dframe_inv|by rewrite E|by rewrite E].
Qed.

Abbreviation msafe := (safe inv mframe).

Lemma msafe_bind {A B} (m : M KWorld A) (f : A -> M KWorld B) Q Q' :
  msafe m Q -> (forall a, Q a -> msafe (f a) Q') -> msafe (m ≫= f) Q'.
Proof. apply safe_bind; [apply _|]. intros w w' []. auto. Qed.

Lemma msafe_dispatch p : packet_ok p -> msafe (dispatchKeyboardEventWithPacket env p) (fun _ => True).
Proof.
  intros Hp w Hw. destruct (dsafe_dispatch w Hw p Hp w ltac:(reflexivity)) as (a & w' & E & Hd & _).
  exists a, w'. split; [done|]. split; [by apply dframe_mframe|done].
Qed.

Lemma msafe_emit e : msafe (kemit e) (fun _ => True).
Proof. apply safe_modify. intros w _. apply dframe_mframe, dframe_emit. Qed.

Lemma msafe_current c : c = 0 -> msafe (setk (fun k => k <| _macroCurrent := c |>)) (fun _ => True).
Proof.
  intros ->. apply safe_modify. intros w Hw. split; [|done|done]. intros _. unfold inv in *. simpl.
  destruct Hw. split; simpl; try done. repeat case_match; try done. intuition lia.
Qed.

(** The macro machinery is only entered with a macro buffer. *)
Definition has_macros (w : KWorld) : Prop := inv w /\ is_Some (_macroInversion (kbd w)) /\ is_Some (_macroBuffer (kbd w)).

Lemma macro_facts w : has_macros w -> exists ms b, _macroInversion (kbd w) = Some ms /\ _macroBuffer (kbd w) = Some b /\
  Forall macro_ok ms /\ Z.of_nat (length b) = macro_max ms * 16 /\ Forall is_u8 b /\
  0 <= _macroCurrent (kbd w) /\ 2 * _macroCurrent (kbd w) < macro_max ms /\ macro_max ms < 134217728.
Proof.
  intros (Hw & [ms Hm] & [b Hb]). exists ms, b. destruct Hw. rewrite Hm, Hb in *. unfold kPacketLength in *. intuition lia.
Qed.

Lemma invertBuffer_ok w : has_macros w ->
  exists w', dispatchInvertBuffer env w = Done (tt, w') /\ mframe w w' /\
    _macroCurrent (kbd w') = 0 /\ _macroBuffer (kbd w') = _macroBuffer (kbd w).
Proof.
  intros Hw. destruct (macro_facts w Hw) as (ms & b & Hm & Hb & _ & Hl & H8 & Hc & Hc2 & _). destruct Hw as [Hw _].
  unfold dispatchInvertBuffer, macro_buffer, getk. munfold. rewrite Hb. cbn beta iota.
  assert (forall n b, (16 * n <= length b)%nat -> Forall is_u8 b ->
    safe (dframe w) dframe (dispatch_buffer env n b) (fun _ => True)) as Hds.
  { intros n. induction n as [|n IH]; intros b' Hl' H8'; [by apply safe_ret; [apply _|]|]. cbn [dispatch_buffer].
    eapply dsafe_bind; [apply dsafe_dispatch; [done|split; [lia|done]]|]. intros _ _.
    apply IH; [rewrite length_drop; change (Z.to_nat kPacketLength) with 16%nat; lia|by apply Forall_drop]. }
  destruct (Hds (Z.to_nat (_macroCurrent (kbd w))) b ltac:(lia) H8 w ltac:(reflexivity)) as ([] & w1 & E & Hd & _).
  rewrite E. cbn beta iota. eexists. split; [reflexivity|]. pose proof (dframe_inv _ _ Hd Hw) as Hi1.
  destruct Hd as [(m & t & f & Ek) _ _]. split; [|split; [done|simpl; by rewrite Ek]].
  split; [|simpl; by rewrite Ek|simpl; by rewrite Ek]. intros _. unfold inv in *. simpl.
  destruct Hi1. split; simpl; try done. repeat case_match; try done. intuition lia.
Qed.

Lemma read_time_ok p off : 0 <= off -> off + 8 <= Z.of_nat (length p) -> exists t, read_time p off = Done t.
Proof.
  intros H1 H2. unfold read_time. rewrite (proj2 (Z.ltb_ge off 0)), (proj2 (Z.ltb_ge _ (off + 8))) by lia. by eexists.
Qed.

Lemma too_late_ok w now : has_macros w -> 0 < _macroCurrent (kbd w) ->
  exists b, macro_too_late env now w = Done (b, w).
Proof.
  intros Hw Hc0. destruct (macro_facts w Hw) as (ms & b & Hm & Hb & _ & Hl & _ & Hc & Hc2 & _).
  unfold macro_too_late, macro_buffer, getk. munfold. rewrite Hb. cbn beta iota. unfold id.
  destruct (read_time_ok b ((_macroCurrent (kbd w) - 1) * kPacketLength + kPacketTimeOffset)) as [t ->];
    unfold kPacketLength, kPacketTimeOffset; try lia. by eexists.
Qed.

Lemma compareMacro_ok b d n i : 0 <= i ->
  (i + Z.of_nat n) * 16 <= Z.of_nat (length b) -> 8 + 2 * (i + Z.of_nat n) <= Z.of_nat (length d) ->
  exists r, compareMacro b d i n = Done r.
Proof.
  revert i. induction n as [|n IH]; intros i Hi Hb Hd; [by eexists|]. cbn [compareMacro].
  unfold compareMacro_at, kPacketLength, kSequenceBytesOffset, kPacketKeyDataLength. change (2 + 6 + 8) with 16.
  destruct (aget_ok b (i * 16)) as (x0 & -> & _); [lia|]. destruct (aget_ok d (8 + i * 2)) as (y0 & -> & _); [lia|].
  cbn [mbind outcome_bind]. destruct (negb (x0 =? y0)); cbn [mbind outcome_bind]; [by eexists|].
  destruct (aget_ok b (i * 16 + 1)) as (x1 & -> & _); [lia|]. destruct (aget_ok d (8 + i * 2 + 1)) as (y1 & -> & _); [lia|].
  cbn [mbind outcome_bind]. destruct (x1 =? y1); [|by eexists]. apply IH; lia.
Qed.

Lemma macro_modifiers_ok d mods : 8 <= Z.of_nat (length d) -> exists r, macro_modifiers d mods = Done r.
Proof.
  intros Hd. unfold macro_modifiers, kModifierBytesOffset.
  destruct (aget_ok d 4) as (? & -> & _); [lia|]. destruct (aget_ok d (4 + 1)) as (? & -> & _); [lia|].
  destruct (aget_ok d (4 + 2)) as (? & -> & _); [lia|]. destruct (aget_ok d (4 + 3)) as (? & -> & _); [lia|].
  cbn [mbind outcome_bind]. by eexists.
Qed.

Lemma macro_max_le ms d : d ∈ ms -> Z.of_nat (length d) - 8 <= macro_max ms.
Proof.
  unfold macro_max, kPrefixBytes. assert (forall (l : list (list Z)) acc, acc <= fold_left (fun m d => Z.max m (Z.of_nat (length d) - 8)) l acc /\
    (forall d, d ∈ l -> Z.of_nat (length d) - 8 <= fold_left (fun m d => Z.max m (Z.of_nat (length d) - 8)) l acc)) as Hm.
  { induction l as [|x l IH]; intros acc; simpl; [split; [lia|by intros d' ?%elem_of_nil]|].
    destruct (IH (Z.max acc (Z.of_nat (length x) - 8))) as [H1 H2]. split; [lia|].
    intros d' [->|Hd]%elem_of_cons; [lia|by apply H2]. }
  apply (Hm ms 0).
Qed.

Lemma macro_buffer_ok w b : _macroBuffer (kbd w) = Some b -> macro_buffer w = Done (b, w).
Proof. intros E. unfold macro_buffer, getk. munfold. by rewrite E. Qed.

(** A completed macro: the output bytes replace the first packet. *)
Lemma macro_fire_ok w b d : has_macros w -> _macroBuffer (kbd w) = Some b -> macro_ok d -> 16 <= Z.of_nat (length b) ->
  exists w', (o0 ← lift (aget d kOutputBytesOffset);
       o1 ← lift (aget d (kOutputBytesOffset + 1));
       buffer ← lift (aset b 0 o0);
       buffer ← lift (aset buffer 1 o1);
       setk (fun k => k <| _macroBuffer := Some buffer |>);;
       dispatchKeyboardEventWithPacket env buffer;;
       cancelTimer TMacro;;
       setk (fun k => k <| _macroCurrent := 0 |>);;
       mret true) w = Done (true, w') /\ mframe w w'.
Proof.
  intros Hw Hb [Hv Hd8] Hl. unfold valid_macro, kMinMacroInversion in Hv. bool_hyps.
  destruct (macro_facts w Hw) as (ms & b' & Hm & Hb' & Hms & Hlb & H8 & Hc & Hc2 & Hmax).
  assert (b' = b) as -> by congruence. unfold kOutputBytesOffset.
  destruct (aget_ok d 2) as (o0 & E0 & L0); [lia|]. destruct (aget_ok d (2 + 1)) as (o1 & E1 & L1); [lia|].
  pose proof (Forall_lookup_1 _ _ _ _ Hd8 L0) as U0. pose proof (Forall_lookup_1 _ _ _ _ Hd8 L1) as U1.
  munfold. rewrite E0. cbn beta iota. rewrite E1. cbn beta iota. rewrite aset_ok by lia. cbn beta iota.
  rewrite aset_ok by (rewrite length_insert; lia). cbn beta iota.
  set (b2 := <[_:=o1]> _).
  assert (Forall is_u8 b2) as H82 by (unfold b2; do 2 (apply Forall_insert; [|done]); done).
  assert (length b2 = length b) as Hl2 by (unfold b2; by rewrite !length_insert).
  pose (w1 := w <| kbd := (kbd w) <| _macroBuffer := Some b2 |> |>).
  assert (mframe w w1) as Hf1.
  { split; [|done|done]. intros _. destruct Hw as [Hw _]. unfold inv in *. unfold w1. simpl. destruct Hw. split; simpl; try done.
    rewrite Hm. rewrite Hl2. unfold kPacketLength. intuition lia. }
  assert (packet_ok b2) as Hp by (split; [lia|done]).
  destruct (msafe_dispatch b2 Hp w1) as (r & w2 & E2 & Hf2 & _); [by apply Hf1; apply Hw|].
  unfold setk at 1, modify at 1. fold w1. cbn beta iota. rewrite E2. cbn beta iota.
  assert (inv w2) as Hi2 by (apply Hf2, Hf1, Hw).
  destruct (msafe_emit (KCancelTimer TMacro) w2 Hi2) as ([] & w3 & E3 & Hf3 & _).
  unfold cancelTimer. rewrite E3. cbn beta iota.
  destruct (msafe_current 0 eq_refl w3) as ([] & w4 & E4 & Hf4 & _); [by apply Hf3|].
  rewrite E4. eexists. split; [reflexivity|]. by do 3 (etrans; [eassumption|]).
Qed.

Lemma match_macros_ok l w : has_macros w -> Forall macro_ok l ->
  (forall ms d, _macroInversion (kbd w) = Some ms -> d ∈ l -> Z.of_nat (length d) - 8 <= macro_max ms) ->
  exists r w', match_macros env l (_macroCurrent (kbd w) + 1) w = Done (r, w') /\ mframe w w' /\ (r = false -> w' = w).
Proof.
  intros Hw Hl Hmax. destruct (macro_facts w Hw) as (ms & b & Hm & Hb & _ & Hlb & H8 & Hc & Hc2 & Hmb).
  induction Hl as [|d l Hd Hl IH]; [by exists false, w|].
  assert (exists r w', match_macros env l (_macroCurrent (kbd w) + 1) w = Done (r, w') /\ mframe w w' /\ (r = false -> w' = w))
    as Hrec by (apply IH; intros ms' d' E Hd'; apply (Hmax ms' d' E), elem_of_cons; auto).
  pose proof (Hmax ms d Hm ltac:(apply elem_of_cons; auto)) as Hdm. clear IH Hmax.
  cbn [match_macros]. unfold kPrefixBytes, kPacketKeyDataLength. set (cur := _macroCurrent (kbd w)) in *.
  destruct (Z.leb_spec ((cur + 1) * 2) (Z.of_nat (length d) - 8)) as [Hle|Hgt]; cbn [negb]; [|exact Hrec].
  rewrite (bind_done _ _ _ _ _ (macro_buffer_ok w b Hb)).
  destruct (compareMacro_ok b d (Z.to_nat (cur + 1)) 0) as [same Es]; [lia|lia|lia|].
  unfold mbind at 1, M_bind at 1, lift at 1. rewrite Es. cbn beta iota.
  destruct same; cbn [negb]; [|exact Hrec].
  destruct (Z.eqb_spec ((cur + 1) * 2) (Z.of_nat (length d) - 8)) as [Heq|Hne].
  - unfold mbind at 1, M_bind at 1, getk at 1, gets at 1.
    destruct (macro_modifiers_ok d (_PS2modifierState (kbd w))) as [ok Eo]; [lia|].
    unfold mbind at 1, M_bind at 1, lift at 1. rewrite Eo. cbn beta iota.
    destruct ok; cbn [negb]; [|exact Hrec].
    destruct (macro_fire_ok w b d Hw Hb Hd) as (w' & E' & Hf'); [lia|]. exists true, w'. split; [exact E'|done].
  - unfold getk, setk, cancelTimer, setTimerTimeout, kemit. munfold. eexists true, _. split; [reflexivity|].
    split; [|done]. split; [|done|done]. intros Hi. unfold inv in *. simpl. fold cur.
    assert (s32 (cur + 1) = cur + 1) as -> by (unfold s32; rewrite Z.mod_small; lia).
    destruct Hi. split; simpl; try done; [lia|]. rewrite Hm, Hb. unfold kPacketLength. intuition lia.
Qed.

(** A packet as the queue and the stack hold it. *)
Definition packet16 (p : list Z) : Prop := length p = 16%nat /\ Forall is_u8 p.

Lemma packet16_ok p : packet16 p -> packet_ok p.
Proof. intros [H1 H2]. split; [lia|done]. Qed.

Lemma memcpy_ok b off vs : 0 <= off -> off + Z.of_nat (length vs) <= Z.of_nat (length b) ->
  exists b', memcpy b off vs = Done b' /\ length b' = length b /\ (Forall is_u8 b -> Forall is_u8 vs -> Forall is_u8 b').
Proof.
  intros Ho Hl. unfold memcpy. rewrite (proj2 (Z.ltb_ge off 0)), (proj2 (Z.ltb_ge _ (off + _))) by lia. simpl.
  eexists. split; [reflexivity|]. unfold splice. split.
  - rewrite !length_app, length_take, length_drop. lia.
  - intros Hb Hv. apply Forall_app. split; [by apply Forall_take|]. apply Forall_app. split; [done|by apply Forall_drop].
Qed.

(** Storing the packet behind the pending ones. *)
Lemma macro_store_ok w p : has_macros w -> packet16 p -> exists b b',
  _macroBuffer (kbd w) = Some b /\ memcpy b (_macroCurrent (kbd w) * kPacketLength) p = Done b' /\
  mframe w (w <| kbd := (kbd w) <| _macroBuffer := Some b' |> |>).
Proof.
  intros Hw [Hp1 Hp8]. destruct (macro_facts w Hw) as (ms & b & Hm & Hb & _ & Hlb & H8 & Hc & Hc2 & Hmb).
  destruct (memcpy_ok b (_macroCurrent (kbd w) * kPacketLength) p) as (b' & E & Hl' & H8');
    [unfold kPacketLength; lia|unfold kPacketLength; lia|].
  exists b, b'. split; [done|]. split; [done|]. split; [|done|done]. intros _. destruct Hw as [Hw _].
  unfold inv in *. simpl. destruct Hw. split; simpl; try done. rewrite Hm. rewrite Hl'. unfold kPacketLength.
  intuition lia.
Qed.

Lemma msafe_invert p : packet16 p ->
  safe (fun w => inv w /\ is_Some (_macroInversion (kbd w))) mframe (invertMacros env p) (fun _ => True).
Proof.
  intros Hp w [Hw [ms Hms]]. unfold invertMacros. unfold mbind at 1, M_bind at 1, getk at 1, gets at 1. unfold id.
  rewrite Hms. destruct (negb (_macroTimer (kbd w)) || bool_decide (_macroBuffer (kbd w) = None)) eqn:Eg.
  { exists false, w. done. }
  apply orb_false_iff in Eg as [_ Eg%bool_decide_eq_false]. destruct (_macroBuffer (kbd w)) as [b0|] eqn:Eb0; [|done].
  assert (has_macros w) as Hhm by (split; [done|]; rewrite Hms, Eb0; by split).
  assert (exists w1, (if _macroCurrent (kbd w) >? 0 then
           now ← lift (read_time p kPacketTimeOffset);
           late ← macro_too_late env now;
           if late : bool then dispatchInvertBuffer env else mret tt
         else mret tt) w = Done (tt, w1) /\ mframe w w1 /\ has_macros w1) as (w1 & E1 & Hf1 & Hhm1).
  { destruct (_macroCurrent (kbd w) >? 0) eqn:Ec; [|by exists w]. bool_hyps.
    destruct (read_time_ok p kPacketTimeOffset) as [now En]; [done|rewrite (proj1 Hp); done|].
    destruct (too_late_ok w now Hhm) as [late El]; [lia|].
    unfold mbind at 1, M_bind at 1, lift. rewrite En. cbn beta iota. rewrite (bind_done _ _ _ _ _ El).
    destruct late; [|by exists w]. destruct (invertBuffer_ok w Hhm) as (w1 & E1 & Hf1 & _ & Hb1).
    exists w1. split; [done|]. split; [done|]. destruct Hf1 as [A B C]. split; [by apply A|]. rewrite C, Hb1, Hms, Eb0. by split. }
  rewrite (bind_done _ _ _ _ _ E1). destruct (macro_store_ok w1 p Hhm1 Hp) as (b & b' & Hb & Em & Hf2).
  rewrite (bind_done _ _ _ _ _ (macro_buffer_ok w1 b Hb)).
  unfold mbind at 1, M_bind at 1, getk at 1, gets at 1. unfold mbind at 1, M_bind at 1, lift at 1. rewrite Em. cbn beta iota.
  pose (w2 := w1 <| kbd := (kbd w1) <| _macroBuffer := Some b' |> |>). fold w2 in Hf2.
  rewrite (bind_done _ _ w1 tt w2) by done.
  assert (has_macros w2) as Hhm2.
  { destruct Hhm1 as (A & B & C). split; [by apply Hf2|]. by split. }
  assert (_macroInversion (kbd w2) = Some ms) as Hms2 by (rewrite (mf_macros _ _ Hf2), (mf_macros _ _ Hf1); done).
  destruct (match_macros_ok ms w2 Hhm2) as (r & w3 & E3 & Hf3 & Hsame).
  { destruct (macro_facts w2 Hhm2) as (ms' & ? & Hm' & _ & Hok & _). by assert (ms' = ms) as -> by congruence. }
  { intros ms' d Hm' Hd. assert (ms' = ms) as -> by congruence. by apply macro_max_le. }
  change (_macroCurrent (kbd w1)) with (_macroCurrent (kbd w2)). rewrite (bind_done _ _ _ _ _ E3).
  assert (mframe w w3) as Hf by (by do 2 (etrans; [eassumption|])).
  destruct r; [by exists true, w3|]. rewrite (Hsame eq_refl) in *. clear Hsame E3 Hf3.
  unfold mbind at 1, M_bind at 1, getk at 1, gets at 1. destruct (_macroCurrent (kbd w2) >? 0).
  - destruct (invertBuffer_ok w2 Hhm2) as (w4 & E4 & Hf4 & _). rewrite (bind_done _ _ _ _ _ E4).
    exists false, w4. split; [done|]. split; [by etrans|done].
  - exists false, w2. done.
Qed.

Lemma msafe_invert_or_dispatch p : packet16 p -> msafe (invert_or_dispatch env p) (fun _ => True).
Proof.
  intros Hp w Hw. unfold invert_or_dispatch. unfold mbind at 1, M_bind at 1, getk at 1, gets at 1.
  assert (exists r w1, (if bool_decide (is_Some (_macroInversion (kbd w))) then invertMacros env p else mret false) w =
    Done (r, w1) /\ mframe w w1) as (r & w1 & E1 & Hf1).
  { destruct (bool_decide _) eqn:Eb; [|by exists false, w]. apply bool_decide_eq_true in Eb.
    destruct (msafe_invert p Hp w) as (r & w1 & E & Hf & _); [done|]. eauto. }
  rewrite (bind_done _ _ _ _ _ E1). destruct r; [by exists tt, w1|].
  destruct (msafe_dispatch p (packet16_ok _ Hp) w1) as (r & w2 & E2 & Hf2 & _); [by apply Hf1|].
  rewrite (bind_done _ _ _ _ _ E2). exists tt, w2. split; [done|]. split; [by etrans|done].
Qed.

(** ** Every entry point *)

Definition kframe (w w' : KWorld) : Prop := inv w -> inv w'.
#[local] Instance kframe_preorder : PreOrder kframe.
Proof. split; unfold kframe; [by intros w|]. intros w1 w2 w3. auto. Qed.
Abbreviation ksafe := (safe inv kframe).

Lemma ksafe_of_msafe {A} (m : M KWorld A) Q : msafe m Q -> ksafe m Q.
Proof. intros Hm w Hw. destruct (Hm w Hw) as (a & w' & E & [Hf _ _] & HQ). eauto 6. Qed.

Lemma ksafe_bind {A B} (m : M KWorld A) (f : A -> M KWorld B) Q Q' :
  ksafe m Q -> (forall a, Q a -> ksafe (f a) Q') -> ksafe (m ≫= f) Q'.
Proof. apply safe_bind; [apply _|]. auto. Qed.

Lemma ksafe_seq {A B} (m : M KWorld A) (f : A -> M KWorld B) Q' :
  ksafe m (fun _ => True) -> (forall a, ksafe (f a) Q') -> ksafe (m ≫= f) Q'.
Proof. intros Hm Hf. eapply ksafe_bind; [exact Hm|auto]. Qed.

Lemma ksafe_ret {A} (a : A) (Q : A -> Prop) : Q a -> ksafe (mret a) Q.
Proof. apply safe_ret, _. Qed.

Lemma ksafe_get {A} (f : ApplePS2Keyboard -> A) (Q : A -> Prop) :
  (forall k, kb_wf k -> Q (f k)) -> ksafe (getk f) Q.
Proof. intros HQ. apply safe_gets; [apply _|]. intros w. apply HQ. Qed.

Lemma ksafe_lift {A} (o : outcome A) (Q : A -> Prop) : (exists a, o = Done a /\ Q a) -> ksafe (lift o) Q.
Proof. apply safe_lift, _. Qed.

Lemma ksafe_set f : (forall k, kb_wf k -> kb_wf (f k)) -> ksafe (setk f) (fun _ => True).
Proof. intros Hf. apply safe_modify. intros w _ Hw. apply Hf, Hw. Qed.

Lemma ksafe_emit e : ksafe (kemit e) (fun _ => True).
Proof. apply ksafe_of_msafe, msafe_emit. Qed.

Lemma ksafe_when b (m : M KWorld unit) : ksafe m (fun _ => True) -> ksafe (when b m) (fun _ => True).
Proof. apply safe_when, _. Qed.

Lemma ksafe_forM {A} (l : list A) (f : A -> M KWorld unit) :
  (forall x, x ∈ l -> ksafe (f x) (fun _ => True)) -> ksafe (forM_ l f) (fun _ => True).
Proof. apply safe_forM; [apply _|]. auto. Qed.

Lemma ksafe_clock : ksafe (clock_get_uptime env) (fun _ => True).
Proof. intros w Hw. do 2 eexists. split; [reflexivity|]. split; [by intros ?|done]. Qed.

Lemma slice_u8 (l : list Z) i n : Forall is_u8 l -> Forall is_u8 (slice l i n).
Proof. intros Hl. by apply Forall_take, Forall_drop. Qed.

Lemma elems_u8 (rb : RingBuffer Z) : Forall is_u8 (m_buffer rb) -> Forall is_u8 (elems rb).
Proof.
  intros Hb. unfold elems. case_match; [by apply slice_u8|].
  apply Forall_app. split; [by apply Forall_drop|by apply Forall_take].
Qed.

(** [delivers ps w w']: the packets [ps] were handled one after the other, each
    before it left the ring buffer. *)
Definition handle_packet (p : list Z) : M KWorld unit :=
  p0 ← lift (aget p 0); if negb (p0 =? 0) then invert_or_dispatch env p else mret tt.

Definition pop_packet (w : KWorld) : KWorld :=
  w <| kbd := (kbd w) <| _ringBuffer := advanceTail ringSize (_ringBuffer (kbd w)) kPacketLength |> |>.

Inductive delivers : list (list Z) -> KWorld -> KWorld -> Prop :=
| delivers_nil w : delivers [] w w
| delivers_cons p ps w w1 w' :
    handle_packet p w = Done (tt, w1) -> delivers ps (pop_packet w1) w' -> delivers (p :: ps) w w'.

Lemma handle_packet_ok p : packet16 p -> msafe (handle_packet p) (fun _ => True).
Proof.
  intros Hp. destruct (aget_ok p 0) as (p0 & E & _); [rewrite (proj1 Hp); lia|].
  apply (msafe_bind _ _ (fun _ => True)); [apply safe_lift; [apply _|eauto]|]. intros b _.
  case_match; [by apply msafe_invert_or_dispatch|by apply safe_ret; [apply _|]].
Qed.

Lemma queue_packet16 rb ws q : queue_of ringSize kPacketLength rb (ws :: q) -> Forall is_u8 (m_buffer rb) ->
  packet16 (slice (elems rb) 0 (Z.to_nat kPacketLength)).
Proof.
  intros Hq H8. split; [|by apply slice_u8, elems_u8].
  destruct (queue_head _ _ _ _ _ Hq) as (_ & _ & [Hl _] & _). unfold kPacketLength in *. lia.
Qed.

(** The loop of [packetReady] hands out the queue in order and empties it. *)
Lemma packetReady_loop_ok n w q : inv w -> queue_of ringSize kPacketLength (_ringBuffer (kbd w)) q -> (length q <= n)%nat ->
  exists ps w', packetReady_loop env n w = Done (tt, w') /\ delivers ps w w' /\ Forall2 (made_by kPacketLength) ps q /\
    queue_of ringSize kPacketLength (_ringBuffer (kbd w')) [] /\ inv w' /\
    decoder_fields (kbd w') = decoder_fields (kbd w).
Proof.
  revert w q. induction n as [|n IH]; intros w [|ws q] Hw Hq Hn; try (simpl in Hn; lia); cbn [packetReady_loop];
    unfold mbind at 1, M_bind at 1, getk at 1, gets at 1.
  1, 2: rewrite count_len, (queue_of_len _ _ _ _ Hq) by apply Hw; simpl; exists [], w;
    split; [done|split; [constructor|by split]].
  destruct (queue_head _ _ _ _ _ Hq) as (Ec & Et & Hm & Hq'). pose proof (queue_packet16 _ _ _ Hq (kw_ring8 _ Hw)) as Hp.
  set (p := slice _ _ _) in *.
  rewrite Ec. unfold mbind at 1, M_bind at 1, lift at 1. rewrite Et. cbn beta iota.
  destruct (handle_packet_ok p Hp w Hw) as ([] & w1 & E1 & [Hi1 Hs1 _] & _). specialize (Hi1 Hw).
  assert (E1' := E1). unfold handle_packet, mbind, M_bind, lift in E1'.
  destruct (aget p 0) as [p0| |] eqn:Ep; [|done|done]. cbn beta iota in E1'.
  unfold mbind at 1, M_bind at 1, lift at 1. cbn beta iota. rewrite (bind_done _ _ _ _ _ E1').
  rewrite (bind_done _ _ w1 tt (pop_packet w1)) by done. apply pair_equal_spec in Hs1 as [Hr1 Hs1].
  destruct (IH (pop_packet w1) q) as (ps & w' & E & Hd & Hps & Hq2 & Hi2 & Hs2).
  - unfold inv, pop_packet in *. simpl. destruct Hi1. split; simpl; try done. rewrite Hr1. apply Hq'.
  - simpl. by rewrite Hr1.
  - simpl in Hn. lia.
  - exists (p :: ps), w'. split; [done|]. split; [by econstructor|]. split; [by constructor|].
    split; [done|]. split; [done|]. rewrite Hs2. exact Hs1.
Qed.

Lemma queue_bound (rb : RingBuffer Z) q : queue_of ringSize kPacketLength rb q -> (length q <= 31)%nat.
Proof.
  intros Hq. pose proof (queue_of_len _ _ _ _ Hq) as Hl. destruct (aligned_len _ _ _ (proj1 Hq)) as (_ & Hb & _).
  unfold ringSize, kPacketLength in *. lia.
Qed.

Lemma ksafe_packetReady : ksafe (packetReady env) (fun _ => True).
Proof.
  intros w Hw. destruct (aligned_queue _ _ _ (kw_ring _ Hw)) as [q Hq]. pose proof (queue_bound _ _ Hq).
  destruct (packetReady_loop_ok 32 w q Hw Hq) as (ps & w' & E & _ & _ & _ & Hi & _); [lia|].
  exists tt, w'. split; [exact E|]. split; [by intros _|done].
Qed.

(** Packets wait for the macro only while there are macros and a buffer. *)
Lemma pending_macros w : inv w -> 0 < _macroCurrent (kbd w) -> has_macros w.
Proof.
  intros Hw Hc. split; [done|]. pose proof (kw_buffer _ Hw) as Hb. destruct (_macroInversion (kbd w)), (_macroBuffer (kbd w)); try lia.
  split; by eexists.
Qed.

Lemma ksafe_macroTimer : ksafe (onMacroTimer env) (fun _ => True).
Proof.
  apply ksafe_seq; [apply ksafe_packetReady|intros _]. intros w Hw.
  unfold mbind at 1, M_bind at 1, getk at 1, gets at 1. destruct (_macroCurrent (kbd w) >? 0) eqn:Ec; [|by exists tt, w].
  bool_hyps. pose (w1 := w <| ticks := S (ticks w) |>).
  rewrite (bind_done _ _ w (u64 (uptime env (ticks w))) w1) by done.
  assert (has_macros w1) as Hm by (apply pending_macros; [done|simpl; lia]).
  destruct (too_late_ok w1 (u64 (uptime env (ticks w))) Hm) as [late El]; [simpl; lia|].
  rewrite (bind_done _ _ _ _ _ El). destruct late; [|exists tt, w1; split; [done|]; split; [by intros ?|done]].
  destruct (invertBuffer_ok w1 Hm) as (w2 & E2 & [Hf _ _] & _). exists tt, w2. split; [done|]. split; [|done].
  intros _. by apply Hf.
Qed.
End safety.

(** ** Bytes and drains in any order *)

(** What reaches the driver between two configurations: a byte at interrupt
    time, or the work loop draining the ring buffer. *)
Inductive KInput := IByte (data : Z) | IDrain.

Definition input_ok (i : KInput) : Prop := match i with IByte data => is_u8 data | IDrain => True end.

Fixpoint run_inputs (env : KEnv) (ins : list KInput) : M KWorld (list PS2InterruptResult) :=
  match ins with
  | [] => mret []
  | IByte data :: ins => r ← interruptOccurred env data; rs ← run_inputs env ins; mret (r :: rs)
  | IDrain :: ins => packetReady env;; run_inputs env ins
  end.

(** The same on the abstract decoder, whose queue holds the two code bytes of
    each packet and loses what does not fit in 31 places. *)
Fixpoint decode_inputs (breakless : Z -> bool) (ins : list KInput) (d : Decoder) (q : list (Z * Z))
  : Decoder * list (Z * Z) * list PS2InterruptResult :=
  match ins with
  | [] => (d, q, [])
  | IByte data :: ins =>
      let '(d', p) := decode_byte breakless d data in
      let '(d2, q2, rs) := decode_inputs breakless ins d' (match p with Some c => Fifo.push 31 q c | None => q end) in
      (d2, q2, result_of p :: rs)
  | IDrain :: ins => decode_inputs breakless ins d []
  end.

Definition stamped (c : Z * Z) (t : Z) : list (Z * Z) := packet_writes c.1 c.2 t.

(** The ring buffer holds packets with these codes, each with a time stamp. *)
Definition queued (rb : RingBuffer Z) (codes : list (Z * Z)) : Prop :=
  exists times, length times = length codes /\ queue_of ringSize kPacketLength rb (zip_with stamped codes times).

Lemma push_stamped codes times c t : length times = length codes ->
  exists times', length times' = length (Fifo.push 31 codes c) /\
    Fifo.push 31 (zip_with stamped codes times) (stamped c t) = zip_with stamped (Fifo.push 31 codes c) times'.
Proof.
  intros Hl. unfold Fifo.push. rewrite length_zip_with, Hl, Nat.min_id. case_match; [|by exists times].
  exists (times ++ [t]). rewrite !length_app, Hl. split; [done|]. by rewrite zip_with_app.
Qed.

Lemma breakless_flags k k' : _PS2flags k' = _PS2flags k -> breakless_of k' = breakless_of k.
Proof. intros E. unfold breakless_of. by rewrite E. Qed.

Section session.
  Context (env : KEnv).
  Context (Hreply_bool : forall evs m b, exists b', reply env evs m (PBool b) = PBool b').
  Context (Hreply_info : forall evs m i, exists i', reply env evs m (PKeyInfo i) = PKeyInfo i').

Lemma drain_ok w d codes : kb_wf (kbd w) -> decodes (kbd w) d -> queued (_ringBuffer (kbd w)) codes ->
  exists w', packetReady env w = Done (tt, w') /\ kb_wf (kbd w') /\ decodes (kbd w') d /\
    queued (_ringBuffer (kbd w')) [] /\ _PS2flags (kbd w') = _PS2flags (kbd w).
Proof.
  intros Hw [D1 D2 D3] (times & Hl & Hq). pose proof (queue_bound _ _ Hq).
  destruct (packetReady_loop_ok env Hreply_bool Hreply_info 32 w _ Hw Hq) as (ps & w' & E & _ & _ & Hq' & Hi & Hs); [lia|].
  injection Hs as S1 S2 S3 S4. exists w'. split; [exact E|]. split; [done|]. split.
  { split; [congruence|congruence|]. intros n Hn. rewrite S3. by apply D3. }
  split; [by exists []|done].
Qed.

Lemma byte_ok w d codes data : is_u8 data -> kb_wf (kbd w) -> decodes (kbd w) d -> queued (_ringBuffer (kbd w)) codes ->
  let '(d', p) := decode_byte (breakless_of (kbd w)) d data in
  exists w', interruptOccurred env data w = Done (result_of p, w') /\ kb_wf (kbd w') /\ decodes (kbd w') d' /\
    queued (_ringBuffer (kbd w')) (match p with Some c => Fifo.push 31 codes c | None => codes end) /\
    _PS2flags (kbd w') = _PS2flags (kbd w).
Proof.
  intros Hd Hw Hdec (times & Hl & Hq). pose proof (interrupt_refines env w d data _ Hw Hdec Hd Hq) as Hr.
  destruct (decode_byte _ d data) as [d' p]. destruct Hr as (w' & E & H1 & H2 & H3 & (e & l & v & rb & Ek & _)).
  exists w'. split; [done|]. split; [done|]. split; [done|]. split; [|by rewrite Ek].
  destruct p as [[p0 p1]|]; [|by exists times]. simpl in H3.
  destruct (push_stamped codes times (p0, p1) (u64 (uptime env (ticks w))) Hl) as (times' & Hl' & E').
  exists times'. split; [done|]. rewrite <- E'. exact H3.
Qed.
End session.

(** C11: Whatever bytes arrive and however the draining of the ring buffer
    interleaves with them, the interrupt routine returns what the abstract
    decoder returns, its decoding state (extended sequences, last byte, set of
    keys held) stays the decoder's, and the ring buffer holds the decoder's
    queue: repeats of a held key are dropped, E0/E1 sequences are assembled,
    acknowledgements are ignored and a full queue loses the newest packet. *)
Theorem scan_session env ins w d codes :
  (forall evs m b, exists b', reply env evs m (PBool b) = PBool b') ->
  (forall evs m i, exists i', reply env evs m (PKeyInfo i) = PKeyInfo i') ->
  kb_wf (kbd w) -> decodes (kbd w) d -> queued (_ringBuffer (kbd w)) codes -> Forall input_ok ins ->
  let '(d', codes', rs) := decode_inputs (breakless_of (kbd w)) ins d codes in
  exists w', run_inputs env ins w = Done (rs, w') /\ kb_wf (kbd w') /\ decodes (kbd w') d' /\
    queued (_ringBuffer (kbd w')) codes'.
Proof.
  intros Hb Hi Hw Hd Hq Hok. revert w d codes Hw Hd Hq.
  induction Hok as [|[data|] ins Hdata _ IH]; intros w d codes Hw Hd Hq; cbn [decode_inputs run_inputs].
  - by exists w.
  - pose proof (byte_ok env w d codes data Hdata Hw Hd Hq) as Hbyte. destruct (decode_byte _ d data) as [d1 p].
    destruct Hbyte as (w1 & E1 & Hw1 & Hd1 & Hq1 & Hf). specialize (IH w1 d1 _ Hw1 Hd1 Hq1).
    rewrite (breakless_flags _ _ Hf) in IH. destruct (decode_inputs _ ins d1 _) as [[d2 q2] rs].
    destruct IH as (w2 & E2 & IH). exists w2. split; [|done].
    rewrite (bind_done _ _ _ _ _ E1), (bind_done _ _ _ _ _ E2). done.
  - destruct (drain_ok env Hb Hi w d codes Hw Hd Hq) as (w1 & E1 & Hw1 & Hd1 & Hq1 & Hf).
    specialize (IH w1 d [] Hw1 Hd1 Hq1). rewrite (breakless_flags _ _ Hf) in IH.
    destruct (decode_inputs _ ins d []) as [[d2 q2] rs]. by rewrite (bind_done _ _ _ _ _ E1).
Qed.

(** [packetReady] hands out every packet of the ring buffer, in the order of
    arrival and with the bytes the interrupt routine wrote, each before it is
    removed; it ends with the buffer empty, after at most 31 packets. *)
Theorem packetReady_delivers env w q :
  (forall evs m b, exists b', reply env evs m (PBool b) = PBool b') ->
  (forall evs m i, exists i', reply env evs m (PKeyInfo i) = PKeyInfo i') ->
  kb_wf (kbd w) -> queue_of ringSize kPacketLength (_ringBuffer (kbd w)) q ->
  exists ps w', packetReady env w = Done (tt, w') /\ delivers env ps w w' /\
    Forall2 (made_by kPacketLength) ps q /\ elems (_ringBuffer (kbd w')) = [] /\ kb_wf (kbd w').
Proof.
  intros Hb Hi Hw Hq. pose proof (queue_bound _ _ Hq).
  destruct (packetReady_loop_ok env Hb Hi 32 w q Hw Hq) as (ps & w' & E & Hd & Hf & (Ha & bs & He & Hbs) & Hw' & _); [lia|].
  exists ps, w'. inversion Hbs; subst. done.
Qed.

(** A brightness key going down asks the firmware for the level of the table
    next to the current one: the neighbour, up or down, of the first level from
    the third entry on that is not below what the firmware reports, kept within
    the table; the key going up asks for nothing.  The backlight keys do the
    same on their own table, from its first entry on. *)
Theorem level_keys env w l n goingDown key :
  kb_wf (kbd w) ->
  (_brightnessLevels (kbd w) = Some l -> evaluateInteger env (kevs w) "KBQC" = Some n ->
   exists i v, first_level l 2 (_brightnessCount (kbd w)) (s32 (u32 n)) i /\
     l !! Z.to_nat (next_index 2 (_brightnessCount (kbd w)) i (key =? 0x90)) = Some v /\
     modifyScreenBrightness env key goingDown w =
       Done (tt, w <| kevs := kevs w ++ (if goingDown then [KAcpi "KBCM" (u32 v)] else []) |>)) /\
  (_backlightLevels (kbd w) = Some l -> evaluateInteger env (kevs w) "KKQC" = Some n ->
   exists i v, first_level l 0 (_backlightCount (kbd w)) (s32 (u32 n)) i /\
     l !! Z.to_nat (next_index 0 (_backlightCount (kbd w)) i (key =? 0x4e)) = Some v /\
     modifyKeyboardBacklight env key goingDown w =
       Done (tt, w <| kevs := kevs w ++ (if goingDown then [KAcpi "KKCM" (u32 v)] else []) |>)).
Proof.
  intros Hw. assert (w = w <| kevs := kevs w ++ [] |>) as Hsame by (rewrite app_nil_r; by destruct w).
  pose proof (kw_bright _ Hw) as Hbr. pose proof (kw_back _ Hw) as Hba.
  split; intros El En; rewrite El in *; [destruct Hbr as [Hlen Hc]|destruct Hba as [Hlen Hc]].
  - destruct (step_level_ok l (_brightnessCount (kbd w)) 2 (s32 (u32 n)) (key =? 0x90)) as (i & v & Hf & Es & Hv); [lia|done|].
    exists i, v. split; [done|]. split; [done|]. unfold modifyScreenBrightness, getk, kemit. munfold. rewrite En. cbn.
    rewrite El, Es. destruct goingDown; [done|]. by rewrite <- Hsame.
  - destruct (step_level_ok l (_backlightCount (kbd w)) 0 (s32 (u32 n)) (key =? 0x4e)) as (i & v & Hf & Es & Hv); [lia|done|].
    exists i, v. split; [done|]. split; [done|]. unfold modifyKeyboardBacklight, getk, kemit. munfold. rewrite En. cbn.
    rewrite El, Es. destruct goingDown; [done|]. by rewrite <- Hsame.
Qed.

(** ** The driver as [init] leaves it, and an environment *)

Lemma init_wf : kb_wf init.
Proof.
  split; try (vm_compute; intuition congruence || done).
  - split; [split; vm_compute; intuition congruence|unfold ringSize, kPacketLength; lia| | |];
      apply Z.mod_divide; done.
  - apply Forall_replicate. split; lia.
  - apply Forall_fmap, Forall_forall. intros n Hn%elem_of_seq. simpl. lia.
  - split; [done|]. apply (bool_decide_unpack (0 ∈ _actionSwipeUp init)). vm_compute. done.
  - split; [done|]. apply (bool_decide_unpack (0 ∈ _actionSwipeDown init)). vm_compute. done.
  - split; [done|]. apply (bool_decide_unpack (0 ∈ _actionSwipeLeft init)). vm_compute. done.
  - split; [done|]. apply (bool_decide_unpack (0 ∈ _actionSwipeRight init)). vm_compute. done.
Qed.

Definition idle_decoder : Decoder := mkDecoder 0 0 (fun _ => false).

Lemma init_decodes : decodes init idle_decoder.
Proof.
  split; [done|done|]. intros n Hn. unfold key_down. change (_keyBitVector init) with (replicate 16 0).
  destruct (unit_of n Hn) as (_ & Hu & _). rewrite lookup_replicate_2 by lia.
  apply Z.bits_0.
Qed.

Lemma init_queued : queued (_ringBuffer init) [].
Proof. exists []. split; [done|]. split; [apply init_wf|]. by exists []. Qed.

(** A machine whose receivers leave every message as it is, with no ACPI methods. *)
Definition quiet_env : KEnv := {|
  uptime := fun n => 1000 * Z.of_nat n; absolutetime_to_nanoseconds := id; reply := fun _ _ p => p;
  evaluateInteger := fun _ _ => None; validateObject := fun _ => false; evaluateLevels := fun _ => None;
  has_PS2K := false; getWorkLoop := true; alloc_gate := true; alloc_sleep_timer := true; alloc_macro_timer := true;
  rootDomain := true; hidSystem := true; version_major := 15; stack_time := 0; stack_bool := false;
|}.

Definition fresh_world : KWorld := mkKWorld init 0 [].

(** The Pause key: six bytes, two packets. *)
Definition pause_bytes : list KInput := IByte <$> [0xE1; 0x1D; 0x45; 0xE1; 0x9D; 0xC5].

Lemma scan_session_witness :
  exists w' d', run_inputs quiet_env pause_bytes fresh_world =
    Done ([kPS2IR_packetBuffering; kPS2IR_packetBuffering; kPS2IR_packetReady;
           kPS2IR_packetBuffering; kPS2IR_packetBuffering; kPS2IR_packetReady], w') /\
    decodes (kbd w') d' /\ queued (_ringBuffer (kbd w')) [(2, 0x45); (2, 0xC5)].
Proof.
  pose proof (scan_session quiet_env pause_bytes fresh_world idle_decoder []) as H.
  specialize (H ltac:(by eexists) ltac:(by eexists) init_wf init_decodes init_queued).
  assert (Forall input_ok pause_bytes) as Hok by (repeat constructor; lia). specialize (H Hok).
  destruct (decode_inputs _ _ _ _) as [[d' c] rs] eqn:E. destruct H as (w' & Er & _ & Hd & Hq).
  assert ((c, rs) = ([(2, 0x45); (2, 0xC5)],
    [kPS2IR_packetBuffering; kPS2IR_packetBuffering; kPS2IR_packetReady;
     kPS2IR_packetBuffering; kPS2IR_packetBuffering; kPS2IR_packetReady])) as [= -> ->].
  { transitivity (let '(_, c, rs) := decode_inputs (breakless_of (kbd fresh_world)) pause_bytes idle_decoder [] in (c, rs)).
    - by rewrite E.
    - vm_compute. reflexivity. }
  exists w', d'. split; [exact Er|]. split; [exact Hd|exact Hq].
Defined.

Lemma packetReady_delivers_witness :
  exists w1 ps w', interruptOccurred quiet_env 0x1E fresh_world = Done (kPS2IR_packetReady, w1) /\
    packetReady quiet_env w1 = Done (tt, w') /\ delivers quiet_env ps w1 w' /\
    Forall2 (made_by kPacketLength) ps [packet_writes 1 0x1E 0] /\ elems (_ringBuffer (kbd w')) = [].
Proof.
  pose proof (interrupt_refines quiet_env fresh_world idle_decoder 0x1E [] init_wf init_decodes ltac:(split; lia)) as H.
  destruct H as (w1 & E1 & Hw1 & _ & Hq1 & _); [split; [apply init_wf|by exists []]|].
  destruct (packetReady_delivers quiet_env w1 [packet_writes 1 0x1E 0]) as (ps & w' & E & Hd & Hf & He & _);
    [by eexists|by eexists|exact Hw1|exact Hq1|].
  exists w1, ps, w'. split; [exact E1|]. split; [exact E|]. split; [exact Hd|]. split; [exact Hf|exact He].
Defined.

(** A table of five levels, the two power-dependent defaults first; the firmware
    reports 40 and the key asks for more. *)
Definition level_env : KEnv := {|
  uptime := uptime quiet_env; absolutetime_to_nanoseconds := id; reply := reply quiet_env;
  evaluateInteger := fun _ _ => Some 40; validateObject := fun _ => true; evaluateLevels := fun _ => None;
  has_PS2K := true; getWorkLoop := true; alloc_gate := true; alloc_sleep_timer := true; alloc_macro_timer := true;
  rootDomain := true; hidSystem := true; version_major := 15; stack_time := 0; stack_bool := false;
|}.

Definition level_world : KWorld :=
  mkKWorld (init <| _brightnessLevels := Some [100; 50; 20; 40; 80] |> <| _brightnessCount := 5 |>) 0 [].

Lemma level_keys_witness : exists v, modifyScreenBrightness level_env 0x90 true level_world =
    Done (tt, level_world <| kevs := [KAcpi "KBCM" (u32 v)] |>) /\ v = 80.
Proof.
  assert (kb_wf (kbd level_world)) as Hw by (pose proof init_wf as []; split; try done; simpl; lia).
  destruct (proj1 (level_keys level_env level_world [100; 50; 20; 40; 80] 40 true 0x90 Hw) eq_refl eq_refl)
    as (i & v & (Hi & Hlow & Hhigh) & Hv & E).
  exists v. split; [exact E|]. simpl in Hi.
  assert (i = 3) as ->; [|by injection Hv].
  assert (i <> 2) by (intros ->; specialize (Hhigh 20 ltac:(simpl; lia) eq_refl); vm_compute in Hhigh; congruence).
  destruct (decide (i <= 3)); [lia|]. specialize (Hlow 3 40 ltac:(lia) eq_refl). vm_compute in Hlow. congruence.
Defined.
