(* ===== verification/KeyboardEntry.v ===== *)
(** * KeyboardEntry: configuration, the other entry points, and the driver as a
    transition system

    The parsers of the configuration strings (they always return, and read back
    what the documented formats write), the configuration of the driver, and
    the remaining entry points.  [keyboard_safe] puts them together: from a
    probed and started driver no sequence of entry points has undefined
    behaviour or fails to return. *)

From S2P Require Import Prelude RingBuffer PS2Defs Controller Config KeyMaps Keyboard KeyboardSpec.
From Stdlib Require Import Ascii.
From Stdlib Require String.

#[local] Open Scope string_scope.
#[local] Open Scope list_scope.
#[local] Open Scope Z_scope.

(** ** Parsing *)

Lemma parseHex_length n psz t1 t2 rest v :
  parseHex_from n psz t1 t2 = Some (rest, v) -> (String.length rest <= String.length psz)%nat.
Proof.
  revert n. induction psz as [|c psz IH]; intros n; simpl; [by intros [= <- _]|].
  destruct (_ || _); [by intros [= <- _]|]. destruct (hex_digit c); simpl; [|done]. intros E%IH. lia.
Qed.

Lemma skip_spaces_length s : (String.length (skip_spaces s) <= String.length s)%nat.
Proof. induction s as [|c s IH]; simpl; [done|]. repeat case_match; simpl in *; lia. Qed.

(** The loop of [parseAction] stays within the destination. *)
Lemma parseAction_loop_ok fuel psz dest i size :
  (String.length psz < fuel)%nat -> 0 <= i <= size -> Z.of_nat (length dest) = size ->
  exists ok dest' i', parseAction_loop fuel psz dest i size = Done (ok, dest', i') /\
    length dest' = length dest /\ i <= i' <= size.
Proof.
  revert psz dest i. induction fuel as [|fuel IH]; intros psz dest i Hf Hi Hd; [lia|].
  destruct psz as [|c psz]; cbn [parseAction_loop]; [exists true, dest, i; split; [done|lia]|].
  destruct (Z.ltb_spec i size) as [Hlt|Hge]; cbn [negb]; [|exists true, dest, i; split; [done|lia]].
  assert (exists ok dest' i', Done (false, dest, i) = Done (ok, dest', i') /\ length dest' = length dest /\ i <= i' <= size) as Hbad
    by (exists false, dest, i; split; [done|lia]).
  destruct (parseHex (String.String c psz) " " NUL) as [[rest n]|] eqn:Ep; [|exact Hbad].
  apply parseHex_length in Ep. destruct rest as [|c1 [|c2 rest]]; [exact Hbad| |].
  { destruct c1 as [[] [] [] [] [] [] [] []]; exact Hbad. }
  simpl in Ep, Hf.
  assert (exists ok dest' i', (if negb (Ascii.eqb c2 "d" || Ascii.eqb c2 "u") then Done (false, dest, i)
      else dest ← aset dest i (u16 (Z.lor n (if Ascii.eqb c2 "u" then 0x1000 else 0)));
           match rest with
           | String.EmptyString => Done (true, dest, i + 1)
           | String.String "," rest => parseAction_loop fuel (skip_spaces rest) dest (i + 1) size
           | _ => Done (false, dest, i + 1)
           end) = Done (ok, dest', i') /\ length dest' = length dest /\ i <= i' <= size) as Hgood.
  { destruct (negb _); [exact Hbad|]. rewrite aset_ok by lia. cbn [mbind outcome_bind].
    set (v := u16 _). set (dest1 := <[_:=v]> dest).
    assert (length dest1 = length dest) as Hl1 by (unfold dest1; by rewrite length_insert).
    destruct rest as [|c3 rest]; [exists true, dest1, (i + 1); split; [done|lia]|].
    assert (exists ok dest' i', Done (false, dest1, i + 1) = Done (ok, dest', i') /\ length dest' = length dest /\ i <= i' <= size) as Hbad1
      by (exists false, dest1, (i + 1); split; [done|lia]).
    assert (exists ok dest' i', parseAction_loop fuel (skip_spaces rest) dest1 (i + 1) size = Done (ok, dest', i') /\
      length dest' = length dest /\ i <= i' <= size) as Hrec.
    { pose proof (skip_spaces_length rest). simpl in Ep.
      destruct (IH (skip_spaces rest) dest1 (i + 1)) as (ok & d' & i' & E & Hl' & Hi'); [lia|lia|lia|].
      exists ok, d', i'. split; [exact E|]. lia. }
    destruct c3 as [[] [] [] [] [] [] [] []]; first [exact Hrec|exact Hbad1]. }
  destruct c1 as [[] [] [] [] [] [] [] []]; first [exact Hgood|exact Hbad].
Qed.

(** Whatever the text, the action read is terminated. *)
Lemma parseAction_ok s dest : action_ok dest ->
  exists ok dest', parseAction s dest actionSize = Done (ok, dest') /\ action_ok dest'.
Proof.
  intros [Hl _]. unfold parseAction, actionSize.
  destruct (parseAction_loop_ok (S (String.length s)) s dest 0 16) as (ok & d' & i & E & Hl' & Hi); [lia|lia|lia|].
  rewrite E. cbn [mbind outcome_bind].
  assert (forall j, 0 <= j < 16 -> exists d2, aset d' j 0 = Done d2 /\ action_ok d2) as Hset.
  { intros j Hj. rewrite aset_ok by lia. eexists. split; [done|]. split; [rewrite length_insert; lia|].
    apply list_elem_of_lookup. exists (Z.to_nat j). apply list_lookup_insert_eq. lia. }
  destruct (negb ok || (i >=? 16)) eqn:Eb.
  - destruct (Hset 0) as (d2 & -> & Hd2); [lia|]. by exists false, d2.
  - apply orb_false_iff in Eb as [_ Eb]. destruct (Hset i) as (d2 & -> & Hd2); [lia|]. by exists true, d2.
Qed.

(** ** The formats the parsers read *)

Definition hexc (d : Z) : ascii := ascii_of_N (Z.to_N (if d <? 10 then 48 + d else 87 + d)).

(** A number in four hexadecimal digits, before [s]. *)
Definition hex4 (n : Z) (s : string) : string :=
  String.String (hexc (n / 4096)) (String.String (hexc (n / 256 mod 16))
    (String.String (hexc (n / 16 mod 16)) (String.String (hexc (n mod 16)) s))).

Lemma digit_cases (P : Z -> Prop) : P 0 -> P 1 -> P 2 -> P 3 -> P 4 -> P 5 -> P 6 -> P 7 -> P 8 -> P 9 -> P 10 -> P 11 ->
  P 12 -> P 13 -> P 14 -> P 15 -> forall d, 0 <= d < 16 -> P d.
Proof.
  intros. assert (d = 0 \/ d = 1 \/ d = 2 \/ d = 3 \/ d = 4 \/ d = 5 \/ d = 6 \/ d = 7 \/ d = 8 \/ d = 9 \/ d = 10 \/
    d = 11 \/ d = 12 \/ d = 13 \/ d = 14 \/ d = 15) as Hd by lia. by destruct_or! Hd; subst.
Qed.

Lemma hexc_digit d : 0 <= d < 16 -> hex_digit (hexc d) = Some d.
Proof. revert d. by apply digit_cases. Qed.

Lemma hexc_ne t d : hex_digit t = None -> 0 <= d < 16 -> Ascii.eqb (hexc d) t = false.
Proof.
  intros Ht Hd. apply Ascii.eqb_neq. intros E. apply hexc_digit in Hd. congruence.
Qed.

Section terminators.
  Context (t1 t2 : ascii) (H1 : hex_digit t1 = None) (H2 : hex_digit t2 = None).

Lemma parseHex_digit n d s : 0 <= d < 16 -> 0 <= n -> 16 * n + d < 4294967296 ->
  parseHex_from n (String.String (hexc d) s) t1 t2 = parseHex_from (16 * n + d) s t1 t2.
Proof.
  intros Hd Hn Hb. cbn [parseHex_from]. rewrite !hexc_ne, hexc_digit by done. cbn. f_equal.
  rewrite Z.shiftl_mul_pow2 by done. unfold u32. rewrite Z.mod_small; lia.
Qed.

Lemma parseHex_hex4 n s : 0 <= n < 65536 -> parseHex (hex4 n s) t1 t2 = parseHex_from n s t1 t2.
Proof.
  intros Hn. unfold parseHex, hex4.
  pose proof (Z.mod_pos_bound (n / 256) 16). pose proof (Z.mod_pos_bound (n / 16) 16). pose proof (Z.mod_pos_bound n 16).
  assert (0 <= n / 4096 < 16) as H4 by (pose proof (Z.div_pos n 4096); pose proof (Z.div_lt_upper_bound n 4096 16); lia).
  assert (16 * (n / 4096) + n / 256 mod 16 = n / 256) as E1.
  { change 4096 with (256 * 16). rewrite <- Z.div_div by lia. pose proof (Z.div_mod (n / 256) 16). lia. }
  assert (16 * (n / 256) + n / 16 mod 16 = n / 16) as E2.
  { change 256 with (16 * 16). rewrite <- (Z.div_div n 16 16) by lia. pose proof (Z.div_mod (n / 16) 16). lia. }
  assert (16 * (n / 16) + n mod 16 = n) as E3 by (pose proof (Z.div_mod n 16); lia).
  assert (0 <= n / 256 <= n / 16 /\ n / 16 <= n) by lia.
  rewrite (parseHex_digit 0) by lia. rewrite Z.mul_0_r, Z.add_0_l.
  rewrite parseHex_digit by lia. rewrite E1. rewrite parseHex_digit by lia. rewrite E2.
  rewrite parseHex_digit by lia. by rewrite E3.
Qed.

End terminators.

(** ["in=out"], the format of the remap tables. *)
Definition print_remap (scanFrom scanTo : Z) : string :=
  hex4 scanFrom (String.String "=" (hex4 scanTo String.EmptyString)).

(** A remap entry printed in the documented form ["xxxx=yyyy"] is read back
    as the pair of codes it was printed from. *)
Theorem parseRemap_roundtrip scanFrom scanTo :
  0 <= scanFrom < 65536 -> 0 <= scanTo < 65536 ->
  parseRemap (print_remap scanFrom scanTo) = Some (scanFrom, scanTo).
Proof.
  intros Hf Ht. unfold parseRemap, print_remap. set (out := hex4 scanTo _). rewrite parseHex_hex4 by done.
  change (parseHex_from scanFrom (String.String "=" out) "=" NUL) with (Some (String.String "=" out, scanFrom)).
  cbn iota beta. assert ((scanFrom >? 65535) = false) as -> by lia. unfold out. rewrite parseHex_hex4 by done.
  cbn [parseHex_from]. by assert ((scanTo >? 65535) = false) as -> by lia.
Qed.

Lemma parseRemap_roundtrip_witness : parseRemap "e05b=0038" = Some (0xe05b, 0x38).
Proof. apply (parseRemap_roundtrip 0xe05b 0x38); lia. Defined.

(** ["code d, code u"], the format of the swipe actions. *)
Fixpoint print_action (l : list (Z * bool)) : string :=
  match l with
  | [] => String.EmptyString
  | (n, up) :: l =>
      hex4 n (String.String " " (String.String (if up : bool then "u"%char else "d"%char)
        match l with
        | [] => String.EmptyString
        | _ => String.String "," (String.String " " (print_action l))
        end))
  end.

Definition action_code (x : Z * bool) : Z := Z.lor x.1 (if x.2 then 0x1000 else 0).

Lemma skip_hexc d s : 0 <= d < 16 -> skip_spaces (String.String (hexc d) s) = String.String (hexc d) s.
Proof. revert d. by apply digit_cases. Qed.

Lemma print_action_head x l : exists d s, print_action (x :: l) = String.String (hexc d) s /\ (0 <= x.1 < 65536 -> 0 <= d < 16).
Proof.
  destruct x as [n up]. do 2 eexists. split; [reflexivity|]. simpl. intros Hn.
  pose proof (Z.div_pos n 4096). pose proof (Z.div_lt_upper_bound n 4096 16). lia.
Qed.

Lemma u16_code x : 0 <= x.1 < 65536 -> u16 (action_code x) = action_code x.
Proof.
  intros Hx. unfold u16, action_code. change 65536 with (2 ^ 16). rewrite <- Z.land_ones, Z.land_lor_distr_l by lia.
  rewrite !Z.land_ones by lia. f_equal; [rewrite Z.mod_small; lia|by destruct x.2].
Qed.

Lemma parseAction_item fuel n up rest dest i size :
  0 <= n < 65536 -> i < size ->
  parseAction_loop (S fuel) (hex4 n (String.String " " (String.String (if up : bool then "u"%char else "d"%char) rest))) dest i size =
    (dest ← aset dest i (action_code (n, up));
     match rest with
     | String.EmptyString => Done (true, dest, i + 1)
     | String.String "," rest => parseAction_loop fuel (skip_spaces rest) dest (i + 1) size
     | _ => Done (false, dest, i + 1)
     end).
Proof.
  intros Hn Hi. rewrite <- (u16_code (n, up)) by done. set (tl := String.String " " _).
  assert (parseHex (hex4 n tl) " " NUL = Some (tl, n)) as Ep by (by rewrite parseHex_hex4).
  cbn [parseAction_loop]. unfold hex4 at 1. cbn iota beta. rewrite (proj2 (Z.ltb_lt i size)) by done. cbn [negb].
  rewrite Ep. unfold tl. by destruct up.
Qed.

Lemma parseAction_print l fuel dest i :
  (length l < fuel)%nat -> Forall (fun x => 0 <= x.1 < 65536) l -> (i + length l <= length dest)%nat ->
  parseAction_loop fuel (print_action l) dest (Z.of_nat i) (Z.of_nat (length dest)) =
    Done (true, take i dest ++ map action_code l ++ drop (i + length l) dest, Z.of_nat (i + length l)).
Proof.
  revert fuel dest i. induction l as [|[n up] l IH]; intros fuel dest i Hf Hl Hi; (destruct fuel as [|fuel]; [simpl in Hf; lia|]).
  { simpl. rewrite Nat.add_0_r. by rewrite take_drop. }
  apply Forall_cons in Hl as [Hn Hl]. cbn [length] in Hi, Hf.
  assert (forall d1, d1 = <[i:=action_code (n, up)]> dest ->
    take (S i) d1 = take i dest ++ [action_code (n, up)] /\ drop (S i + length l) d1 = drop (i + length ((n, up) :: l)) dest) as Hd.
  { intros d1 ->. rewrite (take_S_r _ _ (action_code (n, up))) by (apply list_lookup_insert_eq; lia).
    rewrite take_insert_ge by lia. rewrite drop_insert_lt by lia. simpl. by rewrite Nat.add_succ_r. }
  cbn [print_action]. rewrite parseAction_item by (done || lia). rewrite aset_ok by lia. rewrite Nat2Z.id. cbn [mbind outcome_bind].
  set (d1 := <[i:=_]> dest) in *. destruct (Hd d1 eq_refl) as [Ht Hdr].
  assert (length d1 = length dest) as Hl1 by (unfold d1; by rewrite length_insert).
  assert (Z.of_nat i + 1 = Z.of_nat (S i)) as -> by lia.
  destruct l as [|x l].
  - simpl in Hdr |- *. rewrite <- Hdr, Nat.add_0_r. rewrite Nat.add_1_r. do 3 f_equal.
    by rewrite <- (take_drop (S i) d1) at 1; rewrite Ht, <- app_assoc.
  - destruct (print_action_head x l) as (d & s & Ep & Hd16).
    change (skip_spaces (String.String " " (print_action (x :: l)))) with (skip_spaces (print_action (x :: l))).
    rewrite Ep, skip_hexc by (apply Hd16; by apply Forall_cons in Hl as [? _]). rewrite <- Ep. rewrite <- Hl1, IH by (done || lia).
    rewrite Ht, Hdr, <- app_assoc. cbn [length map]. do 2 f_equal. lia.
Qed.

(** A swipe action printed in the documented form ["code d, code u, ..."],
    of at most fifteen keys, is read back as the codes it was printed from,
    followed by the terminator; the rest of the array is left alone. *)
Theorem parseAction_roundtrip l dest :
  Forall (fun x => 0 <= x.1 < 65536) l -> length dest = 16%nat -> (length l <= 15)%nat ->
  parseAction (print_action l) dest actionSize = Done (true, map action_code l ++ 0 :: drop (S (length l)) dest).
Proof.
  intros Hl Hd Hn. unfold parseAction, actionSize. change 16 with (Z.of_nat 16). rewrite <- Hd.
  assert (length l <= String.length (print_action l))%nat as Hfuel.
  { clear. induction l as [|[n up] l IH]; [done|]. simpl. destruct l; simpl in *; lia. }
  rewrite (parseAction_print l _ dest 0) by (done || lia). cbn [mbind outcome_bind].
  destruct (Z.geb_spec (Z.of_nat (0 + length l)) (Z.of_nat (length dest))); [lia|]. cbn [negb orb take]. rewrite app_nil_l, Nat.add_0_l.
  rewrite aset_ok by (rewrite length_app, length_map, length_drop; lia). cbn [mbind outcome_bind]. do 2 f_equal.
  rewrite Nat2Z.id. destruct (drop (length l) dest) as [|y r] eqn:E.
  { apply (f_equal length) in E. rewrite length_drop in E. simpl in E. lia. }
  rewrite insert_app_r_alt by (rewrite length_map; lia). rewrite length_map, Nat.sub_diag. simpl. do 2 f_equal.
  change r with (drop 1 (y :: r)). by rewrite <- E, drop_drop, Nat.add_1_r.
Qed.

Lemma parseAction_roundtrip_witness :
  parseAction "003b d, 007e d, 003b u" (replicate 16 7) actionSize =
    Done (true, [0x3b; 0x7e; 0x103b; 0] ++ replicate 12 7).
Proof.
  apply (parseAction_roundtrip [(0x3b, false); (0x7e, false); (0x3b, true)] (replicate 16 7)); [|done|simpl; lia].
  repeat constructor; simpl; lia.
Defined.

(** ** Configuration *)

(** What configuring leaves alone. *)
Record cframe (w w' : KWorld) : Prop := {
  cf_inv : inv w -> inv w';
  cf_macro : (_macroInversion (kbd w'), _macroBuffer (kbd w'), _macroCurrent (kbd w')) =
             (_macroInversion (kbd w), _macroBuffer (kbd w), _macroCurrent (kbd w));
}.
#[local] Instance cframe_preorder : PreOrder cframe.
Proof. split; [by split|]. intros w1 w2 w3 [A1 B1] [A2 B2]. split; [auto|congruence]. Qed.

Abbreviation csafe := (safe inv cframe).

Lemma csafe_bind {A B} (m : M KWorld A) (f : A -> M KWorld B) Q Q' :
  csafe m Q -> (forall a, Q a -> csafe (f a) Q') -> csafe (m ≫= f) Q'.
Proof. apply safe_bind; [apply _|]. intros w w' []. auto. Qed.

Lemma csafe_seq {A B} (m : M KWorld A) (f : A -> M KWorld B) Q' :
  csafe m (fun _ => True) -> (forall a, csafe (f a) Q') -> csafe (m ≫= f) Q'.
Proof. intros Hm Hf. eapply csafe_bind; [exact Hm|auto]. Qed.

Lemma csafe_ret {A} (a : A) (Q : A -> Prop) : Q a -> csafe (mret a) Q.
Proof. apply safe_ret, _. Qed.

Lemma csafe_skip : csafe (mret tt) (fun _ => True).
Proof. by apply csafe_ret. Qed.

Lemma csafe_get {A} (f : ApplePS2Keyboard -> A) (Q : A -> Prop) :
  (forall k, kb_wf k -> Q (f k)) -> csafe (getk f) Q.
Proof. intros HQ. apply safe_gets; [apply _|]. intros w. apply HQ. Qed.

Lemma csafe_lift {A} (o : outcome A) (Q : A -> Prop) : (exists a, o = Done a /\ Q a) -> csafe (lift o) Q.
Proof. apply safe_lift, _. Qed.

Lemma csafe_set f : (forall k, kb_wf k -> kb_wf (f k)) ->
  (forall k, (_macroInversion (f k), _macroBuffer (f k), _macroCurrent (f k)) =
             (_macroInversion k, _macroBuffer k, _macroCurrent k)) ->
  csafe (setk f) (fun _ => True).
Proof. intros Hf Hm. apply safe_modify. intros w Hw. split; [intros _; apply Hf, Hw|apply Hm]. Qed.

Lemma csafe_emit e : csafe (kemit e) (fun _ => True).
Proof. apply safe_modify. intros w _. by split. Qed.

Lemma csafe_property key v : csafe (setProperty key v) (fun _ => True).
Proof. apply csafe_emit. Qed.

(** Setting a field that the invariant says nothing about. *)
Ltac field := apply csafe_set; [let k := fresh "k" in intros k []; split; simpl; try done; lia|done].

(** Writing an entry of one of the tables of 512. *)
Lemma csafe_table (get : ApplePS2Keyboard -> list Z) (f : list Z -> ApplePS2Keyboard -> ApplePS2Keyboard) P i v :
  (forall k, kb_wf k -> length (get k) = 512%nat /\ Forall P (get k)) -> 0 <= i < 512 -> P v ->
  (forall l k, kb_wf k -> length l = 512%nat -> Forall P l -> kb_wf (f l k)) ->
  (forall l k, (_macroInversion (f l k), _macroBuffer (f l k), _macroCurrent (f l k)) =
               (_macroInversion k, _macroBuffer k, _macroCurrent k)) ->
  csafe (m ← getk get; m ← lift (aset m i v); setk (f m)) (fun _ => True).
Proof.
  intros Hget Hi Hv Hf Hm. apply (csafe_bind _ _ (fun l => length l = 512%nat /\ Forall P l)); [by apply csafe_get|].
  intros l [Hl HP]. apply (csafe_bind _ _ (fun l' => length l' = 512%nat /\ Forall P l')).
  - apply csafe_lift. rewrite aset_ok by lia. eexists. split; [done|]. split; [by rewrite length_insert|by apply Forall_insert].
  - intros l' [Hl' HP']. apply csafe_set; [|done]. intros k Hk. by apply Hf.
Qed.

Lemma low_byte x : 0 <= Z.land x 0xff < 256.
Proof. change 0xff with (Z.ones 8). rewrite Z.land_ones by lia. apply Z.mod_pos_bound. lia. Qed.

Lemma map_index_range scan : 0 <= map_index scan < 512.
Proof. unfold map_index, KBV_NUM_SCANCODES. pose proof (low_byte scan). case_match; lia. Qed.

Lemma csafe_map_entry o : csafe (loadCustomPS2Map_entry o) (fun _ => True).
Proof.
  unfold loadCustomPS2Map_entry. repeat (case_match; try apply csafe_skip).
  apply (csafe_table _ (fun m k => k <| _PS2ToPS2Map := m |>) (fun x => 0 <= x < 512)); try done.
  - by intros k [].
  - apply map_index_range.
  - apply map_index_range.
  - intros l k [] Hl HP. by split.
Qed.

Lemma csafe_forM {A} (l : list A) (f : A -> M KWorld unit) :
  (forall x, csafe (f x) (fun _ => True)) -> csafe (forM_ l f) (fun _ => True).
Proof. intros Hf. apply safe_forM; [apply _| |by intros x _]. intros w w' []. auto. Qed.

Lemma csafe_map l : csafe (loadCustomPS2Map l) (fun _ => True).
Proof. destruct l; [|apply csafe_skip]. apply csafe_forM, csafe_map_entry. Qed.

Lemma csafe_breakless dict name : csafe (loadBreaklessPS2 dict name) (fun _ => True).
Proof.
  unfold loadBreaklessPS2. case_match; [|apply csafe_skip]. apply csafe_forM. intros o.
  unfold loadBreaklessPS2_entry. repeat (case_match; try apply csafe_skip).
  all: apply (csafe_bind _ _ (fun f => length f = 512%nat)); [by apply csafe_get; intros k []|]; intros f Hf;
    assert (0 <= Z.land z 0xff < 256) as Hz by apply low_byte; unfold KBV_NUM_SCANCODES;
    (eapply (csafe_bind _ _ (fun _ => True));
      [apply csafe_lift; match goal with |- exists a, aget f ?i = _ /\ _ =>
         destruct (aget_ok f i) as (x & E & _); [lia|by exists x] end|]); intros x _;
    (apply (csafe_bind _ _ (fun l => length l = 512%nat));
      [apply csafe_lift; rewrite aset_ok by lia; eexists; split; [done|]; by rewrite length_insert|]);
    intros l' Hl'; apply csafe_set; [intros k []; by split|done].
Qed.

Lemma csafe_adb_map dict name : csafe (loadCustomADBMap dict name) (fun _ => True).
Proof.
  unfold loadCustomADBMap. case_match; [|apply csafe_skip]. apply csafe_forM. intros o.
  unfold loadCustomADBMap_entry. repeat (case_match; try apply csafe_skip).
  apply (csafe_table _ (fun m k => k <| _PS2ToADBMapMapped := m |>) (fun _ => True)); try done.
  - intros k []. split; [done|by apply Forall_true].
  - apply map_index_range.
  - intros l' k [] Hl HP. by split.
Qed.

Lemma csafe_set_adb dst v : 0 <= dst < 512 -> csafe (set_adb dst v) (fun _ => True).
Proof.
  intros Hd. apply (csafe_table _ (fun m k => k <| _PS2ToADBMap := m |>) (fun _ => True)); try done.
  - intros k []. split; [done|by apply Forall_true].
  - intros l k [] Hl _. by split.
Qed.

Lemma csafe_copy_adb dst src : 0 <= dst < 512 -> 0 <= src < 512 -> csafe (copy_adb dst src) (fun _ => True).
Proof.
  intros Hd Hs. apply (csafe_bind _ _ (fun l => length l = 512%nat)); [by apply csafe_get; intros k []|].
  intros l Hl. eapply (csafe_bind _ _ (fun _ => True)); [|intros v _; by apply csafe_set_adb].
  apply csafe_lift. destruct (aget_ok l src) as (x & E & _); [lia|]. by exists x.
Qed.

Lemma csafe_number dict key act : (forall n, csafe (act n) (fun _ => True)) -> csafe (with_number dict key act) (fun _ => True).
Proof. intros Ha. unfold with_number. case_match; [apply Ha|apply csafe_skip]. Qed.

Lemma csafe_boolean dict key act : (forall b, csafe (act b) (fun _ => True)) -> csafe (with_boolean dict key act) (fun _ => True).
Proof.
  intros Ha. unfold with_boolean. case_match; [|apply csafe_skip]. apply csafe_seq; [apply Ha|intros _; apply csafe_property].
Qed.

Lemma csafe_action dict key get put : (forall k, kb_wf k -> action_ok (get k)) ->
  (forall l k, kb_wf k -> action_ok l -> kb_wf (put l k)) ->
  (forall l k, (_macroInversion (put l k), _macroBuffer (put l k), _macroCurrent (put l k)) =
               (_macroInversion k, _macroBuffer k, _macroCurrent k)) ->
  csafe (with_action dict key get put) (fun _ => True).
Proof.
  intros Hg Hp Hm. unfold with_action. case_match; [|apply csafe_skip].
  apply (csafe_bind _ _ action_ok); [by apply csafe_get|]. intros dest Hd.
  apply (csafe_bind _ _ (fun r => action_ok r.2)).
  { apply csafe_lift. destruct (parseAction_ok s dest Hd) as (ok & d' & E & Hd'). by exists (ok, d'). }
  intros [ok d'] Hd'. apply csafe_seq; [|intros _; apply csafe_property]. apply csafe_set; [|done]. intros k Hk. by apply Hp.
Qed.

Create HintDb csafe.
#[local] Hint Resolve csafe_skip csafe_property csafe_emit csafe_map csafe_breakless csafe_adb_map : csafe.

(** Steps through a configuration routine, every branch. *)
Ltac cauto := repeat first
  [ progress (intros; cbn beta zeta)
  | solve [eauto with csafe nocore]
  | apply csafe_copy_adb; lia
  | apply csafe_set_adb; lia
  | field
  | apply csafe_number
  | apply csafe_boolean
  | apply (csafe_bind (getk _) _ (fun _ => True)); [by apply csafe_get|]
  | apply csafe_seq
  | case_match ].

Lemma csafe_times dict : csafe (setTimes dict) (fun _ => True).
Proof. unfold setTimes. cauto. Qed.

Lemma csafe_fkeymode dict : csafe (setFKeyMode dict) (fun _ => True).
Proof. unfold setFKeyMode. cauto. Qed.

Lemma csafe_swaps dict : csafe (setSwaps dict) (fun _ => True).
Proof. unfold setSwaps. cauto. Qed.

Lemma csafe_appkey dict : csafe (setApplicationKey dict) (fun _ => True).
Proof. unfold setApplicationKey. cauto. Qed.

Lemma csafe_layout dict : csafe (setLayout dict) (fun _ => True).
Proof. unfold setLayout. cauto. Qed.

Lemma csafe_actions dict : csafe (setActions dict) (fun _ => True).
Proof.
  unfold setActions. apply csafe_seq; [solve [cauto]|intros _].
  repeat (apply csafe_seq; [|intros _]); apply csafe_action; try done; try (by intros k []);
    intros l k [] Hl; by split.
Qed.

#[local] Hint Resolve csafe_times csafe_fkeymode csafe_swaps csafe_appkey csafe_layout csafe_actions : csafe.

Lemma csafe_params dict : csafe (setParamPropertiesGated dict) (fun _ => True).
Proof. unfold setParamPropertiesGated. cauto. Qed.

#[local] Hint Resolve csafe_params : csafe.

Lemma reaches_setk (I J : KWorld -> Prop) f : (forall w, I w -> J (w <| kbd := f (kbd w) |>)) -> reaches I J (setk f).
Proof. intros Hf w Hw. exists tt. eexists. split; [reflexivity|]. by apply Hf. Qed.

(** The driver before macros are configured. *)
Definition settled (w : KWorld) : Prop := inv w /\ _macroCurrent (kbd w) = 0 /\ _macroBuffer (kbd w) = None.

Lemma csafe_reaches {A} (m : M KWorld A) Q : csafe m Q -> reaches inv inv m.
Proof. intros Hm w Hw. destruct (Hm w Hw) as (a & w' & E & [Hi _] & _). eauto. Qed.

Lemma csafe_settled {A} (m : M KWorld A) Q : csafe m Q -> reaches settled settled m.
Proof.
  intros Hm w (Hw & H1 & H2). destruct (Hm w Hw) as (a & w' & E & [Hi Hc] & _). exists a, w'. split; [done|].
  injection Hc as _ Hb Hcur. split; [auto|]. by rewrite Hb, Hcur.
Qed.

(** The macros of a configuration are bytes, and their total size is below 128 MB. *)
Definition config_ok (config : option OSDict) : Prop :=
  match config with
  | None => True
  | Some d => forall ms, loadMacroData d kMacroInversion = Some ms ->
      Forall (Forall is_u8) ms /\ macro_max ms < 134217728
  end.

Lemma loadMacroData_ok d name ms : loadMacroData d name = Some ms -> Forall (fun m => valid_macro m = true) ms /\ 2 <= macro_max ms.
Proof.
  unfold loadMacroData. destruct (_ ≫= asArray) as [l|]; [|done]. simpl.
  destruct (List.filter valid_macro (omap asData l)) as [|m ms'] eqn:E; [done|]. intros [= <-].
  assert (Forall (fun m => valid_macro m = true) (m :: ms')) as HF.
  { rewrite <- E. apply Forall_forall. intros x Hx%list_elem_of_In. by apply filter_In in Hx as [_ Hx]. }
  split; [done|]. apply Forall_cons in HF as [Hm _]. unfold valid_macro, kMinMacroInversion in Hm. bool_hyps.
  pose proof (macro_max_le (m :: ms') m ltac:(apply elem_of_cons; auto)). lia.
Qed.

(** Installing the macros and the buffer that holds the longest of them. *)
Lemma reaches_macros d : config_ok (Some d) -> reaches settled inv
  (setk (fun k => k <| _macroTranslation := loadMacroData d kMacroTranslation |>
                    <| _macroInversion := loadMacroData d kMacroInversion |>);;
   match loadMacroData d kMacroInversion with
   | Some ms =>
       setk (fun k => k <| _macroBuffer := Some (replicate (Z.to_nat (macro_max ms * kPacketLength)) 0) |>
                        <| _macroMax := macro_max ms |>)
   | None => mret tt
   end).
Proof.
  intros Hd w (Hw & Hc & Hb). simpl in Hd. destruct (loadMacroData d kMacroInversion) as [ms|] eqn:E.
  - exists tt. eexists. split; [reflexivity|]. destruct (Hd ms eq_refl) as [H8 Hmax]. destruct (loadMacroData_ok d _ ms E) as [Hv Hm].
    unfold inv in *. simpl. destruct Hw. split; simpl; try done.
    + apply Forall_and. by split.
    + rewrite Hc, length_replicate. unfold kPacketLength. split; [lia|]. split; [|lia]. apply Forall_replicate. split; lia.
  - exists tt. eexists. split; [reflexivity|]. unfold inv in *. simpl. destruct Hw. split; simpl; try done.
Qed.

Lemma probe_ok config w : settled w -> config_ok config -> exists b w', probe config w = Done (b, w') /\ inv w'.
Proof.
  intros Hw Hc. revert w Hw. change (reaches settled inv (probe config)). unfold probe.
  case_match; [intros w Hw; exists false, w; split; [done|]; apply Hw|].
  assert (reaches inv inv (setk (fun k => k <| _PS2ToADBMap := _PS2ToADBMapMapped k |>);;
    setParamPropertiesGated config;; mret true)) as Hend.
  { apply (reaches_bind _ inv). { apply reaches_setk. intros w Hw. unfold inv in *. simpl. destruct Hw. by split. }
    intros _. apply (reaches_bind _ inv); [eapply csafe_reaches, csafe_params|]. intros _. apply reaches_ret. }
  destruct config as [d|]; [|apply (reaches_bind _ inv); [intros w Hw; exists tt, w; split; [done|apply Hw]|by intros _]].
  apply (reaches_bind _ inv); [|by intros _].
  do 3 (apply (reaches_bind _ settled); [eapply csafe_settled; eauto with csafe|intros _]).
  apply (reaches_bind _ settled); [|intros _; by apply reaches_macros].
  eapply csafe_settled. cauto.
Qed.

(** ** Dispatch of an ordinary key *)

(** Scan codes with a case of their own in the first [switch]. *)
Definition special_codes : list Z := [0x4e; 0x4a; 0x0153; 0x015f; 0x0128; 0x0137; 0x0127].

(** The key [raw] goes straight through the tables to the ADB code [adb]. *)
Definition plain (k : ApplePS2Keyboard) (raw adb : Z) : Prop :=
  raw <> 0x012a /\ breakless_of k raw = false /\ (adb ∉ [0x39; 0x90; 0x91; 0x92]) /\
  exists c, _PS2ToPS2Map k !! Z.to_nat raw = Some c /\ (c ∉ special_codes) /\ 0 < c < 0x01f0 /\
    _PS2ToADBMap k !! Z.to_nat c = Some adb.

(** The modifiers after the key, from the table of modifier keys. *)
Definition modifiers_after (k : ApplePS2Keyboard) (raw : Z) (down : bool) : Z :=
  let bit := u8 (Z.shiftr (default 0 (_PS2flags k !! Z.to_nat raw)) 8) in
  if bit =? 0 then _PS2modifierState k
  else if down then Z.lor (_PS2modifierState k) (u16 (Z.shiftl 1 (bit - 1)))
  else clear (_PS2modifierState k) (u16 (Z.shiftl 1 (bit - 1))).

(** The index of a packet's key. *)
Definition packet_key (p0 sc : Z) : Z := sc mod 128 + (if p0 =? 1 then 0 else 256).

Lemma not_special c : c ∉ special_codes -> forall x, x ∈ special_codes -> (c =? x) = false.
Proof. intros Hc x Hx. apply Z.eqb_neq. intros ->. done. Qed.

Section plain.
  Context (env : KEnv).

Lemma special_plain c d t w : c ∉ special_codes -> special_keyCode env c d t w = Done (c, w).
Proof.
  intros Hc. unfold special_keyCode. pose proof (not_special c Hc) as H.
  rewrite !H by (apply (bool_decide_unpack (_ ∈ special_codes)); vm_compute; exact I). done.
Qed.

Lemma special_adb_plain a d w : a ∉ [0x39; 0x90; 0x91; 0x92] -> special_adb env a d w = Done ((a, false), w).
Proof.
  intros Ha. assert (forall x, x ∈ [0x39; 0x90; 0x91; 0x92] -> (a =? x) = false) as H.
  { intros x Hx. apply Z.eqb_neq. intros ->. done. }
  unfold special_adb. unfold mbind at 1, M_bind at 1, getk, gets.
  rewrite !H by (apply (bool_decide_unpack (_ ∈ [0x39; 0x90; 0x91; 0x92])); vm_compute; exact I). done.
Qed.

Lemma track_plain raw d w f : _PS2flags (kbd w) !! Z.to_nat raw = Some f -> 0 <= raw ->
  track_modifier raw d w = Done (tt, w <| kbd := (kbd w) <| _PS2modifierState := modifiers_after (kbd w) raw d |> |>).
Proof.
  intros Hf Hr. unfold track_modifier, modifiers_after, getk, setk. munfold. rewrite (aget_lookup _ _ _ Hr Hf). rewrite Hf. simpl default.
  cbn beta iota zeta. destruct (u8 (Z.shiftr f 8) =? 0); [|done]. cbn. by destruct w as [[] ? ?].
Qed.

Lemma clear_up sc : is_u8 sc -> clear sc kSC_UpBit = sc mod 128.
Proof.
  intros Hs. apply Z.eqb_eq. revert sc Hs.
  apply (byte_forall (fun sc => clear sc kSC_UpBit =? sc mod 128)). vm_compute. reflexivity.
Qed.

(** The packet of an ordinary key: a notification, then the key event. *)
Definition plain_events (adb : Z) (down : bool) (t : Z) : list KEvent :=
  [KMessage kPS2M_notifyKeyPressed (PKeyInfo (mkKeyInfo (absolutetime_to_nanoseconds env t) adb down false)); KKey adb down t].

(** The receivers of the notification do not swallow the key. *)
Definition lets_through (evs : list KEvent) (adb : Z) (down : bool) (t : Z) : Prop :=
  exists i, reply env evs kPS2M_notifyKeyPressed (PKeyInfo (mkKeyInfo (absolutetime_to_nanoseconds env t) adb down false)) =
    PKeyInfo i /\ eatKey i = false.

Lemma dispatch_key_plain w raw c adb down t :
  kb_wf (kbd w) -> 0 <= raw < 512 -> 0 < c -> _PS2ToADBMap (kbd w) !! Z.to_nat c = Some adb ->
  adb ∉ [0x39; 0x90; 0x91; 0x92] -> breakless_of (kbd w) raw = false -> lets_through (kevs w) adb down t ->
  dispatch_key env raw c down t (absolutetime_to_nanoseconds env t) w =
    Done (true, w <| kevs := kevs w ++ plain_events adb down t |>).
Proof.
  intros Hw Hr Hc Ha Hs Hb (i & Ei & Heat). unfold dispatch_key.
  unfold mbind at 1, M_bind at 1, getk at 1, gets at 1. unfold mbind at 1, M_bind at 1, lift at 1.
  rewrite (aget_lookup _ _ _ (Z.lt_le_incl _ _ Hc) Ha). cbn beta iota.
  rewrite (bind_done _ _ _ _ _ (special_adb_plain adb down w Hs)). cbn beta iota.
  pose (w1 := w <| kevs := kevs w ++ [KMessage kPS2M_notifyKeyPressed
    (PKeyInfo (mkKeyInfo (absolutetime_to_nanoseconds env t) adb down false))] |>).
  rewrite (bind_done _ _ w (PKeyInfo i) w1) by (unfold dispatchMessage, kemit; munfold; by rewrite Ei).
  assert ((adb =? 0x39) = false) as -> by (apply Z.eqb_neq; intros ->; apply Hs; by left). cbn [andb].
  rewrite (proj2 (Z.eqb_neq c 0)), Heat by lia. cbn [negb andb].
  destruct (aget_ok (_PS2flags (kbd w)) raw) as (f & Ef & Lf); [rewrite (kw_flags _ Hw); lia|].
  unfold breakless_of in Hb. rewrite Lf in Hb.
  unfold getk, dispatchKeyboardEventX, kemit. munfold. change (_PS2flags (kbd w1)) with (_PS2flags (kbd w)).
  rewrite Ef. cbn beta iota. rewrite Hb. unfold when. rewrite orb_true_r, andb_false_r. munfold. unfold w1, plain_events.
  simpl. rewrite <- app_assoc. by destruct w.
Qed.

(** Up to the first [switch], for keys without an ACPI method. *)
Lemma dispatch_begins w p p0 sc c t :
  kb_wf (kbd w) -> aget p 0 = Done p0 -> aget p 1 = Done sc -> read_time p kPacketTimeOffset = Done t ->
  p0 = 1 \/ p0 = 2 -> is_u8 sc -> (p0 = 1 -> sc <> 0xf1 /\ sc <> 0xf2) ->
  packet_key p0 sc <> 0x012a -> _PS2ToPS2Map (kbd w) !! Z.to_nat (packet_key p0 sc) = Some c -> c < 0x01f0 ->
  0 <= packet_key p0 sc < 512 /\
  dispatchKeyboardEventWithPacket env p w =
    (keyCode ← special_keyCode env c (sc <? 128) t; dispatch_key env (packet_key p0 sc) keyCode (sc <? 128) t (absolutetime_to_nanoseconds env t))
      (w <| kbd := (kbd w) <| _PS2modifierState := modifiers_after (kbd w) (packet_key p0 sc) (sc <? 128) |> |>).
Proof.
  intros Hw E0 E1 Et Hp Hsc Hext Hne Hmap Hcr.
  assert (0 <= packet_key p0 sc < 512) as Hraw.
  { unfold packet_key. pose proof (Z.mod_pos_bound sc 128). case_match; lia. }
  split; [done|].
  destruct (aget_ok (_PS2flags (kbd w)) (packet_key p0 sc)) as (f & _ & Lf); [rewrite (kw_flags _ Hw); lia|].
  unfold dispatchKeyboardEventWithPacket.
  unfold mbind at 1, M_bind at 1, lift at 1. rewrite E0. cbn beta iota.
  unfold mbind at 1, M_bind at 1, lift at 1. rewrite E1. cbn beta iota zeta.
  unfold mbind at 1, M_bind at 1, lift at 1. rewrite Et. cbn beta iota.
  unfold mbind at 1, M_bind at 1, getk at 1, gets at 1. rewrite clear_up, up_bit, negb_involutive by done.
  assert ((u8 (p0 - 1) =? 0) && ((sc =? 242) || (sc =? 241)) = false) as ->.
  { destruct Hp as [-> | ->]; [|done]. destruct (Hext eq_refl). destruct (Z.eqb_spec sc 242), (Z.eqb_spec sc 241); done || lia. }
  set (raw := if u8 (p0 - 1) =? 0 then _ else _).
  assert (raw = packet_key p0 sc) as -> by (unfold raw, packet_key, KBV_NUM_SCANCODES; destruct Hp as [-> | ->]; simpl; lia).
  unfold mbind at 1, M_bind at 1, lift at 1. rewrite (aget_lookup _ _ _ (proj1 Hraw) Hmap). cbn beta iota.
  rewrite (proj2 (Z.eqb_neq _ _) Hne), andb_false_r.
  rewrite (bind_done _ _ _ _ _ (track_plain _ _ w f Lf (proj1 Hraw))). set (w1 := w <| kbd := _ |>).
  unfold mbind at 1, M_bind at 1, getk at 1, gets at 1.
  assert ((0x01f0 <=? c) = false) as -> by lia. cbn [andb].
  by rewrite (bind_done _ _ w1 tt w1).
Qed.

Lemma dispatch_plain w p p0 sc adb t :
  kb_wf (kbd w) -> aget p 0 = Done p0 -> aget p 1 = Done sc -> read_time p kPacketTimeOffset = Done t ->
  p0 = 1 \/ p0 = 2 -> is_u8 sc -> (p0 = 1 -> sc <> 0xf1 /\ sc <> 0xf2) ->
  plain (kbd w) (packet_key p0 sc) adb -> lets_through (kevs w) adb (sc <? 128) t ->
  dispatchKeyboardEventWithPacket env p w =
    Done (true, w <| kbd := (kbd w) <| _PS2modifierState := modifiers_after (kbd w) (packet_key p0 sc) (sc <? 128) |> |>
                  <| kevs := kevs w ++ plain_events adb (sc <? 128) t |>).
Proof.
  intros Hw E0 E1 Et Hp Hsc Hext (Hne & Hb & Ha & c & Hmap & Hc & Hcr & Hadb) Hlets.
  destruct (dispatch_begins w p p0 sc c t) as [Hraw ->]; [done..|lia|]. set (w1 := w <| kbd := _ |>).
  rewrite (bind_done _ _ _ _ _ (special_plain c _ t w1 Hc)).
  rewrite (dispatch_key_plain w1 _ c adb) by (done || lia || (unfold w1; simpl; destruct Hw; by split)). done.
Qed.

(** A key that switches the touchpad on and off. *)
Definition toggles (k : ApplePS2Keyboard) (raw adb : Z) : Prop :=
  raw <> 0x012a /\ (exists c, _PS2ToPS2Map k !! Z.to_nat raw = Some c /\ (c = 0x0128 \/ c = 0x0137)) /\
  (adb ∉ [0x39; 0x90; 0x91; 0x92]) /\ _PS2ToADBMap k !! 0%nat = Some adb /\
  (kMaskLeftControl =? Z.land (modifiers_after k raw true) kMaskLeftControl) = false.

(** Its messages, when the touchpad says it is [enabled]. *)
Definition toggle_events (enabled : bool) (adb : Z) (t : Z) : list KEvent :=
  [KMessage kPS2M_getDisableTouchpad (PBool (stack_bool env)); KMessage kPS2M_setDisableTouchpad (PBool (negb enabled));
   KMessage kPS2M_notifyKeyPressed (PKeyInfo (mkKeyInfo (absolutetime_to_nanoseconds env t) adb true false))].

Lemma dispatch_toggle w p p0 sc adb t e :
  kb_wf (kbd w) -> aget p 0 = Done p0 -> aget p 1 = Done sc -> read_time p kPacketTimeOffset = Done t ->
  p0 = 1 \/ p0 = 2 -> 0 <= sc < 128 -> toggles (kbd w) (packet_key p0 sc) adb ->
  reply env (kevs w) kPS2M_getDisableTouchpad (PBool (stack_bool env)) = PBool e ->
  (exists i, reply env (kevs w ++ take 2 (toggle_events e adb t)) kPS2M_notifyKeyPressed
     (PKeyInfo (mkKeyInfo (absolutetime_to_nanoseconds env t) adb true false)) = PKeyInfo i) ->
  dispatchKeyboardEventWithPacket env p w =
    Done (true, w <| kbd := (kbd w) <| _PS2modifierState := modifiers_after (kbd w) (packet_key p0 sc) true |> |>
                  <| kevs := kevs w ++ toggle_events e adb t |>).
Proof.
  intros Hw E0 E1 Et Hp Hsc (Hne & (c & Hmap & Hc) & Ha & Hadb & Hctrl) Hget (i & Hinfo).
  destruct (dispatch_begins w p p0 sc c t) as [Hraw ->]; [done..|unfold is_u8; lia|lia|done|done|lia|]. rewrite (proj2 (Z.ltb_lt sc 128)) by lia.
  set (w1 := w <| kbd := _ |>). pose (w3 := w1 <| kevs := kevs w ++ take 2 (toggle_events e adb t) |>).
  rewrite (bind_done _ _ w1 0 w3).
  2: { unfold special_keyCode. assert (forall x, x ∈ [0x4e; 0x4a; 0x0153; 0x015f] -> (c =? x) = false) as Hn.
       { intros x Hx. apply Z.eqb_neq. intros <-. rewrite !elem_of_cons, elem_of_nil in Hx. lia. }
       rewrite !Hn by (apply (bool_decide_unpack (_ ∈ [0x4e; 0x4a; 0x0153; 0x015f])); vm_compute; exact I). cbn [orb].
       assert ((c =? 0x0128) || (c =? 0x0137) = true) as -> by (destruct Hc as [-> | ->]; done). cbn [negb].
       unfold checkModifierState, getk, dispatchMessage, kemit. munfold. change (_PS2modifierState (kbd w1)) with (modifiers_after (kbd w) (packet_key p0 sc) true).
       rewrite Hctrl. cbn [negb]. change (kevs w1) with (kevs w). rewrite Hget. unfold w3, toggle_events. cbn [take]. simpl. by rewrite <- app_assoc. }
  unfold dispatch_key. unfold mbind at 1, M_bind at 1, getk at 1, gets at 1. unfold mbind at 1, M_bind at 1, lift at 1.
  rewrite (aget_lookup (_PS2ToADBMap (kbd w3)) 0 adb) by done. rewrite (bind_done _ _ _ _ _ (special_adb_plain adb true w3 Ha)). cbn beta iota.
  pose (w4 := w1 <| kevs := kevs w ++ toggle_events e adb t |>).
  rewrite (bind_done _ _ w3 (PKeyInfo i) w4).
  2: { unfold dispatchMessage, kemit. munfold. change (kevs w3) with (kevs w ++ take 2 (toggle_events e adb t)). rewrite Hinfo.
       unfold w4, w3, toggle_events. cbn [take]. simpl. by rewrite <- app_assoc. }
  assert ((adb =? 0x39) = false) as -> by (apply Z.eqb_neq; intros ->; apply Ha; by left). done.
Qed.
End plain.

(** ** A packet from the ring buffer to the key event *)

Lemma time_bytes_from t n j : 0 <= Z.shiftr t (8 * Z.of_nat j) < 256 ^ Z.of_nat n ->
  time_of_bytes (map (fun i => u8 (Z.shiftr t (8 * Z.of_nat i))) (seq j n)) = Z.shiftr t (8 * Z.of_nat j).
Proof.
  revert j. induction n as [|n IH]; intros j Hj; [simpl in *; lia|]. cbn [seq map time_of_bytes fold_right].
  fold (time_of_bytes (map (fun i => u8 (Z.shiftr t (8 * Z.of_nat i))) (seq (S j) n))).
  assert (Z.shiftr t (8 * Z.of_nat (S j)) = Z.shiftr t (8 * Z.of_nat j) / 256) as E.
  { rewrite (Z.shiftr_div_pow2 _ (8 * Z.of_nat (S j))), (Z.shiftr_div_pow2 _ (8 * Z.of_nat j)) by lia.
    rewrite Z.div_div by lia. f_equal. change 256 with (2 ^ 8). rewrite <- Z.pow_add_r by lia. f_equal. lia. }
  assert (256 ^ Z.of_nat (S n) = 256 * 256 ^ Z.of_nat n) as Ep by (rewrite Nat2Z.inj_succ, Z.pow_succ_r; lia).
  set (x := Z.shiftr t (8 * Z.of_nat j)) in *. rewrite IH by (rewrite E; split; [apply Z.div_pos; lia|apply Z.div_lt_upper_bound; lia]).
  rewrite E. unfold u8. pose proof (Z.div_mod x 256). lia.
Qed.

Lemma time_roundtrip t : 0 <= t < 2 ^ 64 -> time_of_bytes (time_bytes t) = t.
Proof. intros Ht. unfold time_bytes. rewrite (time_bytes_from t 8 0); rewrite Z.shiftr_0_r; [done|exact Ht]. Qed.

(** What [dispatchKeyboardEventWithPacket] reads from a packet the interrupt
    routine wrote. *)
Lemma packet_reads p p0 sc t : made_by kPacketLength p (packet_writes p0 sc t) -> 0 <= t < 2 ^ 64 ->
  aget p 0 = Done p0 /\ aget p 1 = Done sc /\ read_time p kPacketTimeOffset = Done t.
Proof.
  intros [Hl [b ->]] Ht. rewrite written_length in Hl. unfold kPacketLength in Hl.
  do 16 (destruct b as [|? b]; [simpl in Hl; lia|]). destruct b; [|simpl in Hl; lia].
  split; [done|]. split; [done|]. transitivity (Done (time_of_bytes (time_bytes t))).
  - reflexivity.
  - by rewrite time_roundtrip.
Qed.

(** The packet the interrupt routine queued for an ordinary key (one that the
    tables send to an ADB code without a special case) produces exactly the
    notification of the other drivers and, unless they swallow it, the key
    event: the ADB code of the remapped scan code, down or up by the high bit,
    with the time of the interrupt; besides, only the modifier state changes,
    as the table of modifier keys says. *)
Theorem plain_key_dispatch env w p p0 sc adb t :
  kb_wf (kbd w) -> made_by kPacketLength p (packet_writes p0 sc t) -> 0 <= t < 2 ^ 64 ->
  p0 = 1 \/ p0 = 2 -> is_u8 sc -> (p0 = 1 -> sc <> 0xf1 /\ sc <> 0xf2) ->
  plain (kbd w) (packet_key p0 sc) adb -> lets_through env (kevs w) adb (sc <? 128) t ->
  dispatchKeyboardEventWithPacket env p w =
    Done (true, w <| kbd := (kbd w) <| _PS2modifierState := modifiers_after (kbd w) (packet_key p0 sc) (sc <? 128) |> |>
                  <| kevs := kevs w ++ plain_events env adb (sc <? 128) t |>).
Proof.
  intros Hw Hm Ht Hp Hsc Hx Hpl Hl. destruct (packet_reads p p0 sc t Hm Ht) as (E0 & E1 & E2).
  by apply dispatch_plain.
Qed.

(** A started driver with the stock tables. *)
Definition stock : ApplePS2Keyboard := init <| _PS2ToADBMap := PS2ToADBMapStock |>.

Lemma stock_wf : kb_wf stock.
Proof. pose proof init_wf as []. by split. Qed.

Definition shift_packet : list Z := written (packet_writes 1 0x2a 7000) (replicate 16 0).

(** Left shift going down: its ADB code, and the modifier it stands for. *)
Lemma plain_key_dispatch_witness :
  dispatchKeyboardEventWithPacket quiet_env shift_packet (mkKWorld stock 0 []) =
    Done (true, mkKWorld (stock <| _PS2modifierState := kMaskLeftShift |>) 0
      [KMessage kPS2M_notifyKeyPressed (PKeyInfo (mkKeyInfo 7000 0x38 true false)); KKey 0x38 true 7000]).
Proof.
  rewrite (plain_key_dispatch quiet_env (mkKWorld stock 0 []) shift_packet 1 0x2a 0x38 7000).
  - vm_compute. reflexivity.
  - apply stock_wf.
  - split; [done|]. by exists (replicate 16 0).
  - lia.
  - by left.
  - split; lia.
  - intros _. lia.
  - split; [done|]. split; [done|]. split; [apply (bool_decide_unpack (0x38 ∉ _)); vm_compute; exact I|].
    exists 0x2a. split; [done|]. split; [apply (bool_decide_unpack (0x2a ∉ _)); vm_compute; exact I|]. split; [lia|done].
  - by eexists.
Defined.

(** ** [initKeyboard] *)

(** A key whose release is an ordinary key event. *)
Definition releasable (k : ApplePS2Keyboard) (n adb : Z) : Prop :=
  (0 <= n < 128 /\ n <> 0x71 /\ n <> 0x72 \/ 256 <= n < 384) /\ plain k n adb.

Lemma release_code n : 0 <= n < 128 \/ 256 <= n < 384 ->
  let p0 := if n <? KBV_NUM_SCANCODES then 1 else 2 in
  let sc := u8 (Z.lor n kSC_UpBit) in
  is_u8 sc /\ (sc <? 128) = false /\ packet_key p0 sc = n /\ sc = 128 + n mod 256.
Proof.
  intros Hn. assert (forallb (fun i => let n := Z.of_nat i in let sc := u8 (Z.lor n kSC_UpBit) in
    (256 <=? n mod 256 + 128) || (384 <=? n) ||
    negb (sc <? 128) && (packet_key (if n <? KBV_NUM_SCANCODES then 1 else 2) sc =? n) && (sc =? 128 + n mod 256))
    (seq 0 512) = true) as Hall by (vm_compute; reflexivity).
  rewrite forallb_forall in Hall. specialize (Hall (Z.to_nat n)). rewrite in_seq, Z2Nat.id in Hall by lia.
  specialize (Hall ltac:(lia)). cbv zeta in *. split; [apply u8_range|].
  assert (n mod 256 < 128) as Hm.
  { destruct Hn; [rewrite Z.mod_small; lia|]. replace n with (n - 256 + 1 * 256) by lia. rewrite Z.mod_add, Z.mod_small; lia. }
  rewrite (proj2 (Z.leb_gt 256 _)), (proj2 (Z.leb_gt 384 _)) in Hall by lia. cbn [orb] in Hall.
  apply andb_true_iff in Hall as [[H1 H2]%andb_true_iff H3]. apply negb_true_iff in H1. apply Z.eqb_eq in H2, H3. done.
Qed.

Lemma stack_packet_ok p0 sc t : is_u8 p0 -> is_u8 sc -> packet16 (stack_packet p0 sc t).
Proof.
  intros H0 H1. split; [done|]. unfold stack_packet. apply Forall_app. split; [by repeat constructor; apply H0 || apply H1|].
  apply Forall_app. split; [apply Forall_replicate; split; lia|apply time_bytes_u8].
Qed.

Lemma stack_reads p0 sc t : 0 <= t < 2 ^ 64 ->
  aget (stack_packet p0 sc t) 0 = Done p0 /\ aget (stack_packet p0 sc t) 1 = Done sc /\
  read_time (stack_packet p0 sc t) kPacketTimeOffset = Done t.
Proof.
  intros Ht. split; [done|]. split; [done|]. transitivity (Done (time_of_bytes (time_bytes t))).
  - reflexivity.
  - by rewrite time_roundtrip.
Qed.

Lemma dframe_fields w w' : dframe w w' -> _keyBitVector (kbd w') = _keyBitVector (kbd w) /\
  (forall n adb, plain (kbd w) n adb -> plain (kbd w') n adb) /\ _ledState (kbd w') = _ledState (kbd w).
Proof. intros [(m & t & f & ->) _ _]. done. Qed.

Section init.
  Context (env : KEnv).
  Context (Hreply_bool : forall evs m b, exists b', reply env evs m (PBool b) = PBool b').
  Context (Hreply_info : forall evs m i, exists i', reply env evs m (PKeyInfo i) = PKeyInfo i').

Abbreviation t0 := (u64 (stack_time env)).

Lemma t0_range : 0 <= t0 < 2 ^ 64.
Proof. apply Z.mod_pos_bound. lia. Qed.

Lemma release_ok w0 w n : inv w0 -> dframe w0 w -> 0 <= n < 512 ->
  exists w', release_key env n w = Done (tt, w') /\ dframe w w' /\
    (forall adb, key_down (_keyBitVector (kbd w0)) n = true -> releasable (kbd w0) n adb ->
       (forall evs, lets_through env evs adb false t0) -> KKey adb false t0 ∈ kevs w').
Proof.
  intros Hw0 Hd Hn. pose proof (dframe_inv _ _ Hd Hw0) as Hw. destruct (dframe_fields _ _ Hd) as (Hbits & Hpl & _).
  unfold release_key. rewrite (bind_done _ _ _ _ _ (is_keydown_ok w n (kw_bits _ Hw) Hn)), Hbits.
  destruct (key_down _ n); [|exists w; split; [done|]; split; [done|]; intros; done].
  set (p := stack_packet _ _ _).
  assert (packet_ok p) as Hp.
  { apply packet16_ok, stack_packet_ok; [case_match; split; lia|apply u8_range]. }
  destruct (dsafe_dispatch env Hreply_bool Hreply_info w Hw p Hp w ltac:(reflexivity)) as (r & w' & E & Hd' & _).
  rewrite (bind_done _ _ _ _ _ E). exists w'. split; [done|]. split; [done|]. intros adb _ [Hr Hplain] Hlets.
  destruct (release_code n) as (H8 & Hup & Hkey & Hsc); [lia|].
  destruct (stack_reads (if n <? KBV_NUM_SCANCODES then 1 else 2) (u8 (Z.lor n kSC_UpBit)) t0 t0_range) as (E0 & E1 & E2).
  rewrite (dispatch_plain env w p _ _ adb t0 Hw E0 E1 E2) in E; [|by case_match; [left|right]|done| | |by rewrite Hup].
  - injection E as _ <-. simpl. rewrite Hup. unfold plain_events. apply elem_of_app. right. right. left.
  - intros Hp0. unfold KBV_NUM_SCANCODES in Hp0. destruct (Z.ltb_spec n 256); [|done]. rewrite Z.mod_small in Hsc by lia. lia.
  - rewrite Hkey. by apply Hpl.
Qed.

Lemma release_all_ok w0 l w : inv w0 -> dframe w0 w -> Forall (fun n => 0 <= n < 512) l ->
  exists w', forM_ l (release_key env) w = Done (tt, w') /\ dframe w w' /\
    (forall n adb, n ∈ l -> key_down (_keyBitVector (kbd w0)) n = true -> releasable (kbd w0) n adb ->
       (forall evs, lets_through env evs adb false t0) -> KKey adb false t0 ∈ kevs w').
Proof.
  intros Hw0 Hd Hl. revert w Hd. induction Hl as [|n l Hn Hl IH]; intros w Hd.
  { exists w. split; [done|]. split; [done|]. by intros n adb ?%elem_of_nil. }
  destruct (release_ok w0 w n Hw0 Hd Hn) as (w1 & E1 & Hd1 & H1).
  destruct (IH w1) as (w2 & E2 & Hd2 & H2); [by etrans|]. exists w2. cbn [forM_].
  rewrite (bind_done _ _ _ _ _ E1). split; [exact E2|]. split; [by etrans|].
  intros m adb [->|Hm]%elem_of_cons Hdown Hr Hlets; [|by apply (H2 m)].
  destruct (df_evs _ _ Hd2) as [evs ->]. apply elem_of_app. left. by apply H1.
Qed.

(** The state [initKeyboard] leaves. *)
Definition initialised (k : ApplePS2Keyboard) : Prop :=
  kb_wf k /\ (forall n, 0 <= n < 512 -> key_down (_keyBitVector k) n = false) /\
  _PS2modifierState k = 0 /\ _extendCount k = 0 /\ elems (_ringBuffer k) = [].

Lemma key_down_none n : 0 <= n < 512 -> key_down (replicate (Z.to_nat KBV_NUNITS) 0) n = false.
Proof.
  intros Hn. unfold key_down. change (Z.to_nat KBV_NUNITS) with 16%nat. destruct (unit_of n Hn) as (_ & Hu & _).
  rewrite lookup_replicate_2 by lia. apply Z.bits_0.
Qed.

Lemma reset_aligned (rb : RingBuffer Z) : aligned ringSize kPacketLength rb -> aligned ringSize kPacketLength (reset rb).
Proof. intros []. split; [by apply reset_wf|done|done|apply Z.divide_0_r|apply Z.divide_0_r]. Qed.

Lemma initKeyboard_ok w : inv w -> exists w' mid,
  initKeyboard env w = Done (tt, w') /\ initialised (kbd w') /\
  kevs w' = kevs w ++ [KSubmitBlock defaults_request] ++ mid ++
    [KSubmit (led_request (_ledState (kbd w))); KSubmitBlock (enable_request true); KSetCommandByte kCB_TranslateMode 0] /\
  (forall n adb, 0 <= n < 512 -> key_down (_keyBitVector (kbd w)) n = true -> releasable (kbd w) n adb ->
    (forall evs, lets_through env evs adb false t0) -> KKey adb false t0 ∈ kevs w').
Proof.
  intros Hw. pose (w1 := w <| kevs := kevs w ++ [KSubmitBlock defaults_request] |>).
  destruct (release_all_ok w1 (Z.of_nat <$> seq 0 (Z.to_nat KBV_NUM_KEYCODES)) w1) as (w2 & E2 & Hd2 & H2); [done|done| |].
  { apply Forall_fmap, Forall_forall. intros i Hi%elem_of_seq. simpl. unfold KBV_NUM_KEYCODES in Hi. lia. }
  pose proof (dframe_inv _ _ Hd2 Hw) as Hw2. destruct (dframe_fields _ _ Hd2) as (_ & _ & Hled).
  destruct (df_evs _ _ Hd2) as [mid Hmid]. unfold initKeyboard.
  rewrite (bind_done _ _ w tt w1) by done. rewrite (bind_done _ _ _ _ _ E2).
  unfold setk, getk, setLEDs, setKeyboardEnable, kemit. munfold. eexists _, mid. split; [reflexivity|]. split; [|split].
  - unfold initialised. cbn. split; [|split; [apply key_down_none|by split; [|split; [|done]]]].
    unfold inv in Hw2. destruct Hw2. split; simpl; try done; try lia; by apply reset_aligned.
  - cbn. rewrite Hmid, Hled. unfold w1. cbn. by rewrite <- !app_assoc.
  - intros n adb Hn Hdown Hr Hlets. cbn. do 3 (apply elem_of_app; left). apply (H2 n adb); [|done|done|done].
    apply list_elem_of_fmap. exists (Z.to_nat n). split; [lia|]. apply elem_of_seq. unfold KBV_NUM_KEYCODES. lia.
Qed.

Lemma ksafe_initKeyboard : safe inv kframe (initKeyboard env) (fun _ => True).
Proof.
  intros w Hw. destruct (initKeyboard_ok w Hw) as (w' & mid & E & [Hi _] & _). exists tt, w'. split; [done|].
  split; [by intros _|done].
Qed.
End init.

(** C31: [initKeyboard] always returns; it leaves no key held, no modifier, no
    half-read extended sequence and an empty ring buffer, and talks to the
    device in this order: defaults, then the events that release the keys, then
    the LEDs as they were, enable, and scan code translation on.  Every
    ordinary key that was held gets its key-up event. *)
Theorem initKeyboard_resets env w :
  (forall evs m b, exists b', reply env evs m (PBool b) = PBool b') ->
  (forall evs m i, exists i', reply env evs m (PKeyInfo i) = PKeyInfo i') -> kb_wf (kbd w) ->
  exists w' mid, initKeyboard env w = Done (tt, w') /\ initialised (kbd w') /\
    kevs w' = kevs w ++ [KSubmitBlock defaults_request] ++ mid ++
      [KSubmit (led_request (_ledState (kbd w))); KSubmitBlock (enable_request true); KSetCommandByte kCB_TranslateMode 0] /\
    (forall n adb, 0 <= n < 512 -> key_down (_keyBitVector (kbd w)) n = true -> releasable (kbd w) n adb ->
      (forall evs, lets_through env evs adb false (u64 (stack_time env))) ->
      KKey adb false (u64 (stack_time env)) ∈ kevs w').
Proof. intros Hb Hi Hw. by apply initKeyboard_ok. Qed.

(** With left shift held. *)
Definition shift_held : ApplePS2Keyboard := stock <| _keyBitVector := <[1%nat := 1024]> (replicate 16 0) |>.

Lemma initKeyboard_resets_witness : exists w', initKeyboard quiet_env (mkKWorld shift_held 0 []) = Done (tt, w') /\
  initialised (kbd w') /\ KKey 0x38 false 0 ∈ kevs w'.
Proof.
  destruct (initKeyboard_resets quiet_env (mkKWorld shift_held 0 [])) as (w' & mid & E & Hi & _ & Hup).
  - by eexists.
  - by eexists.
  - pose proof stock_wf as []. by split.
  - exists w'. split; [exact E|]. split; [exact Hi|]. apply (Hup 0x2a 0x38); [lia|done| |by eexists].
    split; [lia|]. split; [done|]. split; [done|]. split; [apply (bool_decide_unpack (0x38 ∉ _)); vm_compute; exact I|].
    exists 0x2a. split; [done|]. split; [apply (bool_decide_unpack (0x2a ∉ _)); vm_compute; exact I|]. split; [lia|done].
Defined.

(** ** The driver's life *)

(** What can happen to a started driver. *)
Inductive KOp :=
| OpInterrupt (data : Z)
| OpPacketReady
| OpMacroTimer
| OpSleepEjectTimer
| OpMessage (m : KbdMessage)
| OpSetParam (dict : option OSDict)
| OpSetProperties (props : OSObject)
| OpAlphaLock (locked : bool)
| OpNumLock (locked : bool)
| OpPower (whatToDo : Z).

Definition kop_ok (o : KOp) : Prop := match o with OpInterrupt data => is_u8 data | _ => True end.

Definition ignore {A} (m : M KWorld A) : M KWorld unit := m;; mret tt.

Definition run_op (env : KEnv) (o : KOp) : M KWorld unit :=
  match o with
  | OpInterrupt data => ignore (interruptOccurred env data)
  | OpPacketReady => packetReady env
  | OpMacroTimer => onMacroTimer env
  | OpSleepEjectTimer => onSleepEjectTimer env
  | OpMessage m => message env m
  | OpSetParam dict => setParamProperties dict
  | OpSetProperties props => setProperties props
  | OpAlphaLock locked => setAlphaLockFeedback locked
  | OpNumLock locked => setNumLockFeedback locked
  | OpPower whatToDo => setDevicePowerState env whatToDo
  end.

(** Tables of levels have fewer than 2^31 entries. *)
Definition levels_small (env : KEnv) : Prop :=
  forall name min l, read_levels min (evaluateLevels env name) = Some l -> Z.of_nat (length l) < 2147483648.

Lemma read_levels_min min o l : read_levels min o = Some l -> min <= Z.of_nat (length l).
Proof.
  unfold read_levels. destruct (o ≫= asArray) as [a|]; [|done]. simpl.
  destruct (Z.ltb_spec (Z.of_nat (length a)) min); [done|]. intros [= <-]. by rewrite length_fmap.
Qed.

Section life.
  Context (env : KEnv).
  Context (Hreply_bool : forall evs m b, exists b', reply env evs m (PBool b) = PBool b').
  Context (Hreply_info : forall evs m i, exists i', reply env evs m (PKeyInfo i) = PKeyInfo i').

Lemma ksafe_reaches {A} (m : M KWorld A) Q : safe inv kframe m Q -> reaches inv inv m.
Proof. intros Hm w Hw. destruct (Hm w Hw) as (a & w' & E & Hf & _). eauto. Qed.

Lemma reaches_dispatch p : packet16 p -> reaches inv inv (invert_or_dispatch env p).
Proof. intros Hp. eapply ksafe_reaches, ksafe_of_msafe. by apply msafe_invert_or_dispatch. Qed.

Lemma reaches_clock : reaches inv inv (clock_get_uptime env).
Proof. intros w Hw. do 2 eexists. split; [reflexivity|]. exact Hw. Qed.

Lemma reaches_emit e : reaches inv inv (kemit e).
Proof. intros w Hw. exists tt. eexists. split; [reflexivity|]. exact Hw. Qed.

(** A key sequence ends at its terminator. *)
Lemma sendKeySequence_ok l : 0 ∈ l -> reaches inv inv (sendKeySequence env l).
Proof.
  induction l as [|x l IH]; intros Hin; [by apply elem_of_nil in Hin|]. cbn [sendKeySequence].
  destruct (Z.eqb_spec x 0) as [->|Hx]; [apply reaches_ret|].
  apply elem_of_cons in Hin as [?|Hin]; [done|]. apply (reaches_bind _ inv); [apply reaches_clock|intros t].
  apply (reaches_bind _ inv); [apply reaches_emit|intros _]. by apply IH.
Qed.

Lemma reaches_action (get : ApplePS2Keyboard -> list Z) : (forall k, kb_wf k -> action_ok (get k)) ->
  reaches inv inv (a ← getk get; sendKeySequence env a).
Proof. intros Hg w Hw. unfold mbind, M_bind, getk, gets. by apply sendKeySequence_ok; [apply Hg|]. Qed.

Lemma set_up_u8 p1 : is_u8 p1 -> is_u8 (Z.lor p1 0x80).
Proof.
  intros H. assert ((0 <=? Z.lor p1 128) && (Z.lor p1 128 <? 256) = true) as E.
  { revert p1 H. apply (byte_forall (fun p => (0 <=? Z.lor p 128) && (Z.lor p 128 <? 256))). vm_compute. reflexivity. }
  unfold is_u8. bool_hyps. lia.
Qed.

Lemma message_ok m : reaches inv inv (message env m).
Proof.
  destruct m as [| | | |[arg|]|]; cbn [message]; try apply reaches_ret;
    try (apply reaches_action; by intros k []).
  cbv zeta. case_match; [apply reaches_ret|]. pose proof (u8_range (Z.shiftr arg 8)) as H0. pose proof (u8_range arg) as H1.
  case_match; [|case_match; [|apply reaches_ret]].
  - apply (reaches_bind _ inv); [apply reaches_clock|intros t]. by apply reaches_dispatch, stack_packet_ok.
  - assert (is_u8 (u8 (Z.shiftr arg 8) - 2)) as Hm2 by (unfold is_u8 in *; lia).
    apply (reaches_bind _ inv); [apply reaches_clock|intros t].
    apply (reaches_bind _ inv); [by apply reaches_dispatch, stack_packet_ok|intros _].
    apply (reaches_bind _ inv); [apply reaches_clock|intros t'].
    apply reaches_dispatch, stack_packet_ok; [done|by apply set_up_u8].
Qed.

Lemma led_ok f : (forall k, kb_wf k -> kb_wf (f k)) -> reaches inv inv (setk f;; s ← getk _ledState; setLEDs s).
Proof.
  intros Hf. apply (reaches_bind _ inv); [apply reaches_setk; intros w Hw; by apply Hf|]. intros _ w Hw.
  unfold mbind, M_bind, getk, gets, setLEDs. by apply reaches_emit.
Qed.

Lemma run_op_ok o : kop_ok o -> reaches inv inv (run_op env o).
Proof.
  destruct o; intros Ho; cbn [run_op].
  - intros w Hw. destruct (aligned_queue _ _ _ (kw_ring _ Hw)) as [q Hq].
    pose (d := mkDecoder (_extendCount (kbd w)) (_lastdata (kbd w)) (key_down (_keyBitVector (kbd w)))).
    pose proof (interrupt_refines env w d data q Hw ltac:(by split) Ho Hq) as H.
    destruct (decode_byte _ d data) as [d' p]. destruct H as (w' & E & Hw' & _).
    exists tt, w'. unfold ignore. by rewrite (bind_done _ _ _ _ _ E).
  - by eapply ksafe_reaches, ksafe_packetReady.
  - by eapply ksafe_reaches, ksafe_macroTimer.
  - intros w Hw. destruct (dsafe_sleepEject env w w ltac:(reflexivity)) as (a & w' & E & Hd & _).
    exists a, w'. split; [done|]. by eapply dframe_inv.
  - apply message_ok.
  - eapply reaches_if, csafe_reaches, csafe_params.
  - unfold setProperties. case_match; [|apply reaches_ret]. eapply reaches_if, csafe_reaches, csafe_params.
  - apply led_ok. intros k []. by split.
  - apply led_ok. intros k []. by split.
  - unfold setDevicePowerState. case_match; [apply reaches_emit|]. case_match; [|apply reaches_ret].
    by eapply ksafe_reaches, ksafe_initKeyboard.
Qed.

Lemma run_ops_ok ops : Forall kop_ok ops -> reaches inv inv (forM_ ops (run_op env)).
Proof.
  induction 1 as [|o ops Ho _ IH]; [apply reaches_ret|]. cbn [forM_].
  apply (reaches_bind _ inv); [by apply run_op_ok|by intros _].
Qed.

Lemma reaches_set f : (forall k, kb_wf k -> kb_wf (f k)) -> reaches inv inv (setk f).
Proof. intros Hf. apply reaches_setk. intros w Hw. by apply Hf. Qed.

Lemma start_levels_ok : levels_small env -> reaches inv inv (start_levels env).
Proof.
  intros Hs. unfold start_levels. apply (reaches_bind _ inv); [|intros _].
  - case_match; [|apply reaches_ret]. destruct (read_levels 4 _) as [l|] eqn:E; [|apply reaches_ret].
    apply reaches_set. intros k []. split; try done. simpl. pose proof (read_levels_min _ _ _ E). pose proof (Hs _ _ _ E). lia.
  - case_match; [|apply reaches_ret]. destruct (read_levels 2 _) as [l|] eqn:E; [|apply reaches_ret].
    apply reaches_set. intros k []. split; try done. simpl. pose proof (read_levels_min _ _ _ E). pose proof (Hs _ _ _ E). lia.
Qed.

Lemma start_ok : levels_small env -> reaches inv inv (start env).
Proof.
  intros Hs. unfold start.
  repeat first [ apply reaches_ret | apply reaches_emit | apply reaches_set; intros k []; by split
    | apply start_levels_ok; exact Hs
    | eapply ksafe_reaches, ksafe_initKeyboard; assumption
    | apply (reaches_bind _ inv); [|intros _] | case_match ].
Qed.
End life.

(** [stop] always returns; the driver is not used after it. *)
Lemma stop_ok env w : exists w', stop env w = Done (tt, w') /\ _device (kbd w') = false /\
  _interruptHandlerInstalled (kbd w') = false /\ _powerControlHandlerInstalled (kbd w') = false.
Proof.
  unfold stop, when, setKeyboardEnable, getk, setk, kemit. munfold. unfold id.
  destruct (getWorkLoop env); munfold; cbn [kbd];
    (destruct (_interruptHandlerInstalled _) eqn:?; munfold; destruct (_powerControlHandlerInstalled _) eqn:?; munfold);
    eexists; (split; [reflexivity|done]).
Qed.


(** A configuration with a remap, a swipe action and a macro. *)
Definition demo_config : OSDict :=
  [("Custom PS2 Map", OSArray [OSString "e05b=38"; OSString "38=e05b"]);
   ("ActionSwipeUp", OSString "37 d, 30 d, 30 u, 37 u");
   ("Macro Inversion", OSArray [OSData [0xFF; 0xFF; 0x02; 0x69; 0; 0; 0; 0; 0x02; 0x5b; 0x01; 0x19]])].

Definition demo_ops : list KOp :=
  [OpInterrupt 0xE0; OpInterrupt 0x5B; OpPacketReady; OpMessage MsgSwipeUp; OpMacroTimer; OpPower kPS2C_EnableDevice].

