(* ===== verification/Pointing.v ===== *)
(** * Pointing: what the pointing drivers share

    The mouse and the touchpad drivers carry copies of the same code: the
    requests that talk to a Synaptics touchpad, the reports of the middle button
    machine, the arrival of other pointing devices and the properties of a
    version of the system.  It is stated once here, from
    src/VoodooPS2Mouse/VoodooPS2Mouse.cpp. *)

From S2P Require Import Prelude RingBuffer PS2Defs Controller Config.
From stdpp Require Import pretty.
From Stdlib Require String.

#[local] Open Scope string_scope.
#[local] Open Scope list_scope.
#[local] Open Scope Z_scope.

(** Signed 8 and 16 bit integers. *)
Definition s8 (z : Z) : Z := (z + 128) mod 256 - 128.
Definition s16 (z : Z) : Z := (z + 32768) mod 65536 - 32768.

(** ** Constants of Apple's headers *)

(** The constants of Apple's Bluetooth headers the driver compares with. *)
Record BluetoothConstants := {
  kBluetoothDeviceClassMajorPeripheral : Z;
  kBluetoothDeviceClassMinorPeripheral1Pointing : Z;
  kBluetoothDeviceClassMinorPeripheral1Combo : Z;
  kBluetoothDeviceClassMinorPeripheral2Unclassified : Z;
  kBluetoothDeviceClassMinorPeripheral2DigitizerTablet : Z;
  kBluetoothDeviceClassMinorPeripheral2DigitalPen : Z;
}.

(** The property keys and values of Apple's HID headers. *)
Record HIDConstants := {
  kIOHIDScrollResolutionKey : string;
  kIOHIDScrollAccelerationTypeKey : string;
  kIOHIDPointerAccelerationTypeKey : string;
  kIOHIDMouseAccelerationType : string;
  kIOHIDTrackpadAccelerationType : string;
  kIOHIDTrackpadScrollAccelerationKey : string;
}.

(** ** Requests *)

Definition to_mouse (data : Z) : list PS2Command :=
  [cmd kPS2C_WriteCommandPort kCP_TransmitToMouse; cmd kPS2C_WriteDataPort data].
Definition read_ack : PS2Command := cmd kPS2C_ReadDataPortAndCompare kSC_Acknowledge.
Definition read_byte : PS2Command := cmd kPS2C_ReadDataPort 0.
Definition mouse_command (data : Z) : PS2Command := cmd kPS2C_SendMouseCommandAndCompareAck data.


(** Two bits at a time, as four resolution commands: the Synaptics way to send
    an argument. *)
Definition send_bits (x : Z) : list PS2Command :=
  concat (map (fun shift => [mouse_command kDP_SetMouseResolution; mouse_command (Z.land (Z.shiftr x shift) 0x3)])
    [6; 4; 2; 0]).

Definition led_request (touchLED : Z) : PS2Request :=
  stack_request ([mouse_command kDP_SetMouseScaling1To1] ++ send_bits touchLED ++
    [mouse_command kDP_SetMouseSampleRate; mouse_command 10; mouse_command kDP_SetMouseScaling1To1]).

Definition data_request (dataSelector : Z) : PS2Request :=
  stack_request ([mouse_command kDP_SetDefaultsAndDisable] ++ send_bits dataSelector ++
    [mouse_command kDP_GetMouseInformation; read_byte; read_byte; read_byte;
     mouse_command kDP_SetDefaultsAndDisable]).


(** ** The middle button *)

Inductive mbuttonstate := STATE_NOBUTTONS | STATE_MIDDLE | STATE_WAIT4TWO | STATE_WAIT4NONE | STATE_NOOP.
#[export] Instance mbuttonstate_eq : EqDecision mbuttonstate.
Proof. solve_decision. Defined.

(** The second [switch]: the buttons reported in a state. *)
Definition middle_report (s : mbuttonstate) (buttons : Z) : Z :=
  match s with
  | STATE_MIDDLE => 0x4
  | STATE_WAIT4NONE | STATE_WAIT4TWO => clear buttons 0x3
  | STATE_NOBUTTONS | STATE_NOOP => buttons
  end.

(** ** The version of the system *)

(** The dictionary for the running version of the system. *)
Definition version_dict (major minor : Z) (config : OSDict) : option OSDict :=
  match getObject ("Darwin " +:+ pretty (major) +:+ "." +:+ pretty (minor)) config ≫= asDict with
  | Some d => Some d
  | None =>
      match getObject ("Darwin " +:+ pretty (major) +:+ ".x") config ≫= asDict with
      | Some d => Some d
      | None => if major >=? 16 then getObject "Darwin 16+" config ≫= asDict else None
      end
  end.

(** ** Other pointing devices *)

Inductive HIDNotification := UsbPublish | UsbTerminate | BluetoothPublish | BluetoothTerminate.

(** A service that came or went: its identity and its "ClassOfDevice". *)
Record HIDService := { service : positive; classOfDevice : option Z }.

Definition is_bluetooth_pointer (c : BluetoothConstants) (class : Z) : bool :=
  let deviceClassMajor := Z.shiftr (Z.land class 0x1F00) 8 in
  let deviceClassMinor := Z.shiftr (Z.land class 0xFF) 2 in
  (deviceClassMajor =? kBluetoothDeviceClassMajorPeripheral c) &&
  (let minor1 := Z.land deviceClassMinor 0x30 in
   let minor2 := Z.land deviceClassMinor 0x0F in
   ((minor1 =? kBluetoothDeviceClassMinorPeripheral1Pointing c) ||
    (minor1 =? kBluetoothDeviceClassMinorPeripheral1Combo c)) &&
   ((minor2 =? kBluetoothDeviceClassMinorPeripheral2Unclassified c) ||
    (minor2 =? kBluetoothDeviceClassMinorPeripheral2DigitizerTablet c) ||
    (minor2 =? kBluetoothDeviceClassMinorPeripheral2DigitalPen c))).

Definition attached_after (c : BluetoothConstants) (s : HIDService) (n : HIDNotification) (devices : gset positive) : gset positive :=
  match n with
  | UsbPublish => {[service s]} ∪ devices
  | BluetoothPublish =>
      match classOfDevice s with
      | Some class => if is_bluetooth_pointer c (u32 class) then {[service s]} ∪ devices else devices
      | None => devices
      end
  | UsbTerminate | BluetoothTerminate => devices ∖ {[service s]}
  end.

(** ** Packet assembly *)

(** Writes of consecutive bytes from offset 0. *)
Definition indexed (l : list Z) : list (Z * Z) := zip (Z.of_nat <$> seq 0 (length l)) l.

Lemma written_snoc l x (b : list Z) : written (indexed (l ++ [x])) b = <[length l := x]> (written (indexed l) b).
Proof.
  unfold indexed. rewrite length_app, Nat.add_1_r, seq_S, fmap_app, zip_with_app by (by rewrite length_fmap, length_seq).
  unfold written. rewrite fold_left_app. simpl. by rewrite Nat2Z.id.
Qed.

(** What the interrupt routine returns when [p] was queued. *)
Definition ready_if (p : option (list Z)) : PS2InterruptResult :=
  match p with Some _ => kPS2IR_packetReady | None => kPS2IR_packetBuffering end.

(** A queue of whole packets, of at most 31. *)
Definition enqueued (q : list (list Z)) (p : option (list Z)) : list (list Z) :=
  match p with Some b => Fifo.push 31 q b | None => q end.

Lemma push_indexed (q : list (list Z)) b : Fifo.push 31 (indexed <$> q) (indexed b) = indexed <$> Fifo.push 31 q b.
Proof. unfold Fifo.push. rewrite length_fmap. case_match; [by rewrite fmap_app|done]. Qed.
