(* ===== verification/Averages.v ===== *)
(** * Averages: the filters of the touchpad driver

    [SimpleAverage], [DecayingAverage] and [UndecayAverage] of
    src/VoodooPS2Trackpad/VoodooPS2SynapticsTouchPad.h, and what they compute:
    the simple average is the mean of the last [N] samples, kept in a circular
    buffer with a running sum, and the undoing filter recovers what a decaying
    average has smoothed. *)

From S2P Require Import Prelude.

#[local] Open Scope list_scope.
#[local] Open Scope Z_scope.

(** ** SimpleAverage *)

Record SimpleAverage := mkAverage {
  m_buffer : list Z;
  m_count : Z;
  m_sum : Z;
  m_index : Z;
}.
#[export] Instance SimpleAverage_eta : Settable SimpleAverage :=
  mkSettable _ (fun a => mkAverage (m_buffer a) (m_count a) (m_sum a) (m_index a)).

Definition average_reset (a : SimpleAverage) : SimpleAverage :=
  a <| m_count := 0 |> <| m_sum := 0 |> <| m_index := 0 |>.

(** A new filter for [N] samples. *)
Definition average_new (N : Z) : SimpleAverage := average_reset (mkAverage (replicate (Z.to_nat N) 0) 0 0 0).

Section simple.
  (** Number of samples, and conversion to the sample type. *)
  Context (N : Z) (cast : Z -> Z).

Definition average_filter (a : SimpleAverage) (data : Z) : outcome (Z * SimpleAverage) :=
  let sum := s32 (m_sum a + data) in
  sum ← (if m_count a =? N then old ← aget (m_buffer a) (m_index a); mret (s32 (sum - old)) else mret sum);
  buffer ← aset (m_buffer a) (m_index a) data;
  let index := s32 (m_index a + 1) in
  let index := if index >=? N then 0 else index in
  let count := if m_count a <? N then s32 (m_count a + 1) else m_count a in
  if count =? 0 then Undef
  else mret (cast (Z.quot sum count), mkAverage buffer count sum index).

Definition average_oldest (a : SimpleAverage) : outcome Z :=
  if m_count a =? 0 then mret 0
  else if m_count a <? N then aget (m_buffer a) 0
  else aget (m_buffer a) (m_index a).

Definition average_newest (a : SimpleAverage) : outcome Z :=
  if m_count a =? 0 then mret 0
  else
    let index := s32 (m_index a - 1) in
    aget (m_buffer a) (if index <? 0 then s32 (m_count a - 1) else index).

Definition average_average (a : SimpleAverage) : Z :=
  if m_count a =? 0 then 0 else cast (Z.quot (m_sum a) (m_count a)).
End simple.

(** ** The weighted filters *)

Record LastValue := mkLast { m_last : Z; m_lastvalid : bool }.

Definition last_reset (f : LastValue) : LastValue := mkLast (m_last f) false.

Section weighted.
  Context (N1 N2 D : Z) (cast cast2 : Z -> Z).

(** [cast] converts to [T], [cast2] to the wider type [TT]. *)
Definition decaying_filter (f : LastValue) (data : Z) : Z * LastValue :=
  let result := if m_lastvalid f
    then cast2 (Z.quot (cast2 (data * N1)) D + Z.quot (cast2 (m_last f * N2)) D) else data in
  (cast result, mkLast (cast result) true).

Definition undecay_filter (f : LastValue) (data : Z) : Z * LastValue :=
  let result := if m_lastvalid f
    then cast2 (Z.quot (cast2 (data * D)) N1 - Z.quot (cast2 (m_last f * N2)) N1) else data in
  (cast result, mkLast data true).
End weighted.

(** ** What the simple average computes *)

(** The samples in force: the last [N] of those seen. *)
Definition window (N : Z) (l : list Z) : list Z := drop (length l - Z.to_nat N) l.

Definition sum_list (l : list Z) : Z := foldr Z.add 0 l.

Lemma sum_app l1 l2 : sum_list (l1 ++ l2) = sum_list l1 + sum_list l2.
Proof. induction l1 as [|x l1 IH]; simpl; [done|]. unfold sum_list in *. lia. Qed.

Lemma s32_add_l a b : s32 (s32 a + b) = s32 (a + b).
Proof. unfold s32. Z.to_euclidean_division_equations. lia. Qed.
Lemma s32_sub_l a b : s32 (s32 a - b) = s32 (a - b).
Proof. unfold s32. Z.to_euclidean_division_equations. lia. Qed.
Lemma s32_small a : -2147483648 <= a < 2147483648 -> s32 a = a.
Proof. intros H. unfold s32. rewrite Z.mod_small; lia. Qed.

Section window.
  Context (N : Z) (cast : Z -> Z) (HN : 0 < N < 2147483648).

(** The buffer holds the window [w], oldest sample first. *)
Record holds_window (a : SimpleAverage) (w : list Z) : Prop := {
  hw_buffer : Z.of_nat (length (m_buffer a)) = N;
  hw_count : m_count a = Z.of_nat (length w);
  hw_sum : m_sum a = s32 (sum_list w);
  hw_index : 0 <= m_index a < N;
  hw_data :
    (m_count a < N /\ m_index a = m_count a /\ take (length w) (m_buffer a) = w) \/
    (m_count a = N /\ drop (Z.to_nat (m_index a)) (m_buffer a) ++ take (Z.to_nat (m_index a)) (m_buffer a) = w);
}.

Definition push_window (w : list Z) (d : Z) : list Z :=
  if Z.of_nat (length w) =? N then tail w ++ [d] else w ++ [d].

Lemma holds_new : holds_window (average_new N) [].
Proof.
  split; simpl; [rewrite length_replicate; lia|done|done|lia|]. left. split; [lia|done].
Qed.

Lemma holds_reset a w : holds_window a w -> holds_window (average_reset a) [].
Proof. intros []. split; simpl; [done|done|done|lia|]. left. split; [lia|done]. Qed.

Lemma take_insert_last (l : list Z) n (d : Z) : (n < length l)%nat -> take (S n) (<[n := d]> l) = take n l ++ [d].
Proof.
  intros Hn. rewrite (take_S_r _ _ d) by (apply list_lookup_insert_eq; lia).
  by rewrite take_insert_ge by lia.
Qed.

(** The window is full: the new sample takes the place of the oldest. *)
Lemma rotate_insert (b : list Z) i d : (i < length b)%nat ->
  drop (S i) (<[i := d]> b) ++ take (S i) (<[i := d]> b) = tail (drop i b ++ take i b) ++ [d].
Proof.
  intros Hi. destruct (lookup_lt_is_Some_2 b i Hi) as [x Hx].
  rewrite take_insert_last, drop_insert_lt, (drop_S _ _ _ Hx) by lia. simpl. by rewrite app_assoc.
Qed.

Lemma filter_ok a w d : holds_window a w ->
  let w' := push_window w d in
  exists a', average_filter N cast a d = Done (cast (Z.quot (s32 (sum_list w')) (Z.of_nat (length w'))), a') /\ holds_window a' w'.
Proof.
  intros [Hb Hc Hs Hi Hd]. unfold average_filter, push_window. rewrite <- Hc.
  assert (Z.to_nat (m_index a) < length (m_buffer a))%nat as Hlt by lia.
  rewrite (aset_ok (m_buffer a) (m_index a) d) by lia. rewrite (s32_small (m_index a + 1)) by lia.
  destruct Hd as [(Hlt' & Hidx & Hw)|(Hfull & Hw)].
  - rewrite (proj2 (Z.eqb_neq (m_count a) N)), (proj2 (Z.ltb_lt (m_count a) N)) by lia. rewrite (s32_small (m_count a + 1)) by lia. cbn -[Z.quot].
    rewrite (proj2 (Z.eqb_neq (m_count a + 1) 0)) by lia.
    assert (Z.of_nat (length (w ++ [d])) = m_count a + 1) as El by (rewrite length_app; simpl; lia).
    assert (s32 (m_sum a + d) = s32 (sum_list (w ++ [d]))) as Es by (rewrite Hs, s32_add_l, sum_app; f_equal; simpl; lia).
    rewrite El, <- Es. eexists. split; [reflexivity|].
    assert (take (length (w ++ [d])) (<[Z.to_nat (m_index a):=d]> (m_buffer a)) = w ++ [d]) as Ew.
    { rewrite Hidx, Hc, Nat2Z.id, length_app, Nat.add_1_r. rewrite take_insert_last by lia. by rewrite Hw. }
    split; simpl; [by rewrite length_insert|lia|done|destruct (Z.geb_spec (m_index a + 1) N); lia|].
    destruct (Z.geb_spec (m_index a + 1) N).
    + right. split; [lia|]. change (Z.to_nat 0) with 0%nat. rewrite drop_0, take_0, app_nil_r.
      etransitivity; [|exact Ew]. symmetry. apply take_ge. rewrite length_insert. lia.
    + left. split; [lia|]. split; [lia|done].
  - rewrite (proj2 (Z.eqb_eq (m_count a) N)), (proj2 (Z.ltb_ge (m_count a) N)) by lia.
    destruct (lookup_lt_is_Some_2 _ _ Hlt) as [x Hx]. rewrite (aget_lookup _ _ _ (proj1 Hi) Hx). cbn -[Z.quot].
    rewrite (proj2 (Z.eqb_neq (m_count a) 0)) by lia.
    pose proof Hw as Hw'. rewrite (drop_S _ _ _ Hx) in Hw'. simpl in Hw'.
    assert (Z.of_nat (length (tail w ++ [d])) = m_count a) as El.
    { rewrite <- Hw' in *. simpl in *. rewrite length_app. simpl. lia. }
    assert (s32 (s32 (m_sum a + d) - x) = s32 (sum_list (tail w ++ [d]))) as Es.
    { rewrite Hs, s32_add_l, s32_sub_l, sum_app, <- Hw'. f_equal. simpl. lia. }
    rewrite El, Es. eexists. split; [reflexivity|].
    split; simpl; [by rewrite length_insert|lia|done|destruct (Z.geb_spec (m_index a + 1) N); lia|]. right. split; [done|].
    pose proof (rotate_insert (m_buffer a) (Z.to_nat (m_index a)) d Hlt) as Hr. rewrite Hw in Hr. rewrite <- Hr.
    destruct (Z.geb_spec (m_index a + 1) N).
    + change (Z.to_nat 0) with 0%nat. rewrite drop_0, take_0, app_nil_r.
      rewrite (drop_ge _ (S _)), (take_ge _ (S _)) by (rewrite length_insert; lia). done.
    + replace (Z.to_nat (m_index a + 1)) with (S (Z.to_nat (m_index a))) by lia. done.
Qed.

Lemma oldest_ok a w : holds_window a w -> average_oldest N a = Done (default 0 (head w)).
Proof.
  intros [Hb Hc Hs Hi Hd]. unfold average_oldest. destruct (Z.eqb_spec (m_count a) 0) as [E|E].
  { destruct w; [done|simpl in Hc; lia]. }
  destruct Hd as [(Hlt' & Hidx & Hw)|(Hfull & Hw)].
  - rewrite (proj2 (Z.ltb_lt _ _)) by lia. destruct (m_buffer a) as [|x b]; [simpl in Hb; lia|].
    destruct w as [|y w]; [simpl in Hc; lia|]. simpl in Hw. by injection Hw as -> _.
  - rewrite (proj2 (Z.ltb_ge _ _)) by lia. destruct (lookup_lt_is_Some_2 (m_buffer a) (Z.to_nat (m_index a))) as [x Hx]; [lia|].
    rewrite (aget_lookup _ _ _ (proj1 Hi) Hx). rewrite (drop_S _ _ _ Hx) in Hw. by rewrite <- Hw.
Qed.

Lemma newest_ok a w : holds_window a w -> average_newest a = Done (default 0 (last w)).
Proof.
  intros [Hb Hc Hs Hi Hd]. unfold average_newest. destruct (Z.eqb_spec (m_count a) 0) as [E|E].
  { destruct w; [done|simpl in Hc; lia]. }
  rewrite !s32_small by lia.
  destruct Hd as [(Hlt' & Hidx & Hw)|(Hfull & Hw)].
  - rewrite (proj2 (Z.ltb_ge _ _)) by lia. destruct (lookup_lt_is_Some_2 (m_buffer a) (Z.to_nat (m_index a - 1))) as [x Hx]; [lia|].
    rewrite (aget_lookup _ (m_index a - 1) x), last_lookup by (done || lia). replace (w !! pred (length w)) with (Some x); [done|].
    rewrite <- Hx. replace (Z.to_nat (m_index a - 1)) with (pred (length w)) by lia.
    etransitivity; [symmetry; apply (lookup_take_lt _ (length w)); lia|by rewrite Hw].
  - destruct (Z.ltb_spec (m_index a - 1) 0).
    + assert (m_index a = 0) as E0 by lia. rewrite E0 in Hw. change (Z.to_nat 0) with 0%nat in Hw.
      rewrite drop_0, take_0, app_nil_r in Hw. subst w. rewrite last_lookup.
      destruct (lookup_lt_is_Some_2 (m_buffer a) (Z.to_nat (m_count a - 1))) as [x Hx]; [lia|].
      rewrite (aget_lookup _ (m_count a - 1) x) by (done || lia). replace (pred (length (m_buffer a))) with (Z.to_nat (m_count a - 1)) by lia. by rewrite Hx.
    + destruct (lookup_lt_is_Some_2 (m_buffer a) (Z.to_nat (m_index a - 1))) as [x Hx]; [lia|].
      rewrite (aget_lookup _ (m_index a - 1) x), <- Hw by (done || lia).
      replace (Z.to_nat (m_index a)) with (S (Z.to_nat (m_index a - 1))) by lia.
      rewrite (take_S_r _ _ _ Hx), app_assoc, last_snoc. done.
Qed.
End window.

(** ** Runs of the filter *)

(** All samples of a run, from a new or reset filter. *)
Fixpoint run_filter (N : Z) (cast : Z -> Z) (a : SimpleAverage) (ds : list Z) : outcome (list Z * SimpleAverage) :=
  match ds with
  | [] => Done ([], a)
  | d :: ds => '(r, a) ← average_filter N cast a d; '(rs, a) ← run_filter N cast a ds; mret (r :: rs, a)
  end.

(** The mean of the last [N] samples at each point of a run. *)
Fixpoint means (N : Z) (cast : Z -> Z) (w : list Z) (ds : list Z) : list Z :=
  match ds with
  | [] => []
  | d :: ds => let w := push_window N w d in
      cast (Z.quot (s32 (sum_list w)) (Z.of_nat (length w))) :: means N cast w ds
  end.

Lemma tail_drop_S (l : list Z) n : tail (drop n l) = drop (S n) l.
Proof. revert n. induction l as [|x l IH]; intros [|n]; simpl; auto. Qed.

Lemma window_push N l d : 0 < N -> push_window N (window N l) d = window N (l ++ [d]).
Proof.
  intros HN. unfold push_window, window. rewrite length_drop, length_app. simpl.
  destruct (Z.eqb_spec (Z.of_nat (length l - (length l - Z.to_nat N))) N) as [E|E].
  - rewrite drop_app_le by lia. f_equal. replace (length l + 1 - Z.to_nat N)%nat with (S (length l - Z.to_nat N)) by lia.
    apply tail_drop_S.
  - replace (length l + 1 - Z.to_nat N)%nat with 0%nat by lia. replace (length l - Z.to_nat N)%nat with 0%nat by lia. done.
Qed.

Lemma push_window_length N w d : 0 < N -> Z.of_nat (length w) <= N -> 0 < Z.of_nat (length (push_window N w d)) <= N.
Proof.
  intros HN Hw. unfold push_window. destruct (Z.eqb_spec (Z.of_nat (length w)) N); rewrite length_app; simpl; [|lia].
  destruct w; simpl in *; lia.
Qed.

Lemma run_filter_ok N cast ds l a : 0 < N < 2147483648 -> holds_window N a (window N l) ->
  exists a', run_filter N cast a ds = Done (means N cast (window N l) ds, a') /\ holds_window N a' (window N (l ++ ds)).
Proof.
  intros HN. revert l a. induction ds as [|d ds IH]; intros l a Ha; [exists a; rewrite app_nil_r; done|].
  destruct (filter_ok N cast HN a _ d Ha) as (a1 & E1 & H1). rewrite window_push in E1, H1 by lia.
  destruct (IH _ _ H1) as (a2 & E2 & H2). exists a2. rewrite <- app_assoc in H2. split; [|exact H2].
  cbn [run_filter means]. rewrite window_push by lia. rewrite E1. cbn. rewrite E2. done.
Qed.

(** C36: The smoothing filter refines the mean of a sliding window: over any run
    of samples it neither reads nor writes outside its buffer and returns at
    each point the mean, rounded towards zero, of the last [N] samples; at the
    end its oldest and newest samples are those of the window. *)
Theorem average_run N cast ds : 0 < N < 2147483648 ->
  exists a, run_filter N cast (average_new N) ds = Done (means N cast [] ds, a) /\
    average_oldest N a = Done (default 0 (head (window N ds))) /\
    average_newest a = Done (default 0 (last (window N ds))) /\
    m_sum a = s32 (sum_list (window N ds)).
Proof.
  intros HN. destruct (run_filter_ok N cast ds [] (average_new N) HN (holds_new N HN)) as (a & E & H). exists a. split; [exact E|].
  split; [by apply oldest_ok|]. split; [by eapply newest_ok|]. apply H.
Qed.

Lemma average_run_witness : exists a, run_filter 5 s32 (average_new 5) [10; 20; 30; 40; 50; 61] = Done ([10; 15; 20; 25; 30; 40], a) /\
  average_oldest 5 a = Done 20 /\ average_newest a = Done 61 /\ m_sum a = 201.
Proof. apply (average_run 5 s32 [10; 20; 30; 40; 50; 61]). lia. Defined.

(** ** Bounds *)

Lemma sum_bounds lo hi w : Forall (fun x => lo <= x <= hi) w ->
  lo * Z.of_nat (length w) <= sum_list w <= hi * Z.of_nat (length w).
Proof.
  induction 1 as [|x w Hx _ IH]; [simpl; lia|]. change (length (x :: w)) with (S (length w)).
  change (sum_list (x :: w)) with (x + sum_list w). nia.
Qed.

Lemma quot_bounds lo hi s n : 0 < n -> lo * n <= s <= hi * n -> lo <= Z.quot s n <= hi.
Proof. intros Hn Hs. Z.to_euclidean_division_equations. nia. Qed.

Lemma push_window_Forall N (P : Z -> Prop) w d : Forall P w -> P d -> Forall P (push_window N w d).
Proof.
  intros Hw Hd. unfold push_window. destruct (_ =? _); apply Forall_app; (split; [|by constructor]); [|done].
  destruct w; [done|]. by inversion Hw.
Qed.

Lemma means_bounds N lo hi ds : 0 < N < 2147483648 -> -2147483648 <= lo * N -> hi * N < 2147483648 -> lo <= 0 <= hi ->
  Forall (fun x => lo <= x <= hi) ds -> Forall (fun x => lo <= x <= hi) (means N s32 [] ds).
Proof.
  intros HN Hlo Hhi H0 Hds.
  assert (forall w, Z.of_nat (length w) <= N -> Forall (fun x => lo <= x <= hi) w -> Forall (fun x => lo <= x <= hi) (means N s32 w ds)) as H.
  { induction Hds as [|d ds Hd _ IH]; intros w Hl Hw; [constructor|]. cbn [means].
    pose proof (push_window_length N w d (proj1 HN) Hl) as Hl'. pose proof (push_window_Forall N _ w d Hw Hd) as Hw'.
    constructor; [|apply IH; [lia|done]]. pose proof (sum_bounds _ _ _ Hw') as Hs.
    rewrite (s32_small (sum_list _)) by nia. pose proof (quot_bounds lo hi _ _ (proj1 Hl') Hs).
    rewrite s32_small; nia. }
  apply H; [simpl; lia|constructor].
Qed.



(** Undoing a decaying average of one half: exact when the smoothed values are. *)
Lemma undecay_exact (last data s : Z) :
  2 * s = data + last -> (undecay_filter 1 1 2 id id (mkLast last true) s).1 = data.
Proof. unfold undecay_filter, id. simpl. rewrite !Z.quot_1_r. lia. Qed.
