(* ===== verification/Mouse.v ===== *)
(** * Mouse: ApplePS2Mouse

    The driver for PS/2 mice and for touchpads in mouse mode,
    src/VoodooPS2Mouse/VoodooPS2Mouse.cpp/.h (the release build): configuration,
    the requests that reset and identify the mouse, packet assembly at interrupt
    time, decoding of packets, the middle button made of two, messages from the
    keyboard and the arrival of other pointing devices.

    What the driver does to the outside is a trace of [MEvent]; what it learns
    from the outside is the parameter [env], the answers to its requests among
    it ([submit]). *)

From S2P Require Import Prelude RingBuffer PS2Defs Controller Config Pointing.
From stdpp Require Import pretty.
From Stdlib Require String.

#[local] Open Scope string_scope.
#[local] Open Scope list_scope.
#[local] Open Scope Z_scope.

Definition kPacketLengthMax : Z := 4.
Definition kPacketLengthStandard : Z := 3.
Definition kPacketLengthIntellimouse : Z := 4.

Inductive PS2MouseId := kMouseTypeStandard | kMouseTypeIntellimouse | kMouseTypeIntellimouseExplorer.
#[export] Instance PS2MouseId_eq : EqDecision PS2MouseId.
Proof. solve_decision. Defined.

Inductive MBComingFrom := fromTimer | fromMouse.
#[export] Instance MBComingFrom_eq : EqDecision MBComingFrom.
Proof. solve_decision. Defined.

(** ** State *)

Record ApplePS2Mouse := mkMouse {
  _device : bool;
  _interruptHandlerInstalled : bool;
  _powerControlHandlerInstalled : bool;
  _ringBuffer : RingBuffer Z;
  _packetByteCount : Z;
  _lastdata : Z;
  _packetLength : Z;
  _resolution : Z;
  _type : PS2MouseId;
  _buttonCount : Z;
  _mouseInfoBytes : Z;
  _mouseResetCount : Z;
  _cmdGate : bool;
  defres : Z;
  forceres : bool;
  mouseyinverter : Z;
  scrollyinverter : Z;
  forcesetres : bool;
  resmode : Z;
  scrollres : Z;
  actliketrackpad : bool;
  keytime : Z;
  maxaftertyping : Z;
  buttonmask : Z;
  outzone_wt : bool;
  palm : bool;
  palm_wt : bool;
  scroll : bool;
  ignoreall : bool;
  ledpresent : bool;
  noled : bool;
  wakedelay : Z;
  usb_mouse_stops_trackpad : bool;
  _processusbmouse : bool;
  _processbluetoothmouse : bool;
  attachedHIDPointerDevices : option (gset positive);
  usb_notify : bool;                          (* usb_hid_{publish,terminate}_notify are set *)
  bluetooth_notify : bool;                    (* bluetooth_hid_{publish,terminate}_notify are set *)
  _mbuttonstate : mbuttonstate;
  lastbuttons : Z;
  _pendingbuttons : Z;
  _buttontime : Z;
  _buttonTimer : bool;
  _maxmiddleclicktime : Z;
  _fakemiddlebutton : bool;
}.
#[export] Instance ApplePS2Mouse_eta : Settable ApplePS2Mouse := mkSettable _ (fun m =>
  mkMouse (_device m) (_interruptHandlerInstalled m) (_powerControlHandlerInstalled m) (_ringBuffer m)
    (_packetByteCount m) (_lastdata m) (_packetLength m) (_resolution m) (_type m) (_buttonCount m)
    (_mouseInfoBytes m) (_mouseResetCount m) (_cmdGate m) (defres m) (forceres m) (mouseyinverter m)
    (scrollyinverter m) (forcesetres m) (resmode m) (scrollres m) (actliketrackpad m) (keytime m)
    (maxaftertyping m) (buttonmask m) (outzone_wt m) (palm m) (palm_wt m) (scroll m) (ignoreall m)
    (ledpresent m) (noled m) (wakedelay m) (usb_mouse_stops_trackpad m) (_processusbmouse m)
    (_processbluetoothmouse m) (attachedHIDPointerDevices m) (usb_notify m) (bluetooth_notify m)
    (_mbuttonstate m) (lastbuttons m) (_pendingbuttons m) (_buttontime m) (_buttonTimer m)
    (_maxmiddleclicktime m) (_fakemiddlebutton m)).

Inductive MEvent :=
| MPointer (dx dy buttons time : Z)           (* dispatchRelativePointerEvent *)
| MScroll (d1 d2 d3 time : Z)                 (* dispatchScrollWheelEvent *)
| MSetTimer (ns : Z)
| MCancelTimer
| MSubmitBlock (r : PS2Request)
| MSleep (ms : Z)
| MSetProperty (key : string) (v : OSObject)
| MRemoveProperty (key : string)
| MRegisterUSB
| MRegisterBluetooth
| MUnregisterUSB
| MUnregisterBluetooth
| MInstallInterruptAction
| MInstallPowerControlAction
| MUninstallInterruptAction
| MUninstallPowerControlAction.

Record MEnv := {
  uptime : nat -> Z;
  absolutetime_to_nanoseconds : Z -> Z;
  submit : list MEvent -> PS2Request -> PS2Request;   (* the request after the controller executed it *)
  getWorkLoop : bool;
  alloc_gate : bool;
  alloc_timer : bool;
  version_major : Z;
  version_minor : Z;
  bt : BluetoothConstants;
  hid : HIDConstants;
}.

Record MWorld := mkMWorld {
  mouse : ApplePS2Mouse;
  ticks : nat;
  mevs : list MEvent;
}.
#[export] Instance MWorld_eta : Settable MWorld := mkSettable _ (fun w => mkMWorld (mouse w) (ticks w) (mevs w)).

Section mouse.
  Context (env : MEnv).
  Notation "'prog' A" := (M MWorld A) (at level 10, A at next level).

Definition memit (e : MEvent) : prog unit := modify (fun w => w <| mevs := mevs w ++ [e] |>).
Definition getm {A} (f : ApplePS2Mouse -> A) : prog A := gets (fun w => f (mouse w)).
Definition setm (f : ApplePS2Mouse -> ApplePS2Mouse) : prog unit :=
  modify (fun w => w <| mouse := f (mouse w) |>).

Definition clock_get_uptime : prog Z :=
  fun w => Done (u64 (uptime env (ticks w)), w <| ticks := S (ticks w) |>).

Definition dispatchRelativePointerEventX (dx dy buttons now : Z) : prog unit := memit (MPointer dx dy buttons now).
Definition dispatchScrollWheelEventX (d1 d2 d3 now : Z) : prog unit :=
  memit (MScroll (s16 d1) (s16 d2) (s16 d3) now).

(** The timer may not exist. *)
Definition setTimerTimeout (ns : Z) : prog unit :=
  t ← getm _buttonTimer; if t : bool then memit (MSetTimer ns) else undef.
Definition cancelTimer : prog unit :=
  t ← getm _buttonTimer; if t : bool then memit MCancelTimer else undef.

Definition setProperty (key : string) (v : OSObject) : prog unit := memit (MSetProperty key v).
Definition removeProperty (key : string) : prog unit := memit (MRemoveProperty key).

(** [_device->submitRequestAndBlock(&request)]: the request as the controller leaves it. *)
Definition submitRequestAndBlock (r : PS2Request) : prog PS2Request :=
  evs ← gets mevs;
  memit (MSubmitBlock r);;
  mret (submit env evs r).

(** [request.commands[i].inOrOut] *)
Definition result (r : PS2Request) (i : Z) : prog Z :=
  c ← lift (aget (commands r) i); mret (inOrOut c).

(** ** Requests *)

Definition enable_request (enable : bool) : PS2Request :=
  stack_request (to_mouse (if enable then kDP_Enable else kDP_SetDefaultsAndDisable) ++ [read_ack]).
Definition setMouseEnable (enable : bool) : prog unit :=
  submitRequestAndBlock (enable_request enable);; mret tt.

Definition sampleRate_request (sampleRate : Z) : PS2Request :=
  stack_request (to_mouse kDP_SetMouseSampleRate ++ [read_ack] ++ to_mouse sampleRate ++ [read_ack]).
Definition setMouseSampleRate (sampleRate : Z) : prog unit :=
  submitRequestAndBlock (sampleRate_request (u8 sampleRate));; mret tt.

Definition resolution_request (resolution : Z) : PS2Request :=
  stack_request (to_mouse kDP_SetMouseResolution ++ [read_ack] ++ to_mouse resolution ++ [read_ack]).
Definition setMouseResolution (resolution : Z) : prog unit :=
  submitRequestAndBlock (resolution_request (u8 resolution));; mret tt.

Definition information_request : PS2Request :=
  stack_request (to_mouse kDP_GetMouseInformation ++ [read_ack; read_byte; read_byte; read_byte]).

Definition getMouseInformation : prog Z :=
  r ← submitRequestAndBlock information_request;
  if commandsCount r =? 6 then
    b3 ← result r 3; b4 ← result r 4; b5 ← result r 5;
    mret (u32 (Z.lor (Z.lor (Z.shiftl b3 16) (Z.shiftl b4 8)) b5))
  else mret (u32 (-1)).

Definition id_request : PS2Request := stack_request (to_mouse kDP_GetId ++ [read_ack; read_byte]).

Definition getMouseID : prog Z :=
  r ← submitRequestAndBlock id_request;
  if commandsCount r =? 4 then result r 3 else mret (u8 (-1)).

Definition setTouchpadLED (touchLED : Z) : prog bool :=
  r ← submitRequestAndBlock (led_request touchLED); mret (12 =? commandsCount r).

Definition updateTouchpadLED : prog unit :=
  m ← getm id;
  if ledpresent m && negb (noled m) then setTouchpadLED (if ignoreall m then 0x88 else 0x10);; mret tt
  else mret tt.

(** The three bytes of [buf3], if the request succeeded. *)
Definition getTouchPadData (dataSelector : Z) : prog (option (Z * Z * Z)) :=
  r ← submitRequestAndBlock (data_request dataSelector);
  if negb (14 =? commandsCount r) then mret None
  else
    b0 ← result r 10; b1 ← result r 11; b2 ← result r 12;
    mret (Some (b0, b1, b2)).

(** ** Identification and reset *)

(** The [switch] on the identification byte. *)
Definition mouse_type (id : Z) : PS2MouseId :=
  if id =? 0x04 then kMouseTypeIntellimouseExplorer
  else if id =? 0x03 then kMouseTypeIntellimouse
  else kMouseTypeStandard.

Definition setIntellimouseMode : prog PS2MouseId :=
  setMouseSampleRate 200;; setMouseSampleRate 100;; setMouseSampleRate 80;;
  memit (MSleep 50);;
  id1 ← getMouseID;
  let mouseID := mouse_type id1 in
  mouseID ← (if bool_decide (mouseID = kMouseTypeIntellimouse) then
               setMouseSampleRate 200;; setMouseSampleRate 200;; setMouseSampleRate 80;;
               memit (MSleep 50);;
               id2 ← getMouseID;
               mret (if id2 =? 0x04 then kMouseTypeIntellimouseExplorer else kMouseTypeIntellimouse)
             else mret mouseID);
  info ← getm _mouseInfoBytes;
  setMouseSampleRate (Z.land info 0x0000FF);;
  mret mouseID.

Definition reset_request : PS2Request :=
  stack_request (to_mouse kDP_SetDefaults ++ to_mouse kDP_GetMouseInformation ++
    [read_ack; read_byte; read_byte; read_byte]).

(** The Synaptics part of [resetMouse]: is there an LED? *)
Definition detectLED : prog unit :=
  setm (fun m => m <| ledpresent := false |>);;
  m ← getm id;
  if actliketrackpad m && negb (noled m) then
    r ← getTouchPadData 0x0;
    match r with
    | Some (_, b1, _) =>
        if negb ((0x46 =? b1) || (0x47 =? b1)) then mret tt
        else
          r ← getTouchPadData 0x2;
          match r with
          | Some (b0, _, _) =>
              if negb (anyset b0 0x80) then mret tt
              else if Z.shiftr (Z.land b0 0x70) 4 >=? 1 then
                r ← getTouchPadData 0x9;
                match r with
                | Some (b0, _, _) => setm (fun m => m <| ledpresent := Z.testbit b0 6 |>)
                | None => mret tt
                end
              else mret tt
          | None => mret tt
          end
    | None => mret tt
    end
  else mret tt.

(** The resolution a mouse reports, in dots per inch. *)
Definition info_resolution (info : Z) : Z :=
  let r := Z.land info 0x00FF00 in
  Z.shiftl (if r =? 0x0000 then 25 else if r =? 0x0100 then 50 else if r =? 0x0200 then 100
            else if r =? 0x0300 then 200 else 150) 16.

Definition readResolution : prog unit :=
  m ← getm id;
  if _mouseInfoBytes m =? u32 (-1) then
    when (forcesetres m && negb (resmode m =? -1)) (setMouseResolution (resmode m));;
    info ← getMouseInformation;
    setm (fun m => m <| _mouseInfoBytes := info |>
                     <| _resolution := if forceres m then defres m else info_resolution info |>)
  else setMouseResolution (Z.land (Z.shiftr (_mouseInfoBytes m) 8) 3).

Definition acceleration (m : ApplePS2Mouse) : OSObject :=
  OSString (if negb (actliketrackpad m) then kIOHIDMouseAccelerationType (hid env) else kIOHIDTrackpadAccelerationType (hid env)).

Definition enterMode (type : PS2MouseId) : prog unit :=
  setm (fun m => m <| _type := type |>);;
  (if negb (bool_decide (kMouseTypeStandard = type)) then
     setm (fun m => m <| _packetLength := kPacketLengthIntellimouse |>
                      <| _buttonCount := if bool_decide (kMouseTypeIntellimouseExplorer = type) then 5 else 3 |>);;
     m ← getm id;
     setProperty (kIOHIDScrollResolutionKey (hid env)) (OSNumber (u32 (Z.shiftl (scrollres m) 16)));;
     setProperty (kIOHIDScrollAccelerationTypeKey (hid env)) (acceleration m)
   else
     setm (fun m => m <| _packetLength := kPacketLengthStandard |>);;
     removeProperty (kIOHIDScrollResolutionKey (hid env));;
     removeProperty (kIOHIDScrollAccelerationTypeKey (hid env)));;
  m ← getm id;
  setProperty (kIOHIDPointerAccelerationTypeKey (hid env)) (acceleration m).

Definition resetMouse : prog unit :=
  submitRequestAndBlock reset_request;;
  detectLED;;
  readResolution;;
  type ← setIntellimouseMode;
  enterMode type;;
  setm (fun m => m <| _buttonCount :=
    if (2 =? _buttonCount m) && _fakemiddlebutton m && _buttonTimer m then 3 else _buttonCount m |>);;
  setm (fun m => m <| _packetByteCount := 0 |> <| _ringBuffer := reset (_ringBuffer m) |>);;
  setMouseEnable true.

Definition initMouse : prog unit := setMouseEnable false;; resetMouse.

(** ** Interrupt time *)

(** Size of [_ringBuffer], 32 packets. *)
Definition ringSize : Z := kPacketLengthMax * 32.

Definition push_command (code : Z) : prog unit :=
  rb ← getm _ringBuffer;
  rb ← lift (head_set rb 0 0x00);
  rb ← lift (head_set rb 1 code);
  setm (fun m => m <| _ringBuffer := advanceHead ringSize rb kPacketLengthMax |>).

Definition interruptOccurred (data : Z) : prog PS2InterruptResult :=
  m ← getm id;
  if (kSC_Reset =? _lastdata m) && (0x00 =? data) then
    push_command kSC_Reset;;
    setm (fun m => m <| _packetByteCount := 0 |>);;
    mret kPS2IR_packetReady
  else
    setm (fun m => m <| _lastdata := data |>);;
    if (_packetByteCount m =? 0) && ((data =? kSC_Acknowledge) || negb (anyset data 0x08)) then
      if _mouseResetCount m <? 5 then
        setm (fun m => m <| _mouseResetCount := u32 (_mouseResetCount m + 1) |>);;
        push_command kSC_Acknowledge;;
        mret kPS2IR_packetReady
      else mret kPS2IR_packetBuffering
    else
      rb ← lift (head_set (_ringBuffer m) (_packetByteCount m) data);
      setm (fun m => m <| _ringBuffer := rb |> <| _packetByteCount := u32 (_packetByteCount m + 1) |>);;
      m ← getm id;
      if _packetByteCount m =? _packetLength m then
        setm (fun m => m <| _mouseResetCount := 0 |>
                         <| _ringBuffer := advanceHead ringSize (_ringBuffer m) kPacketLengthMax |>
                         <| _packetByteCount := 0 |>);;
        mret kPS2IR_packetReady
      else mret kPS2IR_packetBuffering.

(** ** The middle button *)

(** The first [switch] of [middleButton]. *)
Definition middle_step (m : ApplePS2Mouse) (buttons now_abs now_ns : Z) (from : MBComingFrom) (timeout : bool) : prog unit :=
  let state s := setm (fun m => m <| _mbuttonstate := s |>) in
  let delay s :=
    setm (fun m => m <| _pendingbuttons := buttons |> <| _buttontime := now_ns |>);;
    setTimerTimeout (_maxmiddleclicktime m);; state s in
  let settle s := setm (fun m => m <| _pendingbuttons := 0 |>);; cancelTimer;; state s in
  let flush (b : bool) :=
    when b (dispatchRelativePointerEventX 0 0 (Z.lor buttons (_pendingbuttons m)) now_abs);;
    settle (if 0x0 =? buttons then STATE_NOBUTTONS else STATE_NOOP) in
  match _mbuttonstate m with
  | STATE_NOBUTTONS =>
      if anyset buttons 0x4 then state STATE_NOOP
      else if 0x3 =? buttons then state STATE_MIDDLE
      else if negb (0x0 =? buttons) then delay STATE_WAIT4TWO
      else mret tt
  | STATE_WAIT4TWO =>
      if negb timeout && (0x3 =? buttons) then settle STATE_MIDDLE
      else if timeout || negb (buttons =? _pendingbuttons m) then
        flush (bool_decide (fromTimer = from) || negb (anyset buttons (_pendingbuttons m)))
      else mret tt
  | STATE_MIDDLE =>
      if 0x0 =? buttons then state STATE_NOBUTTONS
      else if negb (0x3 =? Z.land buttons 0x3) then delay STATE_WAIT4NONE
      else mret tt
  | STATE_WAIT4NONE =>
      if negb timeout && (0x0 =? buttons) then settle STATE_NOBUTTONS
      else if timeout || negb (buttons =? _pendingbuttons m) then flush (bool_decide (fromTimer = from))
      else mret tt
  | STATE_NOOP => if 0x0 =? buttons then state STATE_NOBUTTONS else mret tt
  end.

Definition middleButton (buttons now_abs : Z) (from : MBComingFrom) : prog Z :=
  m ← getm id;
  if negb (_fakemiddlebutton m) || (_buttonCount m <=? 2) || (ignoreall m && bool_decide (fromMouse = from)) then mret buttons
  else
    let now_ns := absolutetime_to_nanoseconds env now_abs in
    let timeout := bool_decide (fromTimer = from) || (u64 (now_ns - _buttontime m) >? _maxmiddleclicktime m) in
    middle_step m buttons now_abs now_ns from timeout;;
    s ← getm _mbuttonstate;
    mret (middle_report s buttons).

Definition onButtonTimer : prog unit :=
  now_abs ← clock_get_uptime;
  b ← getm lastbuttons;
  middleButton b now_abs fromTimer;;
  mret tt.

(** ** Packets *)

(** A nine bit two's complement number, its sign in the first byte. *)
Definition delta (sign : bool) (low : Z) : Z := u32 (Z.lor (if sign then 0xffffff00 else 0) low).

Definition dispatchRelativePointerEventWithPacket (packet : list Z) (packetSize : Z) : prog unit :=
  p0 ← lift (aget packet 0);
  p1 ← lift (aget packet 1);
  p2 ← lift (aget packet 2);
  let buttons := Z.land p0 0x7 in
  let dx := s32 (delta (anyset p0 0x10) p1) in
  let dy := s32 (u32 (- delta (anyset p0 0x20) p2)) in
  now_abs ← clock_get_uptime;
  let now_ns := absolutetime_to_nanoseconds env now_abs in
  m ← getm id;
  '(buttons, dz) ← (if packetSize >? 3 then
      p3 ← lift (aget packet 3);
      mret (if bool_decide (_type m = kMouseTypeIntellimouseExplorer)
            then Z.lor buttons (Z.shiftr (Z.land p3 0x30) 1) else buttons,
            if negb (actliketrackpad m) || scroll m then s16 (Z.shiftr (s8 (u8 (Z.shiftl p3 4))) 4) else 0)
    else mret (buttons, 0));
  buttons ← middleButton buttons now_abs fromMouse;
  setm (fun m => m <| lastbuttons := buttons |>);;
  m ← getm id;
  let typing := palm_wt m || outzone_wt m in
  let recent := u64 (now_ns - keytime m) <=? maxaftertyping m in
  buttons ← (if typing then
      let mask := if recent then u32 (Z.lnot (Z.land buttons 0x3)) else u32 (Z.lnot 0) in
      setm (fun m => m <| buttonmask := mask |>);;
      mret (Z.land buttons mask)
    else mret buttons);
  when (negb (ignoreall m)) (dispatchRelativePointerEventX dx (s32 (mouseyinverter m * dy)) buttons now_abs);;
  when (negb (dz =? 0) && (negb typing || negb recent))
    (when (negb (ignoreall m)) (dispatchScrollWheelEventX (- scrollyinverter m * dz) 0 0 now_abs)).

(** [while (_ringBuffer.count() >= kPacketLengthMax)]; at most [n] packets. *)
Fixpoint packetReady_loop (n : nat) : prog unit :=
  rb ← getm _ringBuffer;
  if count ringSize rb >=? kPacketLengthMax then
    match n with
    | O => nofuel
    | S n =>
        packet ← lift (tail_read rb 0 (Z.to_nat kPacketLengthMax));
        p0 ← lift (aget packet 0);
        len ← getm _packetLength;
        (if negb (0x00 =? p0) then dispatchRelativePointerEventWithPacket packet len else mret tt);;
        setm (fun m => m <| _ringBuffer := advanceTail ringSize (_ringBuffer m) kPacketLengthMax |>);;
        packetReady_loop n
    end
  else mret tt.

(** A ring of 32 packets holds at most 31. *)
Definition packetReady : prog unit := packetReady_loop 32.

(** ** Configuration *)

Definition setter := ApplePS2Mouse -> ApplePS2Mouse.

Definition int64vars : list (string * (Z -> setter)) :=
  [("MiddleClickTime", fun n m => m <| _maxmiddleclicktime := n |>);
   ("QuietTimeAfterTyping", fun n m => m <| maxaftertyping := n |>)].

Definition boolvars : list (string * (bool -> setter)) :=
  [("ForceDefaultResolution", fun b m => m <| forceres := b |>);
   ("ForceSetResolution", fun b m => m <| forcesetres := b |>);
   ("ActLikeTrackpad", fun b m => m <| actliketrackpad := b |>);
   ("DisableLEDUpdating", fun b m => m <| noled := b |>);
   ("FakeMiddleButton", fun b m => m <| _fakemiddlebutton := b |>);
   ("ProcessUSBMouseStopsTrackpad", fun b m => m <| _processusbmouse := b |>);
   ("ProcessBluetoothMouseStopsTrackpad", fun b m => m <| _processbluetoothmouse := b |>)].

Definition lowbitvars : list (string * (bool -> setter)) :=
  [("TrackpadScroll", fun b m => m <| scroll := b |>);
   ("OutsidezoneNoAction When Typing", fun b m => m <| outzone_wt := b |>);
   ("PalmNoAction Permanent", fun b m => m <| palm := b |>);
   ("PalmNoAction When Typing", fun b m => m <| palm_wt := b |>);
   ("USBMouseStopsTrackpad", fun b m => m <| usb_mouse_stops_trackpad := b |>)].

Definition int32vars : list (string * (Z -> setter)) :=
  [("DefaultResolution", fun n m => m <| defres := n |>);
   ("ResolutionMode", fun n m => m <| resmode := n |>);
   ("ScrollResolution", fun n m => m <| scrollres := n |>);
   ("MouseYInverter", fun n m => m <| mouseyinverter := n |>);
   ("ScrollYInverter", fun n m => m <| scrollyinverter := n |>);
   ("WakeDelay", fun n m => m <| wakedelay := n |>);
   ("ButtonCount", fun n m => m <| _buttonCount := n |>)].

Definition load_int64 (config : OSDict) (v : string * (Z -> setter)) : prog unit :=
  match getObject v.1 config ≫= asNumber with
  | Some n => setm (v.2 (u64 n));; setProperty v.1 (OSNumber (u64 n))
  | None => mret tt
  end.
Definition load_bool (config : OSDict) (v : string * (bool -> setter)) : prog unit :=
  match getObject v.1 config ≫= asBoolean with
  | Some b => setm (v.2 b);; setProperty v.1 (OSBoolean b)
  | None => mret tt
  end.
Definition load_lowbit (config : OSDict) (v : string * (bool -> setter)) : prog unit :=
  match getObject v.1 config ≫= asNumber with
  | Some n =>
      let b := anyset (u32 n) 0x1 in
      setm (v.2 b);; setProperty v.1 (OSNumber (if b then 1 else 0))
  | None => mret tt
  end.
Definition load_int32 (config : OSDict) (v : string * (Z -> setter)) : prog unit :=
  match getObject v.1 config ≫= asNumber with
  | Some n => setm (v.2 (s32 (u32 n)));; setProperty v.1 (OSNumber (u32 n))
  | None => mret tt
  end.

Definition setParamPropertiesGated (config : option OSDict) : prog unit :=
  match config with
  | None => mret tt
  | Some config =>
      forM_ int64vars (load_int64 config);;
      forM_ boolvars (load_bool config);;
      forM_ lowbitvars (load_lowbit config);;
      forM_ int32vars (load_int32 config);;
      m ← getm id;
      (match attachedHIDPointerDevices m with
       | Some devices =>
           if bool_decide (devices ≠ ∅) then
             setm (fun m => m <| ignoreall := usb_mouse_stops_trackpad m |>);; updateTouchpadLED
           else mret tt
       | None => mret tt
       end);;
      setm (fun m => m <| defres := s32 (Z.shiftl (defres m) 16) |>)
  end.

(** The two ways settings reach a started driver; nothing happens without the
    gate.  The first does not go through it. *)
Definition setParamProperties (dict : option OSDict) : prog unit :=
  g ← getm _cmdGate; when g (setParamPropertiesGated dict).
Definition setProperties (props : OSObject) : prog unit :=
  match asDict props with
  | Some dict => g ← getm _cmdGate; when g (setParamPropertiesGated (Some dict))
  | None => mret tt
  end.

Definition injectVersionDependentProperties (config : OSDict) : prog unit :=
  match version_dict (version_major env) (version_minor env) config with
  | Some d => forM_ d (fun '(key, _) => match getObject key d with Some v => setProperty key v | None => mret tt end)
  | None => mret tt
  end.

(** ** Life cycle *)

(** [probe], given the configuration of the "Mouse" section; is the driver to be
    attached? *)
Definition probe (config : option OSDict) : prog bool :=
  if bool_decide ((d ← config; getObject "DisableDevice" d ≫= asBoolean) = Some true) then mret false
  else
    setParamPropertiesGated config;;
    act ← getm actliketrackpad;
    (if act : bool then match config with Some d => injectVersionDependentProperties d | None => undef end else mret tt);;
    (if negb act then
       removeProperty "VendorID";; removeProperty "ProductID";;
       removeProperty "HIDPointerAccelerationType";; removeProperty "HIDScrollAccelerationType";;
       removeProperty "TrackpadScroll"
     else mret tt);;
    r ← submitRequestAndBlock information_request;
    mret (6 =? commandsCount r).

Definition registerHIDPointerNotifications : prog unit :=
  m ← getm id;
  when (_processusbmouse m) (memit MRegisterUSB;; setm (fun m => m <| usb_notify := true |>));;
  when (_processbluetoothmouse m) (memit MRegisterBluetooth;; setm (fun m => m <| bluetooth_notify := true |>)).

Definition unregisterHIDPointerNotifications : prog unit :=
  m ← getm id;
  when (usb_notify m) (memit MUnregisterUSB;; setm (fun m => m <| usb_notify := false |>));;
  when (bluetooth_notify m) (memit MUnregisterBluetooth;; setm (fun m => m <| bluetooth_notify := false |>));;
  match attachedHIDPointerDevices m with
  | Some _ => setm (fun m => m <| attachedHIDPointerDevices := Some ∅ |>)
  | None => undef
  end.

Definition start : prog bool :=
  setm (fun m => m <| _device := true |> <| _cmdGate := alloc_gate env |>);;
  if negb (getWorkLoop env) || negb (alloc_gate env) then mret false
  else
    setm (fun m => m <| attachedHIDPointerDevices := Some ∅ |>);;
    registerHIDPointerNotifications;;
    setm (fun m => m <| _buttonTimer := alloc_timer env |>);;
    resetMouse;;
    memit MInstallInterruptAction;;
    setm (fun m => m <| _interruptHandlerInstalled := true |>);;
    memit MInstallPowerControlAction;;
    setm (fun m => m <| _powerControlHandlerInstalled := true |>);;
    mret true.

Definition stop : prog unit :=
  unregisterHIDPointerNotifications;;
  setm (fun m => m <| attachedHIDPointerDevices := None |>);;
  setMouseEnable false;;
  when (getWorkLoop env) (setm (fun m => m <| _cmdGate := false |> <| _buttonTimer := false |>));;
  m ← getm id;
  when (_interruptHandlerInstalled m) (memit MUninstallInterruptAction);;
  setm (fun m => m <| _interruptHandlerInstalled := false |>);;
  when (_powerControlHandlerInstalled m) (memit MUninstallPowerControlAction);;
  setm (fun m => m <| _powerControlHandlerInstalled := false |> <| _device := false |>).

Definition setDevicePowerState (whatToDo : Z) : prog unit :=
  if whatToDo =? kPS2C_DisableDevice then setMouseEnable false
  else if whatToDo =? kPS2C_EnableDevice then
    delay ← getm wakedelay;
    memit (MSleep (u32 delay));;
    resetMouse;;
    updateTouchpadLED
  else mret tt.

(** ** Messages and other pointing devices *)

Definition is_modifier (adb : Z) : bool := existsb (Z.eqb adb) [0x38; 0x3c; 0x3b; 0x3e; 0x3a; 0x3d; 0x37; 0x36].

(** [message]: the data as the driver leaves it; data of another type than the
    message calls for is not defined. *)
Definition message (type : PS2Message) (argument : Payload) : prog Payload :=
  match type, argument with
  | kPS2M_getDisableTouchpad, PBool _ => i ← getm ignoreall; mret (PBool (negb i))
  | kPS2M_setDisableTouchpad, PBool enable =>
      i ← getm ignoreall;
      (if bool_decide (enable = i) then
         setm (fun m => m <| ignoreall := negb enable |>);; updateTouchpadLED
       else mret tt);;
      mret argument
  | kPS2M_notifyKeyPressed, PKeyInfo info =>
      (if is_modifier (adbKeyCode info) && goingDown info then mret tt
       else setm (fun m => m <| keytime := time info |>));;
      mret argument
  | kPS2M_getDisableTouchpad, _ | kPS2M_setDisableTouchpad, _ | kPS2M_notifyKeyPressed, _ => undef
  | _, _ => mret argument
  end.

Definition notificationHIDAttachedHandlerGated (s : HIDService) (n : HIDNotification) : prog unit :=
  m ← getm id;
  match attachedHIDPointerDevices m with
  | None => undef
  | Some devices =>
      let devices := attached_after (bt env) s n devices in
      setm (fun m => m <| attachedHIDPointerDevices := Some devices |>);;
      match n with
      | UsbPublish | BluetoothPublish =>
          when (usb_mouse_stops_trackpad m && bool_decide (devices ≠ ∅)) (setm (fun m => m <| ignoreall := true |>))
      | UsbTerminate | BluetoothTerminate =>
          when (usb_mouse_stops_trackpad m && bool_decide (devices = ∅)) (setm (fun m => m <| ignoreall := false |>))
      end
  end.

Definition notificationHIDAttachedHandler (s : HIDService) (n : HIDNotification) : prog unit :=
  gate ← getm _cmdGate;
  when gate (notificationHIDAttachedHandlerGated s n).
End mouse.

(** [init]; IOKit hands out zeroed memory for what it does not set. *)
Definition init : ApplePS2Mouse := {|
  _device := false; _interruptHandlerInstalled := false; _powerControlHandlerInstalled := false;
  _ringBuffer := mkRB (replicate (Z.to_nat ringSize) 0) 0 0;
  _packetByteCount := 0; _lastdata := 0; _packetLength := kPacketLengthStandard; _resolution := 0;
  _type := kMouseTypeStandard; _buttonCount := 3; _mouseInfoBytes := u32 (-1); _mouseResetCount := 0;
  _cmdGate := false; defres := Z.shiftl 150 16; forceres := false; mouseyinverter := 1; scrollyinverter := 1;
  forcesetres := false; resmode := -1; scrollres := 10; actliketrackpad := false; keytime := 0;
  maxaftertyping := 500000000; buttonmask := u32 (Z.lnot 0);
  outzone_wt := false; palm := false; palm_wt := false; scroll := true; ignoreall := false; ledpresent := false;
  noled := false; wakedelay := 1000; usb_mouse_stops_trackpad := true; _processusbmouse := true;
  _processbluetoothmouse := true; attachedHIDPointerDevices := None; usb_notify := false; bluetooth_notify := false;
  _mbuttonstate := STATE_NOBUTTONS; lastbuttons := 0; _pendingbuttons := 0; _buttontime := 0; _buttonTimer := false;
  _maxmiddleclicktime := 100000000; _fakemiddlebutton := false;
|}.
