(* ===== verification/MouseSpec.v ===== *)
(** * MouseSpec: what the mouse driver guarantees

    The invariant of a started driver and that every entry point keeps it, the
    packet assembler against an abstract one, the decoding of packets, the
    middle button state machine. *)

From S2P Require Import Prelude RingBuffer PS2Defs Controller Config Pointing Mouse.
From Stdlib Require String.

#[local] Open Scope string_scope.
#[local] Open Scope list_scope.
#[local] Open Scope Z_scope.

(** ** The invariant *)

(** Packet assembly: a partial packet is shorter than a whole one. *)
Record mouse_wf (m : ApplePS2Mouse) : Prop := {
  mw_length : _packetLength m = 3 \/ _packetLength m = 4;
  mw_count : 0 <= _packetByteCount m < _packetLength m;
  mw_ring : aligned ringSize kPacketLengthMax (_ringBuffer m);
  mw_resets : 0 <= _mouseResetCount m <= 5;
}.

(** A started driver, with its timer and its set of devices. *)
Definition running (w : MWorld) : Prop :=
  mouse_wf (mouse w) /\ _buttonTimer (mouse w) = true /\ is_Some (attachedHIDPointerDevices (mouse w)).

(** What the interrupt routine works on. *)
Definition asm_state (m : ApplePS2Mouse) :=
  (_ringBuffer m, _packetByteCount m, _lastdata m, _packetLength m, _mouseResetCount m).

(** Everything that packet dispatch and configuration leave alone. *)
Record pstep (w w' : MWorld) : Prop := {
  ds_asm : asm_state (mouse w') = asm_state (mouse w);
  ds_timer : _buttonTimer (mouse w') = _buttonTimer (mouse w);
  ds_devices : is_Some (attachedHIDPointerDevices (mouse w)) -> is_Some (attachedHIDPointerDevices (mouse w'));
}.

#[export] Instance pstep_preorder : PreOrder pstep.
Proof. split; [by split|]. intros w1 w2 w3 [] []. split; [congruence|congruence|auto]. Qed.

Lemma wf_asm m m' : asm_state m' = asm_state m -> mouse_wf m -> mouse_wf m'.
Proof. intros E []. injection E as E1 E2 E3 E4 E5. split; by rewrite ?E1, ?E2, ?E3, ?E4, ?E5. Qed.

Lemma pstep_running w w' : pstep w w' -> running w -> running w'.
Proof.
  intros [E T D] (Hw & Ht & Hd). split; [by eapply wf_asm|]. split; [congruence|auto].
Qed.

(** A condition on the driver that these steps keep. *)
Class Stable (I : MWorld -> Prop) := stable w w' : pstep w w' -> I w -> I w'.
#[export] Instance running_stable : Stable running := pstep_running.
#[export] Instance wf_stable : Stable (fun w => mouse_wf (mouse w)).
Proof. intros w w' [E _ _]. by apply wf_asm. Qed.

Create HintDb msafe.

Section generic.
  Context (env : MEnv).
  (** The controller keeps the commands of a request. *)
  Context (Hsubmit : forall evs r, length (commands (submit env evs r)) = length (commands r)).
  Context (I : MWorld -> Prop) `{!Stable I}.

Abbreviation psafe := (safe I pstep).

Lemma psafe_bind {A B} (m : M MWorld A) (f : A -> M MWorld B) Q Q' :
  psafe m Q -> (forall a, Q a -> psafe (f a) Q') -> psafe (m ≫= f) Q'.
Proof. apply safe_bind; [apply _|]. intros w w' H1 H2. by eapply stable. Qed.

Lemma psafe_seq {A B} (m : M MWorld A) (f : A -> M MWorld B) Q' :
  psafe m (fun _ => True) -> (forall a, psafe (f a) Q') -> psafe (m ≫= f) Q'.
Proof. intros Hm Hf. eapply psafe_bind; [exact Hm|auto]. Qed.

Lemma psafe_ret {A} (a : A) (Q : A -> Prop) : Q a -> psafe (mret a) Q.
Proof. apply safe_ret, _. Qed.

Lemma psafe_skip {A} (a : A) : psafe (mret a) (fun _ => True).
Proof. by apply psafe_ret. Qed.

Lemma psafe_get {A} (f : ApplePS2Mouse -> A) : psafe (getm f) (fun _ => True).
Proof. by apply safe_gets; [apply _|]. Qed.

Lemma psafe_set f : (forall m, asm_state (f m) = asm_state m) -> (forall m, _buttonTimer (f m) = _buttonTimer m) ->
  (forall m, is_Some (attachedHIDPointerDevices m) -> is_Some (attachedHIDPointerDevices (f m))) ->
  psafe (setm f) (fun _ => True).
Proof. intros H1 H2 H3. apply safe_modify. intros w _. split; simpl; auto. Qed.

Lemma psafe_emit e : psafe (memit e) (fun _ => True).
Proof. apply safe_modify. intros w _. by split. Qed.

Lemma psafe_when b (m : M MWorld unit) : psafe m (fun _ => True) -> psafe (when b m) (fun _ => True).
Proof. apply safe_when, _. Qed.

Lemma psafe_forM {A} (l : list A) (f : A -> M MWorld unit) :
  (forall x, x ∈ l -> psafe (f x) (fun _ => True)) -> psafe (forM_ l f) (fun _ => True).
Proof. apply safe_forM; [apply _|]. intros w w' H1 H2. by eapply stable. Qed.

Lemma psafe_clock : psafe (clock_get_uptime env) (fun _ => True).
Proof. intros w _. do 2 eexists. split; [reflexivity|]. split; [by split|done]. Qed.

Lemma psafe_pointer dx dy b t : psafe (dispatchRelativePointerEventX dx dy b t) (fun _ => True).
Proof. apply psafe_emit. Qed.
Lemma psafe_scroll a b c t : psafe (dispatchScrollWheelEventX a b c t) (fun _ => True).
Proof. apply psafe_emit. Qed.
Lemma psafe_property k v : psafe (setProperty k v) (fun _ => True).
Proof. apply psafe_emit. Qed.
Lemma psafe_remove k : psafe (removeProperty k) (fun _ => True).
Proof. apply psafe_emit. Qed.

Lemma psafe_submit r : psafe (submitRequestAndBlock env r) (fun r' => length (commands r') = length (commands r)).
Proof. intros w _. do 2 eexists. split; [reflexivity|]. split; [by split|apply Hsubmit]. Qed.

Lemma psafe_send {B} r (f : PS2Request -> M MWorld B) Q :
  (forall r', length (commands r') = length (commands r) -> psafe (f r') Q) -> psafe (submitRequestAndBlock env r ≫= f) Q.
Proof. intros Hf. eapply psafe_bind; [apply psafe_submit|done]. Qed.

Lemma psafe_result r i : 0 <= i < Z.of_nat (length (commands r)) -> psafe (result r i) (fun b => is_u8 b).
Proof.
  intros Hi w _. destruct (nth_lookup_or_length (commands r) (Z.to_nat i) (cmd kPS2C_ReadDataPort 0)) as [E|E]; [|lia].
  unfold result. munfold. rewrite (aget_lookup _ _ _ (proj1 Hi) E). eexists _, w. split; [reflexivity|].
  split; [done|apply union_byte_range].
Qed.

Hint Resolve psafe_skip psafe_get psafe_emit psafe_clock psafe_pointer psafe_scroll psafe_property psafe_remove : msafe.

(** Steps through a routine, every branch. *)
Ltac mauto := repeat first
  [ progress (intros; cbn beta zeta)
  | solve [eauto with msafe nocore]
  | apply psafe_set; solve [intros []; simpl; auto]
  | apply psafe_when
  | apply psafe_send
  | apply psafe_seq
  | case_match ].

Lemma psafe_enable b : psafe (setMouseEnable env b) (fun _ => True).
Proof. unfold setMouseEnable. mauto. Qed.
Lemma psafe_rate n : psafe (setMouseSampleRate env n) (fun _ => True).
Proof. unfold setMouseSampleRate. mauto. Qed.
Lemma psafe_resolution n : psafe (setMouseResolution env n) (fun _ => True).
Proof. unfold setMouseResolution. mauto. Qed.
Lemma psafe_LED n : psafe (setTouchpadLED env n) (fun _ => True).
Proof. unfold setTouchpadLED. mauto. Qed.
Hint Resolve psafe_enable psafe_rate psafe_resolution psafe_LED : msafe.

Lemma psafe_updateLED : psafe (updateTouchpadLED env) (fun _ => True).
Proof. unfold updateTouchpadLED. mauto. Qed.

Lemma psafe_information : psafe (getMouseInformation env) (fun _ => True).
Proof.
  unfold getMouseInformation. apply psafe_send. intros r Hr. case_match; [|apply psafe_skip].
  simpl in Hr. do 3 (eapply psafe_bind; [apply psafe_result; lia|intros ? _]). apply psafe_skip.
Qed.

Lemma psafe_ID : psafe (getMouseID env) (fun _ => True).
Proof.
  unfold getMouseID. apply psafe_send. intros r Hr. case_match; [|apply psafe_skip].
  simpl in Hr. eapply safe_mono; [apply psafe_result; lia|done].
Qed.

Lemma psafe_touchpad n : psafe (getTouchPadData env n) (fun _ => True).
Proof.
  unfold getTouchPadData. apply psafe_send. intros r Hr. case_match; [apply psafe_skip|].
  simpl in Hr. do 3 (eapply psafe_bind; [apply psafe_result; lia|intros ? _]). apply psafe_skip.
Qed.
Hint Resolve psafe_updateLED psafe_information psafe_ID psafe_touchpad : msafe.

Lemma psafe_intellimouse : psafe (setIntellimouseMode env) (fun _ => True).
Proof. unfold setIntellimouseMode. mauto. Qed.

Lemma psafe_detectLED : psafe (detectLED env) (fun _ => True).
Proof. unfold detectLED. mauto. Qed.

Lemma psafe_readResolution : psafe (readResolution env) (fun _ => True).
Proof. unfold readResolution. mauto. Qed.
Hint Resolve psafe_intellimouse psafe_detectLED psafe_readResolution : msafe.

Lemma psafe_params config : psafe (setParamPropertiesGated env config) (fun _ => True).
Proof.
  destruct config as [d|]; [|apply psafe_skip]. cbn [setParamPropertiesGated].
  repeat (apply psafe_seq; [apply psafe_forM; intros v Hv; unfold load_int64, load_bool, load_lowbit, load_int32;
    case_match; [|apply psafe_skip]; apply psafe_seq; [|intros _; apply psafe_property];
    repeat (apply elem_of_cons in Hv as [->|Hv]; [apply psafe_set; by intros []|]); by apply elem_of_nil in Hv|intros _]).
  mauto.
Qed.

(** The data a message calls for. *)
Definition payload_ok (type : PS2Message) (p : Payload) : Prop :=
  match type, p with
  | kPS2M_getDisableTouchpad, PBool _ | kPS2M_setDisableTouchpad, PBool _ | kPS2M_notifyKeyPressed, PKeyInfo _ => True
  | kPS2M_getDisableTouchpad, _ | kPS2M_setDisableTouchpad, _ | kPS2M_notifyKeyPressed, _ => False
  | _, _ => True
  end.

Lemma psafe_message_data type p : payload_ok type p -> psafe (message env type p) (fun _ => True).
Proof. intros Hp. unfold message. destruct type, p; try done; mauto. Qed.

End generic.

#[export] Hint Resolve psafe_skip psafe_get psafe_emit psafe_clock psafe_pointer psafe_scroll psafe_property psafe_remove
  psafe_enable psafe_rate psafe_resolution psafe_LED psafe_updateLED psafe_information psafe_ID psafe_touchpad
  psafe_intellimouse psafe_detectLED psafe_readResolution : msafe.

Section safety.
  Context (env : MEnv).
  Context (Hsubmit : forall evs r, length (commands (submit env evs r)) = length (commands r)).

Abbreviation psafe := (safe running pstep).

Lemma rsafe_bind {A B} (m : M MWorld A) (f : A -> M MWorld B) Q Q' :
  psafe m Q -> (forall a, Q a -> psafe (f a) Q') -> psafe (m ≫= f) Q'.
Proof. apply psafe_bind, _. Qed.
Lemma rsafe_seq {A B} (m : M MWorld A) (f : A -> M MWorld B) Q' :
  psafe m (fun _ => True) -> (forall a, psafe (f a) Q') -> psafe (m ≫= f) Q'.
Proof. apply psafe_seq, _. Qed.

(** The timer of a started driver exists. *)
Lemma psafe_setTimer t : psafe (setTimerTimeout t) (fun _ => True).
Proof.
  intros w Hw. unfold setTimerTimeout, getm. munfold. rewrite (proj1 (proj2 Hw)). by apply (psafe_emit running).
Qed.
Lemma psafe_cancelTimer : psafe cancelTimer (fun _ => True).
Proof. intros w Hw. unfold cancelTimer, getm. munfold. rewrite (proj1 (proj2 Hw)). by apply (psafe_emit running). Qed.

Hint Resolve psafe_setTimer psafe_cancelTimer : msafe.

(** Steps through a routine, every branch. *)
Ltac mauto := repeat first
  [ progress (intros; cbn beta zeta)
  | solve [eauto with msafe nocore]
  | apply psafe_set; solve [intros []; simpl; auto]
  | apply psafe_when
  | apply rsafe_seq
  | case_match ].

Lemma psafe_middle b t from : psafe (middleButton env b t from) (fun _ => True).
Proof. unfold middleButton, middle_step. mauto. Qed.

Lemma psafe_timer : psafe (onButtonTimer env) (fun _ => True).
Proof. unfold onButtonTimer. apply rsafe_seq; [apply psafe_clock|intros t]. apply rsafe_seq; [apply psafe_get|intros b].
  apply rsafe_seq; [apply psafe_middle|intros _]. apply psafe_skip. Qed.
Hint Resolve psafe_middle psafe_timer : msafe.

(** ** Dispatch and draining *)

Lemma psafe_lift {A} (o : outcome A) (Q : A -> Prop) : (exists a, o = Done a /\ Q a) -> psafe (lift o) Q.
Proof. apply safe_lift, _. Qed.

Lemma psafe_byte (p : list Z) i : (4 <= length p)%nat -> 0 <= i < 4 -> psafe (lift (aget p i)) (fun _ => True).
Proof. intros Hp Hi. apply psafe_lift. destruct (aget_ok p i) as (v & E & _); [lia|]. by exists v. Qed.

Lemma psafe_dispatch p n : (4 <= length p)%nat -> psafe (dispatchRelativePointerEventWithPacket env p n) (fun _ => True).
Proof.
  intros Hp. unfold dispatchRelativePointerEventWithPacket.
  do 3 (apply rsafe_seq; [apply psafe_byte; [done|lia]|intros ?]). cbv zeta.
  apply rsafe_seq; [apply psafe_clock|intros t]. apply rsafe_seq; [apply psafe_get|intros m].
  apply rsafe_seq.
  { case_match; [|apply psafe_skip]. apply rsafe_seq; [apply psafe_byte; [done|lia]|intros ?; apply psafe_skip]. }
  intros [b dz]. apply rsafe_seq; [apply psafe_middle|intros b']. mauto.
Qed.

(** One packet, and its removal. *)
Definition handle_packet (p : list Z) : M MWorld unit :=
  p0 ← lift (aget p 0);
  len ← getm _packetLength;
  if negb (0x00 =? p0) then dispatchRelativePointerEventWithPacket env p len else mret tt.

Definition pop_packet (w : MWorld) : MWorld :=
  w <| mouse := (mouse w) <| _ringBuffer := advanceTail ringSize (_ringBuffer (mouse w)) kPacketLengthMax |> |>.

Inductive delivers : list (list Z) -> MWorld -> MWorld -> Prop :=
| delivers_nil w : delivers [] w w
| delivers_cons p ps w w1 w' :
    handle_packet p w = Done (tt, w1) -> delivers ps (pop_packet w1) w' -> delivers (p :: ps) w w'.

Lemma psafe_handle p : (4 <= length p)%nat -> psafe (handle_packet p) (fun _ => True).
Proof.
  intros Hp. apply rsafe_seq; [apply psafe_byte; [done|lia]|intros p0]. apply rsafe_seq; [apply psafe_get|intros n].
  case_match; [by apply psafe_dispatch|apply psafe_skip].
Qed.

(** What the assembler keeps besides the ring buffer. *)
Definition asm_fields (m : ApplePS2Mouse) := (_packetByteCount m, _lastdata m, _packetLength m, _mouseResetCount m).

Lemma mouse_drain_ok n w q : running w -> queue_of ringSize kPacketLengthMax (_ringBuffer (mouse w)) q -> (length q <= n)%nat ->
  exists ps w', packetReady_loop env n w = Done (tt, w') /\ delivers ps w w' /\ Forall2 (made_by kPacketLengthMax) ps q /\
    queue_of ringSize kPacketLengthMax (_ringBuffer (mouse w')) [] /\ running w' /\
    asm_fields (mouse w') = asm_fields (mouse w) /\
    m_head (_ringBuffer (mouse w')) = m_head (_ringBuffer (mouse w)) /\
    m_buffer (_ringBuffer (mouse w')) = m_buffer (_ringBuffer (mouse w)).
Proof.
  revert w q. induction n as [|n IH]; intros w [|ws q] Hw Hq Hn; try (simpl in Hn; lia); cbn [packetReady_loop];
    unfold mbind at 1, M_bind at 1, getm at 1, gets at 1.
  1, 2: rewrite count_len, (queue_of_len _ _ _ _ Hq) by apply Hq; simpl; exists [], w;
    split; [done|split; [constructor|by split]].
  destruct (queue_head _ _ _ _ _ Hq) as (Ec & Et & Hm & Hq'). set (p := slice _ _ _) in *.
  rewrite Ec. unfold mbind at 1, M_bind at 1, lift at 1. rewrite Et. cbn beta iota.
  assert (4 <= length p)%nat as Hp4 by (destruct Hm as [Hm _]; unfold kPacketLengthMax in Hm; lia).
  destruct (psafe_handle p Hp4 w Hw) as ([] & w1 & E1 & Hd1 & _). pose proof (pstep_running _ _ Hd1 Hw) as Hw1.
  assert (E1' := E1). unfold handle_packet, mbind, M_bind, lift in E1'.
  destruct (aget p 0) as [p0| |] eqn:Ep; [|done|done]. cbn beta iota in E1'. unfold getm at 1, gets at 1 in E1'. cbn beta iota in E1'.
  unfold mbind at 1, M_bind at 1, lift at 1. cbn beta iota.
  unfold mbind at 1, M_bind at 1, getm at 1, gets at 1. rewrite (bind_done _ _ _ _ _ E1').
  rewrite (bind_done _ _ w1 tt (pop_packet w1)) by done.
  pose proof (ds_asm _ _ Hd1) as Hs1. injection Hs1 as Hr1 Hc1 Hl1 Hn1 Hm1.
  assert (running (pop_packet w1)) as Hw2.
  { destruct Hw1 as ([] & Ht & Hdv). split; [|by split]. split; simpl; try done. rewrite Hr1. apply Hq'. }
  destruct (IH (pop_packet w1) q Hw2) as (ps & w' & E & Hd & Hps & Hq2 & Hi2 & Hs2 & Hh2 & Hb2).
  - simpl. by rewrite Hr1.
  - simpl in Hn. lia.
  - exists (p :: ps), w'. split; [done|]. split; [by econstructor|]. split; [by constructor|].
    split; [done|]. split; [done|]. rewrite Hs2, Hh2, Hb2. unfold asm_fields. simpl. by rewrite Hr1, Hc1, Hl1, Hn1, Hm1.
Qed.


(** ** Configuration, reset, messages *)

Lemma psafe_reaches {A} (m : M MWorld A) Q : psafe m Q -> reaches running running m.
Proof. intros Hm w Hw. destruct (Hm w Hw) as (a & w' & E & Hd & _). exists a, w'. split; [done|]. by eapply pstep_running. Qed.

(** Between the change of the packet length and the reset of the counter. *)
Definition resetting (w : MWorld) : Prop :=
  (_packetLength (mouse w) = 3 \/ _packetLength (mouse w) = 4) /\
  aligned ringSize kPacketLengthMax (_ringBuffer (mouse w)) /\ 0 <= _mouseResetCount (mouse w) <= 5 /\
  _buttonTimer (mouse w) = true /\ is_Some (attachedHIDPointerDevices (mouse w)).

Lemma enterMode_ok type : reaches running resetting (enterMode env type).
Proof.
  intros w ([Hl Hc Hr Hn] & Ht & Hd). unfold enterMode, getm, setm, setProperty, removeProperty, memit.
  destruct type; munfold; (eexists _, _; split; [reflexivity|]); repeat (split; simpl; auto); lia || apply Hr.
Qed.

Lemma mouse_reset_aligned (rb : RingBuffer Z) : aligned ringSize kPacketLengthMax rb -> aligned ringSize kPacketLengthMax (reset rb).
Proof. intros []. split; [by apply reset_wf|done|done|apply Z.divide_0_r|apply Z.divide_0_r]. Qed.

Lemma resetMouse_ok : reaches running running (resetMouse env).
Proof.
  unfold resetMouse. apply (reaches_bind _ running); [by eapply psafe_reaches, psafe_submit; try apply _|intros _].
  apply (reaches_bind _ running); [by eapply psafe_reaches, psafe_detectLED; try apply _|intros _].
  apply (reaches_bind _ running); [by eapply psafe_reaches, psafe_readResolution; try apply _|intros _].
  apply (reaches_bind _ running); [by eapply psafe_reaches, psafe_intellimouse; try apply _|intros type].
  apply (reaches_bind _ resetting); [apply enterMode_ok|intros _].
  apply (reaches_bind _ resetting); [intros w Hw; exists tt; eexists; split; [reflexivity|]; exact Hw|intros _].
  apply (reaches_bind _ running); [|intros _; by eapply psafe_reaches, psafe_enable; try apply _].
  intros w (Hl & Hr & Hn & Ht & Hd). exists tt. eexists. split; [reflexivity|].
  split; [|by split]. split; simpl; try done; [lia|by apply mouse_reset_aligned].
Qed.

Lemma mouse_power_ok n : reaches running running (setDevicePowerState env n).
Proof.
  unfold setDevicePowerState. case_match; [by eapply psafe_reaches, psafe_enable; try apply _|]. case_match; [|apply reaches_ret].
  apply (reaches_bind _ running); [by eapply psafe_reaches, psafe_get; try apply _|intros d].
  apply (reaches_bind _ running); [by eapply psafe_reaches, psafe_emit; try apply _|intros _].
  apply (reaches_bind _ running); [apply resetMouse_ok|intros _; by eapply psafe_reaches, psafe_updateLED; try apply _].
Qed.

Lemma psafe_notification s n : psafe (notificationHIDAttachedHandler env s n) (fun _ => True).
Proof.
  unfold notificationHIDAttachedHandler. apply rsafe_seq; [apply psafe_get|intros g]. apply psafe_when.
  intros w Hw. unfold notificationHIDAttachedHandlerGated, getm, setm, when. munfold. unfold id.
  pose proof Hw as (_ & _ & [d Hd]). rewrite Hd. munfold.
  destruct n, (usb_mouse_stops_trackpad (mouse w)); simpl; try destruct (bool_decide _); simpl; munfold;
    (eexists _, _; split; [reflexivity|]); (split; [by split|done]).
Qed.

(** ** Packet assembly *)

(** Abstract state: the bytes of the packet so far, the last byte, how many
    resynchronisations were announced since the last complete packet. *)
Record Assembler := mkAssembler {
  a_bytes : list Z;
  a_last : Z;
  a_resets : Z;
}.

(** One byte from the mouse: the new state and what is queued. *)
Definition assemble_byte (len : Z) (a : Assembler) (data : Z) : Assembler * option (list Z) :=
  if (a_last a =? 0xAA) && (data =? 0) then (mkAssembler [] (a_last a) (a_resets a), Some [0; 0xAA])
  else if bool_decide (a_bytes a = []) && ((data =? 0xFA) || negb (Z.testbit data 3)) then
    if a_resets a <? 5 then (mkAssembler [] data (a_resets a + 1), Some [0; 0xFA])
    else (mkAssembler [] data (a_resets a), None)
  else
    let bytes := a_bytes a ++ [data] in
    if Z.of_nat (length bytes) =? len then (mkAssembler [] data 0, Some bytes)
    else (mkAssembler bytes data (a_resets a), None).

(** The driver's state represents the assembler's. *)
Record assembles (m : ApplePS2Mouse) (a : Assembler) : Prop := {
  as_count : _packetByteCount m = Z.of_nat (length (a_bytes a));
  as_last : _lastdata m = a_last a;
  as_resets : _mouseResetCount m = a_resets a;
  as_bytes : exists b0, head_block kPacketLengthMax (_ringBuffer m) = written (indexed (a_bytes a)) b0;
}.

(** The queue of the abstract assembler. *)
Definition holds (rb : RingBuffer Z) (q : list (list Z)) : Prop := queue_of ringSize kPacketLengthMax rb (indexed <$> q).

Lemma push_command_ok w q code : holds (_ringBuffer (mouse w)) q ->
  exists rb, push_command code w = Done (tt, w <| mouse := (mouse w) <| _ringBuffer := rb |> |>) /\
    holds rb (Fifo.push 31 q [0; code]) /\ exists b0, head_block kPacketLengthMax rb = written (indexed []) b0.
Proof.
  intros Hq. unfold holds in *. destruct (queue_head_set _ _ _ _ 0 0 Hq) as (rb1 & E1 & Hq1 & Hb1); [unfold kPacketLengthMax; lia|].
  destruct (queue_head_set _ _ _ _ 1 code Hq1) as (rb2 & E2 & Hq2 & Hb2); [unfold kPacketLengthMax; lia|].
  exists (advanceHead ringSize rb2 kPacketLengthMax). split; [|split; [|by eexists]].
  - unfold push_command, getm, setm. munfold. rewrite E1. cbn beta iota. rewrite E2. done.
  - rewrite <- push_indexed. apply (queue_advance ringSize kPacketLengthMax); [done|].
    exists (head_block kPacketLengthMax (_ringBuffer (mouse w))). by rewrite Hb2, Hb1.
Qed.

(** The fields the interrupt routine leaves alone. *)
Definition quiet (m : ApplePS2Mouse) := (_packetLength m, _buttonTimer m, attachedHIDPointerDevices m).

Lemma anyset_8 data : anyset data 0x08 = Z.testbit data 3.
Proof. change 0x08 with (Z.shiftl 1 3). apply anyset_bit. lia. Qed.

(** After a byte: invariant, assembler and queue. *)
Definition assembled (w w' : MWorld) (a' : Assembler) (q' : list (list Z)) : Prop :=
  mouse_wf (mouse w') /\ assembles (mouse w') a' /\ holds (_ringBuffer (mouse w')) q' /\
  quiet (mouse w') = quiet (mouse w).

Lemma assembled_intro w w' a' q' :
  mouse_wf (mouse w) -> assembles (mouse w') a' -> holds (_ringBuffer (mouse w')) q' -> quiet (mouse w') = quiet (mouse w) ->
  0 <= a_resets a' <= 5 -> Z.of_nat (length (a_bytes a')) < _packetLength (mouse w) -> assembled w w' a' q'.
Proof.
  intros [Hl Hc Hr Hn] Ha Hq Hs Hre Hlen. split; [|by split]. injection Hs as S1 S2 S3. destruct Ha as [A1 A2 A3 _].
  split; rewrite ?S1; [done|rewrite A1; lia|apply Hq|rewrite A3; lia].
Qed.

Lemma assemble_refines w a data q :
  mouse_wf (mouse w) -> assembles (mouse w) a -> holds (_ringBuffer (mouse w)) q ->
  let '(a', p) := assemble_byte (_packetLength (mouse w)) a data in
  exists w', interruptOccurred data w = Done (ready_if p, w') /\ assembled w w' a' (enqueued q p).
Proof.
  intros Hw Ha Hq. pose proof Ha as [Hcnt Hlast Hres [b0 Hb]]. pose proof Hw as [Hl Hc Hr Hn].
  unfold assemble_byte, interruptOccurred, getm. unfold mbind at 1, M_bind at 1, gets at 1. unfold id.
  rewrite Hlast, (Z.eqb_sym kSC_Reset), (Z.eqb_sym 0). unfold kSC_Reset, kSC_Acknowledge at 1.
  assert (0 <= Z.of_nat (length (a_bytes a)) < _packetLength (mouse w)) as Hlen by lia.
  destruct ((a_last a =? 0xAA) && (data =? 0)) eqn:Er.
  { destruct (push_command_ok w q 0xAA Hq) as (rb & E & Hq' & Hb'). rewrite (bind_done _ _ _ _ _ E).
    unfold setm. munfold. eexists. split; [reflexivity|]. apply assembled_intro; simpl; try done; try lia. }
  pose (w1 := w <| mouse := (mouse w) <| _lastdata := data |> |>). rewrite (bind_done _ _ w tt w1) by done.
  assert ((_packetByteCount (mouse w) =? 0) = bool_decide (a_bytes a = [])) as ->.
  { rewrite Hcnt. destruct (a_bytes a); [done|]. by rewrite bool_decide_eq_false_2. }
  rewrite anyset_8, Hres.
  destruct (bool_decide (a_bytes a = []) && ((data =? 0xFA) || negb (Z.testbit data 3))) eqn:Es.
  { apply andb_true_iff in Es as [Es%bool_decide_eq_true _]. rewrite Es in *. destruct (Z.ltb_spec (a_resets a) 5).
    - pose (w2 := w1 <| mouse := (mouse w1) <| _mouseResetCount := u32 (_mouseResetCount (mouse w1) + 1) |> |>).
      rewrite (bind_done _ _ w1 tt w2) by done. destruct (push_command_ok w2 q 0xFA Hq) as (rb & E & Hq' & Hb').
      change kSC_Acknowledge with 0xFA. rewrite (bind_done _ _ _ _ _ E). eexists. split; [reflexivity|].
      apply assembled_intro; simpl; try done; try lia. split; simpl; try done. rewrite Hres. unfold u32. rewrite Z.mod_small; lia.
    - eexists. split; [reflexivity|]. apply assembled_intro; simpl; try done; try lia. split; simpl; try done. eauto. }
  unfold holds in Hq. destruct (queue_head_set _ _ _ _ (_packetByteCount (mouse w)) data Hq) as (rb & E & Hq1 & Hb1);
    [unfold kPacketLengthMax; lia|].
  unfold mbind at 1, M_bind at 1, lift at 1. rewrite E. cbn beta iota.
  pose (w2 := w1 <| mouse := (mouse w1) <| _ringBuffer := rb |> <| _packetByteCount := u32 (_packetByteCount (mouse w1) + 1) |> |>).
  rewrite (bind_done _ _ w1 tt w2) by done. rewrite (bind_done _ _ w2 (mouse w2) w2) by done.
  assert (_packetByteCount (mouse w2) = Z.of_nat (length (a_bytes a ++ [data]))) as Hcnt2.
  { simpl. rewrite Hcnt, length_app. simpl. unfold u32. rewrite Z.mod_small; lia. }
  assert (head_block kPacketLengthMax rb = written (indexed (a_bytes a ++ [data])) b0) as Hb2.
  { rewrite written_snoc, <- Hb, Hb1, Hcnt. by rewrite Nat2Z.id. }
  change (_packetLength (mouse w2)) with (_packetLength (mouse w)). rewrite Hcnt2. rewrite !length_app in *. change (length [data]) with 1%nat in *.
  destruct (Z.eqb_spec (Z.of_nat (length (a_bytes a) + 1)) (_packetLength (mouse w))) as [Ee|Ee].
  - unfold setm. munfold. eexists. split; [reflexivity|]. apply assembled_intro; simpl; try done; try lia; [split; simpl; try done; by eexists|].
    unfold holds. rewrite <- push_indexed. apply (queue_advance ringSize kPacketLengthMax); [done|eauto].
  - eexists. split; [reflexivity|]. apply assembled_intro; simpl; try done; try lia; [|rewrite length_app; simpl; lia].
    split; simpl; try done; [by rewrite length_app|eauto].
Qed.
End safety.

(** ** Bytes and drains in any order *)

Inductive MInput := MByte (data : Z) | MDrain.

Fixpoint run_minputs (env : MEnv) (ins : list MInput) : M MWorld (list PS2InterruptResult) :=
  match ins with
  | [] => mret []
  | MByte data :: ins => r ← interruptOccurred data; rs ← run_minputs env ins; mret (r :: rs)
  | MDrain :: ins => packetReady env;; run_minputs env ins
  end.

Fixpoint assemble_inputs (len : Z) (ins : list MInput) (a : Assembler) (q : list (list Z))
  : Assembler * list (list Z) * list PS2InterruptResult :=
  match ins with
  | [] => (a, q, [])
  | MByte data :: ins =>
      let '(a', p) := assemble_byte len a data in
      let '(a2, q2, rs) := assemble_inputs len ins a' (enqueued q p) in
      (a2, q2, ready_if p :: rs)
  | MDrain :: ins => assemble_inputs len ins a []
  end.

Lemma mouse_queue_bound (rb : RingBuffer Z) q : queue_of ringSize kPacketLengthMax rb q -> (length q <= 31)%nat.
Proof.
  intros Hq. pose proof (queue_of_len _ _ _ _ Hq) as Hl. destruct (aligned_len _ _ _ (proj1 Hq)) as (_ & Hb & _).
  unfold ringSize, kPacketLengthMax in *. lia.
Qed.

Lemma mouse_drained env w a q :
  running w -> assembles (mouse w) a -> holds (_ringBuffer (mouse w)) q ->
  exists w', packetReady env w = Done (tt, w') /\ running w' /\ assembles (mouse w') a /\
    holds (_ringBuffer (mouse w')) [] /\ _packetLength (mouse w') = _packetLength (mouse w).
Proof.
  intros Hw [A1 A2 A3 A4] Hq. pose proof (mouse_queue_bound _ _ Hq).
  destruct (mouse_drain_ok env 32 w _ Hw Hq) as (ps & w' & E & _ & _ & Hq' & Hw' & Ha & Hh & Hb); [lia|].
  injection Ha as F1 F2 F3 F4. exists w'. split; [exact E|]. split; [done|]. split; [|by split].
  split; [congruence|congruence|congruence|]. unfold head_block in *. by rewrite Hh, Hb.
Qed.

(** C12: Whatever bytes the mouse sends and however draining interleaves with
    them, the interrupt routine returns what the abstract assembler returns and
    the ring buffer holds its queue: packets of three or four bytes that start
    with a byte whose bit 3 is set, resynchronisation announced at most five
    times in a row, a partial packet thrown away on AA 00, never a torn packet. *)
Theorem mouse_session env ins w a q :
  running w -> assembles (mouse w) a -> holds (_ringBuffer (mouse w)) q ->
  let '(a', q', rs) := assemble_inputs (_packetLength (mouse w)) ins a q in
  exists w', run_minputs env ins w = Done (rs, w') /\ running w' /\ assembles (mouse w') a' /\
    holds (_ringBuffer (mouse w')) q'.
Proof.
  revert w a q. induction ins as [|[data|] ins IH]; intros w a q Hw Ha Hq; cbn [assemble_inputs run_minputs].
  - by exists w.
  - pose proof (assemble_refines w a data q (proj1 Hw) Ha Hq) as Hb. destruct (assemble_byte _ a data) as [a1 p].
    destruct Hb as (w1 & E1 & Hw1 & Ha1 & Hq1 & Hk). injection Hk as K1 K2 K3.
    assert (running w1) as Hr1 by (split; [done|]; rewrite K2, K3; apply Hw).
    specialize (IH w1 a1 _ Hr1 Ha1 Hq1). rewrite K1 in IH. destruct (assemble_inputs _ ins a1 _) as [[a2 q2] rs].
    destruct IH as (w2 & E2 & IH). exists w2. split; [|done]. by rewrite (bind_done _ _ _ _ _ E1), (bind_done _ _ _ _ _ E2).
  - destruct (mouse_drained env w a q Hw Ha Hq) as (w1 & E1 & Hw1 & Ha1 & Hq1 & K1).
    specialize (IH w1 a [] Hw1 Ha1 Hq1). rewrite K1 in IH. destruct (assemble_inputs _ ins a []) as [[a2 q2] rs].
    by rewrite (bind_done _ _ _ _ _ E1).
Qed.

(** ** Concrete drivers *)

Lemma mouse_init_wf : mouse_wf init.
Proof.
  split; [by left|simpl; unfold kPacketLengthStandard; lia| |simpl; lia].
  split; [split; vm_compute; intuition congruence|unfold ringSize, kPacketLengthMax; lia| | |]; apply Z.mod_divide; done.
Qed.

(** A machine whose mouse never answers: every request fails at its first command. *)
Definition dead_mouse : MEnv := {|
  uptime := fun n => 1000 * Z.of_nat n; absolutetime_to_nanoseconds := id;
  submit := fun _ r => r <| commandsCount := 0 |>;
  getWorkLoop := true; alloc_gate := true; alloc_timer := true; version_major := 15; version_minor := 0;
  bt := {| kBluetoothDeviceClassMajorPeripheral := 5; kBluetoothDeviceClassMinorPeripheral1Pointing := 32;
           kBluetoothDeviceClassMinorPeripheral1Combo := 48; kBluetoothDeviceClassMinorPeripheral2Unclassified := 0;
           kBluetoothDeviceClassMinorPeripheral2DigitizerTablet := 5; kBluetoothDeviceClassMinorPeripheral2DigitalPen := 7 |};
  hid := {| kIOHIDScrollResolutionKey := "HIDScrollResolution"; kIOHIDScrollAccelerationTypeKey := "HIDScrollAccelerationType";
            kIOHIDPointerAccelerationTypeKey := "HIDPointerAccelerationType";
            kIOHIDMouseAccelerationType := "HIDMouseAcceleration"; kIOHIDTrackpadAccelerationType := "HIDTrackpadAcceleration";
            kIOHIDTrackpadScrollAccelerationKey := "HIDTrackpadScrollAcceleration" |};
|}.

Definition started_mouse : ApplePS2Mouse :=
  init <| _device := true |> <| _cmdGate := true |> <| _buttonTimer := true |> <| attachedHIDPointerDevices := Some ∅ |>.

Definition mouse_world : MWorld := mkMWorld started_mouse 0 [].

Lemma started_running : running mouse_world.
Proof. pose proof mouse_init_wf as []. split; [by split|]. split; [done|by eexists]. Qed.

Lemma started_assembles : assembles started_mouse (mkAssembler [] 0 0).
Proof. split; [done|done|done|]. by eexists. Qed.

Lemma started_holds : holds (_ringBuffer started_mouse) [].
Proof. split; [apply mouse_init_wf|]. by exists []. Qed.

(** A stray byte, then a packet that a drain splits. *)
Lemma mouse_session_witness : exists w' a',
  run_minputs dead_mouse [MByte 0x00; MByte 0x09; MByte 0x05; MDrain; MByte 0xFE] mouse_world =
    Done ([kPS2IR_packetReady; kPS2IR_packetBuffering; kPS2IR_packetBuffering; kPS2IR_packetReady], w') /\
  assembles (mouse w') a' /\ holds (_ringBuffer (mouse w')) [[0x09; 0x05; 0xFE]].
Proof.
  pose proof (mouse_session dead_mouse [MByte 0x00; MByte 0x09; MByte 0x05; MDrain; MByte 0xFE] mouse_world (mkAssembler [] 0 0) []
    started_running started_assembles started_holds) as H.
  destruct H as (w' & E & _ & Ha & Hq). exists w'. eexists. split; [exact E|]. split; [exact Ha|exact Hq].
Defined.

(** ** Decoding *)

(** A packet as the mouse sends it: nine bit deltas, three buttons, a four bit
    wheel and, on a five button mouse, two more buttons. *)
Definition encode_packet (dx dy dz buttons extra : Z) : list Z :=
  [8 + buttons + (if dx <? 0 then 16 else 0) + (if dy <? 0 then 32 else 0); dx mod 256; dy mod 256; dz mod 16 + 16 * extra].

Lemma byte0_fields b (sx sy : bool) : 0 <= b < 8 ->
  let p0 := 8 + b + (if sx then 16 else 0) + (if sy then 32 else 0) in
  Z.land p0 7 = b /\ anyset p0 0x10 = sx /\ anyset p0 0x20 = sy.
Proof.
  intros Hb. assert (b = 0 \/ b = 1 \/ b = 2 \/ b = 3 \/ b = 4 \/ b = 5 \/ b = 6 \/ b = 7) as H by lia.
  by destruct_or! H; subst; destruct sx, sy.
Qed.

Lemma delta_ok d : -256 <= d < 256 -> delta (d <? 0) (d mod 256) = d mod 4294967296.
Proof.
  intros Hd. unfold delta, u32. destruct (Z.ltb_spec d 0); [|by rewrite Z.lor_0_l, (Z.mod_small d 256) by lia].
  assert (Z.lor 0xffffff00 (d mod 256) = 0xffffff00 + d mod 256) as ->.
  { apply Z.eqb_eq. assert (is_u8 (d mod 256)) as H8 by (split; apply Z.mod_pos_bound; lia). revert H8. generalize (d mod 256).
    apply (byte_forall (fun x => Z.lor 0xffffff00 x =? 0xffffff00 + x)). vm_compute. reflexivity. }
  Z.to_euclidean_division_equations. lia.
Qed.

Lemma wheel_ok dz extra : -8 <= dz < 8 -> 0 <= extra < 4 ->
  s16 (Z.shiftr (s8 (u8 (Z.shiftl (dz mod 16 + 16 * extra) 4))) 4) = dz.
Proof.
  intros Hz He. set (p3 := dz mod 16 + 16 * extra).
  assert (s16 (Z.shiftr (s8 (u8 (Z.shiftl p3 4))) 4) = (p3 + 8) mod 16 - 8) as ->.
  { apply Z.eqb_eq. assert (is_u8 p3) as H8 by (unfold is_u8, p3; pose proof (Z.mod_pos_bound dz 16); lia). revert H8. generalize p3.
    apply (byte_forall (fun x => s16 (Z.shiftr (s8 (u8 (Z.shiftl x 4))) 4) =? (x + 8) mod 16 - 8)). vm_compute. reflexivity. }
  unfold p3. Z.to_euclidean_division_equations. lia.
Qed.

Lemma extra_buttons_ok b dz extra : 0 <= b < 8 -> 0 <= extra < 4 ->
  Z.lor b (Z.shiftr (Z.land (dz mod 16 + 16 * extra) 0x30) 1) = b + 8 * extra.
Proof.
  intros Hb He. set (z := dz mod 16). assert (0 <= z < 16) as Hz by (apply Z.mod_pos_bound; lia). clearbody z.
  assert (Z.shiftr (Z.land (z + 16 * extra) 0x30) 1 = 8 * extra) as ->.
  { assert (forall x, is_u8 x -> Z.shiftr (Z.land x 0x30) 1 = 8 * (x / 16 mod 4)) as Hall.
    { intros x Hx. apply Z.eqb_eq. revert x Hx.
      apply (byte_forall (fun x => Z.shiftr (Z.land x 0x30) 1 =? 8 * (x / 16 mod 4))). vm_compute. reflexivity. }
    rewrite Hall by (unfold is_u8; lia). Z.to_euclidean_division_equations. lia. }
  assert (b = 0 \/ b = 1 \/ b = 2 \/ b = 3 \/ b = 4 \/ b = 5 \/ b = 6 \/ b = 7) as H by lia.
  assert (extra = 0 \/ extra = 1 \/ extra = 2 \/ extra = 3) as H' by lia. by destruct_or! H; destruct_or! H'; subst.
Qed.

(** The buttons a packet stands for. *)
Definition packet_buttons (m : ApplePS2Mouse) (len buttons extra : Z) : Z :=
  if (len >? 3) && bool_decide (_type m = kMouseTypeIntellimouseExplorer) then buttons + 8 * extra else buttons.

(** The events of a packet. *)
Definition packet_events (m : ApplePS2Mouse) (len dx dy dz buttons now : Z) : list MEvent :=
  [MPointer dx (s32 (mouseyinverter m * (- dy))) buttons now] ++
  (if (len >? 3) && negb (dz =? 0) then [MScroll (s16 (- scrollyinverter m * dz)) (s16 0) (s16 0) now] else []).

(** Without the fake middle button the buttons are reported as they are. *)
Lemma middleButton_off env w b t from : _fakemiddlebutton (mouse w) = false -> middleButton env b t from w = Done (b, w).
Proof. intros Hf. unfold middleButton, getm. munfold. unfold id. by rewrite Hf. Qed.

(** C30: With no button emulation and no filter in force, the packet a mouse
    sends for a motion of [dx], [dy] in nine bits, a wheel step of [dz] in four
    bits and its buttons produces exactly the pointer event with these numbers
    (the vertical axis inverted, as screens have it) and, on a wheel mouse that
    scrolled, the scroll event. *)
Theorem mouse_packet_roundtrip env w len dx dy dz buttons extra :
  _fakemiddlebutton (mouse w) = false -> palm_wt (mouse w) = false -> outzone_wt (mouse w) = false ->
  ignoreall (mouse w) = false -> actliketrackpad (mouse w) = false \/ scroll (mouse w) = true ->
  -256 <= dx < 256 -> -256 <= dy < 256 -> -8 <= dz < 8 -> 0 <= buttons < 8 -> 0 <= extra < 4 ->
  let b := packet_buttons (mouse w) len buttons extra in
  dispatchRelativePointerEventWithPacket env (encode_packet dx dy dz buttons extra) len w =
    Done (tt, w <| mouse := (mouse w) <| lastbuttons := b |> |> <| ticks := S (ticks w) |>
                <| mevs := mevs w ++ packet_events (mouse w) len dx dy dz b (u64 (uptime env (ticks w))) |>).
Proof.
  intros Hf Hp Ho Hi Hs Hx Hy Hz Hb He.
  destruct (byte0_fields buttons (dx <? 0) (dy <? 0) Hb) as (F1 & F2 & F3). cbv zeta in F1, F2, F3.
  assert (s32 (delta (dx <? 0) (dx mod 256)) = dx) as Edx.
  { rewrite delta_ok by done. unfold s32. Z.to_euclidean_division_equations. lia. }
  assert (s32 (u32 (- delta (dy <? 0) (dy mod 256))) = - dy) as Edy.
  { rewrite delta_ok by done. unfold s32, u32. Z.to_euclidean_division_equations. lia. }
  assert (negb (actliketrackpad (mouse w)) || scroll (mouse w) = true) as Esc by (destruct Hs as [-> | ->]; [done|apply orb_true_r]).
  unfold dispatchRelativePointerEventWithPacket, encode_packet. set (p0 := 8 + _ + _ + _) in *. set (p3 := dz mod 16 + 16 * extra).
  set (pk := [p0; _; _; p3]). rewrite (bind_done _ _ w p0 w), (bind_done _ _ w (dx mod 256) w), (bind_done _ _ w (dy mod 256) w) by done.
  cbv zeta. rewrite F1, F2, F3, Edx, Edy. set (t := u64 (uptime env (ticks w))).
  pose (w1 := w <| ticks := S (ticks w) |>). rewrite (bind_done _ _ w t w1), (bind_done _ _ w1 (mouse w) w1) by done.
  rewrite (bind_done _ _ w1 (packet_buttons (mouse w) len buttons extra, if len >? 3 then dz else 0) w1).
  2: { unfold packet_buttons. destruct (len >? 3); [|done]. rewrite (bind_done _ _ w1 p3 w1) by done.
       rewrite Esc. unfold p3. rewrite wheel_ok, extra_buttons_ok by done. done. }
  set (b := packet_buttons (mouse w) len buttons extra). cbn beta iota.
  rewrite (bind_done _ _ _ _ _ (middleButton_off env w1 b t fromMouse Hf)).
  unfold dispatchRelativePointerEventX, dispatchScrollWheelEventX, getm, setm, memit, when. munfold. unfold id, w1. cbn.
  rewrite Hp, Ho, Hi. unfold packet_events. cbn. destruct (len >? 3); cbn; [|done]. destruct (dz =? 0); cbn; [done|].
  by rewrite <- app_assoc.
Qed.

Lemma mouse_packet_roundtrip_witness :
  encode_packet (-5) 3 (-1) 1 0 = [0x19; 0xFB; 0x03; 0x0F] /\
  dispatchRelativePointerEventWithPacket dead_mouse (encode_packet (-5) 3 (-1) 1 0) 4 mouse_world =
    Done (tt, mkMWorld (started_mouse <| lastbuttons := 1 |>) 1 [MPointer (-5) (-3) 1 0; MScroll 1 0 0 0]).
Proof.
  split; [reflexivity|]. etransitivity; [apply (mouse_packet_roundtrip dead_mouse mouse_world 4 (-5) 3 (-1) 1 0)|vm_compute; reflexivity];
    try reflexivity; try lia. by left.
Defined.
