(* ===== verification/MouseEntry.v ===== *)
(** * MouseEntry: the middle button and the life of the mouse driver

    The state machine that makes a middle button of two, over any sequence of
    packets and timer events; the default resolution; and the driver from [init]
    to [stop]. *)

From S2P Require Import Prelude RingBuffer PS2Defs Controller Config Pointing Mouse MouseSpec.
From Stdlib Require String.

#[local] Open Scope string_scope.
#[local] Open Scope list_scope.
#[local] Open Scope Z_scope.

(** ** The middle button *)

(** The emulation is on. *)
Record mb_on (m : ApplePS2Mouse) : Prop := {
  on_fake : _fakemiddlebutton m = true;
  on_count : 2 < _buttonCount m;
  on_active : ignoreall m = false;
  on_timer : _buttonTimer m = true;
}.

(** Buttons are pending while the machine waits. *)
Definition mb_ok (m : ApplePS2Mouse) : Prop :=
  match _mbuttonstate m with STATE_WAIT4TWO | STATE_WAIT4NONE => _pendingbuttons m <> 0 | _ => True end.

(** What the emulation may change. *)
Definition mb_frame (w w' : MWorld) : Prop :=
  exists s p t, mouse w' = (mouse w) <| _mbuttonstate := s |> <| _pendingbuttons := p |> <| _buttontime := t |> /\
    ticks w' = ticks w.

Lemma mb_frame_on w w' : mb_frame w w' -> mb_on (mouse w) -> mb_on (mouse w').
Proof. intros (s & p & t & -> & _) []. by split. Qed.

(** One step with the emulation on. *)
Lemma middleButton_on env b t from w : mb_on (mouse w) ->
  let ns := absolutetime_to_nanoseconds env t in
  let timeout := bool_decide (fromTimer = from) || (u64 (ns - _buttontime (mouse w)) >? _maxmiddleclicktime (mouse w)) in
  middleButton env b t from w =
    (middle_step (mouse w) b t ns from timeout;; s ← getm _mbuttonstate; mret (middle_report s b)) w.
Proof.
  intros [Hf Hc Hi _]. unfold middleButton, getm. unfold mbind at 1, M_bind at 1, gets at 1. unfold id.
  rewrite Hf, Hi. rewrite (proj2 (Z.leb_gt _ _) Hc). done.
Qed.

(** The outcome of a step, computed: next state, pending buttons, events. *)
Definition mb_next (m : ApplePS2Mouse) (b t : Z) (from : MBComingFrom) (timeout : bool) : mbuttonstate * Z * bool * list MEvent :=
  let p := _pendingbuttons m in
  let delay s := (s, b, true, [MSetTimer (_maxmiddleclicktime m)]) in
  let settle s := (s, 0, false, [MCancelTimer]) in
  let stay s := (s, p, false, []) in
  let flush (d : bool) := (if b =? 0 then STATE_NOBUTTONS else STATE_NOOP, 0, false,
    (if d then [MPointer 0 0 (Z.lor b p) t] else []) ++ [MCancelTimer]) in
  match _mbuttonstate m with
  | STATE_NOBUTTONS =>
      if anyset b 0x4 then stay STATE_NOOP else if b =? 3 then stay STATE_MIDDLE
      else if b =? 0 then stay STATE_NOBUTTONS else delay STATE_WAIT4TWO
  | STATE_WAIT4TWO =>
      if negb timeout && (b =? 3) then settle STATE_MIDDLE
      else if timeout || negb (b =? p) then flush (bool_decide (fromTimer = from) || negb (anyset b p))
      else stay STATE_WAIT4TWO
  | STATE_MIDDLE =>
      if b =? 0 then stay STATE_NOBUTTONS
      else if Z.land b 0x3 =? 3 then stay STATE_MIDDLE else delay STATE_WAIT4NONE
  | STATE_WAIT4NONE =>
      if negb timeout && (b =? 0) then settle STATE_NOBUTTONS
      else if timeout || negb (b =? p) then flush (bool_decide (fromTimer = from))
      else stay STATE_WAIT4NONE
  | STATE_NOOP => if b =? 0 then stay STATE_NOBUTTONS else stay STATE_NOOP
  end.

Definition mb_timeout (env : MEnv) (m : ApplePS2Mouse) (t : Z) (from : MBComingFrom) : bool :=
  bool_decide (fromTimer = from) ||
  (u64 (absolutetime_to_nanoseconds env t - _buttontime m) >? _maxmiddleclicktime m).

Lemma middleButton_next env b t from w : mb_on (mouse w) ->
  let '(s, p, started, evs) := mb_next (mouse w) b t from (mb_timeout env (mouse w) t from) in
  middleButton env b t from w =
    Done (middle_report s b,
      w <| mouse := (mouse w) <| _mbuttonstate := s |> <| _pendingbuttons := p |>
             <| _buttontime := if started then absolutetime_to_nanoseconds env t else _buttontime (mouse w) |> |>
        <| mevs := mevs w ++ evs |>).
Proof.
  intros Hon. rewrite middleButton_on by done. cbv zeta. fold (mb_timeout env (mouse w) t from).
  generalize (mb_timeout env (mouse w) t from), (bool_decide (fromTimer = from)). intros timeout tm.
  destruct Hon as [_ _ _ Ht]. destruct w as [m k evs]. simpl in *.
  unfold mb_next, middle_step, setTimerTimeout, cancelTimer, dispatchRelativePointerEventX, getm, setm, memit, when.
  rewrite ?(Z.eqb_sym 0 b), ?(Z.eqb_sym 3 b), ?(Z.eqb_sym 3 (Z.land b 3)).
  destruct (_mbuttonstate m) eqn:E; repeat (case_match; simplify_eq/=); munfold; simpl; rewrite ?Ht; unfold set; simpl;
    rewrite ?app_nil_r, <- ?app_assoc, ?E; try reflexivity; destruct m; simpl in *; subst; reflexivity.
Qed.

(** ** Entry points *)

Inductive MOp :=
| MOpInterrupt (data : Z)
| MOpPacketReady
| MOpTimer
| MOpMessage (type : PS2Message) (p : Payload)
| MOpParams (config : option OSDict)
| MOpProperties (props : OSObject)
| MOpNotify (s : HIDService) (n : HIDNotification)
| MOpPower (whatToDo : Z).

Definition run_mop (env : MEnv) (o : MOp) : M MWorld unit :=
  match o with
  | MOpInterrupt data => interruptOccurred data;; mret tt
  | MOpPacketReady => packetReady env
  | MOpTimer => onButtonTimer env
  | MOpMessage type p => message env type p;; mret tt
  | MOpParams config => setParamProperties env config
  | MOpProperties props => setProperties env props
  | MOpNotify s n => notificationHIDAttachedHandler env s n
  | MOpPower n => setDevicePowerState env n
  end.

Definition mop_ok (o : MOp) : Prop :=
  match o with MOpMessage type p => payload_ok type p | _ => True end.

Section life.
  Context (env : MEnv).
  Context (Hsubmit : forall evs r, length (commands (submit env evs r)) = length (commands r)).

Lemma reaches_setm (I J : MWorld -> Prop) f :
  (forall w, I w -> J (w <| mouse := f (mouse w) |>)) -> reaches I J (setm f).
Proof. intros Hf w Hw. exists tt. eexists. split; [reflexivity|]. auto. Qed.

Lemma push_command_running code : reaches running running (push_command code).
Proof.
  intros w ([Hl Hc Hr Hn] & Ht & Hd). unfold push_command, getm, setm. munfold.
  destruct (head_set_ok _ _ _ 0 0 Hr) as (rb1 & E1 & Hr1 & _); [unfold kPacketLengthMax; lia|]. rewrite E1.
  destruct (head_set_ok _ _ _ 1 code Hr1) as (rb2 & E2 & Hr2 & _); [unfold kPacketLengthMax; lia|]. rewrite E2.
  exists tt. eexists. split; [reflexivity|]. split; [|by split]. split; simpl; try done. by apply advanceHead_block.
Qed.

Lemma interrupt_running data : reaches running running (interruptOccurred data).
Proof.
  intros w Hw. pose proof Hw as ([Hl Hc Hr Hn] & Ht & Hd). unfold interruptOccurred, getm.
  unfold mbind at 1, M_bind at 1, gets at 1. unfold id. case_match.
  { refine (reaches_bind _ running _ _ _ (push_command_running _) _ w Hw). intros _.
    apply (reaches_bind _ running); [|intros _; apply reaches_ret]. apply reaches_setm.
    intros w' ([Hl' Hc' Hr' Hn'] & Ht' & Hd'). split; [|by split]. split; simpl; try done. lia. }
  pose (w1 := w <| mouse := (mouse w) <| _lastdata := data |> |>). rewrite (bind_done _ _ w tt w1) by done.
  assert (running w1) as Hw1 by (split; [by split|by split]).
  case_match.
  { case_match; [|by apply reaches_ret].
    pose (w2 := w1 <| mouse := (mouse w1) <| _mouseResetCount := u32 (_mouseResetCount (mouse w1) + 1) |> |>).
    rewrite (bind_done _ _ w1 tt w2) by done.
    assert (running w2) as Hw2.
    { split; [|by split]. split; simpl; try done. unfold u32. rewrite Z.mod_small by lia. lia. }
    refine (reaches_bind _ running _ _ _ (push_command_running _) _ w2 Hw2). intros _. apply reaches_ret. }
  destruct (head_set_ok _ _ _ (_packetByteCount (mouse w)) data Hr) as (rb & E & Hr' & _); [unfold kPacketLengthMax; lia|].
  unfold mbind at 1, M_bind at 1, lift at 1. rewrite E. cbn beta iota.
  assert (u32 (_packetByteCount (mouse w) + 1) = _packetByteCount (mouse w) + 1) as Eu by (unfold u32; rewrite Z.mod_small; lia).
  unfold setm. munfold. unfold id. cbn. rewrite Eu. destruct (Z.eqb_spec (_packetByteCount (mouse w) + 1) (_packetLength (mouse w)));
    munfold; (eexists _, _; split; [reflexivity|]); (split; [|by split]); split; simpl; try done; try lia.
  by apply advanceHead_block.
Qed.

Lemma drain_running : reaches running running (packetReady env).
Proof.
  intros w Hw. destruct (aligned_queue _ _ _ (mw_ring _ (proj1 Hw))) as [q Hq].
  destruct (mouse_drain_ok env 32 w q Hw Hq) as (ps & w' & E & _ & _ & _ & Hw' & _).
  - pose proof (mouse_queue_bound _ _ Hq). lia.
  - by exists tt, w'.
Qed.

Lemma run_mop_ok o : mop_ok o -> reaches running running (run_mop env o).
Proof.
  destruct o; intros Ho; cbn [run_mop].
  - apply (reaches_bind _ running); [apply interrupt_running|intros ?; apply reaches_ret].
  - apply drain_running.
  - eapply psafe_reaches, psafe_timer.
  - apply (reaches_bind _ running); [|intros ?; apply reaches_ret].
    eapply psafe_reaches, psafe_message_data; apply _ || done.
  - apply reaches_if. eapply psafe_reaches, psafe_params; apply _ || done.
  - unfold setProperties. case_match; [|apply reaches_ret]. apply reaches_if. eapply psafe_reaches, psafe_params; apply _ || done.
  - eapply psafe_reaches, psafe_notification.
  - by apply mouse_power_ok.
Qed.

Lemma run_mops_ok ops : Forall mop_ok ops -> reaches running running (forM_ ops (run_mop env)).
Proof. intros Ho. apply reaches_forM. intros o Hin. apply run_mop_ok. by eapply Forall_forall. Qed.

(** [start] on a driver that is not started: it fails without a trace in the
    hardware, or the driver runs. *)
Lemma mouse_start_ok w : alloc_timer env = true -> mouse_wf (mouse w) ->
  exists b w', start env w = Done (b, w') /\ mouse_wf (mouse w') /\ b = getWorkLoop env && alloc_gate env /\
    (b = true -> running w').
Proof.
  intros Ht Hw. unfold start.
  pose (w1 := w <| mouse := (mouse w) <| _device := true |> <| _cmdGate := alloc_gate env |> |>).
  rewrite (bind_done _ _ w tt w1) by done. assert (mouse_wf (mouse w1)) as Hw1 by (by destruct Hw).
  destruct (getWorkLoop env), (alloc_gate env); cbn [negb orb andb]; try (by exists false, w1).
  assert (reaches (fun w => mouse_wf (mouse w)) running
    (setm (fun m => m <| attachedHIDPointerDevices := Some ∅ |>);; registerHIDPointerNotifications;;
     setm (fun m => m <| _buttonTimer := alloc_timer env |>);; resetMouse env;;
     memit MInstallInterruptAction;; setm (fun m => m <| _interruptHandlerInstalled := true |>);;
     memit MInstallPowerControlAction;; setm (fun m => m <| _powerControlHandlerInstalled := true |>);; mret true)) as Hs.
  { apply (reaches_bind _ (fun w => mouse_wf (mouse w) /\ attachedHIDPointerDevices (mouse w) = Some ∅)).
    { apply reaches_setm. intros w' []. split; [by split|done]. }
    intros _. apply (reaches_bind _ (fun w => mouse_wf (mouse w) /\ attachedHIDPointerDevices (mouse w) = Some ∅)).
    { intros w' [Hm Hd]. unfold registerHIDPointerNotifications, getm, setm, memit, when. munfold. unfold id.
      destruct (_processusbmouse _), (_processbluetoothmouse _); munfold; eexists _, _; (split; [reflexivity|]); by destruct Hm. }
    intros _. apply (reaches_bind _ running).
    { apply reaches_setm. intros w' [[] Hd]. split; [by split|]. split; [done|]. simpl. rewrite Hd. by eexists. }
    intros _. apply (reaches_bind _ running); [by apply resetMouse_ok|intros _].
    do 2 (apply (reaches_bind _ running); [intros w' Hw'; exists tt; eexists; by split|intros _];
          apply (reaches_bind _ running); [apply reaches_setm; intros w' ([] & ? & ?); by split|intros _]).
    apply reaches_ret. }
  destruct (Hs w1 Hw1) as (b & w' & E & Hr). exists b, w'.
  assert (b = true) as ->; [|split; [exact E|]; split; [apply Hr|by split]].
  revert E. clear. intros E. repeat (apply bind_done_inv in E as (? & ? & _ & E)). by injection E.
Qed.
End life.

(** [stop] of a started driver returns, with nothing installed or attached. *)
Lemma mouse_stop_ok env w : is_Some (attachedHIDPointerDevices (mouse w)) ->
  exists w', stop env w = Done (tt, w') /\ _device (mouse w') = false /\ attachedHIDPointerDevices (mouse w') = None /\
    _interruptHandlerInstalled (mouse w') = false /\ _powerControlHandlerInstalled (mouse w') = false /\
    usb_notify (mouse w') = false /\ bluetooth_notify (mouse w') = false.
Proof.
  intros [d Hd]. unfold stop, unregisterHIDPointerNotifications, setMouseEnable, submitRequestAndBlock, when, getm, setm, memit.
  munfold. unfold id. rewrite Hd.
  destruct (usb_notify (mouse w)) eqn:?, (bluetooth_notify (mouse w)) eqn:?; munfold; destruct (getWorkLoop env); munfold; cbn;
    (destruct (_interruptHandlerInstalled _) eqn:?; munfold; destruct (_powerControlHandlerInstalled _) eqn:?; munfold);
    (eexists; split; [reflexivity|]); (split; [reflexivity|split; [reflexivity|split; [reflexivity|split; [reflexivity|split; assumption || reflexivity]]]]).
Qed.

Definition fresh_mouse : MWorld := mkMWorld init 0 [].

(** [probe] of a new driver, any configuration. *)
Lemma mouse_probe_ok env config : (forall evs r, length (commands (submit env evs r)) = length (commands r)) ->
  exists b w', probe env config fresh_mouse = Done (b, w') /\ mouse_wf (mouse w').
Proof.
  intros Hsubmit. unfold probe. case_bool_decide; [exists false, fresh_mouse; split; [done|apply mouse_init_wf]|]. clear H.
  destruct (psafe_params env Hsubmit (fun w => mouse_wf (mouse w)) config fresh_mouse mouse_init_wf) as ([] & w1 & E1 & Hd1 & _).
  pose proof (wf_stable _ _ Hd1 mouse_init_wf) as H1. rewrite (bind_done _ _ _ _ _ E1).
  rewrite (bind_done _ _ w1 (actliketrackpad (mouse w1)) w1) by done.
  assert (config = None -> actliketrackpad (mouse w1) = false) as Hact by (intros ->; by injection E1 as <-).
  refine (reaches_bind _ (fun w => mouse_wf (mouse w)) _ _ _ _ _ w1 H1).
  { destruct (actliketrackpad (mouse w1)); [|apply reaches_ret]. destruct config as [d|]; [|by specialize (Hact eq_refl)].
    unfold injectVersionDependentProperties. case_match; [|apply reaches_ret]. apply reaches_forM. intros [k v] _.
    case_match; [|apply reaches_ret]. intros w Hw. exists tt. eexists. by split. }
  intros _. apply (reaches_bind _ (fun w => mouse_wf (mouse w))).
  { case_match; [|apply reaches_ret]. do 4 (apply (reaches_bind _ (fun w => mouse_wf (mouse w)));
      [intros w Hw; exists tt; eexists; by split|intros _]). intros w Hw; exists tt; eexists; by split. }
  intros _ w Hw. eexists _, _. split; [reflexivity|]. exact Hw.
Qed.


Definition demo_mops : list MOp :=
  [MOpInterrupt 0x09; MOpInterrupt 0x05; MOpInterrupt 0xFE; MOpPacketReady; MOpTimer; MOpInterrupt 0xAA; MOpInterrupt 0x00;
   MOpMessage kPS2M_setDisableTouchpad (PBool false); MOpNotify {| service := 1%positive; classOfDevice := None |} UsbPublish;
   MOpPower kPS2C_EnableDevice].


(** ** Clicks *)

Definition MBInput : Type := Z * Z * MBComingFrom.

(** The reports of [middleButton] for a sequence of buttons, times and sources. *)
Fixpoint run_middle (env : MEnv) (ins : list MBInput) : M MWorld (list Z) :=
  match ins with
  | [] => mret []
  | (b, t, from) :: ins => r ← middleButton env b t from; rs ← run_middle env ins; mret (r :: rs)
  end.

(** The next state: buttons are pending while the machine waits, and without
    buttons it is at rest. *)
Lemma mb_next_ok m b t from tm s p d evs : mb_ok m -> mb_next m b t from tm = (s, p, d, evs) ->
  match s with STATE_WAIT4TWO | STATE_WAIT4NONE => p <> 0 | _ => True end /\ (b = 0 -> s = STATE_NOBUTTONS).
Proof.
  unfold mb_ok, mb_next. intros Hok E. destruct (decide (b = 0)) as [->|Hb].
  - destruct (_mbuttonstate m), (Z.eqb_spec 0 (_pendingbuttons m)), tm; simpl in *; try congruence; by injection E as <- <- <- <-.
  - split; [|done]. destruct (_mbuttonstate m); repeat (case_match; simplify_eq/=); done.
Qed.

(** One step, with what it keeps. *)
Lemma middleButton_step env b t from w : mb_on (mouse w) -> mb_ok (mouse w) ->
  exists r w', middleButton env b t from w = Done (r, w') /\ mb_on (mouse w') /\ mb_ok (mouse w') /\
    (r = b \/ r = clear b 3 \/ r = 4) /\ (b = 0 -> r = 0 /\ _mbuttonstate (mouse w') = STATE_NOBUTTONS).
Proof.
  intros Hon Hok. pose proof (middleButton_next env b t from w Hon) as E.
  destruct (mb_next (mouse w) b t from _) as [[[s p] d] evs] eqn:En. destruct (mb_next_ok _ _ _ _ _ _ _ _ _ Hok En) as [Hp Hz].
  eexists _, _. split; [exact E|]. split; [by destruct Hon; split|].
  split; [exact Hp|]. split; [destruct s; simpl; auto|]. intros Eb. rewrite (Hz Eb). simpl. auto.
Qed.


Definition middle_mouse : MWorld := mkMWorld (started_mouse <| _fakemiddlebutton := true |>) 0 [].

Lemma middle_mouse_on : mb_on (mouse middle_mouse).
Proof. by split. Qed.


(** Clicks through the emulation, from rest, for either outer button [b]
    pressed at [t1].  The other button within the time makes the middle button,
    and no pointer event of the single button.  Its release before anything else
    happens, however late, delivers the press first and reports no button.  Held
    beyond the time, it is reported as itself by the next packet. *)
Theorem middle_clicks env w b t1 t2 :
  mb_on (mouse w) -> _mbuttonstate (mouse w) = STATE_NOBUTTONS -> b = 1 \/ b = 2 ->
  let ns := absolutetime_to_nanoseconds env in
  let late := u64 (ns t2 - ns t1) >? _maxmiddleclicktime (mouse w) in
  let timer := MSetTimer (_maxmiddleclicktime (mouse w)) in
  let outcome ins rs s evs := exists w', run_middle env ins w = Done (rs, w') /\ _mbuttonstate (mouse w') = s /\
    mevs w' = mevs w ++ evs in
  (late = false -> outcome [(b, t1, fromMouse); (3, t2, fromMouse)] [0; 4] STATE_MIDDLE [timer; MCancelTimer]) /\
  outcome [(b, t1, fromMouse); (0, t2, fromMouse)] [0; 0] STATE_NOBUTTONS [timer; MPointer 0 0 b t2; MCancelTimer] /\
  (late = true -> outcome [(b, t1, fromMouse); (b, t2, fromMouse)] [0; b] STATE_NOOP [timer; MCancelTimer]).
Proof.
  intros Hon Hs Hb ns late timer outcome.
  pose proof (middleButton_next env b t1 fromMouse w Hon) as E1. unfold mb_next in E1. rewrite Hs in E1.
  assert (exists w1, middleButton env b t1 fromMouse w = Done (0, w1) /\ mb_on (mouse w1) /\ _mbuttonstate (mouse w1) = STATE_WAIT4TWO /\
    _pendingbuttons (mouse w1) = b /\ _buttontime (mouse w1) = ns t1 /\
    _maxmiddleclicktime (mouse w1) = _maxmiddleclicktime (mouse w) /\ mevs w1 = mevs w ++ [timer]) as (w1 & Ew1 & Hon1 & Hs1 & Hp1 & Ht1 & Hm1 & Hv1).
  { destruct Hb as [-> | ->]; (eexists; split; [exact E1|]); (split; [by destruct Hon; split|]); repeat (split; [reflexivity|]); reflexivity. }
  assert (forall b2 r s evs, (let '(s', _, _, evs') := mb_next (mouse w1) b2 t2 fromMouse late in
      (middle_report s' b2, s', evs')) = (r, s, evs) -> outcome [(b, t1, fromMouse); (b2, t2, fromMouse)] [0; r] s (timer :: evs)) as Hnext.
  { intros b2 r s evs En. pose proof (middleButton_next env b2 t2 fromMouse w1 Hon1) as E2.
    assert (mb_timeout env (mouse w1) t2 fromMouse = late) as Etm by (unfold mb_timeout; rewrite Ht1, Hm1; done).
    rewrite Etm in E2. destruct (mb_next (mouse w1) b2 t2 fromMouse late) as [[[s' p'] d'] evs']. injection En as <- <- <-.
    eexists. cbn [run_middle]. rewrite (bind_done _ _ _ _ _ Ew1), !(bind_done _ _ _ _ _ (bind_done _ _ _ _ _ E2)).
    split; [reflexivity|]. split; [reflexivity|]. simpl. rewrite Hv1, <- app_assoc. done. }
  unfold mb_next in Hnext. rewrite Hs1, Hp1 in Hnext.
  split; [|split].
  - intros ->. apply Hnext. destruct Hb as [-> | ->]; reflexivity.
  - apply Hnext. destruct Hb as [-> | ->], late; reflexivity.
  - intros ->. apply Hnext. destruct Hb as [-> | ->]; reflexivity.
Qed.

Lemma middle_clicks_witness :
  (exists w', run_middle dead_mouse [(1, 5, fromMouse); (3, 9, fromMouse)] middle_mouse = Done ([0; 4], w') /\
     _mbuttonstate (mouse w') = STATE_MIDDLE /\ mevs w' = [MSetTimer 100000000; MCancelTimer]) /\
  (exists w', run_middle dead_mouse [(2, 5, fromMouse); (0, 9, fromMouse)] middle_mouse = Done ([0; 0], w') /\
     _mbuttonstate (mouse w') = STATE_NOBUTTONS /\ mevs w' = [MSetTimer 100000000; MPointer 0 0 2 9; MCancelTimer]) /\
  (exists w', run_middle dead_mouse [(1, 5, fromMouse); (1, 200000000, fromMouse)] middle_mouse = Done ([0; 1], w') /\
     _mbuttonstate (mouse w') = STATE_NOOP /\ mevs w' = [MSetTimer 100000000; MCancelTimer]).
Proof.
  split; [|split].
  - exact (proj1 (middle_clicks dead_mouse middle_mouse 1 5 9 middle_mouse_on eq_refl (or_introl eq_refl)) eq_refl).
  - exact (proj1 (proj2 (middle_clicks dead_mouse middle_mouse 2 5 9 middle_mouse_on eq_refl (or_intror eq_refl)))).
  - exact (proj2 (proj2 (middle_clicks dead_mouse middle_mouse 1 5 200000000 middle_mouse_on eq_refl (or_introl eq_refl))) eq_refl).
Defined.

(** The driver's handling of a held button: a packet, the timer, a packet. *)
Definition hold (env : MEnv) (packet : list Z) : M MWorld unit :=
  dispatchRelativePointerEventWithPacket env packet 3;;
  onButtonTimer env;;
  dispatchRelativePointerEventWithPacket env packet 3.

(** The pointer events of a trace. *)
Definition pointers (evs : list MEvent) : list (Z * Z * Z) :=
  omap (fun e => match e with MPointer dx dy b _ => Some (dx, dy, b) | _ => None end) evs.

(** A three byte packet with no filter in force, buttons through the emulation. *)
Lemma mouse_dispatch_plain env w p0 p1 p2 r w1 :
  palm_wt (mouse w) = false -> outzone_wt (mouse w) = false -> ignoreall (mouse w) = false ->
  middleButton env (Z.land p0 7) (u64 (uptime env (ticks w))) fromMouse (w <| ticks := S (ticks w) |>) = Done (r, w1) ->
  mb_frame (w <| ticks := S (ticks w) |>) w1 ->
  dispatchRelativePointerEventWithPacket env [p0; p1; p2; 0] 3 w = Done (tt,
    w1 <| mouse := (mouse w1) <| lastbuttons := r |> |>
       <| mevs := mevs w1 ++ [MPointer (s32 (delta (anyset p0 0x10) p1))
            (s32 (mouseyinverter (mouse w) * s32 (u32 (- delta (anyset p0 0x20) p2)))) r (u64 (uptime env (ticks w)))] |>).
Proof.
  intros Hp Ho Hi E (s & p & t & Ef & _). unfold dispatchRelativePointerEventWithPacket.
  rewrite (bind_done _ _ w p0 w), (bind_done _ _ w p1 w), (bind_done _ _ w p2 w) by done. cbv zeta.
  pose (w0 := w <| ticks := S (ticks w) |>). rewrite (bind_done _ _ w (u64 (uptime env (ticks w))) w0), (bind_done _ _ w0 (mouse w) w0) by done.
  rewrite (bind_done _ _ w0 (Z.land p0 7, 0) w0) by done. cbn beta iota. rewrite (bind_done _ _ _ _ _ E).
  unfold dispatchRelativePointerEventX, getm, setm, memit, when. munfold. unfold id. cbn. rewrite Ef. cbn.
  rewrite Hp, Ho, Hi. cbn. done.
Qed.

(** From rest, one outer button: the packet is held back. *)
Lemma press_held env w b : mb_on (mouse w) -> _mbuttonstate (mouse w) = STATE_NOBUTTONS -> b = 1 \/ b = 2 ->
  palm_wt (mouse w) = false -> outzone_wt (mouse w) = false ->
  exists w', dispatchRelativePointerEventWithPacket env [8 + b; 0; 0; 0] 3 w = Done (tt, w') /\ mb_on (mouse w') /\
    _mbuttonstate (mouse w') = STATE_WAIT4TWO /\ _pendingbuttons (mouse w') = b /\ lastbuttons (mouse w') = 0 /\
    palm_wt (mouse w') = false /\ outzone_wt (mouse w') = false /\
    exists evs, mevs w' = mevs w ++ evs /\ pointers evs = [(0, 0, 0)].
Proof.
  intros Hon Hs Hb Hp Ho. set (t := u64 (uptime env (ticks w))). set (w0 := w <| ticks := S (ticks w) |>).
  assert (Hon0 : mb_on (mouse w0)) by done. pose proof (middleButton_next env b t fromMouse w0 Hon0) as E.
  assert (Hs0 : _mbuttonstate (mouse w0) = STATE_NOBUTTONS) by done. unfold mb_next in E. rewrite Hs0 in E.
  assert (Z.land (8 + b) 7 = b /\ anyset (8 + b) 0x10 = false /\ anyset (8 + b) 0x20 = false) as (El & Ex & Ey)
    by (destruct Hb as [-> | ->]; done).
  assert (exists w1, middleButton env b t fromMouse w0 = Done (0, w1) /\ mb_frame w0 w1 /\ _mbuttonstate (mouse w1) = STATE_WAIT4TWO /\
    _pendingbuttons (mouse w1) = b /\ mevs w1 = mevs w ++ [MSetTimer (_maxmiddleclicktime (mouse w))]) as (w1 & E1 & Hf & Hs1 & Hp1 & Hv1).
  { destruct Hb as [-> | ->]; (eexists; split; [exact E|]); (split; [do 3 eexists; split; reflexivity|]); repeat (split; [reflexivity|]); reflexivity. }
  rewrite <- El in E1. rewrite (mouse_dispatch_plain env w (8 + b) 0 0 0 w1 Hp Ho (on_active _ Hon) E1 Hf). rewrite Ex, Ey.
  pose proof (mb_frame_on _ _ Hf Hon0) as Hon1. destruct Hf as (s & p & tt' & Ef & _).
  eexists. split; [reflexivity|]. split; [by destruct Hon1; split|]. split; [exact Hs1|]. split; [exact Hp1|]. split; [reflexivity|].
  split; [by simpl; rewrite Ef|]. split; [by simpl; rewrite Ef|].
  eexists. split; [simpl; rewrite Hv1, <- app_assoc; reflexivity|]. cbn. by rewrite Z.mul_0_r.
Qed.

(** The timer, with no buttons in [lastbuttons]: the press is delivered, and the
    machine is at rest although the button is down. *)
Lemma timer_forgets env w : mb_on (mouse w) -> _mbuttonstate (mouse w) = STATE_WAIT4TWO -> lastbuttons (mouse w) = 0 ->
  exists w', onButtonTimer env w = Done (tt, w') /\ mb_on (mouse w') /\ _mbuttonstate (mouse w') = STATE_NOBUTTONS /\
    palm_wt (mouse w') = palm_wt (mouse w) /\ outzone_wt (mouse w') = outzone_wt (mouse w) /\
    mevs w' = mevs w ++ [MPointer 0 0 (_pendingbuttons (mouse w)) (u64 (uptime env (ticks w))); MCancelTimer].
Proof.
  intros Hon Hs Hl. set (t := u64 (uptime env (ticks w))). set (w0 := w <| ticks := S (ticks w) |>).
  assert (Hon0 : mb_on (mouse w0)) by done. pose proof (middleButton_next env 0 t fromTimer w0 Hon0) as E.
  assert (Hs0 : _mbuttonstate (mouse w0) = STATE_WAIT4TWO) by done. unfold mb_next in E. rewrite Hs0 in E. simpl in E.
  unfold onButtonTimer. rewrite (bind_done _ _ w t w0), (bind_done _ _ w0 0 w0) by (try done; unfold getm; by rewrite <- Hl).
  rewrite (bind_done _ _ _ _ _ E). eexists. split; [reflexivity|]. split; [by destruct Hon; split|].
  repeat (split; [reflexivity|]). reflexivity.
Qed.

(** A held button is released by the emulation.  The timer hands
    [middleButton] the buttons it reported last, from which the delayed button
    is missing, so the machine forgets that it is down: a button held through
    the timer and the next packet is reported as not pressed, pressed, and not
    pressed again. *)
Theorem held_button_released env w b :
  mb_on (mouse w) -> _mbuttonstate (mouse w) = STATE_NOBUTTONS -> b = 1 \/ b = 2 ->
  palm_wt (mouse w) = false -> outzone_wt (mouse w) = false ->
  exists w' evs, hold env [8 + b; 0; 0; 0] w = Done (tt, w') /\ mevs w' = mevs w ++ evs /\
    pointers evs = [(0, 0, 0); (0, 0, b); (0, 0, 0)].
Proof.
  intros Hon Hs Hb Hp Ho. destruct (press_held env w b Hon Hs Hb Hp Ho) as (w1 & E1 & Hon1 & Hs1 & Hp1 & Hl1 & Hpw & Hoz & evs1 & Ev1 & Pv1).
  destruct (timer_forgets env w1 Hon1 Hs1 Hl1) as (w2 & E2 & Hon2 & Hs2 & Hpw2 & Hoz2 & Ev2).
  destruct (press_held env w2 b Hon2 Hs2 Hb) as (w3 & E3 & _ & _ & _ & _ & _ & _ & evs3 & Ev3 & Pv3); [congruence|congruence|].
  exists w3. eexists. split; [unfold hold; rewrite (bind_done _ _ _ _ _ E1), (bind_done _ _ _ _ _ E2); exact E3|].
  split; [rewrite Ev3, Ev2, Ev1, <- !app_assoc; reflexivity|]. unfold pointers in *. rewrite !omap_app, Pv1, Pv3, Hp1. done.
Qed.

Lemma held_button_released_witness : exists w' evs, hold dead_mouse [9; 0; 0; 0] middle_mouse = Done (tt, w') /\ mevs w' = evs /\
  pointers evs = [(0, 0, 0); (0, 0, 1); (0, 0, 0)].
Proof.
  apply (held_button_released dead_mouse middle_mouse 1 middle_mouse_on eq_refl (or_introl eq_refl) eq_refl eq_refl).
Defined.

(** ** The default resolution *)

Definition keeps_defres (w w' : MWorld) : Prop := defres (mouse w') = defres (mouse w).
#[local] Instance keeps_defres_preorder : PreOrder keeps_defres.
Proof. split; [done|]. unfold keeps_defres. intros ? ? ?; congruence. Qed.

Lemma defres_set f : (forall m, defres (f m) = defres m) -> safe (fun _ => True) keeps_defres (setm f) (fun _ => True).
Proof. intros Hf. apply safe_modify. intros w _. apply Hf. Qed.
Lemma defres_emit e : safe (fun _ => True) keeps_defres (memit e) (fun _ => True).
Proof. by apply safe_modify. Qed.

Lemma defres_seq {A B} (m : M MWorld A) (f : A -> M MWorld B) :
  safe (fun _ => True) keeps_defres m (fun _ => True) -> (forall a, safe (fun _ => True) keeps_defres (f a) (fun _ => True)) ->
  safe (fun _ => True) keeps_defres (m ≫= f) (fun _ => True).
Proof. intros Hm Hf. eapply safe_bind; [apply _|done|exact Hm|auto]. Qed.

Lemma defres_ret {A} (a : A) : safe (fun _ => True) keeps_defres (mret a) (fun _ => True).
Proof. by apply safe_ret; [apply _|]. Qed.

Lemma defres_LED env : safe (fun _ => True) keeps_defres (updateTouchpadLED env) (fun _ => True).
Proof.
  unfold updateTouchpadLED. apply defres_seq; [by apply safe_gets; [apply _|]|intros m]. case_match; [|apply defres_ret].
  intros w _. do 2 eexists. split; [reflexivity|]. done.
Qed.

Ltac keeps := repeat first
  [ apply defres_ret | apply defres_emit | apply defres_LED | apply defres_set; solve [intros []; reflexivity]
  | by apply safe_gets; [apply _|] | apply defres_seq; [|intros ?] | case_match ].

(** The settings, all but the last statement of [setParamPropertiesGated]. *)
Lemma settings_keep_defres (config : OSDict) : getObject "DefaultResolution" config = None ->
  safe (fun _ => True) keeps_defres
    (forM_ int64vars (load_int64 config);; forM_ boolvars (load_bool config);;
     forM_ lowbitvars (load_lowbit config);; forM_ int32vars (load_int32 config)) (fun _ => True).
Proof.
  intros Hc. apply defres_seq; [|intros _; apply defres_seq; [|intros _; apply defres_seq; [|intros _]]];
    apply safe_forM; try apply _; try done; intros [k f] Hin;
    unfold load_int64, load_bool, load_lowbit, load_int32, setProperty; cbn [fst snd];
    repeat (apply elem_of_cons in Hin as [[= -> ->]|Hin]; [rewrite ?Hc; keeps|]); by apply elem_of_nil in Hin.
Qed.

(** A configuration that says nothing of the default resolution destroys it:
    [setParamPropertiesGated] shifts [defres] by 16 bits on every call, also when
    it is already a fixed point number, so that the 150 dots per inch [init]
    sets become 0. *)
Lemma default_resolution_lost env (config : OSDict) : getObject "DefaultResolution" config = None ->
  defres init = Z.shiftl 150 16 /\
  exists w', setParamPropertiesGated env (Some config) fresh_mouse = Done (tt, w') /\ defres (mouse w') = 0.
Proof.
  intros Hc. split; [done|].
  destruct (settings_keep_defres config Hc fresh_mouse I) as ([] & w1 & E1 & Hd1 & _).
  apply bind_done_inv in E1 as ([] & v1 & A1 & E1). apply bind_done_inv in E1 as ([] & v2 & A2 & E1).
  apply bind_done_inv in E1 as ([] & v3 & A3 & A4).
  unfold setParamPropertiesGated. rewrite (bind_done _ _ _ _ _ A1), (bind_done _ _ _ _ _ A2), (bind_done _ _ _ _ _ A3), (bind_done _ _ _ _ _ A4).
  assert (safe (fun _ => True) keeps_defres (m ← getm id;
      match attachedHIDPointerDevices m with
      | Some devices => if bool_decide (devices ≠ ∅) then
             setm (fun m => m <| ignoreall := usb_mouse_stops_trackpad m |>);; updateTouchpadLED env else mret tt
      | None => mret tt
      end) (fun _ => True)) as Hk by keeps.
  destruct (Hk w1 I) as ([] & w2 & E2 & Hd2 & _). unfold mbind at 1, M_bind at 1, getm at 1, gets at 1 in E2.
  unfold mbind at 1, M_bind at 1, getm at 1, gets at 1. rewrite (bind_done _ _ _ _ _ E2).
  eexists. split; [reflexivity|]. simpl. rewrite Hd2, Hd1. reflexivity.
Qed.

Lemma default_resolution_lost_witness : defres init = Z.shiftl 150 16 /\
  exists w', setParamPropertiesGated dead_mouse (Some [("FakeMiddleButton", OSBoolean true)]) fresh_mouse = Done (tt, w') /\
    defres (mouse w') = 0.
Proof. apply default_resolution_lost. reflexivity. Defined.
