(* ===== verification/Synaptics.v ===== *)
(** * Synaptics: ApplePS2SynapticsTouchPad

    The driver for Synaptics touchpads,
    src/VoodooPS2Trackpad/VoodooPS2SynapticsTouchPad.cpp/.h (the release build,
    no SIMULATE_ option): requests, identification and capabilities, packet
    assembly, decoding of absolute, pass through and extended packets, the
    gesture state machine, click pads, momentum scrolling, the middle button,
    configuration and life cycle.

    The members of the class are grouped into records by what they are for; an
    [int] that is only ever given truth values is a [bool].  What the driver
    does to the outside is a trace of [SEvent]; what it learns from it is the
    parameter [env]. *)

From S2P Require Import Prelude RingBuffer PS2Defs Controller Config Pointing Averages.
From Stdlib Require String.

#[local] Open Scope string_scope.
#[local] Open Scope list_scope.
#[local] Open Scope Z_scope.

Definition kPacketLength : Z := 6.

Inductive TouchMode :=
| MODE_NOTOUCH | MODE_PREDRAG | MODE_DRAGNOTOUCH
| MODE_MOVE | MODE_VSCROLL | MODE_HSCROLL | MODE_CSCROLL | MODE_MTOUCH | MODE_DRAG | MODE_DRAGLOCK
| MODE_WAIT1RELEASE | MODE_WAIT2TAP | MODE_WAIT2RELEASE.
#[export] Instance TouchMode_eq : EqDecision TouchMode.
Proof. solve_decision. Defined.

(** The numbers of the enumeration: odd while a finger is down. *)
Definition mode_value (m : TouchMode) : Z :=
  match m with
  | MODE_NOTOUCH => 0 | MODE_PREDRAG => 2 | MODE_DRAGNOTOUCH => 4
  | MODE_MOVE => 1 | MODE_VSCROLL => 3 | MODE_HSCROLL => 5 | MODE_CSCROLL => 7 | MODE_MTOUCH => 9
  | MODE_DRAG => 11 | MODE_DRAGLOCK => 13
  | MODE_WAIT1RELEASE => 101 | MODE_WAIT2TAP => 102 | MODE_WAIT2RELEASE => 103
  end.

Inductive MBComingFrom := fromPassthru | fromTimer | fromTrackpad | fromCancel.
#[export] Instance MBComingFrom_eq : EqDecision MBComingFrom.
Proof. solve_decision. Defined.

(** Signed 64 bit integers. *)
Definition s64 (z : Z) : Z := (z + 9223372036854775808) mod 18446744073709551616 - 9223372036854775808.

(** The macro [abs] on an [int]. *)
Definition iabs (x : Z) : Z := if x <? 0 then s32 (- x) else x.

(** ** State *)

(** What the configuration sets. *)
Record Settings := mkSettings {
  z_finger : Z;
  divisorx : Z;
  divisory : Z;
  ledge : Z;
  redge : Z;
  tedge : Z;
  bedge : Z;
  vscrolldivisor : Z;
  hscrolldivisor : Z;
  cscrolldivisor : Z;
  ctrigger : Z;
  centerx : Z;
  centery : Z;
  maxtaptime : Z;
  maxdragtime : Z;
  maxdbltaptime : Z;
  hsticky : bool;
  vsticky : bool;
  wsticky : bool;
  tapstable : bool;
  wlimit : Z;
  wvdivisor : Z;
  whdivisor : Z;
  clicking : bool;
  dragging : bool;
  draglock : bool;
  hscroll : bool;
  scroll : bool;
  rtap : bool;
  outzone_wt : bool;
  palm : bool;
  palm_wt : bool;
  zlimit : Z;
  noled : bool;
  maxaftertyping : Z;
  mousemultiplierx : Z;
  mousemultipliery : Z;
  mousescrollmultiplierx : Z;
  mousescrollmultipliery : Z;
  mousemiddlescroll : bool;
  wakedelay : Z;
  smoothinput : bool;
  unsmoothinput : bool;
  skippassthru : bool;
  forcepassthru : bool;
  hwresetonstart : bool;
  tapthreshx : Z;
  tapthreshy : Z;
  dblthreshx : Z;
  dblthreshy : Z;
  zonel : Z;
  zoner : Z;
  zonet : Z;
  zoneb : Z;
  diszl : Z;
  diszr : Z;
  diszt : Z;
  diszb : Z;
  diszctrl : Z;
  _resolution : Z;
  _scrollresolution : Z;
  swipedx : Z;
  swipedy : Z;
  _buttonCount : Z;
  swapdoubletriple : bool;
  draglocktempmask : Z;
  clickpadclicktime : Z;
  clickpadtrackboth : bool;
  ignoredeltasstart : Z;
  bogusdxthresh : Z;
  bogusdythresh : Z;
  scrolldxthresh : Z;
  scrolldythresh : Z;
  immediateclick : bool;
  isthinkpad : bool;
  thinkpadNubScrollXMultiplier : Z;
  thinkpadNubScrollYMultiplier : Z;
  rightclick_corner : Z;
  rczl : Z;
  rczr : Z;
  rczb : Z;
  rczt : Z;
  _dynamicEW : bool;
  usb_mouse_stops_trackpad : bool;
  _processusbmouse : bool;
  _processbluetoothmouse : bool;
  scrollzoommask : Z;
  xupmm : Z;
  yupmm : Z;
  _maxmiddleclicktime : Z;
  _fakemiddlebutton : bool;
  momentumscroll : bool;
  momentumscrolltimer : Z;
  momentumscrollthreshy : Z;
  momentumscrollmultiplier : Z;
  momentumscrolldivisor : Z;
  momentumscrollsamplesmin : Z;
  dragexitdelay : Z;
}.
#[export] Instance Settings_eta : Settable Settings := mkSettable _ (fun r =>
  mkSettings (z_finger r) (divisorx r) (divisory r) (ledge r) (redge r) (tedge r) (bedge r) (vscrolldivisor r)
    (hscrolldivisor r) (cscrolldivisor r) (ctrigger r) (centerx r) (centery r) (maxtaptime r) (maxdragtime r)
    (maxdbltaptime r) (hsticky r) (vsticky r) (wsticky r) (tapstable r) (wlimit r) (wvdivisor r) (whdivisor r)
    (clicking r) (dragging r) (draglock r) (hscroll r) (scroll r) (rtap r) (outzone_wt r) (palm r) (palm_wt r)
    (zlimit r) (noled r) (maxaftertyping r) (mousemultiplierx r) (mousemultipliery r)
    (mousescrollmultiplierx r) (mousescrollmultipliery r) (mousemiddlescroll r) (wakedelay r) (smoothinput r)
    (unsmoothinput r) (skippassthru r) (forcepassthru r) (hwresetonstart r) (tapthreshx r) (tapthreshy r)
    (dblthreshx r) (dblthreshy r) (zonel r) (zoner r) (zonet r) (zoneb r) (diszl r) (diszr r) (diszt r)
    (diszb r) (diszctrl r) (_resolution r) (_scrollresolution r) (swipedx r) (swipedy r) (_buttonCount r)
    (swapdoubletriple r) (draglocktempmask r) (clickpadclicktime r) (clickpadtrackboth r)
    (ignoredeltasstart r) (bogusdxthresh r) (bogusdythresh r) (scrolldxthresh r) (scrolldythresh r)
    (immediateclick r) (isthinkpad r) (thinkpadNubScrollXMultiplier r) (thinkpadNubScrollYMultiplier r)
    (rightclick_corner r) (rczl r) (rczr r) (rczb r) (rczt r) (_dynamicEW r) (usb_mouse_stops_trackpad r)
    (_processusbmouse r) (_processbluetoothmouse r) (scrollzoommask r) (xupmm r) (yupmm r)
    (_maxmiddleclicktime r) (_fakemiddlebutton r) (momentumscroll r) (momentumscrolltimer r)
    (momentumscrollthreshy r) (momentumscrollmultiplier r) (momentumscrolldivisor r)
    (momentumscrollsamplesmin r) (dragexitdelay r)).

(** The device, its ring buffer, and the objects the driver holds. *)
Record Life := mkLife {
  _device : bool;
  _interruptHandlerInstalled : bool;
  _powerControlHandlerInstalled : bool;
  _ringBuffer : RingBuffer Z;
  _packetByteCount : Z;
  _lastdata : Z;
  _touchPadVersion : Z;
  _touchPadType : Z;
  _touchPadModeByte : Z;
  _cmdGate : bool;
  _provider : bool;
  attachedHIDPointerDevices : option (gset positive);
  usb_notify : bool;
  bluetooth_notify : bool;
  _buttonTimer : bool;
  scrollTimer : bool;
  dragTimer : bool;
}.
#[export] Instance Life_eta : Settable Life := mkSettable _ (fun r =>
  mkLife (_device r) (_interruptHandlerInstalled r) (_powerControlHandlerInstalled r) (_ringBuffer r)
    (_packetByteCount r) (_lastdata r) (_touchPadVersion r) (_touchPadType r) (_touchPadModeByte r)
    (_cmdGate r) (_provider r) (attachedHIDPointerDevices r) (usb_notify r) (bluetooth_notify r)
    (_buttonTimer r) (scrollTimer r) (dragTimer r)).

(** What the touchpad can do. *)
Record Capabilities := mkCapabilities {
  passthru : bool;
  ledpresent : bool;
  _reportsv : bool;
  clickpadtype : Z;
  _extendedwmode : bool;
  _extendedwmodeSupported : bool;
}.
#[export] Instance Capabilities_eta : Settable Capabilities := mkSettable _ (fun r =>
  mkCapabilities (passthru r) (ledpresent r) (_reportsv r) (clickpadtype r) (_extendedwmode r)
    (_extendedwmodeSupported r)).

(** State of the middle button machine. *)
Record Middle := mkMiddle {
  _mbuttonstate : mbuttonstate;
  _pendingbuttons : Z;
  _buttontime : Z;
}.
#[export] Instance Middle_eta : Settable Middle := mkSettable _ (fun r =>
  mkMiddle (_mbuttonstate r) (_pendingbuttons r) (_buttontime r)).

(** State of momentum scrolling. *)
Record Momentum := mkMomentum {
  dy_history : SimpleAverage;
  time_history : SimpleAverage;
  momentumscrollinterval : Z;
  momentumscrollsum : Z;
  momentumscrollcurrent : Z;
  momentumscrollrest1 : Z;
  momentumscrollrest2 : Z;
}.
#[export] Instance Momentum_eta : Settable Momentum := mkSettable _ (fun r =>
  mkMomentum (dy_history r) (time_history r) (momentumscrollinterval r) (momentumscrollsum r)
    (momentumscrollcurrent r) (momentumscrollrest1 r) (momentumscrollrest2 r)).

(** State of the gestures. *)
Record Touch := mkTouch {
  touchmode : TouchMode;
  lastx : Z;
  lasty : Z;
  lastf : Z;
  lastbuttons : Z;
  ignoredeltas : Z;
  xrest : Z;
  yrest : Z;
  scrollrest : Z;
  touchx : Z;
  touchy : Z;
  touchtime : Z;
  untouchtime : Z;
  wasdouble : bool;
  wastriple : bool;
  draglocktemp : Z;
  inSwipeLeft : bool;
  inSwipeRight : bool;
  inSwipeUp : bool;
  inSwipeDown : bool;
  xmoved : Z;
  ymoved : Z;
}.
#[export] Instance Touch_eta : Settable Touch := mkSettable _ (fun r =>
  mkTouch (touchmode r) (lastx r) (lasty r) (lastf r) (lastbuttons r) (ignoredeltas r) (xrest r) (yrest r)
    (scrollrest r) (touchx r) (touchy r) (touchtime r) (untouchtime r) (wasdouble r) (wastriple r)
    (draglocktemp r) (inSwipeLeft r) (inSwipeRight r) (inSwipeUp r) (inSwipeDown r) (xmoved r) (ymoved r)).

(** Buttons under the pad, and the second finger. *)
Record Click := mkClick {
  _clickbuttons : Z;
  clickedprimary : bool;
  lastx2 : Z;
  lasty2 : Z;
  tracksecondary : bool;
  xrest2 : Z;
  yrest2 : Z;
  thinkpadButtonState : Z;
  thinkpadMiddleScrolled : bool;
  thinkpadMiddleButtonPressed : bool;
}.
#[export] Instance Click_eta : Settable Click := mkSettable _ (fun r =>
  mkClick (_clickbuttons r) (clickedprimary r) (lastx2 r) (lasty2 r) (tracksecondary r) (xrest2 r) (yrest2 r)
    (thinkpadButtonState r) (thinkpadMiddleScrolled r) (thinkpadMiddleButtonPressed r)).

(** The filters of the coordinates. *)
Record Filters := mkFilters {
  x_avg : SimpleAverage;
  y_avg : SimpleAverage;
  x2_avg : SimpleAverage;
  y2_avg : SimpleAverage;
  x_undo : LastValue;
  y_undo : LastValue;
  x2_undo : LastValue;
  y2_undo : LastValue;
}.
#[export] Instance Filters_eta : Settable Filters := mkSettable _ (fun r =>
  mkFilters (x_avg r) (y_avg r) (x2_avg r) (y2_avg r) (x_undo r) (y_undo r) (x2_undo r) (y2_undo r)).

(** What the keyboard and the guest device report. *)
Record Input := mkInput {
  keytime : Z;
  ignoreall : bool;
  passbuttons : Z;
  _modifierdown : Z;
}.
#[export] Instance Input_eta : Settable Input := mkSettable _ (fun r =>
  mkInput (keytime r) (ignoreall r) (passbuttons r) (_modifierdown r)).

(** The driver. *)
Record ApplePS2SynapticsTouchPad := mkTouchPad {
  conf : Settings;
  life : Life;
  caps : Capabilities;
  mid : Middle;
  mom : Momentum;
  tch : Touch;
  clk : Click;
  flt : Filters;
  inp : Input;
}.
#[export] Instance ApplePS2SynapticsTouchPad_eta : Settable ApplePS2SynapticsTouchPad := mkSettable _ (fun r =>
  mkTouchPad (conf r) (life r) (caps r) (mid r) (mom r) (tch r) (clk r) (flt r) (inp r)).

Inductive Timer := ButtonTimer | ScrollTimer | DragTimer.

Inductive SEvent :=
| SPointer (dx dy buttons time : Z)           (* dispatchRelativePointerEvent *)
| SScroll (d1 d2 d3 time : Z)                 (* dispatchScrollWheelEvent *)
| SSetTimer (t : Timer) (ns : Z)
| SCancelTimer (t : Timer)
| SSubmitBlock (r : PS2Request)
| SSleep (ms : Z)
| SMessage (m : PS2Message) (time : Z)        (* _device->dispatchMessage *)
| STPDN (off : bool)                          (* _provider->evaluateObject(kTPDN, ...) *)
| STrackpadInfo (type major minor : Z)        (* the property RM,TrackpadInfo *)
| SSetProperty (key : string) (v : OSObject)
| SRegisterUSB
| SRegisterBluetooth
| SUnregisterUSB
| SUnregisterBluetooth
| SInstallInterruptAction
| SInstallPowerControlAction
| SUninstallInterruptAction
| SUninstallPowerControlAction.

Record SEnv := {
  uptime : nat -> Z;
  absolutetime_to_nanoseconds : Z -> Z;
  submit : list SEvent -> PS2Request -> PS2Request;   (* the request after the controller executed it *)
  getWorkLoop : bool;
  alloc_gate : bool;
  alloc_buttonTimer : bool;
  alloc_scrollTimer : bool;
  alloc_dragTimer : bool;
  has_TPDN : bool;                                    (* the ACPI device PS2M exists and has the method *)
  version_major : Z;
  version_minor : Z;
  bt : BluetoothConstants;
  hid : HIDConstants;
}.

Record SWorld := mkSWorld {
  pad : ApplePS2SynapticsTouchPad;
  ticks : nat;
  sevs : list SEvent;
}.
#[export] Instance SWorld_eta : Settable SWorld := mkSettable _ (fun w => mkSWorld (pad w) (ticks w) (sevs w)).

Section synaptics.
  Context (env : SEnv).
  Notation "'prog' A" := (M SWorld A) (at level 10, A at next level).

Definition semit (e : SEvent) : prog unit := modify (fun w => w <| sevs := sevs w ++ [e] |>).
Definition getp {A} (f : ApplePS2SynapticsTouchPad -> A) : prog A := gets (fun w => f (pad w)).
Definition setp (f : ApplePS2SynapticsTouchPad -> ApplePS2SynapticsTouchPad) : prog unit :=
  modify (fun w => w <| pad := f (pad w) |>).

Definition set_conf (f : Settings -> Settings) : prog unit := setp (fun p => p <| conf := f (conf p) |>).
Definition set_life (f : Life -> Life) : prog unit := setp (fun p => p <| life := f (life p) |>).
Definition set_caps (f : Capabilities -> Capabilities) : prog unit := setp (fun p => p <| caps := f (caps p) |>).
Definition set_mid (f : Middle -> Middle) : prog unit := setp (fun p => p <| mid := f (mid p) |>).
Definition set_mom (f : Momentum -> Momentum) : prog unit := setp (fun p => p <| mom := f (mom p) |>).
Definition set_tch (f : Touch -> Touch) : prog unit := setp (fun p => p <| tch := f (tch p) |>).
Definition set_clk (f : Click -> Click) : prog unit := setp (fun p => p <| clk := f (clk p) |>).
Definition set_flt (f : Filters -> Filters) : prog unit := setp (fun p => p <| flt := f (flt p) |>).
Definition set_inp (f : Input -> Input) : prog unit := setp (fun p => p <| inp := f (inp p) |>).

(** [/] and [%] on [int] and on [int64_t]: by zero and on overflow they are
    not defined. *)
Definition idiv (a b : Z) : prog Z :=
  if (b =? 0) || ((a =? -2147483648) && (b =? -1)) then undef else mret (Z.quot a b).
Definition imod (a b : Z) : prog Z :=
  if (b =? 0) || ((a =? -2147483648) && (b =? -1)) then undef else mret (Z.rem a b).
Definition ldiv (a b : Z) : prog Z :=
  if (b =? 0) || ((a =? -9223372036854775808) && (b =? -1)) then undef else mret (Z.quot a b).
Definition lmod (a b : Z) : prog Z :=
  if (b =? 0) || ((a =? -9223372036854775808) && (b =? -1)) then undef else mret (Z.rem a b).

Definition clock_get_uptime : prog Z :=
  fun w => Done (u64 (uptime env (ticks w)), w <| ticks := S (ticks w) |>).

Definition dispatchRelativePointerEventX (dx dy buttons now : Z) : prog unit := semit (SPointer dx dy buttons now).
Definition dispatchScrollWheelEventX (d1 d2 d3 now : Z) : prog unit :=
  semit (SScroll (s16 d1) (s16 d2) (s16 d3) now).

Definition has_timer (t : Timer) (l : Life) : bool :=
  match t with ButtonTimer => _buttonTimer l | ScrollTimer => scrollTimer l | DragTimer => dragTimer l end.

(** A timer may not exist. *)
Definition setTimerTimeout (t : Timer) (ns : Z) : prog unit :=
  l ← getp life; if has_timer t l then semit (SSetTimer t ns) else undef.
Definition cancelTimer (t : Timer) : prog unit :=
  l ← getp life; if has_timer t l then semit (SCancelTimer t) else undef.

Definition setProperty (key : string) (v : OSObject) : prog unit := semit (SSetProperty key v).

(** [_device->submitRequestAndBlock(&request)] *)
Definition submitRequestAndBlock (r : PS2Request) : prog PS2Request :=
  l ← getp life;
  if _device l then evs ← gets sevs; semit (SSubmitBlock r);; mret (submit env evs r) else undef.

(** [request.commands[i].inOrOut] *)
Definition result (r : PS2Request) (i : Z) : prog Z :=
  c ← lift (aget (commands r) i); mret (inOrOut c).

(** ** Requests *)

Definition enable_request (enable : bool) : PS2Request :=
  stack_request [mouse_command (if enable then kDP_Enable else kDP_SetDefaultsAndDisable)].
Definition setTouchPadEnable (enable : bool) : prog unit := submitRequestAndBlock (enable_request enable);; mret tt.

Definition status_request : PS2Request :=
  stack_request ([mouse_command kDP_SetDefaultsAndDisable; mouse_command kDP_GetMouseInformation;
    read_byte; read_byte; read_byte; mouse_command kDP_SetDefaultsAndDisable]).
Definition getTouchPadStatus : prog (option (Z * Z * Z)) :=
  r ← submitRequestAndBlock status_request;
  if negb (6 =? commandsCount r) then mret None
  else b0 ← result r 2; b1 ← result r 3; b2 ← result r 4; mret (Some (b0, b1, b2)).

Definition getTouchPadData (dataSelector : Z) : prog (option (Z * Z * Z)) :=
  r ← submitRequestAndBlock (data_request dataSelector);
  if negb (14 =? commandsCount r) then mret None
  else b0 ← result r 10; b1 ← result r 11; b2 ← result r 12; mret (Some (b0, b1, b2)).

Definition hwreset_request (delay : Z) : PS2Request :=
  stack_request ([mouse_command kDP_SetDefaultsAndDisable; mouse_command kDP_SetDefaultsAndDisable] ++
    to_mouse kDP_Reset ++ [read_ack; mkCommand kPS2C_SleepMS (u32 (delay * 2));
    cmd kPS2C_ReadMouseDataPortAndCompare 0xAA; cmd kPS2C_ReadMouseDataPortAndCompare 0x00]).
Definition doHardwareReset : prog unit :=
  c ← getp conf; submitRequestAndBlock (hwreset_request (wakedelay c));; mret tt.

Definition setTouchpadLED (touchLED : Z) : prog bool :=
  r ← submitRequestAndBlock (led_request touchLED); mret (12 =? commandsCount r).

Definition updateTouchpadLED : prog unit :=
  p ← getp id;
  (if ledpresent (caps p) && negb (noled (conf p))
   then setTouchpadLED (if ignoreall (inp p) then 0x88 else 0x10);; mret tt else mret tt);;
  when (_provider (life p)) (semit (STPDN (ignoreall (inp p)))).

(** The mode byte, two bits at a time, up to the sample rate that commits it. *)
Definition mode_bits (modeByteValue : Z) : list PS2Command :=
  map mouse_command [kDP_SetDefaultsAndDisable; kDP_SetDefaultsAndDisable; kDP_SetMouseScaling1To1; kDP_SetMouseScaling1To1] ++
  send_bits modeByteValue ++
  map mouse_command [kDP_SetMouseSampleRate; 20; kDP_SetMouseScaling1To1].

(** The request of [setTouchPadModeByte(UInt8)], with the undocumented commit. *)
Definition final_init_request (modeByteValue : Z) : PS2Request :=
  stack_request (mode_bits modeByteValue ++
    map mouse_command [kDP_SetMouseScaling1To1; kDP_SetMouseResolution; 0x0; kDP_SetMouseResolution; 0x0;
      kDP_SetMouseResolution; 0x0; kDP_SetMouseResolution; 0x3; kDP_SetMouseSampleRate; 200; kDP_Enable]).

Definition setTouchPadModeByte_value (modeByteValue : Z) : prog bool :=
  l ← getp life;
  if negb (_device l) then mret false
  else r ← submitRequestAndBlock (final_init_request modeByteValue); mret (27 =? commandsCount r).

(** Bit 2 of the mode byte, extended W mode. *)
Definition with_ew (b : bool) (mode : Z) : Z := if b then Z.lor mode 4 else clear mode 4.

Definition setTouchpadModeByte : prog bool :=
  p ← getp id;
  (if negb (_dynamicEW (conf p)) then
     set_life (fun l => l <| _touchPadModeByte := with_ew (_extendedwmodeSupported (caps p)) (_touchPadModeByte l) |>);;
     set_caps (fun c => c <| _extendedwmode := _extendedwmodeSupported c |>)
   else mret tt);;
  l ← getp life;
  setTouchPadModeByte_value (_touchPadModeByte l).

(** [setModeByte(UInt8)] *)
Definition mode_request (modeByteValue : Z) : PS2Request :=
  stack_request (mode_bits modeByteValue ++ [mouse_command kDP_Enable]).
Definition setModeByte_value (modeByteValue : Z) : prog bool :=
  l ← getp life;
  if negb (_device l) then mret false
  else r ← submitRequestAndBlock (mode_request modeByteValue); mret (16 =? commandsCount r).

Definition setModeByte : prog bool :=
  p ← getp id;
  if negb (_dynamicEW (conf p)) || negb (_extendedwmodeSupported (caps p)) then mret false
  else
    let clicked := negb (_clickbuttons (clk p) =? 0) in
    set_life (fun l => l <| _touchPadModeByte := with_ew clicked (_touchPadModeByte l) |>);;
    set_caps (fun c => c <| _extendedwmode := clicked |>);;
    l ← getp life;
    setModeByte_value (_touchPadModeByte l).

Definition setClickButtons (clickButtons : Z) : prog unit :=
  k ← getp clk;
  set_clk (fun k => k <| _clickbuttons := clickButtons |>);;
  if negb (Bool.eqb (negb (_clickbuttons k =? 0)) (negb (clickButtons =? 0))) then setModeByte;; mret tt else mret tt.

(** ** Capabilities *)

Definition queryCapabilities : prog unit :=
  r2 ← getTouchPadData 0x2;
  let '(b0, b2) := match r2 with
    | Some (b0, _, b2) => if anyset b0 0x80 then (b0, b2) else (0, 0) | None => (0, 0) end in
  let nExtendedQueries := Z.shiftr (Z.land b0 0x70) 4 in
  let supportsEW := anyset b2 0x20 in
  c ← getp conf;
  (if negb (skippassthru c) then
     r1 ← getTouchPadData 0x1;
     let passthru1 := match r1 with Some (b0, _, _) => Z.testbit b0 0 | None => false end in
     set_caps (fun k => k <| passthru := passthru1 && Z.testbit b2 7 |>)
   else mret tt);;
  when (forcepassthru c) (set_caps (fun k => k <| passthru := true |>));;
  l ← getp life;
  (if 0x46 =? _touchPadType l then set_caps (fun k => k <| ledpresent := true |>)
   else if nExtendedQueries >=? 1 then
     r9 ← getTouchPadData 0x9;
     match r9 with Some (b0, _, _) => set_caps (fun k => k <| ledpresent := Z.testbit b0 6 |>) | None => mret tt end
   else mret tt);;
  (if nExtendedQueries >=? 4 then
     rc ← getTouchPadData 0xC;
     match rc with
     | Some (b0, b1, _) =>
         let type := Z.lor (Z.shiftr (Z.land b0 0x10) 4) (Z.shiftl (Z.land b1 0x01) 1) in
         set_caps (fun k => k <| clickpadtype := type |> <| _reportsv := Z.testbit b1 3 |>);;
         when (supportsEW && negb (type =? 0)) (set_caps (fun k => k <| _extendedwmodeSupported := true |>))
     | None => mret tt
     end
   else mret tt);;
  if (xupmm c <? 0) || (yupmm c <? 0) then
    r8 ← getTouchPadData 0x8;
    match r8 with
    | Some (b0, b1, b2) =>
        when (anyset b1 0x80 && negb (b0 =? 0) && negb (b2 =? 0))
          (set_conf (fun c => c <| xupmm := if xupmm c <? 0 then b0 else xupmm c |>
                                <| yupmm := if yupmm c <? 0 then b2 else yupmm c |>))
    | None => mret tt
    end
  else mret tt.

(** ** Interrupt time *)

(** Size of [_ringBuffer], 32 packets. *)
Definition ringSize : Z := kPacketLength * 32.

(** A packet for the driver itself: 0x00 and a reason. *)
Definition push_reason (reason : Z) : prog unit :=
  l ← getp life;
  rb ← lift (head_set (_ringBuffer l) 0 0x00);
  rb ← lift (head_set rb 1 reason);
  set_life (fun l => l <| _ringBuffer := advanceHead ringSize rb kPacketLength |>).

Definition interruptOccurred (data : Z) : prog PS2InterruptResult :=
  l ← getp life;
  if (kSC_Reset =? _lastdata l) && (0x00 =? data) then
    push_reason kSC_Reset;;
    set_life (fun l => l <| _packetByteCount := 0 |>);;
    mret kPS2IR_packetReady
  else
    set_life (fun l => l <| _lastdata := data |>);;
    if (0 =? _packetByteCount l) && negb (Z.land data 0xc8 =? 0x80) then
      push_reason 0;; mret kPS2IR_packetReady
    else if (3 =? _packetByteCount l) && negb (Z.land data 0xc8 =? 0xc0) then
      push_reason 3;;
      set_life (fun l => l <| _packetByteCount := 0 |>);;
      mret kPS2IR_packetReady
    else
      rb ← lift (head_set (_ringBuffer l) (_packetByteCount l) data);
      let count := u32 (_packetByteCount l + 1) in
      set_life (fun l => l <| _ringBuffer := rb |> <| _packetByteCount := count |>);;
      if kPacketLength =? count then
        set_life (fun l => l <| _ringBuffer := advanceHead ringSize (_ringBuffer l) kPacketLength |> <| _packetByteCount := 0 |>);;
        mret kPS2IR_packetReady
      else mret kPS2IR_packetBuffering.

(** ** The middle button *)

Definition middle_step (p : ApplePS2SynapticsTouchPad) (buttons now_abs now_ns : Z) (from : MBComingFrom) (timeout : bool) : prog unit :=
  let pending := _pendingbuttons (mid p) in
  let state s := set_mid (fun m => m <| _mbuttonstate := s |>) in
  let delay s :=
    set_mid (fun m => m <| _pendingbuttons := buttons |> <| _buttontime := now_ns |>);;
    setTimerTimeout ButtonTimer (_maxmiddleclicktime (conf p));; state s in
  let settle s := set_mid (fun m => m <| _pendingbuttons := 0 |>);; cancelTimer ButtonTimer;; state s in
  let flush (b : bool) :=
    when b (dispatchRelativePointerEventX 0 0 (Z.lor buttons pending) now_abs);;
    settle (if 0x0 =? buttons then STATE_NOBUTTONS else STATE_NOOP) in
  match _mbuttonstate (mid p) with
  | STATE_NOBUTTONS =>
      if bool_decide (fromCancel = from) then mret tt
      else if anyset buttons 0x4 then state STATE_NOOP
      else if 0x3 =? buttons then state STATE_MIDDLE
      else if negb (0x0 =? buttons) then delay STATE_WAIT4TWO
      else mret tt
  | STATE_WAIT4TWO =>
      if negb timeout && (0x3 =? buttons) then settle STATE_MIDDLE
      else if timeout || negb (buttons =? pending) then
        flush (bool_decide (fromTimer = from) || negb (anyset buttons pending))
      else mret tt
  | STATE_MIDDLE =>
      if 0x0 =? buttons then state STATE_NOBUTTONS
      else if negb (0x3 =? Z.land buttons 0x3) then delay STATE_WAIT4NONE
      else mret tt
  | STATE_WAIT4NONE =>
      if negb timeout && (0x0 =? buttons) then settle STATE_NOBUTTONS
      else if timeout || negb (buttons =? pending) then flush (bool_decide (fromTimer = from))
      else mret tt
  | STATE_NOOP => if 0x0 =? buttons then state STATE_NOBUTTONS else mret tt
  end.

Definition middleButton (buttons now_abs : Z) (from : MBComingFrom) : prog Z :=
  p ← getp id;
  if negb (_fakemiddlebutton (conf p)) || (_buttonCount (conf p) <=? 2) ||
     (ignoreall (inp p) && bool_decide (fromTrackpad = from)) then mret buttons
  else
    let now_ns := absolutetime_to_nanoseconds env now_abs in
    let timeout := bool_decide (fromTimer = from) || bool_decide (fromCancel = from) ||
      (u64 (now_ns - _buttontime (mid p)) >? _maxmiddleclicktime (conf p)) in
    middle_step p buttons now_abs now_ns from timeout;;
    m ← getp mid;
    mret (middle_report (_mbuttonstate m) buttons).

Definition onButtonTimer : prog unit :=
  now_abs ← clock_get_uptime;
  t ← getp tch;
  middleButton (lastbuttons t) now_abs fromTimer;;
  mret tt.

(** ** Timers *)

Definition onScrollTimer : prog unit :=
  p ← getp id;
  let m := mom p in let c := conf p in
  if momentumscrollcurrent m =? 0 then mret tt
  else
    now_abs ← clock_get_uptime;
    q ← ldiv (momentumscrollcurrent m) (s64 (momentumscrollinterval m));
    let dy := s32 (s64 (q + momentumscrollrest2 m)) in
    if iabs dy >? momentumscrollthreshy c then
      d ← (if wvdivisor c =? 0 then mret 0 else idiv dy (wvdivisor c));
      dispatchScrollWheelEventX d 0 0 now_abs;;
      rest2 ← (if wvdivisor c =? 0 then mret 0 else imod dy (wvdivisor c));
      let current := s64 (momentumscrollcurrent m * momentumscrollmultiplier c + momentumscrollrest1 m) in
      rest1 ← lmod current (momentumscrolldivisor c);
      current ← ldiv current (momentumscrolldivisor c);
      set_mom (fun m => m <| momentumscrollrest2 := rest2 |> <| momentumscrollrest1 := rest1 |> <| momentumscrollcurrent := current |>);;
      setTimerTimeout ScrollTimer (momentumscrolltimer c)
    else set_mom (fun m => m <| momentumscrollcurrent := 0 |>).

Definition onDragTimer : prog unit :=
  set_tch (fun t => t <| touchmode := MODE_NOTOUCH |>);;
  now_abs ← clock_get_uptime;
  t ← getp tch;
  buttons ← middleButton (lastbuttons t) now_abs fromPassthru;
  c ← getp conf;
  if isthinkpad c && mousemiddlescroll c && (buttons =? 4) then mret tt
  else dispatchRelativePointerEventX 0 0 buttons now_abs.

(** ** Packets *)

Definition isTouchMode (m : TouchMode) : bool := Z.odd (mode_value m).
Definition isInDisableZone (c : Settings) (x y : Z) : bool :=
  (x >? diszl c) && (x <? diszr c) && (y >? diszb c) && (y <? diszt c).
Definition isInRightClickZone (c : Settings) (x y : Z) : bool :=
  (x >? rczl c) && (x <? rczr c) && (y >? rczb c) && (y <? rczt c).
Definition isInLeftClickZone (c : Settings) (x y : Z) : bool :=
  (x <=? rczl c) && (x <=? rczr c) && (y >? rczb c) && (y <? rczt c).
Definition isFingerTouch (c : Settings) (z : Z) : bool := (z >? z_finger c) && (z <? zlimit c).

(** The six bytes, of type [UInt8]. *)
Definition packet_byte (packet : list Z) (i : Z) : prog Z := b ← lift (aget packet i); mret (u8 b).

(** Scaling to the axis with the higher resolution. *)
Definition scale (xraw yraw : Z) : prog (Z * Z) :=
  c ← getp conf;
  if xupmm c <? yupmm c then x ← idiv (s32 (xraw * yupmm c)) (xupmm c); mret (x, yraw)
  else if xupmm c >? yupmm c then y ← idiv (s32 (yraw * xupmm c)) (yupmm c); mret (xraw, y)
  else mret (xraw, yraw).

(** A filter of five samples: its result, and the filter. *)
Definition smooth_one (a : SimpleAverage) (x : Z) : prog (Z * SimpleAverage) := lift (average_filter 5 s32 a x).
(** [UndecayAverage<int, int64_t, 1, 1, 2>] *)
Definition undo_one (f : LastValue) (x : Z) : Z * LastValue := undecay_filter 1 1 2 s32 s64 f x.

(** Unsmoothing and smoothing of the primary finger. *)
Definition filter_primary (x y : Z) : prog (Z * Z) :=
  c ← getp conf;
  '(x, y) ← (if unsmoothinput c then
      f ← getp flt;
      let '(x, fx) := undo_one (x_undo f) x in
      let '(y, fy) := undo_one (y_undo f) y in
      set_flt (fun f => f <| x_undo := fx |> <| y_undo := fy |>);; mret (x, y)
    else mret (x, y));
  if smoothinput c then
    f ← getp flt;
    '(x, ax) ← smooth_one (x_avg f) x;
    '(y, ay) ← smooth_one (y_avg f) y;
    set_flt (fun f => f <| x_avg := ax |> <| y_avg := ay |>);; mret (x, y)
  else mret (x, y).

Definition filter_secondary (x y : Z) : prog (Z * Z) :=
  c ← getp conf;
  '(x, y) ← (if unsmoothinput c then
      f ← getp flt;
      let '(x, fx) := undo_one (x2_undo f) x in
      let '(y, fy) := undo_one (y2_undo f) y in
      set_flt (fun f => f <| x2_undo := fx |> <| y2_undo := fy |>);; mret (x, y)
    else mret (x, y));
  if smoothinput c then
    f ← getp flt;
    '(x, ax) ← smooth_one (x2_avg f) x;
    '(y, ay) ← smooth_one (y2_avg f) y;
    set_flt (fun f => f <| x2_avg := ax |> <| y2_avg := ay |>);; mret (x, y)
  else mret (x, y).

Definition reset_primary (f : Filters) : Filters :=
  f <| x_undo := last_reset (x_undo f) |> <| y_undo := last_reset (y_undo f) |>
    <| x_avg := average_reset (x_avg f) |> <| y_avg := average_reset (y_avg f) |>.
Definition reset_secondary (f : Filters) : Filters :=
  f <| x2_undo := last_reset (x2_undo f) |> <| y2_undo := last_reset (y2_undo f) |>
    <| x2_avg := average_reset (x2_avg f) |> <| y2_avg := average_reset (y2_avg f) |>.

(** The physical buttons of a ThinkPad, hidden in the coordinates: the click
    buttons and the buttons. *)
Definition thinkpad_buttons (p3 p4 p5 buttons : Z) : prog (Z * Z) :=
  let bp := Z.land p3 0x3 in let lb := Z.land p4 0x3 in let rb := Z.land p5 0x3 in
  if bp =? 2 then
    let clickbuttons := if lb =? 1 then 0x1 else if rb =? 1 then 0x2 else if lb =? 2 then 0x4 else 0x0 in
    set_clk (fun k => k <| thinkpadButtonState := clickbuttons |>);;
    setClickButtons clickbuttons;;
    mret (clickbuttons, clickbuttons)
  else mret (bp, buttons).

(** The end of both click pad sections: an unclicked pad, a ThinkPad's state,
    and the merged buttons. *)
Definition merge_click (clickbuttons buttons : Z) : prog Z :=
  when (clickbuttons =? 0) (setClickButtons 0);;
  c ← getp conf;
  k ← getp clk;
  when (isthinkpad c && negb (thinkpadButtonState k =? 0))
    (set_clk (fun k => k <| _clickbuttons := thinkpadButtonState k |>));;
  k ← getp clk;
  mret (Z.lor buttons (_clickbuttons k)).

(** Typing was recent. *)
Definition typing (c : Settings) (i : Input) (now_ns : Z) : bool := u64 (now_ns - keytime i) <? maxaftertyping c.

(** "OutsidezoneNoAction When Typing" *)
Definition outside_zone (c : Settings) (i : Input) (x y z now_ns : Z) : bool :=
  outzone_wt c && (z >? z_finger c) && typing c i now_ns &&
  ((x <? zonel c) || (x >? zoner c) || (y <? zoneb c) || (y >? zonet c)).

(** Deltas of a finger, with what the divisors leave over. *)
Definition bogus (c : Settings) (dx dy : Z) : bool := (iabs dx >? bogusdxthresh c) || (iabs dy >? bogusdythresh c).

(** *** Extended W mode: the second finger *)

(** Both fingers move the pointer while the pad is held down. *)
Definition track_secondary (x y buttons now_abs : Z) : prog unit :=
  p ← getp id;
  let k := clk p in let c := conf p in
  if tracksecondary k then
    let dx := s32 (x - lastx2 k + xrest2 k) in
    let dy := s32 (lasty2 k - y + yrest2 k) in
    rx ← imod dx (divisorx c);
    ry ← imod dy (divisory c);
    set_clk (fun k => k <| xrest2 := rx |> <| yrest2 := ry |>);;
    '(dx, dy) ← (if bogus c dx dy then set_tch (fun t => t <| xrest := 0 |> <| yrest := 0 |>);; mret (0, 0) else mret (dx, dy));
    let all := Z.lor buttons (_clickbuttons k) in
    if isthinkpad c && mousemiddlescroll c && (all =? 4) then mret tt
    else
      qx ← idiv dx (divisorx c);
      qy ← idiv dy (divisory c);
      dispatchRelativePointerEventX qx qy all now_abs
  else mret tt.

(** The click pad section for the second finger. *)
Definition click_secondary (p3 p4 p5 x y buttons now_ns : Z) : prog Z :=
  c ← getp conf;
  '(clickbuttons, buttons) ← (if isthinkpad c then thinkpad_buttons p3 p4 p5 buttons else mret (Z.land p3 0x3, buttons));
  p ← getp id;
  clickbuttons ← (if (_clickbuttons (clk p) =? 0) && negb (clickbuttons =? 0) then
      let clickbuttons := if isInRightClickZone c x y ||
          ((u64 (now_ns - touchtime (tch p)) <? clickpadclicktime c) || bool_decide (MODE_NOTOUCH = touchmode (tch p)))
        then 0x2 else clickbuttons in
      setClickButtons clickbuttons;;
      set_clk (fun k => k <| clickedprimary := false |>);;
      mret clickbuttons
    else mret clickbuttons);
  merge_click clickbuttons buttons.

(** The coordinates and the pressure of the second finger, in half the resolution. *)
Definition packet2_x (p1 p4 : Z) : Z := Z.lor (Z.shiftl p1 1) (Z.shiftl (Z.land p4 0x0F) 9).
Definition packet2_y (p2 p4 : Z) : Z := Z.lor (Z.shiftl p2 1) (Z.shiftl (Z.land p4 0xF0) 5).
Definition packet2_z (p3 p5 : Z) : Z := Z.lor (Z.shiftl (Z.land p5 0x0F) 1) (Z.shiftl (Z.land p3 0x30) 1).

Definition dispatchEventsWithPacketEW (packet : list Z) : prog unit :=
  i ← getp inp;
  if ignoreall i then mret tt
  else
    p0 ← packet_byte packet 0; p1 ← packet_byte packet 1; p2 ← packet_byte packet 2;
    p3 ← packet_byte packet 3; p4 ← packet_byte packet 4; p5 ← packet_byte packet 5;
    if negb (1 =? Z.shiftr p5 4) then mret tt
    else
      let buttons := Z.land p0 0x03 in
      '(xraw, yraw) ← scale (packet2_x p1 p4) (packet2_y p2 p4);
      let z := packet2_z p3 p5 in
      c ← getp conf;
      if negb (isFingerTouch c z) then mret tt
      else
        k ← getp caps;
        let '(xraw, yraw, z) := if _reportsv k then (clear xraw 0x2, clear yraw 0x2, clear z 0x2) else (xraw, yraw, z) in
        now_abs ← clock_get_uptime;
        let now_ns := absolutetime_to_nanoseconds env now_abs in
        let buttons := Z.lor buttons (passbuttons i) in
        kk ← getp clk;
        (if negb (tracksecondary kk) then
           set_flt reset_secondary;; set_clk (fun k => k <| xrest2 := 0 |> <| yrest2 := 0 |>)
         else mret tt);;
        '(x, y) ← filter_secondary xraw yraw;
        if outside_zone c i x y z now_ns then mret tt
        else
          kk ← getp clk;
          (if (clickpadtrackboth c || clickedprimary kk) && negb (_clickbuttons kk =? 0)
           then track_secondary x y buttons now_abs
           else
             buttons ← (if negb (clickpadtype k =? 0) then click_secondary p3 p4 p5 x y buttons now_ns else mret buttons);
             if isthinkpad c && mousemiddlescroll c && (buttons =? 4) then mret tt
             else dispatchRelativePointerEventX 0 0 buttons now_abs);;
          set_clk (fun k => k <| lastx2 := x |> <| lasty2 := y |> <| tracksecondary := true |>).

(** *** Packets of the guest device *)

Definition passthru_packet (p0 p1 p3 p4 p5 buttons now_abs : Z) : prog unit :=
  p ← getp id;
  let c := conf p in let k := clk p in
  let combinedButtons := Z.lor (Z.lor (Z.lor buttons (Z.lor (Z.land p0 0x3) (Z.land p3 0x3))) (_clickbuttons k)) (thinkpadButtonState k) in
  let dx := s32 (Z.lor (if anyset p1 0x10 then 0xffffff00 else 0) p4) in
  let dy := s32 (Z.lor (if anyset p1 0x20 then 0xffffff00 else 0) p5) in
  '(dx, dy) ← (if mousemiddlescroll c && (anyset p1 0x4 || (thinkpadButtonState k =? 4)) then
      when (negb (dx =? 0) || negb (dy =? 0)) (set_clk (fun k => k <| thinkpadMiddleScrolled := true |>));;
      let horizontal := iabs dx >? iabs dy in
      let scrollx := if horizontal then s32 (dx * mousescrollmultiplierx c) else 0 in
      let scrolly := if horizontal then 0 else s32 (dy * mousescrollmultipliery c) in
      let nub := isthinkpad c && thinkpadMiddleButtonPressed k in
      let scrolly := if nub then s32 (scrolly * thinkpadNubScrollYMultiplier c) else scrolly in
      let scrollx := if nub then s32 (scrollx * thinkpadNubScrollXMultiplier c) else scrollx in
      dispatchScrollWheelEventX scrolly (s32 (- scrollx)) 0 now_abs;;
      mret (0, 0)
    else mret (dx, dy));
  let dx := s32 (dx * mousemultiplierx c) in
  let dy := s32 (dy * mousemultipliery c) in
  if isthinkpad c then
    if mousemiddlescroll c && (combinedButtons =? 4) then
      set_clk (fun k => k <| thinkpadMiddleButtonPressed := true |>)
    else
      k ← getp clk;
      when (thinkpadMiddleButtonPressed k && negb (thinkpadMiddleScrolled k))
        (dispatchRelativePointerEventX dx (s32 (- dy)) 4 now_abs);;
      dispatchRelativePointerEventX dx (s32 (- dy)) combinedButtons now_abs;;
      set_clk (fun k => k <| thinkpadMiddleButtonPressed := false |> <| thinkpadMiddleScrolled := false |>)
  else dispatchRelativePointerEventX dx (s32 (- dy)) combinedButtons now_abs.

(** *** Fingers on the pad *)

(** The click pad section for the first finger. *)
Definition click_primary (p3 p4 p5 x y z w buttons now_ns : Z) : prog Z :=
  c ← getp conf;
  '(clickbuttons, buttons) ← (if isthinkpad c then thinkpad_buttons p3 p4 p5 buttons else mret (Z.land p3 0x3, buttons));
  p ← getp id;
  clickbuttons ← (if (_clickbuttons (clk p) =? 0) && negb (clickbuttons =? 0) then
      let primary := negb (bool_decide (MODE_MTOUCH = touchmode (tch p))) in
      set_clk (fun k => k <| clickedprimary := primary |>);;
      let second := _extendedwmode (caps p) && negb primary && tracksecondary (clk p) in
      let xx := if second then lastx2 (clk p) else x in
      let yy := if second then lasty2 (clk p) else y in
      let clickbuttons := if isFingerTouch c z &&
          (((rightclick_corner c =? 2) && isInRightClickZone c xx yy) || ((rightclick_corner c =? 1) && isInLeftClickZone c xx yy)
           || ((0 =? w) && ((u64 (now_ns - touchtime (tch p)) <? clickpadclicktime c) || bool_decide (MODE_NOTOUCH = touchmode (tch p)))))
        then 0x2 else clickbuttons in
      setClickButtons clickbuttons;;
      mret clickbuttons
    else mret clickbuttons);
  buttons ← merge_click clickbuttons buttons;
  set_tch (fun t => t <| lastbuttons := buttons |>);;
  mret buttons.

(** Double taps in the disable zone; is the packet used up? *)
Definition disable_zone (x y z w now_ns : Z) : prog bool :=
  p ← getp id;
  let c := conf p in let t := tch p in
  if ((0 =? diszctrl c) && ledpresent (caps p)) || (1 =? diszctrl c) then
    let touch := isFingerTouch c z in
    let narrow := (4 <=? w) && (w <=? 5) in
    let inside := isInDisableZone c x y in
    let mode m := set_tch (fun t => t <| touchmode := m |>) in
    match touchmode t with
    | MODE_NOTOUCH =>
        when (touch && narrow && inside) (set_tch (fun t => t <| touchtime := now_ns |>);; mode MODE_WAIT1RELEASE)
    | MODE_WAIT1RELEASE =>
        if z <? z_finger c then
          if u64 (now_ns - touchtime t) <? maxtaptime c
          then set_tch (fun t => t <| untouchtime := now_ns |>);; mode MODE_WAIT2TAP
          else mode MODE_NOTOUCH
        else when (negb inside) (mode MODE_NOTOUCH)
    | MODE_WAIT2TAP =>
        when touch
          (if inside && narrow then
             if u64 (now_ns - untouchtime t) <? maxdragtime c
             then set_tch (fun t => t <| touchtime := now_ns |>);; mode MODE_WAIT2RELEASE
             else mode MODE_NOTOUCH
           else mode MODE_NOTOUCH)
    | MODE_WAIT2RELEASE =>
        if z <? z_finger c then
          (if u64 (now_ns - touchtime t) <? maxtaptime c then
             set_inp (fun i => i <| ignoreall := negb (ignoreall i) |>);; updateTouchpadLED
           else mret tt);;
          mode MODE_NOTOUCH
        else when (negb inside) (mode MODE_NOTOUCH)
    | _ => mret tt
    end;;
    t ← getp tch;
    mret (mode_value MODE_WAIT1RELEASE <=? mode_value (touchmode t))
  else mret false.

(** Start of momentum scrolling, when two scrolling fingers lift. *)
Definition momentum_start : prog unit :=
  p ← getp id;
  let m := mom p in let c := conf p in
  if bool_decide (MODE_MTOUCH = touchmode (tch p)) && momentumscroll c && negb (momentumscrolltimer c =? 0) then
    if m_count (dy_history m) >? momentumscrollsamplesmin c then
      newest ← lift (average_newest (time_history m));
      oldest ← lift (average_oldest 32 (time_history m));
      let interval := u64 (newest - oldest) in
      set_mom (fun m => m <| momentumscrollinterval := interval |>);;
      if interval =? 0 then mret tt
      else
        let sum := m_sum (dy_history m) in
        set_mom (fun m => m <| momentumscrollsum := sum |>
          <| momentumscrollcurrent := s64 (u64 (momentumscrolltimer c * sum)) |>
          <| momentumscrollrest1 := 0 |> <| momentumscrollrest2 := 0 |>);;
        setTimerTimeout ScrollTimer (momentumscrolltimer c)
    else mret tt
  else mret tt.

Definition reset_history : prog unit :=
  set_mom (fun m => m <| time_history := average_reset (time_history m) |> <| dy_history := average_reset (dy_history m) |>).

(** The button of a tap, by the number of fingers. *)
Definition tap_button (c : Settings) (t : Touch) : Z :=
  if wastriple t && rtap c then if negb (swapdoubletriple c) then 0x4 else 0x02
  else if wasdouble t && rtap c then if negb (swapdoubletriple c) then 0x2 else 0x04
  else 0x1.

(** A short touch: a tap. *)
Definition tap (buttons now_abs : Z) : prog Z :=
  p ← getp id;
  let c := conf p in let t := tch p in
  let mode m := set_tch (fun t => t <| touchmode := m |>) in
  match touchmode t with
  | MODE_DRAG =>
      buttons ← (if negb (immediateclick c) then
          let buttons := clear buttons 0x7 in
          (if isthinkpad c && mousemiddlescroll c && (buttons =? 4) then mret tt
           else
             dispatchRelativePointerEventX 0 0 (Z.lor buttons 0x1) now_abs;;
             dispatchRelativePointerEventX 0 0 buttons now_abs);;
          mret buttons
        else mret buttons);
      mode MODE_NOTOUCH;;
      mret (Z.lor buttons (tap_button c t))
  | MODE_DRAGLOCK => mode MODE_NOTOUCH;; mret buttons
  | _ =>
      mode (if (wastriple t || wasdouble t) && rtap c then MODE_NOTOUCH else if dragging c then MODE_PREDRAG else MODE_NOTOUCH);;
      mret (Z.lor buttons (tap_button c t))
  end.

(** A long touch: the end of a drag, or nothing. *)
Definition long_touch : prog unit :=
  p ← getp id;
  let c := conf p in let t := tch p in
  if (bool_decide (touchmode t = MODE_DRAG) || bool_decide (touchmode t = MODE_DRAGLOCK)) &&
     (draglock c || negb (draglocktemp t =? 0) || (dragTimer (life p) && negb (dragexitdelay c =? 0))) then
    set_tch (fun t => t <| touchmode := MODE_DRAGNOTOUCH |>);;
    when (negb (draglock c) && (draglocktemp t =? 0))
      (cancelTimer DragTimer;; setTimerTimeout DragTimer (dragexitdelay c))
  else set_tch (fun t => t <| touchmode := MODE_NOTOUCH |> <| draglocktemp := 0 |>).

(** The fingers lift: the buttons. *)
Definition lift_fingers (z buttons now_abs now_ns : Z) : prog Z :=
  p ← getp id;
  let c := conf p in
  if (z <? z_finger c) && isTouchMode (touchmode (tch p)) then
    set_tch (fun t => t <| xrest := 0 |> <| yrest := 0 |> <| scrollrest := 0 |>
      <| inSwipeLeft := false |> <| inSwipeRight := false |> <| inSwipeUp := false |> <| inSwipeDown := false |>
      <| xmoved := 0 |> <| ymoved := 0 |> <| untouchtime := now_ns |>);;
    set_clk (fun k => k <| tracksecondary := false |>);;
    momentum_start;;
    reset_history;;
    buttons ← (if (u64 (now_ns - touchtime (tch p)) <? maxtaptime c) && clicking c then tap buttons now_abs
               else long_touch;; mret buttons);
    set_tch (fun t => t <| wasdouble := false |> <| wastriple := false |>);;
    mret buttons
  else mret buttons.

(** A second tap that comes too late, and a finger that moves too far. *)
Definition cancel_taps (xraw yraw z now_ns : Z) : prog unit :=
  p ← getp id;
  let c := conf p in
  when (bool_decide (touchmode (tch p) = MODE_PREDRAG) && (u64 (now_ns - untouchtime (tch p)) >=? maxdragtime c))
    (set_tch (fun t => t <| touchmode := MODE_NOTOUCH |>));;
  t ← getp tch;
  if isTouchMode (touchmode t) && isFingerTouch c z then
    let dx := if xraw >? touchx t then s32 (xraw - touchx t) else s32 (touchx t - xraw) in
    let dy := if yraw >? touchy t then s32 (yraw - touchy t) else s32 (touchy t - yraw) in
    when ((negb (wasdouble t) && negb (wastriple t) && ((dx >? tapthreshx c) || (dy >? tapthreshy c)))
          || ((dx >? dblthreshx c) || (dy >? dblthreshy c)))
      (set_tch (fun t => t <| touchtime := 0 |>))
  else mret tt.

(** The motion of one finger: the deltas, with what is left of the last ones. *)
Definition move_finger (x y : Z) : prog (Z * Z) :=
  p ← getp id;
  let c := conf p in let t := tch p in
  let dx := s32 (x - lastx t + xrest t) in
  let dy := s32 (lasty t - y + yrest t) in
  rx ← imod dx (divisorx c);
  ry ← imod dy (divisory c);
  if bogus c dx dy then set_tch (fun t => t <| xrest := 0 |> <| yrest := 0 |>);; mret (0, 0)
  else set_tch (fun t => t <| xrest := rx |> <| yrest := ry |>);; mret (dx, dy).

(** The history of a scroll, forgotten when it stops or changes direction. *)
Definition record_scroll (dy now_ns : Z) : prog unit :=
  m ← getp mom;
  newest ← lift (average_newest (dy_history m));
  when (negb (Bool.eqb (dy <? 0) (newest <? 0)) || (dy =? 0)) reset_history;;
  m ← getp mom;
  '(_, h) ← lift (average_filter 32 s32 (dy_history m) dy);
  '(_, th) ← lift (average_filter 32 u64 (time_history m) now_ns);
  set_mom (fun m => m <| dy_history := h |> <| time_history := th |>).

(** Two fingers scroll. *)
Definition scroll_fingers (x y z w f now_abs now_ns : Z) : prog (Z * Z) :=
  p ← getp id;
  let c := conf p in let t := tch p in
  if negb (lastf t =? f) then mret (0, 0)
  else if palm c && (z >? zlimit c) then mret (0, 0)
  else if negb (wsticky c) && (w <=? wlimit c) && (w >? 3) then
    reset_history;;
    set_clk (fun k => k <| clickedprimary := negb (_clickbuttons k =? 0) |> <| tracksecondary := false |>);;
    set_tch (fun t => t <| touchmode := MODE_MOVE |>);;
    mret (0, 0)
  else if palm_wt c && typing c (inp p) now_ns then mret (0, 0)
  else
    let vertical := negb (wvdivisor c =? 0) in
    let horizontal := negb (whdivisor c =? 0) && hscroll c in
    let dy := if vertical then s32 (y - lasty t + yrest t) else 0 in
    let dx := if horizontal then s32 (lastx t - x + xrest t) else 0 in
    ry ← (if vertical then imod dy (wvdivisor c) else mret 0);
    rx ← (if horizontal then imod dx (whdivisor c) else mret 0);
    set_tch (fun t => t <| yrest := ry |> <| xrest := rx |>);;
    record_scroll dy now_ns;;
    dx ← (if iabs dx <? scrolldxthresh c then set_tch (fun t => t <| xrest := dx |>);; mret 0 else mret dx);
    dy ← (if iabs dy <? scrolldythresh c then set_tch (fun t => t <| yrest := dy |>);; mret 0 else mret dy);
    if negb (0 =? dy) || negb (0 =? dx) then
      qy ← (if vertical then idiv dy (wvdivisor c) else mret 0);
      qx ← (if horizontal then idiv dx (whdivisor c) else mret 0);
      dispatchScrollWheelEventX qy qx 0 now_abs;;
      mret (0, 0)
    else mret (dx, dy).

(** Three fingers swipe. *)
Definition swipe (x y now_abs : Z) : prog unit :=
  set_tch (fun t => t <| xmoved := s32 (xmoved t + (lastx t - x)) |> <| ymoved := s32 (ymoved t + (y - lasty t)) |>);;
  p ← getp id;
  let c := conf p in let t := tch p in
  if (ymoved t >? swipedy c) && negb (inSwipeUp t) then
    set_tch (fun t => t <| inSwipeUp := true |> <| inSwipeDown := false |> <| ymoved := 0 |>);;
    semit (SMessage kPS2M_swipeUp now_abs)
  else if (ymoved t <? s32 (- swipedy c)) && negb (inSwipeDown t) then
    set_tch (fun t => t <| inSwipeDown := true |> <| inSwipeUp := false |> <| ymoved := 0 |>);;
    semit (SMessage kPS2M_swipeDown now_abs)
  else if (xmoved t <? s32 (- swipedx c)) && negb (inSwipeRight t) then
    set_tch (fun t => t <| inSwipeRight := true |> <| inSwipeLeft := false |> <| xmoved := 0 |>);;
    semit (SMessage kPS2M_swipeRight now_abs)
  else if (xmoved t >? swipedx c) && negb (inSwipeLeft t) then
    set_tch (fun t => t <| inSwipeLeft := true |> <| inSwipeRight := false |> <| xmoved := 0 |>);;
    semit (SMessage kPS2M_swipeLeft now_abs)
  else mret tt.

(** Several fingers; [w] tells how many. *)
Definition multi_touch (x y z w f now_abs now_ns : Z) : prog (Z * Z) :=
  p ← getp id;
  let c := conf p in
  if w =? 1 then swipe x y now_abs;; mret (0, 0)
  else if _extendedwmode (caps p) && (0 =? w) && negb (_clickbuttons (clk p) =? 0) then
    if (clickpadtrackboth c || negb (clickedprimary (clk p))) && (lastf (tch p) =? f) && (negb (palm c) || ((w <=? wlimit c) && (z <=? zlimit c)))
    then move_finger x y else mret (0, 0)
  else scroll_fingers x y z w f now_abs now_ns.

(** Scrolling at the edges and in circles: [d] is the movement along the scroll
    axis, [axes] the scroll event of a number of steps. *)
Definition edge_scroll (d divisor thresh now_abs : Z) (axes : Z -> Z * Z) : prog (Z * Z) :=
  r ← imod d divisor;
  set_tch (fun t => t <| scrollrest := r |>);;
  if iabs d <? thresh then set_tch (fun t => t <| scrollrest := d |>);; mret (0, 0)
  else if negb (d =? 0) then
    q ← idiv d divisor;
    dispatchScrollWheelEventX (axes q).1 (axes q).2 0 now_abs;;
    mret (0, 0)
  else mret (0, 0).

(** The [switch] on the mode of the touch: deltas and buttons. *)
Definition touch_motion (x y z w f buttons now_abs now_ns : Z) : prog (Z * Z * Z) :=
  p ← getp id;
  let c := conf p in let t := tch p in
  let quiet := palm_wt c && typing c (inp p) now_ns in
  let gone := (w >? wlimit c) || (z >? zlimit c) in
  let leave := set_tch (fun t => t <| touchmode := MODE_NOTOUCH |>);; mret (0, 0, buttons) in
  let deltas (m : prog (Z * Z)) (b : Z) := '(dx, dy) ← m; mret (dx, dy, b) in
  let moved (b : Z) (waiting : bool) :=
    if (lastf t =? f) && (negb (palm c) || ((w <=? wlimit c) && (z <=? zlimit c))) && negb waiting
    then deltas (move_finger x y) b else mret (0, 0, b) in
  match touchmode t with
  | MODE_DRAG =>
      moved (if negb (immediateclick c) || (u64 (now_ns - touchtime t) >? maxdbltaptime c) then Z.lor buttons 0x1 else buttons) false
  | MODE_DRAGLOCK => moved (Z.lor buttons 0x1) false
  | MODE_MOVE => moved buttons (clicking c && (u64 (now_ns - touchtime t) <? maxtaptime c))
  | MODE_MTOUCH => deltas (multi_touch x y z w f now_abs now_ns) buttons
  | MODE_VSCROLL =>
      if negb (vsticky c) && ((x <? redge c) || gone) then leave
      else if quiet then mret (0, 0, buttons)
      else deltas (edge_scroll (s32 (y - lasty t + scrollrest t)) (vscrolldivisor c) (scrolldythresh c) now_abs (fun q => (q, 0))) buttons
  | MODE_HSCROLL =>
      if negb (hsticky c) && ((y >? bedge c) || gone) then leave
      else if quiet then mret (0, 0, buttons)
      else deltas (edge_scroll (s32 (lastx t - x + scrollrest t)) (hscrolldivisor c) (scrolldxthresh c) now_abs (fun q => (0, q))) buttons
  | MODE_CSCROLL =>
      if quiet then mret (0, 0, buttons)
      else
        let dx := if y <? centery c then x - lastx t else lastx t - x in
        let dx := if x <? centerx c then dx + (lasty t - y) else dx + (y - lasty t) in
        deltas (edge_scroll (s32 (dx + scrollrest t)) (cscrolldivisor c) (scrolldxthresh c) now_abs (fun q => (q, 0))) buttons
  | MODE_DRAGNOTOUCH => mret (0, 0, Z.lor buttons 0x1)
  | MODE_PREDRAG => mret (0, 0, if negb (immediateclick c) && negb quiet then Z.lor buttons 0x1 else buttons)
  | _ => mret (0, 0, buttons)
  end.

(** The time of a touch, and the number of fingers it had. *)
Definition capture_touch (x y z w now_ns : Z) : prog unit :=
  p ← getp id;
  let c := conf p in let t := tch p in
  if isFingerTouch c z then
    (if (negb (palm_wt c) || negb (typing c (inp p) now_ns)) && (momentumscrollcurrent (mom p) =? 0) then
       when (negb (isTouchMode (touchmode t))) (set_tch (fun t => t <| touchtime := now_ns |> <| touchx := x |> <| touchy := y |>));;
       if 0 =? w then set_tch (fun t => t <| wasdouble := true |>)
       else when ((_buttonCount c >=? 3) && (1 =? w)) (set_tch (fun t => t <| wastriple := true |>))
     else mret tt);;
    set_mom (fun m => m <| momentumscrollcurrent := 0 |>)
  else mret tt.

(** Does a touch at [x], [y] start circular scrolling? *)
Definition circular_trigger (c : Settings) (x y : Z) : bool :=
  let n := ctrigger c in
  ((y >? tedge c) && ((n =? 1) || (n =? 9))) || ((y >? tedge c) && (x >? redge c) && (n =? 2)) ||
  ((x >? redge c) && ((n =? 3) || (n =? 9))) || ((x >? redge c) && (y <? bedge c) && (n =? 4)) ||
  ((y <? bedge c) && ((n =? 5) || (n =? 9))) || ((y <? bedge c) && (x <? ledge c) && (n =? 6)) ||
  ((x <? ledge c) && ((n =? 7) || (n =? 9))) || ((x <? ledge c) && (y >? tedge c) && (n =? 8)).

(** The changes of mode after a packet. *)
Definition switch_modes (x y z w : Z) : prog unit :=
  c ← getp conf;
  let touch := isFingerTouch c z in
  let mode m := set_tch (fun t => t <| touchmode := m |>) in
  t ← getp tch;
  i ← getp inp;
  when (bool_decide (touchmode t = MODE_PREDRAG) && touch)
    (set_tch (fun t => t <| touchmode := MODE_DRAG |> <| draglocktemp := Z.land (_modifierdown i) (draglocktempmask c) |>));;
  t ← getp tch;
  (if bool_decide (touchmode t = MODE_DRAGNOTOUCH) && touch then
     l ← getp life; when (dragTimer l) (cancelTimer DragTimer);; mode MODE_DRAGLOCK
   else mret tt);;
  t ← getp tch;
  when (negb (bool_decide (MODE_MTOUCH = touchmode t)) && ((w >? wlimit c) || (w <? 2)) && touch)
    (mode MODE_MTOUCH;; set_clk (fun k => k <| tracksecondary := false |>));;
  t ← getp tch;
  when (scroll c && negb (cscrolldivisor c =? 0) && bool_decide (touchmode t = MODE_NOTOUCH) && (z >? z_finger c) && circular_trigger c x y)
    (mode MODE_CSCROLL);;
  t ← getp tch;
  when ((bool_decide (MODE_NOTOUCH = touchmode t) || (bool_decide (MODE_HSCROLL = touchmode t) && (y >=? bedge c))) &&
        (z >? z_finger c) && (x >? redge c) && negb (vscrolldivisor c =? 0) && scroll c)
    (set_tch (fun t => t <| touchmode := MODE_VSCROLL |> <| scrollrest := 0 |>));;
  t ← getp tch;
  when ((bool_decide (MODE_NOTOUCH = touchmode t) || (bool_decide (MODE_VSCROLL = touchmode t) && (x <=? redge c))) &&
        (z >? z_finger c) && (y <? bedge c) && negb (hscrolldivisor c =? 0) && hscroll c && scroll c)
    (set_tch (fun t => t <| touchmode := MODE_HSCROLL |> <| scrollrest := 0 |>));;
  t ← getp tch;
  when (bool_decide (touchmode t = MODE_NOTOUCH) && (z >? z_finger c)) (mode MODE_MOVE).

(** The deltas and buttons of a packet; a ThinkPad delays the middle button. *)
Definition dispatch_motion (dx dy buttons now_abs : Z) : prog unit :=
  p ← getp id;
  let c := conf p in let k := clk p in
  let send (b : Z) := qx ← idiv dx (divisorx c); qy ← idiv dy (divisory c); dispatchRelativePointerEventX qx qy b now_abs in
  if negb (isthinkpad c) then send buttons
  else if mousemiddlescroll c && (buttons =? 4) then set_clk (fun k => k <| thinkpadMiddleButtonPressed := true |>)
  else
    (if thinkpadMiddleButtonPressed k then when (negb (thinkpadMiddleScrolled k)) (send 4) else send buttons);;
    set_clk (fun k => k <| thinkpadMiddleButtonPressed := false |> <| thinkpadMiddleScrolled := false |>).

(** Number of fingers. *)
Definition fingers (c : Settings) (z w : Z) : Z := if z >? z_finger c then if w >=? 4 then 1 else w + 2 else 0.

(** A change of the number of fingers. *)
Definition finger_change (f : Z) : prog unit :=
  p ← getp id;
  let last := lastf (tch p) in
  when ((last >? 0) && (f >? 0) && negb (last =? f)) (set_tch (fun t => t <| ignoredeltas := ignoredeltasstart (conf p) |>));;
  when (negb (last =? f)) (set_flt reset_primary).

(** Deltas are ignored for a while: the position is followed. *)
Definition ignore_deltas (x y : Z) : prog unit :=
  t ← getp tch;
  if negb (ignoredeltas t =? 0) then
    let n := s32 (ignoredeltas t - 1) in
    set_tch (fun t => t <| lastx := x |> <| lasty := y |> <| ignoredeltas := n |>);;
    when (n =? 0) (set_flt reset_primary)
  else mret tt.

(** The coordinates of an absolute packet. *)
Definition packet_x (p1 p3 p4 : Z) : Z := Z.lor (Z.lor p4 (Z.shiftl (Z.land p1 0x0f) 8)) (Z.shiftl (Z.land p3 0x10) 8).
Definition packet_y (p1 p3 p5 : Z) : Z := Z.lor (Z.lor p5 (Z.shiftl (Z.land p1 0xf0) 4)) (Z.shiftl (Z.land p3 0x20) 7).

Definition touchpad_packet (p1 p2 p3 p4 p5 w buttonsraw buttons now_abs now_ns : Z) : prog unit :=
  '(xraw, yraw) ← scale (packet_x p1 p3 p4) (packet_y p1 p3 p5);
  c ← getp conf;
  k ← getp caps;
  let f := fingers c p2 w in
  let '(xraw, yraw, z) := if _extendedwmode k && _reportsv k && (f >? 1)
    then (clear xraw 0x2, clear yraw 0x2, clear p2 0x1) else (xraw, yraw, p2) in
  p ← getp id;
  buttons ← (if (0 =? lastf (tch p)) && (f >? 0)
             then middleButton (Z.lor buttonsraw (passbuttons (inp p))) now_abs fromCancel else mret buttons);
  finger_change f;;
  '(x, y) ← filter_primary xraw yraw;
  ignore_deltas x y;;
  buttons ← (if negb (clickpadtype k =? 0) then click_primary p3 p4 p5 x y z w buttons now_ns else mret buttons);
  i ← getp inp;
  if outside_zone c i x y z now_ns then mret tt
  else
    used ← disable_zone x y z w now_ns;
    if used : bool then mret tt
    else
      i ← getp inp;
      if ignoreall i then mret tt
      else
        buttons ← lift_fingers z buttons now_abs now_ns;
        cancel_taps xraw yraw z now_ns;;
        '(dx, dy, buttons) ← touch_motion x y z w f buttons now_abs now_ns;
        capture_touch x y z w now_ns;;
        switch_modes x y z w;;
        dispatch_motion dx dy buttons now_abs;;
        set_tch (fun t => t <| lastx := x |> <| lasty := y |> <| lastf := f |>).

(** The W field of an absolute packet. *)
Definition packet_w (p0 p3 : Z) : Z :=
  Z.lor (Z.lor (Z.shiftr (Z.land p3 0x4) 2) (Z.shiftr (Z.land p0 0x4) 1)) (Z.shiftr (Z.land p0 0x30) 2).

Definition dispatchEventsWithPacket (packet : list Z) : prog unit :=
  now_abs ← clock_get_uptime;
  let now_ns := absolutetime_to_nanoseconds env now_abs in
  p0 ← packet_byte packet 0; p1 ← packet_byte packet 1; p2 ← packet_byte packet 2;
  p3 ← packet_byte packet 3; p4 ← packet_byte packet 4; p5 ← packet_byte packet 5;
  let w := packet_w p0 p3 in
  k ← getp caps;
  if _extendedwmode k && (2 =? w) then dispatchEventsWithPacketEW packet
  else
    let buttonsraw := Z.land p0 0x03 in
    when (passthru k && (3 =? w)) (set_inp (fun i => i <| passbuttons := Z.land p1 0x7 |>));;
    i ← getp inp;
    let buttons := Z.lor buttonsraw (passbuttons i) in
    set_tch (fun t => t <| lastbuttons := buttons |>);;
    buttons ← (if (clickpadtype k =? 0) || (3 =? w)
               then middleButton buttons now_abs (if 3 =? w then fromPassthru else fromTrackpad) else mret buttons);
    if passthru k && (3 =? w) then passthru_packet p0 p1 p3 p4 p5 buttons now_abs
    else touchpad_packet p1 p2 p3 p4 p5 w buttonsraw buttons now_abs now_ns.

(** [while (_ringBuffer.count() >= kPacketLength)]; at most [n] packets. *)
Fixpoint packetReady_loop (n : nat) : prog unit :=
  l ← getp life;
  if count ringSize (_ringBuffer l) >=? kPacketLength then
    match n with
    | O => nofuel
    | S n =>
        packet ← lift (tail_read (_ringBuffer l) 0 (Z.to_nat kPacketLength));
        p0 ← lift (aget packet 0);
        (if negb (0x00 =? p0) then dispatchEventsWithPacket packet else mret tt);;
        set_life (fun l => l <| _ringBuffer := advanceTail ringSize (_ringBuffer l) kPacketLength |>);;
        packetReady_loop n
    end
  else mret tt.

(** A ring of 32 packets holds at most 31. *)
Definition packetReady : prog unit := packetReady_loop 32.

(** ** Configuration *)

Definition setter := Settings -> Settings.

Definition int32vars : list (string * (Z -> setter)) :=
  [("FingerZ", fun v c => c <| z_finger := v |>);
   ("DivisorX", fun v c => c <| divisorx := v |>);
   ("DivisorY", fun v c => c <| divisory := v |>);
   ("EdgeRight", fun v c => c <| redge := v |>);
   ("EdgeLeft", fun v c => c <| ledge := v |>);
   ("EdgeTop", fun v c => c <| tedge := v |>);
   ("EdgeBottom", fun v c => c <| bedge := v |>);
   ("VerticalScrollDivisor", fun v c => c <| vscrolldivisor := v |>);
   ("HorizontalScrollDivisor", fun v c => c <| hscrolldivisor := v |>);
   ("CircularScrollDivisor", fun v c => c <| cscrolldivisor := v |>);
   ("CenterX", fun v c => c <| centerx := v |>);
   ("CenterY", fun v c => c <| centery := v |>);
   ("CircularScrollTrigger", fun v c => c <| ctrigger := v |>);
   ("MultiFingerWLimit", fun v c => c <| wlimit := v |>);
   ("MultiFingerVerticalDivisor", fun v c => c <| wvdivisor := v |>);
   ("MultiFingerHorizontalDivisor", fun v c => c <| whdivisor := v |>);
   ("ZLimit", fun v c => c <| zlimit := v |>);
   ("MouseMultiplierX", fun v c => c <| mousemultiplierx := v |>);
   ("MouseMultiplierY", fun v c => c <| mousemultipliery := v |>);
   ("MouseScrollMultiplierX", fun v c => c <| mousescrollmultiplierx := v |>);
   ("MouseScrollMultiplierY", fun v c => c <| mousescrollmultipliery := v |>);
   ("WakeDelay", fun v c => c <| wakedelay := v |>);
   ("TapThresholdX", fun v c => c <| tapthreshx := v |>);
   ("TapThresholdY", fun v c => c <| tapthreshy := v |>);
   ("DoubleTapThresholdX", fun v c => c <| dblthreshx := v |>);
   ("DoubleTapThresholdY", fun v c => c <| dblthreshy := v |>);
   ("ZoneLeft", fun v c => c <| zonel := v |>);
   ("ZoneRight", fun v c => c <| zoner := v |>);
   ("ZoneTop", fun v c => c <| zonet := v |>);
   ("ZoneBottom", fun v c => c <| zoneb := v |>);
   ("DisableZoneLeft", fun v c => c <| diszl := v |>);
   ("DisableZoneRight", fun v c => c <| diszr := v |>);
   ("DisableZoneTop", fun v c => c <| diszt := v |>);
   ("DisableZoneBottom", fun v c => c <| diszb := v |>);
   ("DisableZoneControl", fun v c => c <| diszctrl := v |>);
   ("Resolution", fun v c => c <| _resolution := v |>);
   ("ScrollResolution", fun v c => c <| _scrollresolution := v |>);
   ("SwipeDeltaX", fun v c => c <| swipedx := v |>);
   ("SwipeDeltaY", fun v c => c <| swipedy := v |>);
   ("RightClickZoneLeft", fun v c => c <| rczl := v |>);
   ("RightClickZoneRight", fun v c => c <| rczr := v |>);
   ("RightClickZoneTop", fun v c => c <| rczt := v |>);
   ("RightClickZoneBottom", fun v c => c <| rczb := v |>);
   ("HIDScrollZoomModifierMask", fun v c => c <| scrollzoommask := v |>);
   ("ButtonCount", fun v c => c <| _buttonCount := v |>);
   ("DragLockTempMask", fun v c => c <| draglocktempmask := v |>);
   ("MomentumScrollThreshY", fun v c => c <| momentumscrollthreshy := v |>);
   ("MomentumScrollMultiplier", fun v c => c <| momentumscrollmultiplier := v |>);
   ("MomentumScrollDivisor", fun v c => c <| momentumscrolldivisor := v |>);
   ("MomentumScrollSamplesMin", fun v c => c <| momentumscrollsamplesmin := v |>);
   ("FingerChangeIgnoreDeltas", fun v c => c <| ignoredeltasstart := v |>);
   ("BogusDeltaThreshX", fun v c => c <| bogusdxthresh := v |>);
   ("BogusDeltaThreshY", fun v c => c <| bogusdythresh := v |>);
   ("UnitsPerMMX", fun v c => c <| xupmm := v |>);
   ("UnitsPerMMY", fun v c => c <| yupmm := v |>);
   ("ScrollDeltaThreshX", fun v c => c <| scrolldxthresh := v |>);
   ("ScrollDeltaThreshY", fun v c => c <| scrolldythresh := v |>);
   ("TrackpadCornerSecondaryClick", fun v c => c <| rightclick_corner := v |>);
   ("TrackpointScrollXMultiplier", fun v c => c <| thinkpadNubScrollXMultiplier := v |>);
   ("TrackpointScrollYMultiplier", fun v c => c <| thinkpadNubScrollYMultiplier := v |>)].

Definition boolvars : list (string * (bool -> setter)) :=
  [("StickyHorizontalScrolling", fun v c => c <| hsticky := v |>);
   ("StickyVerticalScrolling", fun v c => c <| vsticky := v |>);
   ("StickyMultiFingerScrolling", fun v c => c <| wsticky := v |>);
   ("StabilizeTapping", fun v c => c <| tapstable := v |>);
   ("DisableLEDUpdate", fun v c => c <| noled := v |>);
   ("SmoothInput", fun v c => c <| smoothinput := v |>);
   ("UnsmoothInput", fun v c => c <| unsmoothinput := v |>);
   ("SkipPassThrough", fun v c => c <| skippassthru := v |>);
   ("ForcePassThrough", fun v c => c <| forcepassthru := v |>);
   ("Thinkpad", fun v c => c <| isthinkpad := v |>);
   ("HWResetOnStart", fun v c => c <| hwresetonstart := v |>);
   ("SwapDoubleTriple", fun v c => c <| swapdoubletriple := v |>);
   ("ClickPadTrackBoth", fun v c => c <| clickpadtrackboth := v |>);
   ("ImmediateClick", fun v c => c <| immediateclick := v |>);
   ("MouseMiddleScroll", fun v c => c <| mousemiddlescroll := v |>);
   ("FakeMiddleButton", fun v c => c <| _fakemiddlebutton := v |>);
   ("DynamicEWMode", fun v c => c <| _dynamicEW := v |>);
   ("ProcessUSBMouseStopsTrackpad", fun v c => c <| _processusbmouse := v |>);
   ("ProcessBluetoothMouseStopsTrackpad", fun v c => c <| _processbluetoothmouse := v |>)].

Definition lowbitvars : list (string * (bool -> setter)) :=
  [("TrackpadRightClick", fun v c => c <| rtap := v |>);
   ("Clicking", fun v c => c <| clicking := v |>);
   ("Dragging", fun v c => c <| dragging := v |>);
   ("DragLock", fun v c => c <| draglock := v |>);
   ("TrackpadHorizScroll", fun v c => c <| hscroll := v |>);
   ("TrackpadScroll", fun v c => c <| scroll := v |>);
   ("OutsidezoneNoAction When Typing", fun v c => c <| outzone_wt := v |>);
   ("PalmNoAction Permanent", fun v c => c <| palm := v |>);
   ("PalmNoAction When Typing", fun v c => c <| palm_wt := v |>);
   ("USBMouseStopsTrackpad", fun v c => c <| usb_mouse_stops_trackpad := v |>);
   ("TrackpadMomentumScroll", fun v c => c <| momentumscroll := v |>)].

Definition int64vars : list (string * (Z -> setter)) :=
  [("MaxDragTime", fun v c => c <| maxdragtime := v |>);
   ("MaxTapTime", fun v c => c <| maxtaptime := v |>);
   ("HIDClickTime", fun v c => c <| maxdbltaptime := v |>);
   ("QuietTimeAfterTyping", fun v c => c <| maxaftertyping := v |>);
   ("MomentumScrollTimer", fun v c => c <| momentumscrolltimer := v |>);
   ("ClickPadClickTime", fun v c => c <| clickpadclicktime := v |>);
   ("MiddleClickTime", fun v c => c <| _maxmiddleclicktime := v |>);
   ("DragExitDelayTime", fun v c => c <| dragexitdelay := v |>)].

Definition load_int64 (config : OSDict) (v : string * (Z -> setter)) : prog unit :=
  match getObject v.1 config ≫= asNumber with
  | Some n => set_conf (v.2 (u64 n));; setProperty v.1 (OSNumber (u64 n))
  | None => mret tt
  end.
Definition load_bool (config : OSDict) (v : string * (bool -> setter)) : prog unit :=
  match getObject v.1 config ≫= asBoolean with
  | Some b => set_conf (v.2 b);; setProperty v.1 (OSBoolean b)
  | None => mret tt
  end.
Definition load_int32 (config : OSDict) (v : string * (Z -> setter)) : prog unit :=
  match getObject v.1 config ≫= asNumber with
  | Some n => set_conf (v.2 (s32 (u32 n)));; setProperty v.1 (OSNumber (u32 n))
  | None => mret tt
  end.
Definition load_lowbit (config : OSDict) (v : string * (bool -> setter)) : prog unit :=
  match getObject v.1 config ≫= asNumber with
  | Some n =>
      let b := anyset (u32 n) 0x1 in
      set_conf (v.2 b);; setProperty v.1 (OSNumber (if b then 1 else 0))
  | None =>
      match getObject v.1 config ≫= asBoolean with
      | Some b => set_conf (v.2 b);; setProperty v.1 (OSBoolean b)
      | None => mret tt
      end
  end.

(** Divisors are not zero, and a threshold of zero means none. *)
Definition fix_settings (c : Settings) : Settings :=
  c <| divisorx := if divisorx c =? 0 then 1 else divisorx c |>
    <| divisory := if divisory c =? 0 then 1 else divisory c |>
    <| bogusdxthresh := if bogusdxthresh c =? 0 then 0x7FFFFFFF else bogusdxthresh c |>
    <| bogusdythresh := if bogusdythresh c =? 0 then 0x7FFFFFFF else bogusdythresh c |>.

Definition load_highrate (config : OSDict) : prog unit :=
  match getObject "UseHighRate" config ≫= asBoolean with
  | Some b =>
      set_life (fun l => l <| _touchPadModeByte := if b : bool then Z.lor (_touchPadModeByte l) 64 else clear (_touchPadModeByte l) 64 |>);;
      setProperty "UseHighRate" (OSBoolean b)
  | None => mret tt
  end.

(** The mode byte for the settings, sent if it has changed. *)
Definition update_mode (oldmode : Z) : prog unit :=
  set_life (fun l => l <| _touchPadModeByte := Z.lor (_touchPadModeByte l) 1 |>);;
  p ← getp id;
  when (negb (_dynamicEW (conf p)))
    (set_life (fun l => l <| _touchPadModeByte := with_ew (_extendedwmodeSupported (caps p)) (_touchPadModeByte l) |>));;
  l ← getp life;
  if negb (_touchPadModeByte l =? oldmode) then
    setTouchpadModeByte;;
    set_life (fun l => l <| _packetByteCount := 0 |> <| _ringBuffer := reset (_ringBuffer l) |>)
  else mret tt.

Definition setParamPropertiesGated (config : option OSDict) : prog unit :=
  match config with
  | None => mret tt
  | Some config =>
      l ← getp life;
      let oldmode := _touchPadModeByte l in
      load_highrate config;;
      forM_ int64vars (load_int64 config);;
      forM_ boolvars (load_bool config);;
      forM_ int32vars (load_int32 config);;
      forM_ lowbitvars (load_lowbit config);;
      set_conf fix_settings;;
      update_mode oldmode;;
      set_tch (fun t => t <| touchmode := MODE_NOTOUCH |>);;
      p ← getp id;
      match attachedHIDPointerDevices (life p) with
      | Some devices =>
          if bool_decide (devices ≠ ∅) then
            set_inp (fun i => i <| ignoreall := usb_mouse_stops_trackpad (conf p) |>);; updateTouchpadLED
          else mret tt
      | None => mret tt
      end
  end.

Definition setParamProperties (config : option OSDict) : prog unit :=
  l ← getp life; when (_cmdGate l) (setParamPropertiesGated config).
Definition setProperties (props : OSObject) : prog unit :=
  match asDict props with
  | Some dict => l ← getp life; when (_cmdGate l) (setParamPropertiesGated (Some dict))
  | None => mret tt
  end.

(** The configuration is dereferenced without a test. *)
Definition injectVersionDependentProperties (config : option OSDict) : prog unit :=
  match config with
  | None => undef
  | Some config =>
      match version_dict (version_major env) (version_minor env) config with
      | Some d => forM_ d (fun '(key, _) => match getObject key d with Some v => setProperty key v | None => mret tt end)
      | None => mret tt
      end
  end.

(** ** Life cycle *)

(** Is a touchpad that identifies itself so supported? *)
Definition supported (type version : Z) (force : bool) : bool :=
  if force then true
  else if 0x46 =? type then version >=? 0x200
  else if 0x47 =? type then version >=? 0x400
  else false.

Definition probe (config : option OSDict) : prog bool :=
  set_life (fun l => l <| _device := true |>);;
  if bool_decide ((d ← config; getObject "DisableDevice" d ≫= asBoolean) = Some true) then mret false
  else
    let force := bool_decide ((d ← config; getObject "ForceSynapticsDetect" d ≫= asBoolean) = Some true) in
    setParamPropertiesGated config;;
    injectVersionDependentProperties config;;
    r ← getTouchPadData 0x0;
    ok ← (match r with
      | Some (b0, b1, b2) =>
          let version := Z.lor (Z.shiftl (Z.land b2 0x0f) 8) b0 in
          set_life (fun l => l <| _touchPadType := b1 |> <| _touchPadVersion := version |>);;
          mret (supported b1 version force)
      | None => mret false
      end);
    set_life (fun l => l <| _device := false |>);;
    mret ok.

Definition registerHIDPointerNotifications : prog unit :=
  c ← getp conf;
  when (_processusbmouse c) (semit SRegisterUSB;; set_life (fun l => l <| usb_notify := true |>));;
  when (_processbluetoothmouse c) (semit SRegisterBluetooth;; set_life (fun l => l <| bluetooth_notify := true |>)).

Definition unregisterHIDPointerNotifications : prog unit :=
  l ← getp life;
  when (usb_notify l) (semit SUnregisterUSB;; set_life (fun l => l <| usb_notify := false |>));;
  when (bluetooth_notify l) (semit SUnregisterBluetooth;; set_life (fun l => l <| bluetooth_notify := false |>));;
  match attachedHIDPointerDevices l with
  | Some _ => set_life (fun l => l <| attachedHIDPointerDevices := Some ∅ |>)
  | None => undef
  end.

(** The properties [start] announces. *)
Definition announce : prog unit :=
  l ← getp life;
  c ← getp conf;
  let resolution := OSNumber (u32 (Z.shiftl (_scrollresolution c) 16)) in
  semit (STrackpadInfo (_touchPadType l) (u8 (Z.shiftr (_touchPadVersion l) 8)) (u8 (_touchPadVersion l)));;
  setProperty (kIOHIDPointerAccelerationTypeKey (hid env)) (OSString (kIOHIDTrackpadAccelerationType (hid env)));;
  setProperty (kIOHIDScrollAccelerationTypeKey (hid env)) (OSString (kIOHIDTrackpadScrollAccelerationKey (hid env)));;
  setProperty (kIOHIDScrollResolutionKey (hid env)) resolution;;
  setProperty "HIDScrollResolutionX" resolution;;
  setProperty "HIDScrollResolutionY" resolution.

Definition start : prog bool :=
  set_life (fun l => l <| _device := true |>);;
  announce;;
  set_life (fun l => l <| _cmdGate := alloc_gate env |>);;
  if negb (getWorkLoop env) || negb (alloc_gate env) then mret false
  else
    set_life (fun l => l <| attachedHIDPointerDevices := Some ∅ |>);;
    registerHIDPointerNotifications;;
    c ← getp conf;
    ok ← (if _buttonCount c >=? 3 then
            set_life (fun l => l <| _buttonTimer := alloc_buttonTimer env |>);; mret (alloc_buttonTimer env)
          else mret true);
    if negb ok then mret false
    else
      set_life (fun l => l <| scrollTimer := alloc_scrollTimer env |>
        <| dragTimer := if negb (dragexitdelay c =? 0) then alloc_dragTimer env else dragTimer l |>);;
      when (hwresetonstart c) doHardwareReset;;
      queryCapabilities;;
      setTouchpadModeByte;;
      semit SInstallInterruptAction;;
      set_life (fun l => l <| _interruptHandlerInstalled := true |>);;
      semit SInstallPowerControlAction;;
      set_life (fun l => l <| _powerControlHandlerInstalled := true |> <| _provider := has_TPDN env |>);;
      updateTouchpadLED;;
      mret true.

Definition stop : prog unit :=
  unregisterHIDPointerNotifications;;
  set_life (fun l => l <| attachedHIDPointerDevices := None |>);;
  set_inp (fun i => i <| ignoreall := false |>);;
  updateTouchpadLED;;
  setTouchPadEnable false;;
  when (getWorkLoop env) (set_life (fun l => l <| scrollTimer := false |> <| _buttonTimer := false |> <| _cmdGate := false |>));;
  l ← getp life;
  when (_interruptHandlerInstalled l) (semit SUninstallInterruptAction);;
  when (_powerControlHandlerInstalled l) (semit SUninstallPowerControlAction);;
  set_life (fun l => l <| _interruptHandlerInstalled := false |> <| _powerControlHandlerInstalled := false |>
    <| _device := false |> <| _provider := false |>).

Definition initTouchPad : prog unit :=
  set_life (fun l => l <| _packetByteCount := 0 |> <| _ringBuffer := reset (_ringBuffer l) |>);;
  set_inp (fun i => i <| passbuttons := 0 |> <| _modifierdown := 0 |>);;
  set_clk (fun k => k <| _clickbuttons := 0 |> <| tracksecondary := false |>);;
  setTouchpadModeByte;;
  updateTouchpadLED.

Definition setDevicePowerState (whatToDo : Z) : prog unit :=
  if whatToDo =? kPS2C_DisableDevice then setTouchPadEnable false
  else if whatToDo =? kPS2C_EnableDevice then
    c ← getp conf;
    semit (SSleep (u32 (wakedelay c)));;
    initTouchPad
  else mret tt.

(** ** Messages and other pointing devices *)

(** The masks of the modifier keys, from key code 0x36 on. *)
Definition masks : list Z := [0x10; 0x100000; 0; 0; 0x080000; 0x040000; 0; 0x08; 0x04; 0x200000].
Definition is_modifier (adb : Z) : bool := existsb (Z.eqb adb) [0x38; 0x3c; 0x3b; 0x3e; 0x3a; 0x3d; 0x37; 0x36; 0x3f].

Definition notifyKeyPressed (info : PS2KeyInfo) : prog unit :=
  if is_modifier (adbKeyCode info) then
    mask ← lift (aget masks (adbKeyCode info - 0x36));
    if goingDown info then set_inp (fun i => i <| _modifierdown := Z.lor (_modifierdown i) mask |>)
    else set_inp (fun i => i <| _modifierdown := clear (_modifierdown i) mask |> <| keytime := time info |>)
  else
    set_mom (fun m => m <| momentumscrollcurrent := 0 |>);;
    set_inp (fun i => i <| keytime := time info |>).

(** [message]: the data as the driver leaves it; data of another type than the
    message calls for is not defined. *)
Definition message (type : PS2Message) (argument : Payload) : prog Payload :=
  match type, argument with
  | kPS2M_getDisableTouchpad, PBool _ => i ← getp inp; mret (PBool (negb (ignoreall i)))
  | kPS2M_setDisableTouchpad, PBool enable =>
      i ← getp inp;
      (if bool_decide (enable = ignoreall i) then
         set_inp (fun i => i <| ignoreall := negb enable |>);; updateTouchpadLED
       else mret tt);;
      mret argument
  | kPS2M_notifyKeyPressed, PKeyInfo info => notifyKeyPressed info;; mret argument
  | kPS2M_getDisableTouchpad, _ | kPS2M_setDisableTouchpad, _ | kPS2M_notifyKeyPressed, _ => undef
  | _, _ => mret argument
  end.

Definition notificationHIDAttachedHandlerGated (s : HIDService) (n : HIDNotification) : prog unit :=
  p ← getp id;
  match attachedHIDPointerDevices (life p) with
  | None => undef
  | Some devices =>
      let devices := attached_after (bt env) s n devices in
      set_life (fun l => l <| attachedHIDPointerDevices := Some devices |>);;
      let stops := usb_mouse_stops_trackpad (conf p) in
      let ignore b := set_inp (fun i => i <| ignoreall := b |>);; updateTouchpadLED in
      match n with
      | UsbPublish | BluetoothPublish => when (stops && bool_decide (devices ≠ ∅)) (ignore true)
      | UsbTerminate | BluetoothTerminate => when (stops && bool_decide (devices = ∅)) (ignore false)
      end
  end.

Definition notificationHIDAttachedHandler (s : HIDService) (n : HIDNotification) : prog unit :=
  l ← getp life;
  when (_cmdGate l) (notificationHIDAttachedHandlerGated s n).
End synaptics.

(** [init]; IOKit hands out zeroed memory for what it does not set. *)
Definition init_settings : Settings := {|
  z_finger := 45; divisorx := 1; divisory := 1; ledge := 1700; redge := 5200; tedge := 4200; bedge := 1700;
  vscrolldivisor := 30; hscrolldivisor := 30; cscrolldivisor := 0; ctrigger := 0; centerx := 3000; centery := 3000;
  maxtaptime := 130000000; maxdragtime := 230000000; maxdbltaptime := 0;
  hsticky := false; vsticky := false; wsticky := false; tapstable := true; wlimit := 9; wvdivisor := 30; whdivisor := 30;
  clicking := true; dragging := true; draglock := false; hscroll := false; scroll := true; rtap := false;
  outzone_wt := false; palm := false; palm_wt := false; zlimit := 100; noled := false; maxaftertyping := 500000000;
  mousemultiplierx := 20; mousemultipliery := 20; mousescrollmultiplierx := 20; mousescrollmultipliery := 20;
  mousemiddlescroll := true; wakedelay := 1000; smoothinput := false; unsmoothinput := false;
  skippassthru := false; forcepassthru := false; hwresetonstart := false;
  tapthreshx := 50; tapthreshy := 50; dblthreshx := 100; dblthreshy := 100;
  zonel := 1700; zoner := 5200; zonet := 99999; zoneb := 0; diszl := 0; diszr := 1700; diszt := 99999; diszb := 4200; diszctrl := 0;
  _resolution := 2300; _scrollresolution := 2300; swipedx := 800; swipedy := 800; _buttonCount := 2;
  swapdoubletriple := false; draglocktempmask := 0x0100010; clickpadclicktime := 300000000; clickpadtrackboth := true;
  ignoredeltasstart := 0; bogusdxthresh := 400; bogusdythresh := 350; scrolldxthresh := 10; scrolldythresh := 10;
  immediateclick := true; isthinkpad := false; thinkpadNubScrollXMultiplier := 1; thinkpadNubScrollYMultiplier := 1;
  rightclick_corner := 2; rczl := 3800; rczr := 99999; rczb := 0; rczt := 2000;
  _dynamicEW := false; usb_mouse_stops_trackpad := true; _processusbmouse := true; _processbluetoothmouse := true;
  scrollzoommask := 0; xupmm := 50; yupmm := 50; _maxmiddleclicktime := 100000000; _fakemiddlebutton := true; momentumscroll := true;
  momentumscrolltimer := 10000000; momentumscrollthreshy := 7; momentumscrollmultiplier := 98; momentumscrolldivisor := 100;
  momentumscrollsamplesmin := 3; dragexitdelay := 100000000 |}.

Definition init : ApplePS2SynapticsTouchPad := {|
  conf := init_settings;
  life := mkLife false false false (mkRB (replicate (Z.to_nat ringSize) 0) 0 0) 0 0 0 0 0x80 false false None false false false false false;
  caps := mkCapabilities false false false 0 false false;
  mid := mkMiddle STATE_NOBUTTONS 0 0;
  mom := mkMomentum (average_new 32) (average_new 32) 0 0 0 0 0;
  tch := mkTouch MODE_NOTOUCH 0 0 0 0 0 0 0 0 0 0 0 0 false false 0 false false false false 0 0;
  clk := mkClick 0 false 0 0 false 0 0 0 false false;
  flt := mkFilters (average_new 5) (average_new 5) (average_new 5) (average_new 5)
           (mkLast 0 false) (mkLast 0 false) (mkLast 0 false) (mkLast 0 false);
  inp := mkInput 0 false 0 0;
|}.
