(* ===== verification/SynapticsSpec.v ===== *)
(** * SynapticsSpec: what the touchpad driver guarantees

    The invariant of the driver: the divisors in use are not zero, a scroll mode
    is only entered with its divisor, momentum has an interval, the filters and
    the ring buffer are well formed, the timers in use exist; and that packets,
    timers, messages and configuration keep it without undefined behaviour. *)

From S2P Require Import Prelude RingBuffer PS2Defs Controller Config Pointing Averages Synaptics.
From Stdlib Require String.

#[local] Open Scope string_scope.
#[local] Open Scope list_scope.
#[local] Open Scope Z_scope.

(** ** The invariant *)

(** Settings the driver can work with. *)
Record settings_ok (c : Settings) : Prop := {
  so_divisorx : 0 < divisorx c;
  so_divisory : 0 < divisory c;
  so_vscroll : 0 <= vscrolldivisor c;
  so_hscroll : 0 <= hscrolldivisor c;
  so_cscroll : 0 <= cscrolldivisor c;
  so_wv : 0 <= wvdivisor c;
  so_wh : 0 <= whdivisor c;
  so_momentum : 2 <= momentumscrolldivisor c;
  so_timer : 0 <= momentumscrolltimer c <= 2147483648;
  so_xupmm : xupmm c <> 0 /\ -65536 <= xupmm c <= 65536;
  so_yupmm : yupmm c <> 0 /\ -65536 <= yupmm c <= 65536;
}.

(** A scroll mode has its divisor. *)
Definition mode_ok (c : Settings) (m : TouchMode) : Prop :=
  match m with
  | MODE_VSCROLL => vscrolldivisor c <> 0
  | MODE_HSCROLL => hscrolldivisor c <> 0
  | MODE_CSCROLL => cscrolldivisor c <> 0
  | _ => True
  end.

Definition averages (N : Z) (a : SimpleAverage) : Prop := exists w, holds_window N a w.

Record momentum_ok (m : Momentum) : Prop := {
  mo_dy : averages 32 (dy_history m);
  mo_time : averages 32 (time_history m);
  mo_current : -4611686018427387904 <= momentumscrollcurrent m <= 4611686018427387904;
  mo_interval : momentumscrollcurrent m <> 0 -> 0 < momentumscrollinterval m < 18446744073709551616;
}.

Record filters_ok (f : Filters) : Prop := {
  fo_x : averages 5 (x_avg f);
  fo_y : averages 5 (y_avg f);
  fo_x2 : averages 5 (x2_avg f);
  fo_y2 : averages 5 (y2_avg f);
}.

Record ring_ok (l : Life) : Prop := {
  ro_count : 0 <= _packetByteCount l < kPacketLength;
  ro_ring : aligned ringSize kPacketLength (_ringBuffer l);
}.

(** The driver, started or not. *)
Record pad_ok (c : Settings) (p : ApplePS2SynapticsTouchPad) : Prop := {
  po_conf : conf p = c;
  po_settings : settings_ok c;
  po_ring : ring_ok (life p);
  po_mode : mode_ok c (touchmode (tch p));
  po_momentum : momentum_ok (mom p);
  po_filters : filters_ok (flt p);
}.

(** What gestures leave alone: are there timers for buttons and drags, and packet
    assembly. *)
Record Frame := mkFrame {
  fr_button : bool;
  fr_drag : bool;
  fr_ring : RingBuffer Z;
  fr_count : Z;
  fr_last : Z;
}.

(** What a started driver has. *)
Record started (c : Settings) (d : Frame) (l : Life) : Prop := {
  st_device : _device l = true;
  st_scroll : scrollTimer l = true;
  st_button : 2 < _buttonCount c -> _buttonTimer l = true;
  st_frame : d = mkFrame (_buttonTimer l) (dragTimer l) (_ringBuffer l) (_packetByteCount l) (_lastdata l);
  st_devices : is_Some (attachedHIDPointerDevices l);
}.

(** A started driver.  With [q] there is no momentum; with [s], which holds
    between packets, there is none while several fingers are down: the interval
    can be overwritten then. *)
Record inv (c : Settings) (d : Frame) (q s : bool) (w : SWorld) : Prop := {
  iv_pad : pad_ok c (pad w);
  iv_life : started c d (life (pad w));
  iv_quiet : q = true -> momentumscrollcurrent (mom (pad w)) = 0;
  iv_strict : s = true -> touchmode (tch (pad w)) = MODE_MTOUCH -> momentumscrollcurrent (mom (pad w)) = 0;
}.

(** ** Steps that keep the invariant *)

(** From every state that satisfies [I], [m] returns a value that satisfies [Q]
    in a state that satisfies [J]. *)
Definition takes {A} (I J : SWorld -> Prop) (m : M SWorld A) (Q : A -> Prop) : Prop :=
  forall w, I w -> exists a w', m w = Done (a, w') /\ J w' /\ Q a.
Abbreviation keeps I := (takes I I).

Lemma takes_bind {A B} I J K (m : M SWorld A) (f : A -> M SWorld B) Q Q' :
  takes I J m Q -> (forall a, Q a -> takes J K (f a) Q') -> takes I K (m ≫= f) Q'.
Proof.
  intros Hm Hf w Hw. destruct (Hm w Hw) as (a & w1 & E1 & H1 & Ha). destruct (Hf a Ha w1 H1) as (b & w2 & E2 & H2 & Hb).
  exists b, w2. split; [|done]. unfold mbind, M_bind. by rewrite E1.
Qed.

Lemma syn_bind {A B} I (m : M SWorld A) (f : A -> M SWorld B) Q Q' :
  keeps I m Q -> (forall a, Q a -> keeps I (f a) Q') -> keeps I (m ≫= f) Q'.
Proof. apply takes_bind. Qed.

Lemma takes_seq {A B} I J K (m : M SWorld A) (f : A -> M SWorld B) Q' :
  takes I J m (fun _ => True) -> (forall a, takes J K (f a) Q') -> takes I K (m ≫= f) Q'.
Proof. intros Hm Hf. eapply takes_bind; [exact Hm|auto]. Qed.

Lemma syn_seq {A B} I (m : M SWorld A) (f : A -> M SWorld B) Q' :
  keeps I m (fun _ => True) -> (forall a, keeps I (f a) Q') -> keeps I (m ≫= f) Q'.
Proof. intros Hm Hf. eapply syn_bind; [exact Hm|auto]. Qed.

Lemma syn_ret {A} I (a : A) (Q : A -> Prop) : Q a -> keeps I (mret a) Q.
Proof. intros Ha w Hw. by exists a, w. Qed.
Lemma syn_skip {A} I (a : A) : keeps I (mret a) (fun _ => True).
Proof. by apply syn_ret. Qed.
Lemma syn_mono {A} I (m : M SWorld A) (Q Q' : A -> Prop) : keeps I m Q -> (forall a, Q a -> Q' a) -> keeps I m Q'.
Proof. intros Hm HQ w Hw. destruct (Hm w Hw) as (a & w' & E & H & Ha). eauto 7. Qed.
Lemma syn_when I b (m : M SWorld unit) : (b = true -> keeps I m (fun _ => True)) -> keeps I (when b m) (fun _ => True).
Proof. intros Hm. destruct b; [by apply Hm|apply syn_skip]. Qed.
Lemma syn_lift {A} I (o : outcome A) (Q : A -> Prop) : (exists a, o = Done a /\ Q a) -> keeps I (lift o) Q.
Proof. intros (a & -> & Ha) w Hw. by exists a, w. Qed.

Lemma idiv_pos a b : 0 < b -> idiv a b = mret (Z.quot a b).
Proof. intros Hb. unfold idiv. by rewrite (proj2 (Z.eqb_neq b 0)), (proj2 (Z.eqb_neq b (-1))), andb_false_r by lia. Qed.
Lemma imod_pos a b : 0 < b -> imod a b = mret (Z.rem a b).
Proof. intros Hb. unfold imod. by rewrite (proj2 (Z.eqb_neq b 0)), (proj2 (Z.eqb_neq b (-1))), andb_false_r by lia. Qed.
Lemma ldiv_ok a b : b <> 0 -> -9223372036854775808 < a \/ 0 < b -> ldiv a b = mret (Z.quot a b).
Proof.
  intros Hb Ha. unfold ldiv. rewrite (proj2 (Z.eqb_neq b 0)) by done. cbn [orb].
  destruct (Z.eqb_spec a (-9223372036854775808)), (Z.eqb_spec b (-1)); try done. lia.
Qed.
Lemma lmod_pos a b : 0 < b -> lmod a b = mret (Z.rem a b).
Proof. intros Hb. unfold lmod. by rewrite (proj2 (Z.eqb_neq b 0)), (proj2 (Z.eqb_neq b (-1))), andb_false_r by lia. Qed.

Lemma syn_quot I a b : 0 < b -> keeps I (idiv a b) (fun q => q = Z.quot a b).
Proof.
  intros Hb. rewrite idiv_pos by done. by apply syn_ret.
Qed.
Lemma syn_rem I a b : 0 < b -> keeps I (imod a b) (fun r => r = Z.rem a b).
Proof.
  intros Hb. rewrite imod_pos by done. by apply syn_ret.
Qed.

Lemma syn_byte I (p : list Z) i : (6 <= length p)%nat -> 0 <= i < 6 -> keeps I (packet_byte p i) (fun b => is_u8 b).
Proof.
  intros Hp Hi. unfold packet_byte. apply (syn_bind _ _ _ (fun _ => True)).
  - apply syn_lift. destruct (aget_ok p i) as (v & E & _); [lia|]. by exists v.
  - intros b _. apply syn_ret, u8_range.
Qed.

Create HintDb syn.
#[export] Hint Resolve syn_skip syn_quot syn_rem : syn.

Section packets.
  Context (env : SEnv) (c : Settings) (d : Frame) (q s : bool).

Abbreviation I := (inv c d q s).
Abbreviation holds_true := (fun _ => True).

Lemma syn_emit e : keeps I (semit e) holds_true.
Proof. intros w Hw. exists tt. eexists. split; [reflexivity|]. split; [|done]. by destruct Hw; split. Qed.

Lemma syn_clock : keeps I (clock_get_uptime env) holds_true.
Proof. intros w Hw. do 2 eexists. split; [reflexivity|]. split; [|done]. by destruct Hw; split. Qed.

Lemma syn_get {A} (f : ApplePS2SynapticsTouchPad -> A) : keeps I (getp f) holds_true.
Proof. intros w Hw. by do 2 eexists. Qed.

Lemma syn_get_id : keeps I (getp id) (fun p => pad_ok c p /\ dragTimer (life p) = fr_drag d).
Proof. intros w Hw. do 2 eexists. split; [reflexivity|]. split; [done|]. destruct Hw as [Hp [_ _ _ -> _]]. by split. Qed.

Lemma syn_get_conf : keeps I (getp conf) (fun c' => c' = c).
Proof. intros w Hw. do 2 eexists. split; [reflexivity|]. split; [done|]. apply Hw. Qed.

Ltac component := exists tt; eexists; split; [reflexivity|]; split; [|done].

Lemma syn_mid f : keeps I (set_mid f) holds_true.
Proof. intros w [[] H Hq Hs]. component. split; [by split|exact H|exact Hq|exact Hs]. Qed.
Lemma syn_clk f : keeps I (set_clk f) holds_true.
Proof. intros w [[] H Hq Hs]. component. split; [by split|exact H|exact Hq|exact Hs]. Qed.
Lemma syn_inp f : keeps I (set_inp f) holds_true.
Proof. intros w [[] H Hq Hs]. component. split; [by split|exact H|exact Hq|exact Hs]. Qed.
Lemma syn_caps f : keeps I (set_caps f) holds_true.
Proof. intros w [[] H Hq Hs]. component. split; [by split|exact H|exact Hq|exact Hs]. Qed.

Lemma syn_tch f : (forall t, mode_ok c (touchmode t) -> mode_ok c (touchmode (f t))) ->
  (forall t, touchmode (f t) = MODE_MTOUCH -> touchmode t = MODE_MTOUCH) -> keeps I (set_tch f) holds_true.
Proof. intros Hf Hm w [[] H Hq Hs]. component. split; [split; simpl; auto|exact H|exact Hq|]. simpl. auto. Qed.
Lemma syn_mom f : (forall m, momentum_ok m -> momentum_ok (f m)) ->
  (forall m, momentumscrollcurrent m = 0 -> momentumscrollcurrent (f m) = 0) -> keeps I (set_mom f) holds_true.
Proof. intros Hf H0 w [[] H Hq Hs]. component. split; [split; simpl; auto|exact H|simpl; auto|simpl; auto]. Qed.
Lemma syn_flt f : (forall m, filters_ok m -> filters_ok (f m)) -> keeps I (set_flt f) holds_true.
Proof. intros Hf w [[] H Hq Hs]. component. split; [split; simpl; auto|exact H|exact Hq|exact Hs]. Qed.
Lemma syn_life f : (forall l, ring_ok l -> ring_ok (f l)) -> (forall l, started c d l -> started c d (f l)) ->
  keeps I (set_life f) holds_true.
Proof. intros H1 H2 w [[] H Hq Hs]. component. split; [split; simpl; auto|apply (H2 _ H)|exact Hq|exact Hs]. Qed.

(** The timers that exist. *)
Definition timer_ready (t : Timer) : Prop :=
  match t with ButtonTimer => 2 < _buttonCount c | ScrollTimer => True | DragTimer => fr_drag d = true end.

Lemma syn_timer t (m : M SWorld unit) : timer_ready t ->
  keeps I m holds_true -> keeps I (l ← getp life; if has_timer t l then m else undef) holds_true.
Proof.
  intros Ht Hm w Hw. pose proof Hw as [_ [H1 H2 H3 H4 H5] _ _]. unfold getp. munfold.
  assert (has_timer t (life (pad w)) = true) as -> by (destruct t; simpl in *; [auto|done|by rewrite H4 in Ht]). by apply Hm.
Qed.

Lemma syn_setTimer t ns : timer_ready t -> keeps I (setTimerTimeout t ns) holds_true.
Proof. intros Ht. apply syn_timer; [done|apply syn_emit]. Qed.
Lemma syn_cancelTimer t : timer_ready t -> keeps I (cancelTimer t) holds_true.
Proof. intros Ht. apply syn_timer; [done|apply syn_emit]. Qed.

Lemma syn_submit r : keeps I (submitRequestAndBlock env r) (fun r' => exists evs, r' = submit env evs r).
Proof.
  intros w Hw. unfold submitRequestAndBlock, getp. munfold. rewrite (st_device _ _ _ (iv_life _ _ _ _ _ Hw)).
  do 2 eexists. split; [reflexivity|]. split; [|by eexists]. by destruct Hw; split.
Qed.

Lemma syn_send {B} r (f : PS2Request -> M SWorld B) Q : (forall r', keeps I (f r') Q) -> keeps I (submitRequestAndBlock env r ≫= f) Q.
Proof. intros Hf. eapply syn_bind; [apply syn_submit|]. intros r' _. apply Hf. Qed.

Hint Resolve syn_emit syn_clock syn_get syn_mid syn_clk syn_inp syn_caps syn_setTimer syn_cancelTimer : syn.

(** Steps through a routine, every branch. *)
Ltac syn := repeat first
  [ progress (intros; cbn beta zeta)
  | solve [eauto with syn nocore]
  | apply syn_send
  | apply syn_tch; solve [intros; simpl in *; auto; discriminate]
  | apply syn_when
  | apply syn_seq
  | case_match ].

Lemma syn_pointer dx dy b t : keeps I (dispatchRelativePointerEventX dx dy b t) holds_true.
Proof. apply syn_emit. Qed.
Lemma syn_scroll a b e t : keeps I (dispatchScrollWheelEventX a b e t) holds_true.
Proof. apply syn_emit. Qed.
Hint Resolve syn_pointer syn_scroll : syn.

Lemma syn_LED : keeps I (updateTouchpadLED env) holds_true.
Proof. unfold updateTouchpadLED, setTouchpadLED. syn. Qed.

Lemma syn_modebyte f : keeps I (set_life (fun l => l <| _touchPadModeByte := f l |>)) holds_true.
Proof. apply syn_life; intros l []; by split. Qed.

Lemma syn_setModeByte : keeps I (setModeByte env) holds_true.
Proof.
  unfold setModeByte, setModeByte_value. apply syn_seq; [apply syn_get|intros p]. case_match; [apply syn_skip|].
  apply syn_seq; [apply syn_modebyte|intros _]. syn.
Qed.
Hint Resolve syn_LED syn_setModeByte : syn.

Lemma syn_setClickButtons b : keeps I (setClickButtons env b) holds_true.
Proof. unfold setClickButtons. syn. Qed.
Hint Resolve syn_setClickButtons : syn.

Lemma syn_middle b t from : keeps I (middleButton env b t from) holds_true.
Proof.
  unfold middleButton. eapply syn_bind; [apply syn_get_id|]. intros p [Hp _]. destruct Hp as [-> _ _ _ _ _].
  case_match; [apply syn_skip|]. apply syn_seq; [|intros _; apply syn_seq; [apply syn_get|intros m; apply syn_skip]].
  assert (timer_ready ButtonTimer) as Hb.
  { repeat match goal with H : _ || _ = false |- _ => apply orb_false_iff in H as [H ?] end. simpl. lia. }
  unfold middle_step. syn.
Qed.
Hint Resolve syn_middle : syn.

Lemma syn_buttonTimer : keeps I (onButtonTimer env) holds_true.
Proof. unfold onButtonTimer. syn. Qed.

Lemma syn_dragTimer : keeps I (onDragTimer env) holds_true.
Proof. unfold onDragTimer. syn. Qed.

(** ** Momentum *)

Lemma s64_nonzero z : 0 < z < 18446744073709551616 -> s64 z <> 0.
Proof. intros H. unfold s64. Z.to_euclidean_division_equations. lia. Qed.
Lemma s64_range z : -9223372036854775808 <= s64 z < 9223372036854775808.
Proof. unfold s64. pose proof (Z.mod_pos_bound (z + 9223372036854775808) 18446744073709551616). lia. Qed.
Lemma int_range z : -2147483648 <= s32 z < 2147483648.
Proof. unfold s32. pose proof (Z.mod_pos_bound (z + 2147483648) 4294967296). lia. Qed.
Lemma s64_small z : -9223372036854775808 <= z < 9223372036854775808 -> s64 z = z.
Proof. intros H. unfold s64. rewrite Z.mod_small; lia. Qed.
Lemma s64_u64 z : s64 (u64 z) = s64 z.
Proof. unfold s64, u64. Z.to_euclidean_division_equations. lia. Qed.

Lemma half_range z n : -9223372036854775808 <= z < 9223372036854775808 -> 2 <= n ->
  -4611686018427387904 <= Z.quot z n <= 4611686018427387904.
Proof. intros Hz Hn. Z.to_euclidean_division_equations. nia. Qed.

Lemma syn_scrollTimer : keeps I (onScrollTimer env) holds_true.
Proof.
  intros w Hw. pose proof Hw as [[Hc Hs Hr Hm [Hdy Hti Hcu Hin] Hf] Hl Hqu Hst]. unfold onScrollTimer, getp.
  unfold mbind at 1, M_bind at 1, gets at 1. unfold id. rewrite Hc.
  destruct (Z.eqb_spec (momentumscrollcurrent (mom (pad w))) 0) as [E|E]; [by exists tt, w|].
  destruct (syn_clock w Hw) as (t & w1 & E1 & Hw1 & _). rewrite (bind_done _ _ _ _ _ E1).
  assert (mom (pad w1) = mom (pad w)) as Em by (by injection E1 as _ <-).
  specialize (Hin E). pose proof (s64_nonzero _ Hin). rewrite (ldiv_ok (momentumscrollcurrent (mom (pad w)))); [|done|left; lia]. rewrite (bind_done _ _ w1 _ w1 eq_refl).
  set (dy := s32 _). destruct (iabs dy >? momentumscrollthreshy c).
  - assert (forall n, 0 <= n -> exists q r, (if n =? 0 then mret 0 else idiv dy n) = mret q /\ (if n =? 0 then mret 0 else imod dy n) = mret r) as Hdiv.
    { intros n Hn. destruct (Z.eqb_spec n 0); [by exists 0, 0|]. rewrite idiv_pos, imod_pos by lia. by do 2 eexists. }
    destruct (Hdiv (wvdivisor c) (so_wv _ Hs)) as (qq & r & -> & ->). pose proof (so_momentum _ Hs) as Hmd.
    rewrite (bind_done _ _ w1 qq w1 eq_refl).
    destruct (syn_scroll qq 0 0 t w1 Hw1) as ([] & w2 & E2 & Hw2 & _). rewrite (bind_done _ _ _ _ _ E2).
    assert (mom (pad w2) = mom (pad w)) as Em2 by (by injection E2 as <-).
    rewrite (bind_done _ _ w2 r w2 eq_refl). cbv zeta. set (cur := s64 _).
    rewrite lmod_pos by lia. rewrite (ldiv_ok cur) by lia. rewrite (bind_done _ _ w2 (Z.rem cur (momentumscrolldivisor c)) w2 eq_refl).
    rewrite (bind_done _ _ w2 (Z.quot cur (momentumscrolldivisor c)) w2 eq_refl). rewrite (bind_done _ _ w2 tt _ eq_refl).
    apply (syn_setTimer ScrollTimer _ Logic.I). destruct Hw2 as [[] Hl2 Hq2 Hs2]. rewrite Em2 in *. split; [|exact Hl2|tauto|tauto].
    split; simpl; try done. split; simpl; try done. apply half_range; [apply s64_range|done].
  - destruct Hw1 as [[] Hl1 Hq1 Hs1]. exists tt. eexists. split; [reflexivity|]. split; [|done]. split; [|exact Hl1|done|done].
    split; simpl; try done. rewrite Em. split; simpl; try done.
Qed.

Lemma syn_newest N a : averages N a -> 0 < N < 2147483648 -> exists x, average_newest a = Done x.
Proof. intros [w Hw] HN. eexists. by eapply newest_ok. Qed.

(** A product of a time below 2^31 ns and a sum. *)
Lemma momentum_range t n : 0 <= t <= 2147483648 -> -2147483648 <= n < 2147483648 ->
  -4611686018427387904 <= s64 (u64 (t * n)) <= 4611686018427387904.
Proof. intros Ht Hs. rewrite s64_u64, s64_small; nia. Qed.

Lemma syn_reset_history : keeps I reset_history holds_true.
Proof.
  apply syn_mom; [|done]. intros m [[w1 H1] [w2 H2] H3 H4]. split; simpl; try done; eexists; by eapply holds_reset.
Qed.

(** ** Coordinates *)

(** A raw coordinate of 13 bits. *)
Definition raw (x : Z) : Prop := 0 <= x <= 8191.

Lemma scaled x n m : raw x -> -65536 <= n <= 65536 -> m <> 0 -> keeps I (idiv (s32 (x * n)) m) holds_true.
Proof.
  intros [H1 H2] Hn Hm. unfold idiv. rewrite s32_small by nia.
  rewrite (proj2 (Z.eqb_neq m 0)), (proj2 (Z.eqb_neq (x * n) _)) by nia. apply syn_skip.
Qed.

Lemma syn_scale x y : settings_ok c -> raw x -> raw y -> keeps I (scale x y) holds_true.
Proof.
  intros [] Hx Hy. unfold scale. eapply syn_bind; [apply syn_get_conf|]. intros ? ->.
  case_match; [|case_match; [|apply syn_skip]];
    (apply syn_seq; [apply scaled; tauto|intros ?; apply syn_skip]).
Qed.

Lemma raw_primary p1 p3 p4 p5 : is_u8 p4 -> is_u8 p5 ->
  raw (packet_x p1 p3 p4) /\ raw (packet_y p1 p3 p5).
Proof.
  intros [H1 H2] [H3 H4]. unfold packet_x, packet_y. rewrite !Z.shiftl_mul_pow2 by lia. unfold raw.
  pose proof (land_bound p1 0x0f). pose proof (land_bound p1 0xf0). pose proof (land_bound p3 0x10). pose proof (land_bound p3 0x20).
  split; match goal with |- _ <= Z.lor (Z.lor ?a ?b) ?e <= _ => pose proof (lor_bound a b); pose proof (lor_bound (Z.lor a b) e) end; lia.
Qed.

Lemma raw_secondary p p4 : is_u8 p ->
  raw (packet2_x p p4) /\ raw (packet2_y p p4).
Proof.
  intros [H1 H2]. unfold packet2_x, packet2_y. rewrite !Z.shiftl_mul_pow2 by lia. unfold raw. pose proof (land_bound p4 0x0F). pose proof (land_bound p4 0xF0).
  split; match goal with |- _ <= Z.lor ?a ?b <= _ => pose proof (lor_bound a b) end; lia.
Qed.

Lemma syn_smooth a x : averages 5 a -> keeps I (smooth_one a x) (fun r => averages 5 r.2).
Proof.
  intros [wn Ha]. apply syn_lift. destruct (filter_ok 5 s32 ltac:(lia) a wn x Ha) as (a' & E & Ha').
  eexists. split; [exact E|]. by eexists.
Qed.

Lemma syn_get_flt : keeps I (getp flt) (fun f => filters_ok f).
Proof. intros w Hw. do 2 eexists. split; [reflexivity|]. split; [done|]. apply Hw. Qed.

Lemma syn_smooth_two a1 a2 (f : SimpleAverage -> SimpleAverage -> Filters -> Filters) x y : averages 5 a1 -> averages 5 a2 ->
  (forall b1 b2 g, averages 5 b1 -> averages 5 b2 -> filters_ok g -> filters_ok (f b1 b2 g)) ->
  keeps I ('(x, ax) ← smooth_one a1 x; '(y, ay) ← smooth_one a2 y; set_flt (f ax ay);; mret (x, y)) holds_true.
Proof.
  intros H1 H2 Hf. eapply syn_bind; [by apply syn_smooth|]. intros [x' ax] Hax. eapply syn_bind; [by apply syn_smooth|].
  intros [y' ay] Hay. apply syn_seq; [|intros _; apply syn_skip]. apply syn_flt. intros g Hg. by apply Hf.
Qed.

Lemma syn_filter_primary x y : keeps I (filter_primary x y) holds_true.
Proof.
  unfold filter_primary. apply syn_seq; [apply syn_get|intros c']. apply syn_seq.
  { case_match; [|apply syn_skip]. eapply syn_bind; [apply syn_get_flt|]. intros f Hf.
    destruct (undo_one (x_undo f) x), (undo_one (y_undo f) y). apply syn_seq; [|intros _; apply syn_skip].
    apply syn_flt. intros g []. by split. }
  intros [x' y']. case_match; [|apply syn_skip]. eapply syn_bind; [apply syn_get_flt|]. intros f [].
  apply (syn_smooth_two _ _ (fun ax ay f => f <| x_avg := ax |> <| y_avg := ay |>)); [done|done|]. intros b1 b2 g ? ? []. by split.
Qed.

Lemma syn_filter_secondary x y : keeps I (filter_secondary x y) holds_true.
Proof.
  unfold filter_secondary. apply syn_seq; [apply syn_get|intros c']. apply syn_seq.
  { case_match; [|apply syn_skip]. eapply syn_bind; [apply syn_get_flt|]. intros f Hf.
    destruct (undo_one (x2_undo f) x), (undo_one (y2_undo f) y). apply syn_seq; [|intros _; apply syn_skip].
    apply syn_flt. intros g []. by split. }
  intros [x' y']. case_match; [|apply syn_skip]. eapply syn_bind; [apply syn_get_flt|]. intros f [].
  apply (syn_smooth_two _ _ (fun ax ay f => f <| x2_avg := ax |> <| y2_avg := ay |>)); [done|done|]. intros b1 b2 g ? ? []. by split.
Qed.

Lemma averages_reset N a : 0 < N -> averages N a -> averages N (average_reset a).
Proof. intros HN [wn Ha]. exists []. split; simpl; [apply Ha|done|done|lia|]. left. split; [lia|done]. Qed.

Lemma syn_reset_primary : keeps I (set_flt reset_primary) holds_true.
Proof. apply syn_flt. intros g []. split; simpl; try done; by apply averages_reset. Qed.
Lemma syn_reset_secondary : keeps I (set_flt reset_secondary) holds_true.
Proof. apply syn_flt. intros g []. split; simpl; try done; by apply averages_reset. Qed.

Hint Resolve syn_reset_history syn_filter_primary syn_filter_secondary syn_reset_primary syn_reset_secondary : syn.

(** ** Clicks and the second finger *)

Lemma syn_thinkpad p3 p4 p5 b : keeps I (thinkpad_buttons env p3 p4 p5 b) holds_true.
Proof. unfold thinkpad_buttons. syn. Qed.
Lemma syn_merge_click cb b : keeps I (merge_click env cb b) holds_true.
Proof. unfold merge_click. syn. Qed.
Hint Resolve syn_thinkpad syn_merge_click : syn.

Lemma syn_click_secondary p3 p4 p5 x y b t : keeps I (click_secondary env p3 p4 p5 x y b t) holds_true.
Proof. unfold click_secondary. syn. Qed.
Lemma syn_click_primary p3 p4 p5 x y z w b t : keeps I (click_primary env p3 p4 p5 x y z w b t) holds_true.
Proof. unfold click_primary. syn. Qed.
Hint Resolve syn_click_secondary syn_click_primary : syn.

Lemma syn_div a n : 0 < n -> keeps I (idiv a n) holds_true.
Proof. intros Hn. by eapply syn_mono; [apply syn_quot|]. Qed.
Lemma syn_mod a n : 0 < n -> keeps I (imod a n) holds_true.
Proof. intros Hn. by eapply syn_mono; [apply syn_rem|]. Qed.

Lemma syn_track_secondary x y b t : settings_ok c -> keeps I (track_secondary x y b t) holds_true.
Proof.
  intros [Hx Hy _ _ _ _ _ _ _ _ _]. unfold track_secondary. eapply syn_bind; [apply syn_get_id|]. intros p [[-> _ _ _ _ _] _].
  cbv zeta. case_match; [|apply syn_skip].
  apply syn_seq; [by apply syn_mod|intros rx]. apply syn_seq; [by apply syn_mod|intros ry].
  apply syn_seq; [apply syn_clk|intros _]. apply syn_seq; [syn|intros [dx dy]]. case_match; [apply syn_skip|].
  apply syn_seq; [by apply syn_div|intros qx]. apply syn_seq; [by apply syn_div|intros qy]. apply syn_pointer.
Qed.
Hint Resolve syn_track_secondary : syn.

Lemma syn_dispatchEW p : settings_ok c -> (6 <= length p)%nat -> keeps I (dispatchEventsWithPacketEW env p) holds_true.
Proof.
  intros Hc Hp. unfold dispatchEventsWithPacketEW. apply syn_seq; [apply syn_get|intros i]. case_match; [apply syn_skip|].
  do 6 (eapply syn_bind; [apply syn_byte; [done|lia]|intros ? ?]). case_match; [apply syn_skip|]. cbv zeta.
  apply syn_seq; [apply syn_scale; [done|by apply raw_secondary|by apply raw_secondary]|intros [xr yr]].
  eapply syn_bind; [apply syn_get_conf|intros ? ->]. case_match; [apply syn_skip|].
  apply syn_seq; [apply syn_get|intros k].
  destruct (if _reportsv k then _ else _) as [[x1 y1] z1].
  apply syn_seq; [apply syn_clock|intros t]. apply syn_seq; [apply syn_get|intros kk]. apply syn_seq; [syn|intros _].
  apply syn_seq; [apply syn_filter_secondary|intros [x y]]. case_match; [apply syn_skip|].
  apply syn_seq; [apply syn_get|intros k2]. apply syn_seq; [|intros _; apply syn_clk]. syn.
Qed.

Lemma syn_passthru p0 p1 p3 p4 p5 b t : keeps I (passthru_packet p0 p1 p3 p4 p5 b t) holds_true.
Proof. unfold passthru_packet. syn. Qed.

Lemma syn_disable_zone x y z w t : keeps I (disable_zone env x y z w t) holds_true.
Proof. unfold disable_zone. syn. Qed.
Hint Resolve syn_dispatchEW syn_passthru syn_disable_zone : syn.
End packets.

#[export] Hint Resolve syn_emit syn_clock syn_get syn_mid syn_clk syn_inp syn_caps syn_setTimer syn_cancelTimer syn_pointer syn_scroll
  syn_LED syn_setModeByte syn_setClickButtons syn_middle syn_reset_history syn_filter_primary syn_filter_secondary
  syn_reset_primary syn_reset_secondary syn_dispatchEW syn_passthru syn_disable_zone syn_click_primary : syn.

(** Steps through a routine, every branch. *)
Ltac syn := repeat first
  [ progress (intros; cbn beta zeta)
  | solve [eauto with syn nocore]
  | apply syn_send
  | apply syn_tch; solve [intros; simpl in *; auto; discriminate]
  | apply syn_when
  | apply syn_seq
  | case_match ].

Section fingers.
  Context (env : SEnv) (c : Settings) (d : Frame) (Hc : settings_ok c).

Abbreviation holds_true := (fun _ => True).

Lemma inv_weaken q s w : inv c d q s w -> inv c d false false w.
Proof. intros []. by split. Qed.
Lemma inv_unquiet q s w : inv c d q s w -> inv c d false s w.
Proof. intros []. by split. Qed.

(** Leaving the touch with several fingers. *)
Lemma takes_mode q f : (forall t, mode_ok c (touchmode t) -> mode_ok c (touchmode (f t))) ->
  (forall t, touchmode (f t) <> MODE_MTOUCH) -> takes (inv c d q false) (inv c d q true) (set_tch f) holds_true.
Proof.
  intros Hf Hm w [[] H Hq Hs]. exists tt. eexists. split; [reflexivity|]. split; [|done].
  split; [split; simpl; auto|exact H|exact Hq|]. simpl. intros _ E. by apply Hm in E.
Qed.

Lemma momentum_start_ok : takes (inv c d false true) (inv c d false false) momentum_start holds_true.
Proof.
  unfold momentum_start. intros w Hw. pose proof Hw as [[Hcf Hs Hr Hm [Hdy Hti Hcu Hin] Hf] Hl Hq Hst].
  unfold getp at 1. unfold mbind at 1, M_bind at 1, gets at 1. unfold id. rewrite Hcf.
  destruct (bool_decide _ && _ && _) eqn:Eb; [|exists tt, w; split; [done|split; [by apply inv_weaken in Hw|done]]].
  apply andb_true_iff in Eb as [[Emt%bool_decide_eq_true _]%andb_true_iff _]. specialize (Hst eq_refl (eq_sym Emt)).
  case_match; [|exists tt, w; split; [done|split; [by apply inv_weaken in Hw|done]]].
  pose proof Hti as [wt Ht]. rewrite (newest_ok 32 ltac:(lia) _ _ Ht), (oldest_ok 32 ltac:(lia) _ _ Ht).
  set (x := default 0 (last wt)). set (y := default 0 (head wt)).
  rewrite (bind_done _ _ w x w eq_refl), (bind_done _ _ w y w eq_refl). cbv zeta.
  pose proof (Z.mod_pos_bound (x - y) 18446744073709551616 ltac:(lia)) as Hint. fold (u64 (x - y)) in Hint. set (n := u64 (x - y)) in *.
  pose (w1 := w <| pad := (pad w) <| mom := (mom (pad w)) <| momentumscrollinterval := n |> |> |>).
  rewrite (bind_done _ _ w tt w1) by done.
  assert (inv c d false false w1) as Hw1.
  { split; [|exact Hl|done|done]. split; simpl; try done. }
  destruct (Z.eqb_spec n 0) as [E|E]; [by exists tt, w1|].
  pose (cur := s64 (u64 (momentumscrolltimer c * m_sum (dy_history (mom (pad w)))))).
  pose (w2 := w1 <| pad := (pad w1) <| mom := (mom (pad w1)) <| momentumscrollsum := m_sum (dy_history (mom (pad w))) |>
    <| momentumscrollcurrent := cur |> <| momentumscrollrest1 := 0 |> <| momentumscrollrest2 := 0 |> |> |>).
  rewrite (bind_done _ _ w1 tt w2) by done. apply (syn_setTimer c d false false ScrollTimer _ Logic.I).
  split; [|exact Hl|done|done]. split; simpl; try done. split; simpl; try done; [|lia].
  destruct Hdy as [wd Hd]. apply momentum_range; [apply Hs|]. rewrite (hw_sum _ _ _ Hd). apply int_range.
Qed.

Lemma tap_ok b t : takes (inv c d false false) (inv c d false true) (tap b t) holds_true.
Proof.
  unfold tap. eapply takes_bind; [apply (syn_get_id c d)|]. intros p [[-> _ _ _ _ _] _]. cbv zeta.
  assert (forall m (A : Type) (a : A), mode_ok c m -> m <> MODE_MTOUCH -> takes (inv c d false false) (inv c d false true)
    (set_tch (fun t => t <| touchmode := m |>);; mret a) holds_true) as Hmode.
  { intros m A a Hm Hne. eapply takes_seq; [by apply takes_mode|]. intros _. apply syn_skip. }
  destruct (touchmode (tch p)); try (apply Hmode; repeat case_match; done).
  eapply takes_seq; [|intros b'; by apply Hmode]. syn.
Qed.

Lemma long_touch_ok : takes (inv c d false false) (inv c d false true) long_touch holds_true.
Proof.
  unfold long_touch. eapply takes_bind; [apply (syn_get_id c d)|]. intros p [[-> _ _ _ _ _] Hd]. cbv zeta. rewrite Hd.
  destruct (_ && _) eqn:E; [|by apply takes_mode]. eapply takes_seq; [by apply takes_mode|intros _].
  apply syn_when. intros [E1%negb_true_iff E2]%andb_true_iff. rewrite E1, E2 in E. cbn in E.
  apply andb_true_iff in E as [_ [Ed _]%andb_true_iff].
  apply syn_seq; [by apply syn_cancelTimer|intros _; by apply syn_setTimer].
Qed.

Lemma lift_fingers_ok z b ta tn : keeps (inv c d false true) (lift_fingers z b ta tn) holds_true.
Proof.
  unfold lift_fingers. eapply syn_bind; [apply syn_get_id|]. intros p [[-> _ _ _ _ _] _]. cbv zeta. case_match; [|apply syn_skip].
  apply syn_seq; [apply syn_tch; [done|by intros t]|intros _]. apply syn_seq; [apply syn_clk|intros _].
  eapply takes_seq; [apply momentum_start_ok|intros _]. eapply takes_seq; [apply syn_reset_history|intros _].
  eapply takes_seq; [case_match; [apply tap_ok|eapply takes_seq; [apply long_touch_ok|intros _; apply syn_skip]]|].
  intros b'. apply syn_seq; [apply syn_tch; [done|by intros t]|intros _]. apply syn_skip.
Qed.

Lemma cancel_taps_ok x y z t : keeps (inv c d false true) (cancel_taps x y z t) holds_true.
Proof. unfold cancel_taps. syn. Qed.

Abbreviation I := (inv c d false true).

Lemma move_finger_ok x y : keeps I (move_finger x y) holds_true.
Proof.
  destruct Hc as [Hx Hy _ _ _ _ _ _ _ _ _]. unfold move_finger. eapply syn_bind; [apply syn_get_id|]. intros p [[-> _ _ _ _ _] _]. cbv zeta.
  apply syn_seq; [by apply syn_mod|intros rx]. apply syn_seq; [by apply syn_mod|intros ry]. syn.
Qed.

Lemma guarded_div a n : 0 <= n -> keeps I (if negb (n =? 0) then idiv a n else mret 0) holds_true.
Proof. intros Hn. destruct (Z.eqb_spec n 0); [apply syn_skip|]. apply syn_div. lia. Qed.
Lemma guarded_mod a n : 0 <= n -> keeps I (if negb (n =? 0) then imod a n else mret 0) holds_true.
Proof. intros Hn. destruct (Z.eqb_spec n 0); [apply syn_skip|]. apply syn_mod. lia. Qed.
Lemma guarded_both (f : Z -> Z -> M SWorld Z) a n b : 0 <= n -> (0 < n -> keeps I (f a n) holds_true) ->
  keeps I (if negb (n =? 0) && b then f a n else mret 0) holds_true.
Proof. intros Hn Hf. destruct (Z.eqb_spec n 0), b; try apply syn_skip. apply Hf. lia. Qed.

Lemma syn_get_mom : keeps I (getp mom) (fun m => momentum_ok m).
Proof. intros w Hw. do 2 eexists. split; [reflexivity|]. split; [done|]. apply Hw. Qed.

Lemma syn_average N cast a x : 0 < N < 2147483648 -> averages N a -> keeps I (lift (average_filter N cast a x)) (fun r => averages N r.2).
Proof.
  intros HN [wn Ha]. apply syn_lift. destruct (filter_ok N cast HN a wn x Ha) as (a' & E & Ha').
  eexists. split; [exact E|]. by eexists.
Qed.

Lemma record_scroll_ok dy t : keeps I (record_scroll dy t) holds_true.
Proof.
  unfold record_scroll. eapply syn_bind; [apply syn_get_mom|]. intros m [[wn Hn] _ _ _].
  eapply syn_seq; [apply syn_lift; eexists; split; [by apply (newest_ok 32 ltac:(lia) _ _ Hn)|done]|intros nw].
  apply syn_seq; [apply syn_when; intros; apply syn_reset_history|intros _].
  eapply syn_bind; [apply syn_get_mom|]. intros m' [Hd Ht _ _].
  eapply syn_bind; [by apply syn_average|]. intros [r1 h] Hh. eapply syn_bind; [by apply syn_average|]. intros [r2 th] Hth.
  apply syn_mom; [|done]. intros m2 []. by split.
Qed.

Lemma scroll_fingers_ok x y z w f ta tn : keeps I (scroll_fingers x y z w f ta tn) holds_true.
Proof.
  destruct Hc as [_ _ _ _ _ Hwv Hwh _ _ _ _]. unfold scroll_fingers. eapply syn_bind; [apply syn_get_id|].
  intros p [[-> _ _ _ _ _] _]. cbv zeta.
  do 2 (case_match; [apply syn_skip|]). case_match; [syn|]. case_match; [apply syn_skip|].
  apply syn_seq; [by apply guarded_mod|intros ry]. apply syn_seq; [apply guarded_both; [done|intros; by apply syn_mod]|intros rx].
  apply syn_seq; [apply syn_tch; [done|by intros t]|intros _].
  apply syn_seq; [apply record_scroll_ok|intros _].
  apply syn_seq; [syn|intros dx']. apply syn_seq; [syn|intros dy']. case_match; [|apply syn_skip].
  apply syn_seq; [by apply guarded_div|intros qy]. apply syn_seq; [apply guarded_both; [done|intros; by apply syn_div]|intros qx]. syn.
Qed.

Lemma swipe_ok x y t : keeps I (swipe x y t) holds_true.
Proof. unfold swipe. syn. Qed.

Lemma multi_touch_ok x y z w f ta tn : keeps I (multi_touch x y z w f ta tn) holds_true.
Proof.
  unfold multi_touch. apply syn_seq; [apply syn_get|intros p]. cbv zeta. case_match; [apply syn_seq; [apply swipe_ok|intros; apply syn_skip]|].
  case_match; [case_match; [apply move_finger_ok|apply syn_skip]|apply scroll_fingers_ok].
Qed.

Lemma edge_scroll_ok a n thresh t f : 0 < n -> keeps I (edge_scroll a n thresh t f) holds_true.
Proof.
  intros Hn. unfold edge_scroll. apply syn_seq; [by apply syn_mod|intros r]. apply syn_seq; [syn|intros _]. case_match; [syn|].
  case_match; [|apply syn_skip]. apply syn_seq; [by apply syn_div|intros qq]. syn.
Qed.

Lemma touch_motion_ok x y z w f b ta tn : keeps I (touch_motion x y z w f b ta tn) holds_true.
Proof.
  unfold touch_motion. eapply syn_bind; [apply syn_get_id|]. intros p [[-> [] _ Hm _ _] _]. cbv zeta.
  assert (forall (m : M SWorld (Z * Z)) (b : Z), keeps I m holds_true -> keeps I ('(dx, dy) ← m; mret (dx, dy, b)) holds_true) as Hdel.
  { intros m b' Hmm. apply syn_seq; [done|]. intros [dx dy]. apply syn_skip. }
  destruct (touchmode (tch p)); simpl in Hm; repeat first [ apply syn_skip | apply Hdel | apply move_finger_ok | apply multi_touch_ok
    | apply edge_scroll_ok; lia | case_match | apply syn_seq; [apply syn_tch; [done|by intros t]|intros _] ].
Qed.

Lemma capture_touch_ok x y z w t : takes I (inv c d (isFingerTouch c z) true) (capture_touch x y z w t) holds_true.
Proof.
  unfold capture_touch. eapply takes_bind; [apply (syn_get_id c d)|]. intros p [[-> _ _ _ _ _] _]. cbv zeta.
  destruct (isFingerTouch c z); [|apply syn_skip]. apply takes_seq with (J := I); [syn|intros _].
  intros w0 [[] H Hq Hs]. exists tt. eexists. split; [reflexivity|]. split; [|done]. split; [|exact H|done|done].
  split; simpl; try done. destruct po_momentum0. split; simpl; try done.
Qed.
(** With a finger down there is no momentum, so that several fingers may start. *)
Lemma syn_quiet_tch f s : (forall t, mode_ok c (touchmode t) -> mode_ok c (touchmode (f t))) ->
  keeps (inv c d true s) (set_tch f) holds_true.
Proof.
  intros Hf w [[] H Hq Hs]. exists tt. eexists. split; [reflexivity|]. split; [|done].
  split; [split; simpl; auto|exact H|exact Hq|]. intros _ _. by apply Hq.
Qed.

(** Entering a mode that is not the one of several fingers. *)
Lemma syn_mode q f : (forall t, mode_ok c (touchmode (f t))) -> (forall t, touchmode (f t) <> MODE_MTOUCH) ->
  keeps (inv c d q true) (set_tch f) holds_true.
Proof. intros Hf Hm. apply syn_tch; [auto|]. intros t E. by apply Hm in E. Qed.

Lemma switch_modes_ok x y z w : keeps (inv c d (isFingerTouch c z) true) (switch_modes x y z w) holds_true.
Proof.
  unfold switch_modes. eapply syn_bind; [apply syn_get_conf|]. intros ? ->. cbv zeta.
  assert (forall b m, (b = true -> mode_ok c m) -> m <> MODE_MTOUCH -> keeps (inv c d (isFingerTouch c z) true)
    (when b (set_tch (fun t => t <| touchmode := m |>))) holds_true) as Hmode.
  { intros b m Hm Hne. apply syn_when. intros Hb. apply syn_mode; simpl; auto. }
  assert (forall b m, (b = true -> mode_ok c m) -> m <> MODE_MTOUCH -> keeps (inv c d (isFingerTouch c z) true)
    (when b (set_tch (fun t => t <| touchmode := m |> <| scrollrest := 0 |>))) holds_true) as Hscroll.
  { intros b m Hm Hne. apply syn_when. intros Hb. apply syn_mode; simpl; auto. }
  apply syn_seq; [apply syn_get|intros t]. apply syn_seq; [apply syn_get|intros i].
  apply syn_seq; [apply syn_when; intros _; apply syn_mode; done|intros _].
  apply syn_seq; [apply syn_get|intros t2]. apply syn_seq.
  { case_match; [|apply syn_skip]. intros w0 Hw. pose proof (st_frame _ _ _ (iv_life _ _ _ _ _ Hw)) as Hd.
    unfold getp, gets. unfold mbind at 1, M_bind at 1. replace (dragTimer (life (pad w0))) with (fr_drag d) by (by rewrite Hd).
    apply (syn_seq (inv c d (isFingerTouch c z) true)); [|intros _; by apply syn_mode|done].
    apply syn_when. intros Ed. by apply syn_cancelTimer. }
  intros _. apply syn_seq; [apply syn_get|intros t3]. apply syn_seq.
  { apply syn_when. intros [_ Ht]%andb_true_iff. rewrite Ht. apply syn_seq; [by apply syn_quiet_tch|intros _; apply syn_clk]. }
  intros _. apply syn_seq; [apply syn_get|intros t4]. apply syn_seq; [apply Hmode; [|done]|intros _].
  { intros [[[[_ Hn%negb_true_iff%Z.eqb_neq]%andb_true_iff _]%andb_true_iff _]%andb_true_iff _]%andb_true_iff. done. }
  apply syn_seq; [apply syn_get|intros t5]. apply syn_seq; [apply Hscroll; [|done]|intros _].
  { intros [[_ Hn%negb_true_iff%Z.eqb_neq]%andb_true_iff _]%andb_true_iff. done. }
  apply syn_seq; [apply syn_get|intros t6]. apply syn_seq; [apply Hscroll; [|done]|intros _].
  { intros [[[_ Hn%negb_true_iff%Z.eqb_neq]%andb_true_iff _]%andb_true_iff _]%andb_true_iff. done. }
  apply syn_seq; [apply syn_get|intros t7]. by apply Hmode.
Qed.

Lemma dispatch_motion_ok dx dy b t : keeps I (dispatch_motion dx dy b t) holds_true.
Proof.
  destruct Hc as [Hx Hy _ _ _ _ _ _ _ _ _]. unfold dispatch_motion. eapply syn_bind; [apply syn_get_id|].
  intros p [[-> _ _ _ _ _] _]. cbv zeta.
  assert (forall b', keeps I (qx ← idiv dx (divisorx c); qy ← idiv dy (divisory c); dispatchRelativePointerEventX qx qy b' t) holds_true) as Hsend.
  { intros b'. apply syn_seq; [by apply syn_div|intros qx]. apply syn_seq; [by apply syn_div|intros qy]. apply syn_pointer. }
  case_match; [apply Hsend|]. case_match; [apply syn_clk|]. apply syn_seq; [|intros _; apply syn_clk].
  case_match; [apply syn_when; intros _; apply Hsend|apply Hsend].
Qed.

Lemma finger_change_ok f : keeps I (finger_change f) holds_true.
Proof. unfold finger_change. syn. Qed.
Lemma ignore_deltas_ok x y : keeps I (ignore_deltas x y) holds_true.
Proof. unfold ignore_deltas. syn. Qed.

Lemma touchpad_packet_ok p1 p2 p3 p4 p5 w br b ta tn : is_u8 p4 -> is_u8 p5 ->
  keeps I (touchpad_packet env p1 p2 p3 p4 p5 w br b ta tn) holds_true.
Proof.
  intros H4 H5. unfold touchpad_packet. destruct (raw_primary p1 p3 p4 p5 H4 H5) as [Hx Hy].
  apply syn_seq; [by apply syn_scale|intros [x0 y0]]. eapply syn_bind; [apply syn_get_conf|]. intros ? ->.
  apply syn_seq; [apply syn_get|intros k]. cbv zeta. destruct (if _extendedwmode k && _ && _ then _ else _) as [[xr yr] z].
  apply syn_seq; [apply syn_get|intros p]. apply syn_seq; [syn|intros b1]. apply syn_seq; [apply finger_change_ok|intros _].
  apply syn_seq; [apply syn_filter_primary|intros [x y]]. apply syn_seq; [apply ignore_deltas_ok|intros _].
  apply syn_seq; [syn|intros b2]. apply syn_seq; [apply syn_get|intros i]. case_match; [apply syn_skip|].
  apply syn_seq; [apply syn_disable_zone|intros used]. case_match; [apply syn_skip|].
  apply syn_seq; [apply syn_get|intros i2]. case_match; [apply syn_skip|].
  apply syn_seq; [apply lift_fingers_ok|intros b3]. apply syn_seq; [apply cancel_taps_ok|intros _].
  apply syn_seq; [apply touch_motion_ok|intros [[dx dy] b4]].
  eapply takes_seq; [apply capture_touch_ok|intros _]. eapply takes_seq; [apply switch_modes_ok|intros _].
  intros w0 Hw%inv_unquiet. revert w0 Hw. apply syn_seq; [apply dispatch_motion_ok|intros _].
  apply syn_tch; [done|by intros t].
Qed.

(** A packet keeps the invariant. *)
Lemma dispatch_packet_ok p : (6 <= length p)%nat -> keeps I (dispatchEventsWithPacket env p) holds_true.
Proof.
  intros Hp. unfold dispatchEventsWithPacket. apply syn_seq; [apply syn_clock|intros ta]. cbv zeta.
  do 6 (eapply syn_bind; [apply syn_byte; [done|lia]|intros ? ?]). apply syn_seq; [apply syn_get|intros k].
  case_match; [by apply syn_dispatchEW|]. apply syn_seq; [syn|intros _]. apply syn_seq; [apply syn_get|intros i].
  apply syn_seq; [apply syn_tch; [done|by intros t]|intros _]. apply syn_seq; [syn|intros b].
  case_match; [apply syn_passthru|by apply touchpad_packet_ok].
Qed.
End fingers.
