(* ===== verification/SynapticsEntry.v ===== *)
(** * SynapticsEntry: the touchpad driver from init to stop

    Packet assembly refines an abstract assembler; the entry points, in any
    order, keep the invariant of SynapticsSpec; init, probe, start and stop. *)

From S2P Require Import Prelude RingBuffer PS2Defs Controller Config Pointing Averages Synaptics SynapticsSpec.
From Stdlib Require String.

#[local] Open Scope string_scope.
#[local] Open Scope list_scope.
#[local] Open Scope Z_scope.

(** ** Packet assembly *)

(** Abstract state: the bytes of the packet so far and the last byte. *)
Record Assembler := mkAssembler {
  a_bytes : list Z;
  a_last : Z;
}.

(** Bytes 0 and 3 of a packet are marked. *)
Definition byte0_ok (data : Z) : bool := Z.land data 0xc8 =? 0x80.
Definition byte3_ok (data : Z) : bool := Z.land data 0xc8 =? 0xc0.

(** One byte from the touchpad: the new state and what is queued, a packet or
    0 and the reason for throwing bytes away. *)
Definition assemble_byte (a : Assembler) (data : Z) : Assembler * option (list Z) :=
  if (a_last a =? 0xAA) && (data =? 0) then (mkAssembler [] (a_last a), Some [0; 0xAA])
  else if bool_decide (a_bytes a = []) && negb (byte0_ok data) then (mkAssembler [] data, Some [0; 0])
  else if bool_decide (length (a_bytes a) = 3%nat) && negb (byte3_ok data) then (mkAssembler [] data, Some [0; 3])
  else
    let bytes := a_bytes a ++ [data] in
    if bool_decide (length bytes = 6%nat) then (mkAssembler [] data, Some bytes) else (mkAssembler bytes data, None).

(** The driver's state represents the assembler's. *)
Record assembles (l : Life) (a : Assembler) : Prop := {
  as_count : _packetByteCount l = Z.of_nat (length (a_bytes a));
  as_last : _lastdata l = a_last a;
  as_bytes : exists b0, head_block kPacketLength (_ringBuffer l) = written (indexed (a_bytes a)) b0;
}.

Definition set_asm (l : Life) (rb : RingBuffer Z) (n last : Z) : Life :=
  l <| _ringBuffer := rb |> <| _packetByteCount := n |> <| _lastdata := last |>.
Definition with_life (w : SWorld) (l : Life) : SWorld := w <| pad := (pad w) <| life := l |> |>.

Abbreviation packets_of := (queue_of ringSize kPacketLength).

Definition queued (q : list (list (Z * Z))) (p : option (list Z)) : list (list (Z * Z)) :=
  match p with Some b => Fifo.push 31 q (indexed b) | None => q end.

Lemma push_reason_ok w q r : packets_of (_ringBuffer (life (pad w))) q ->
  exists rb, push_reason r w = Done (tt, with_life w ((life (pad w)) <| _ringBuffer := rb |>)) /\
    packets_of rb (Fifo.push 31 q (indexed [0; r])).
Proof.
  intros Hq. destruct (queue_head_set _ _ _ _ 0 0 Hq) as (rb1 & E1 & Hq1 & Hb1); [unfold kPacketLength; lia|].
  destruct (queue_head_set _ _ _ _ 1 r Hq1) as (rb2 & E2 & Hq2 & Hb2); [unfold kPacketLength; lia|].
  exists (advanceHead ringSize rb2 kPacketLength). split.
  - unfold push_reason, getp, set_life, setp. munfold. rewrite E1. cbn beta iota. rewrite E2. done.
  - apply (queue_advance ringSize kPacketLength); [done|].
    exists (head_block kPacketLength (_ringBuffer (life (pad w)))). by rewrite Hb2, Hb1.
Qed.

(** After a byte: the assembler and the queue; nothing else has changed. *)
Definition assembled (w w' : SWorld) (a' : Assembler) (q' : list (list (Z * Z))) : Prop :=
  exists rb n last, w' = with_life w (set_asm (life (pad w)) rb n last) /\ (length (a_bytes a') < 6)%nat /\
    assembles (life (pad w')) a' /\ packets_of rb q'.

Lemma assembled_empty w w' q last rb : w' = with_life w (set_asm (life (pad w)) rb 0 last) -> packets_of rb q ->
  assembled w w' (mkAssembler [] last) q.
Proof.
  intros -> Hq. exists rb, 0, last. split; [done|]. split; [simpl; lia|]. split; [|done]. split; [done|done|]. by eexists.
Qed.

Lemma pad_interrupt_refines w a data q :
  ring_ok (life (pad w)) -> assembles (life (pad w)) a -> packets_of (_ringBuffer (life (pad w))) q ->
  let '(a', p) := assemble_byte a data in
  exists w', interruptOccurred data w = Done (ready_if p, w') /\ assembled w w' a' (queued q p).
Proof.
  intros [Hc _] [Hcnt Hlast [b0 Hb]] Hq. unfold assemble_byte, interruptOccurred, getp, byte0_ok, byte3_ok.
  unfold mbind at 1, M_bind at 1, gets at 1.
  rewrite Hlast, (Z.eqb_sym kSC_Reset), (Z.eqb_sym 0), (Z.eqb_sym 0), (Z.eqb_sym 3). unfold kSC_Reset at 1.
  destruct ((a_last a =? 0xAA) && (data =? 0)) eqn:Er.
  { destruct (push_reason_ok w q 0xAA Hq) as (rb & E & Hq'). change kSC_Reset with 0xAA. rewrite (bind_done _ _ _ _ _ E).
    eexists. split; [reflexivity|]. eapply assembled_empty; [|exact Hq']. rewrite <- Hlast. by destruct w as [[? [] ? ? ? ? ? ? ?] ? ?]. }
  pose (w1 := with_life w ((life (pad w)) <| _lastdata := data |>)). rewrite (bind_done _ _ w tt w1) by done.
  assert ((_packetByteCount (life (pad w)) =? 0) = bool_decide (a_bytes a = [])) as ->.
  { rewrite Hcnt. destruct (a_bytes a); [done|]. by rewrite bool_decide_eq_false_2. }
  destruct (bool_decide (a_bytes a = []) && _) eqn:E0.
  { destruct (push_reason_ok w1 q 0 Hq) as (rb & E & Hq'). rewrite (bind_done _ _ _ _ _ E).
    apply andb_true_iff in E0 as [E0%bool_decide_eq_true _]. rewrite E0 in Hcnt.
    eexists. split; [reflexivity|]. eapply assembled_empty; [|exact Hq'].
    destruct w as [[? [] ? ? ? ? ? ? ?] ? ?]. simpl in *. by rewrite Hcnt. }
  assert ((_packetByteCount (life (pad w)) =? 3) = bool_decide (length (a_bytes a) = 3%nat)) as ->.
  { rewrite Hcnt. apply Bool.eq_iff_eq_true. rewrite Z.eqb_eq, bool_decide_eq_true. lia. }
  destruct (bool_decide (length (a_bytes a) = 3%nat) && _) eqn:E3.
  { destruct (push_reason_ok w1 q 3 Hq) as (rb & E & Hq'). rewrite (bind_done _ _ _ _ _ E).
    eexists. split; [reflexivity|]. eapply assembled_empty; [|exact Hq']. by destruct w as [[? [] ? ? ? ? ? ? ?] ? ?]. }
  destruct (queue_head_set _ _ _ _ (_packetByteCount (life (pad w))) data Hq) as (rb & E & Hq1 & Hb1); [done|].
  unfold mbind at 1, M_bind at 1, lift at 1. rewrite E. cbn beta iota zeta.
  assert (u32 (_packetByteCount (life (pad w)) + 1) = Z.of_nat (length (a_bytes a ++ [data]))) as ->.
  { unfold kPacketLength in Hc. rewrite Hcnt, length_app in *. simpl. unfold u32. rewrite Z.mod_small; lia. }
  set (n := Z.of_nat (length (a_bytes a ++ [data]))).
  pose (w2 := with_life w1 ((life (pad w1)) <| _ringBuffer := rb |> <| _packetByteCount := n |>)).
  rewrite (bind_done _ _ w1 tt w2) by done.
  assert (head_block kPacketLength rb = written (indexed (a_bytes a ++ [data])) b0) as Hb2.
  { rewrite written_snoc, <- Hb, Hb1, Hcnt. by rewrite Nat2Z.id. }
  assert ((kPacketLength =? n) = bool_decide (length (a_bytes a ++ [data]) = 6%nat)) as ->.
  { unfold kPacketLength, n. apply Bool.eq_iff_eq_true. rewrite Z.eqb_eq, bool_decide_eq_true. lia. }
  destruct (bool_decide (length (a_bytes a ++ [data]) = 6%nat)) eqn:E6; (eexists; split; [reflexivity|]).
  - apply (assembled_empty _ _ _ _ (advanceHead ringSize rb kPacketLength)); [by destruct w as [[? [] ? ? ? ? ? ? ?] ? ?]|].
    apply (queue_advance ringSize kPacketLength); [done|by exists b0].
  - apply bool_decide_eq_false in E6. unfold kPacketLength in Hc. exists rb, n, data.
    split; [by destruct w as [[? [] ? ? ? ? ? ? ?] ? ?]|]. split; [simpl; rewrite length_app in *; simpl in *; lia|].
    split; [|done]. split; simpl; eauto.
Qed.

(** ** Bytes and drains *)

(** A started driver between two entry points; [b]: there is a timer for buttons. *)
Definition live (b : bool) (c : Settings) (w : SWorld) : Prop := exists d, inv c d false true w /\ fr_button d = b.

Lemma inv_asm c d w rb n last : inv c d false true w -> aligned ringSize kPacketLength rb -> 0 <= n < kPacketLength ->
  inv c (mkFrame (fr_button d) (fr_drag d) rb n last) false true (with_life w (set_asm (life (pad w)) rb n last)).
Proof.
  intros [[] [S1 S2 S3 S4 S5] Hq Hs] Hrb Hn. split; [|by split; simpl; try done; rewrite S4|exact Hq|exact Hs].
  split; simpl; try done.
Qed.

Lemma interrupt_ok c d w a data q :
  inv c d false true w -> assembles (life (pad w)) a -> packets_of (_ringBuffer (life (pad w))) q ->
  let '(a', p) := assemble_byte a data in
  exists w', interruptOccurred data w = Done (ready_if p, w') /\ live (fr_button d) c w' /\ assembles (life (pad w')) a' /\
    packets_of (_ringBuffer (life (pad w'))) (queued q p).
Proof.
  intros Hw Ha Hq. pose proof (pad_interrupt_refines w a data q (po_ring _ _ (iv_pad _ _ _ _ _ Hw)) Ha Hq) as H.
  destruct (assemble_byte a data) as [a' p]. destruct H as (w' & E & rb & n & last & -> & Hl & Ha' & Hq').
  eexists. split; [exact E|]. split; [|by split]. exists (mkFrame (fr_button d) (fr_drag d) rb n last). split; [|done].
  apply (inv_asm c d); [done|apply Hq'|].
  pose proof (as_count _ _ Ha') as Hn. simpl in Hn. unfold kPacketLength. lia.
Qed.

Section draining.
  Context (env : SEnv) (c : Settings).

Lemma packets_bound (rb : RingBuffer Z) q : packets_of rb q -> (length q <= 31)%nat.
Proof.
  intros Hq. pose proof (queue_of_len _ _ _ _ Hq) as Hl. destruct (aligned_len _ _ _ (proj1 Hq)) as (_ & Hb & _).
  unfold ringSize, kPacketLength in *. lia.
Qed.

Lemma handle_ok d p : settings_ok c -> (6 <= length p)%nat ->
  takes (inv c d false true) (inv c d false true)
    (p0 ← lift (aget p 0); if negb (0x00 =? p0) then dispatchEventsWithPacket env p else mret tt) (fun _ => True).
Proof.
  intros Hc Hp. eapply syn_seq; [apply syn_lift; destruct (aget_ok p 0) as (v & E & _); [lia|by exists v]|intros p0].
  case_match; [by apply dispatch_packet_ok|apply syn_skip].
Qed.

Lemma pad_drain_ok n d w q : inv c d false true w -> packets_of (fr_ring d) q -> (length q <= n)%nat ->
  exists w' rb, packetReady_loop env n w = Done (tt, w') /\ packets_of rb [] /\
    m_head rb = m_head (fr_ring d) /\ RingBuffer.m_buffer rb = RingBuffer.m_buffer (fr_ring d) /\
    inv c (mkFrame (fr_button d) (fr_drag d) rb (fr_count d) (fr_last d)) false true w'.
Proof.
  revert d w q. induction n as [|n IH]; intros d w [|ws q] Hw Hq Hn; try (simpl in Hn; lia); cbn [packetReady_loop];
    unfold mbind at 1, M_bind at 1, getp at 1, gets at 1;
    pose proof (st_frame _ _ _ (iv_life _ _ _ _ _ Hw)) as Hf;
    (replace (_ringBuffer (life (pad w))) with (fr_ring d) by (by rewrite Hf)).
  1, 2: rewrite count_len, (queue_of_len _ _ _ _ Hq) by apply Hq; simpl; exists w, (fr_ring d);
    (split; [done|split; [done|split; [done|split; [done|by destruct d]]]]).
  destruct (queue_head _ _ _ _ _ Hq) as (Ec & Et & Hm & Hq'). set (p := slice _ _ _) in *.
  rewrite Ec. unfold mbind at 1, M_bind at 1, lift at 1. rewrite Et. cbn beta iota.
  assert (6 <= length p)%nat as Hp by (destruct Hm as [Hm _]; unfold kPacketLength in Hm; lia).
  destruct (handle_ok d p (po_settings _ _ (iv_pad _ _ _ _ _ Hw)) Hp w Hw) as ([] & w1 & E1 & Hw1 & _).
  unfold mbind at 1, M_bind at 1, lift at 1 in E1. unfold mbind at 1, M_bind at 1, lift at 1.
  destruct (aget p 0) as [p0| |]; [|done|done]. cbn beta iota in E1 |- *. rewrite (bind_done _ _ _ _ _ E1).
  pose proof (st_frame _ _ _ (iv_life _ _ _ _ _ Hw1)) as Hf1.
  pose (rb := advanceTail ringSize (fr_ring d) kPacketLength). pose proof (ro_count _ (po_ring _ _ (iv_pad _ _ _ _ _ Hw1))) as Hcnt.
  pose (w2 := with_life w1 (set_asm (life (pad w1)) rb (_packetByteCount (life (pad w1))) (_lastdata (life (pad w1))))).
  rewrite (bind_done _ _ w1 tt w2) by (unfold w2, rb; rewrite Hf1; by destruct w1 as [[? [] ? ? ? ? ? ? ?] ? ?]).
  destruct (IH (mkFrame (fr_button d) (fr_drag d) rb (fr_count d) (fr_last d)) w2 q) as (w' & rb' & E & Hq2 & Hh & Hb & Hi).
  - unfold w2. replace (fr_count d) with (_packetByteCount (life (pad w1))) by (by rewrite Hf1).
    replace (fr_last d) with (_lastdata (life (pad w1))) by (by rewrite Hf1). apply (inv_asm c d); [done|apply Hq'|done].
  - done.
  - simpl in Hn. lia.
  - exists w', rb'. by rewrite Hh, Hb.
Qed.

Lemma packetReady_ok d w a q : inv c d false true w -> assembles (life (pad w)) a -> packets_of (_ringBuffer (life (pad w))) q ->
  exists w', packetReady env w = Done (tt, w') /\ live (fr_button d) c w' /\ assembles (life (pad w')) a /\ packets_of (_ringBuffer (life (pad w'))) [].
Proof.
  intros Hw [A1 A2 A3] Hq. pose proof (packets_bound _ _ Hq). pose proof (st_frame _ _ _ (iv_life _ _ _ _ _ Hw)) as Hf.
  destruct (pad_drain_ok 32 d w q Hw) as (w' & rb & E & Hq' & Hh & Hb & Hi); [by rewrite Hf|lia|].
  pose proof (st_frame _ _ _ (iv_life _ _ _ _ _ Hi)) as Hf'. injection Hf' as F0 F1 F2 F3 F4. rewrite Hf in *. simpl in *.
  exists w'. split; [exact E|]. split; [eexists; by split|]. rewrite <- F2. split; [|done].
  split; [congruence|congruence|]. rewrite <- F2. unfold head_block in *. by rewrite Hh, Hb.
Qed.
End draining.

Inductive SInput := SByte (data : Z) | SDrain.

Fixpoint run_sinputs (env : SEnv) (ins : list SInput) : M SWorld (list PS2InterruptResult) :=
  match ins with
  | [] => mret []
  | SByte data :: ins => r ← interruptOccurred data; rs ← run_sinputs env ins; mret (r :: rs)
  | SDrain :: ins => packetReady env;; run_sinputs env ins
  end.

Fixpoint assemble_inputs (ins : list SInput) (a : Assembler) (q : list (list Z)) : Assembler * list (list Z) * list PS2InterruptResult :=
  match ins with
  | [] => (a, q, [])
  | SByte data :: ins =>
      let '(a', p) := assemble_byte a data in
      let '(a2, q2, rs) := assemble_inputs ins a' (enqueued q p) in
      (a2, q2, ready_if p :: rs)
  | SDrain :: ins => assemble_inputs ins a []
  end.

Definition holds (rb : RingBuffer Z) (q : list (list Z)) : Prop := packets_of rb (indexed <$> q).

Lemma queued_indexed q p : queued (indexed <$> q) p = indexed <$> enqueued q p.
Proof. destruct p; [|done]. apply push_indexed. Qed.

Lemma pad_session_ok env ins b c w a q :
  live b c w -> assembles (life (pad w)) a -> holds (_ringBuffer (life (pad w))) q ->
  let '(a', q', rs) := assemble_inputs ins a q in
  exists w', run_sinputs env ins w = Done (rs, w') /\ live b c w' /\ assembles (life (pad w')) a' /\
    holds (_ringBuffer (life (pad w'))) q'.
Proof.
  revert w a q. induction ins as [|[data|] ins IH]; intros w a q (d & Hw & <-) Ha Hq; cbn [assemble_inputs run_sinputs].
  - exists w. split; [done|]. split; [by exists d|done].
  - pose proof (interrupt_ok c d w a data _ Hw Ha Hq) as Hb. destruct (assemble_byte a data) as [a1 p].
    destruct Hb as (w1 & E1 & Hw1 & Ha1 & Hq1). rewrite queued_indexed in Hq1.
    specialize (IH w1 a1 _ Hw1 Ha1 Hq1). destruct (assemble_inputs ins a1 _) as [[a2 q2] rs].
    destruct IH as (w2 & E2 & IH). exists w2. split; [|done]. by rewrite (bind_done _ _ _ _ _ E1), (bind_done _ _ _ _ _ E2).
  - destruct (packetReady_ok env c d w a _ Hw Ha Hq) as (w1 & E1 & Hw1 & Ha1 & Hq1).
    specialize (IH w1 a [] Hw1 Ha1 Hq1). destruct (assemble_inputs ins a []) as [[a2 q2] rs]. by rewrite (bind_done _ _ _ _ _ E1).
Qed.

(** C10: Whatever bytes the touchpad sends and however draining interleaves with
    them, the interrupt routine returns what the abstract assembler returns and
    the ring buffer holds its queue: packets of six bytes with the marks of
    bytes 0 and 3, and a note for each run of bytes thrown away, never a torn
    packet; every packet is dispatched without undefined behaviour. *)
Theorem synaptics_session env ins b c w a q :
  live b c w -> assembles (life (pad w)) a -> holds (_ringBuffer (life (pad w))) q ->
  let '(a', q', rs) := assemble_inputs ins a q in
  exists w', run_sinputs env ins w = Done (rs, w') /\ live b c w' /\ assembles (life (pad w')) a' /\
    holds (_ringBuffer (life (pad w'))) q'.
Proof. apply pad_session_ok. Qed.

(** ** A concrete driver *)

Lemma init_pad_ok : pad_ok init_settings init.
Proof.
  split; try done.
  - split; [simpl; unfold kPacketLength; lia|]. simpl.
    split; [split; vm_compute; intuition congruence|unfold ringSize, kPacketLength; lia| | |]; apply Z.mod_divide; done.
  - split; [eexists; by apply (holds_new 32)..|simpl; lia|done].
  - split; eexists; by apply (holds_new 5).
Qed.

(** A machine whose touchpad never answers. *)
Definition dead_pad : SEnv := {|
  uptime := fun n => 1000000 * Z.of_nat n; absolutetime_to_nanoseconds := id;
  submit := fun _ r => r <| commandsCount := 0 |>;
  getWorkLoop := true; alloc_gate := true; alloc_buttonTimer := true; alloc_scrollTimer := true; alloc_dragTimer := true;
  has_TPDN := false; version_major := 15; version_minor := 0;
  bt := {| kBluetoothDeviceClassMajorPeripheral := 5; kBluetoothDeviceClassMinorPeripheral1Pointing := 32;
           kBluetoothDeviceClassMinorPeripheral1Combo := 48; kBluetoothDeviceClassMinorPeripheral2Unclassified := 0;
           kBluetoothDeviceClassMinorPeripheral2DigitizerTablet := 5; kBluetoothDeviceClassMinorPeripheral2DigitalPen := 7 |};
  hid := {| kIOHIDScrollResolutionKey := "HIDScrollResolution"; kIOHIDScrollAccelerationTypeKey := "HIDScrollAccelerationType";
            kIOHIDPointerAccelerationTypeKey := "HIDPointerAccelerationType";
            kIOHIDMouseAccelerationType := "HIDMouseAcceleration"; kIOHIDTrackpadAccelerationType := "HIDTrackpadAcceleration";
            kIOHIDTrackpadScrollAccelerationKey := "HIDTrackpadScrollAcceleration" |};
|}.

Definition started_life : Life :=
  (life init) <| _device := true |> <| _cmdGate := true |> <| scrollTimer := true |> <| dragTimer := true |> <| attachedHIDPointerDevices := Some ∅ |>.
Definition started_pad : SWorld := mkSWorld (init <| life := started_life |>) 0 [].

Lemma started_live : live false init_settings started_pad.
Proof.
  exists (mkFrame false true (_ringBuffer started_life) 0 0). split; [|done]. destruct init_pad_ok.
  split; [split; try done; by destruct po_ring|split; try done|done|done].
Qed.
Lemma pad_started_assembles : assembles (life (pad started_pad)) (mkAssembler [] 0).
Proof. split; [done|done|]. by eexists. Qed.
Lemma pad_started_holds : holds (_ringBuffer (life (pad started_pad))) [].
Proof. split; [apply init_pad_ok|]. by exists []. Qed.

(** A stray byte, then a packet that a drain splits. *)
Lemma synaptics_session_witness : exists w' a',
  run_sinputs dead_pad (map SByte [0x10; 0x90; 0x44; 0x50] ++ [SDrain] ++ map SByte [0xC0; 0x10; 0x20]) started_pad =
    Done ([kPS2IR_packetReady] ++ replicate 5 kPS2IR_packetBuffering ++ [kPS2IR_packetReady], w') /\
  assembles (life (pad w')) a' /\ holds (_ringBuffer (life (pad w'))) [[0x90; 0x44; 0x50; 0xC0; 0x10; 0x20]].
Proof.
  pose proof (synaptics_session dead_pad (map SByte [0x10; 0x90; 0x44; 0x50] ++ [SDrain] ++ map SByte [0xC0; 0x10; 0x20]) false init_settings
    started_pad (mkAssembler [] 0) [] started_live pad_started_assembles pad_started_holds) as H.
  destruct H as (w' & E & _ & Ha & Hq). exists w'. eexists. split; [exact E|]. split; [exact Ha|exact Hq].
Defined.

(** ** Messages, other pointing devices, power *)

(** Data of the type the message calls for. *)
Definition payload_ok (type : PS2Message) (p : Payload) : Prop :=
  match type, p with
  | kPS2M_getDisableTouchpad, PBool _ | kPS2M_setDisableTouchpad, PBool _ | kPS2M_notifyKeyPressed, PKeyInfo _ => True
  | kPS2M_getDisableTouchpad, _ | kPS2M_setDisableTouchpad, _ | kPS2M_notifyKeyPressed, _ => False
  | _, _ => True
  end.

Section entries.
  Context (env : SEnv) (c : Settings) (d : Frame).
  Abbreviation I := (inv c d false true).
  Abbreviation holds_true := (fun _ => True).

Lemma masks_ok adb : is_modifier adb = true -> exists m, aget masks (adb - 0x36) = Done m.
Proof.
  unfold is_modifier. rewrite existsb_exists. intros (k & Hk & ->%Z.eqb_eq).
  repeat (destruct Hk as [<-|Hk]; [by eexists|]). destruct Hk.
Qed.

Lemma key_ok info : keeps I (notifyKeyPressed info) holds_true.
Proof.
  unfold notifyKeyPressed. destruct (is_modifier _) eqn:Em.
  - apply syn_seq; [apply syn_lift|intros m; case_match; apply syn_inp]. destruct (masks_ok _ Em) as [m E]. by exists m.
  - apply syn_seq; [|intros _; apply syn_inp]. apply syn_mom; [|done]. intros m []. split; simpl; try done.
Qed.

Lemma pad_message_ok type p : payload_ok type p -> keeps I (message env type p) holds_true.
Proof.
  intros Hp. unfold message. destruct type, p; try done; try apply syn_skip; try (solve [syn]).
  apply syn_seq; [apply key_ok|intros _; apply syn_skip].
Qed.

Lemma attached_ok s n : keeps I (notificationHIDAttachedHandler env s n) holds_true.
Proof.
  unfold notificationHIDAttachedHandler. apply syn_seq; [apply syn_get|intros l]. apply syn_when. intros _. intros w Hw.
  unfold notificationHIDAttachedHandlerGated, getp. unfold mbind at 1, M_bind at 1, gets at 1. unfold id.
  pose proof (iv_life _ _ _ _ _ Hw) as Hl. destruct (st_devices _ _ _ Hl) as [ds E]. rewrite E. cbv zeta.
  refine (syn_seq I _ _ _ _ _ w Hw); [|intros _; destruct n; syn].
  apply syn_life; [by intros l' []|]. intros l' []. split; simpl; try done.
Qed.
End entries.

Section power.
  Context (env : SEnv) (c : Settings) (d : Frame).
  Abbreviation holds_true := (fun _ => True).

(** Packet assembly starts again. *)
Definition restarted : Frame := mkFrame (fr_button d) (fr_drag d) (reset (fr_ring d)) 0 (fr_last d).

Lemma reset_packets (rb : RingBuffer Z) : aligned ringSize kPacketLength rb -> aligned ringSize kPacketLength (reset rb).
Proof. intros [Hw HP HN _ _]. split; simpl; [by apply reset_wf|done|done|apply Z.divide_0_r..]. Qed.

Lemma restart_ok : takes (inv c d false true) (inv c restarted false true)
  (set_life (fun l => l <| _packetByteCount := 0 |> <| _ringBuffer := reset (_ringBuffer l) |>)) holds_true.
Proof.
  intros w Hw. exists tt. eexists. split; [reflexivity|]. split; [|done].
  pose proof (st_frame _ _ _ (iv_life _ _ _ _ _ Hw)) as Hf.
  assert (restarted = mkFrame (fr_button d) (fr_drag d) (reset (_ringBuffer (life (pad w)))) 0 (_lastdata (life (pad w)))) as ->.
  { unfold restarted. by rewrite Hf. }
  pose proof (inv_asm c d w (reset (_ringBuffer (life (pad w)))) 0 (_lastdata (life (pad w))) Hw) as H.
  destruct w as [[? [] ? ? ? ? ? ? ?] ? ?]. apply H; [|unfold kPacketLength; lia]. apply reset_packets, Hw.
Qed.

Lemma syn_setTouchpadModeByte q s : keeps (inv c d q s) (setTouchpadModeByte env) holds_true.
Proof.
  unfold setTouchpadModeByte, setTouchPadModeByte_value. apply syn_seq; [apply syn_get|intros p].
  apply syn_seq; [case_match; [apply syn_seq; [apply syn_modebyte|intros _; apply syn_caps]|apply syn_skip]|intros _]. syn.
Qed.
End power.

Lemma power_ok env b c n : takes (live b c) (live b c) (setDevicePowerState env n) (fun _ => True).
Proof.
  intros w (d & Hw & <-). unfold setDevicePowerState, setTouchPadEnable.
  case_match; [|case_match].
  - assert (keeps (inv c d false true) (setTouchPadEnable env false) (fun _ => True)) as HK by (unfold setTouchPadEnable; syn).
    destruct (HK w Hw) as (u & w' & E & Hw' & _). exists u, w'. split; [done|]. split; [by exists d|done].
  - assert (takes (inv c d false true) (inv c (restarted d) false true)
      (c ← getp conf; semit (SSleep (u32 (wakedelay c)));; initTouchPad env) (fun _ => True)) as HK.
    { eapply takes_seq; [apply syn_get|intros c']. eapply takes_seq; [apply syn_emit|intros _]. unfold initTouchPad.
      eapply takes_seq; [apply restart_ok|intros _]. apply syn_seq; [apply syn_inp|intros _]. apply syn_seq; [apply syn_clk|intros _].
      apply syn_seq; [apply syn_setTouchpadModeByte|intros _]. apply syn_LED. }
    destruct (HK w Hw) as (u & w' & E & Hw' & _). exists u, w'. split; [done|]. split; [by exists (restarted d)|done].
  - exists tt, w. split; [done|]. split; [by exists d|done].
Qed.
