(* ===== verification/SynapticsLife.v ===== *)
(** * SynapticsLife: configuring, starting and stopping the touchpad driver

    Which configurations keep the settings usable; the driver from init to stop
    through any sequence of entry points. *)

From S2P Require Import Prelude RingBuffer PS2Defs Controller Config Pointing Averages Synaptics SynapticsSpec SynapticsEntry.
From Stdlib Require String.

#[local] Open Scope string_scope.
#[local] Open Scope list_scope.
#[local] Open Scope Z_scope.

(** ** Configurations *)

(** Settings while they are loaded: a divisor may be 0 until it is fixed.  With
    [b] three buttons may be configured. *)
Record loadable (b : bool) (c : Settings) : Prop := {
  lo_divisorx : 0 <= divisorx c;
  lo_divisory : 0 <= divisory c;
  lo_vscroll : 0 <= vscrolldivisor c;
  lo_hscroll : 0 <= hscrolldivisor c;
  lo_cscroll : 0 <= cscrolldivisor c;
  lo_wv : 0 <= wvdivisor c;
  lo_wh : 0 <= whdivisor c;
  lo_momentum : 2 <= momentumscrolldivisor c;
  lo_timer : 0 <= momentumscrolltimer c <= 2147483648;
  lo_xupmm : xupmm c <> 0 /\ -65536 <= xupmm c <= 65536;
  lo_yupmm : yupmm c <> 0 /\ -65536 <= yupmm c <= 65536;
  lo_buttons : b = true \/ _buttonCount c <= 2;
}.

Definition critical (c : Settings) :=
  (divisorx c, divisory c, vscrolldivisor c, hscrolldivisor c, cscrolldivisor c, wvdivisor c, whdivisor c,
   momentumscrolldivisor c, momentumscrolltimer c, xupmm c, yupmm c, _buttonCount c).

Lemma loadable_same b c c' : critical c' = critical c -> loadable b c -> loadable b c'.
Proof. intros E []. injection E as E1 E2 E3 E4 E5 E6 E7 E8 E9 E10 E11 E12. split; congruence. Qed.

(** The settings the driver needs something of. *)
Inductive Need := NeedDivisor | NeedMomentum | NeedUnits | NeedTime | NeedButtons | NeedNothing.

Definition need_of (key : string) : Need :=
  if existsb (String.eqb key) ["DivisorX"; "DivisorY"; "VerticalScrollDivisor"; "HorizontalScrollDivisor"; "CircularScrollDivisor";
    "MultiFingerVerticalDivisor"; "MultiFingerHorizontalDivisor"] then NeedDivisor
  else if String.eqb key "MomentumScrollDivisor" then NeedMomentum
  else if existsb (String.eqb key) ["UnitsPerMMX"; "UnitsPerMMY"] then NeedUnits
  else if String.eqb key "MomentumScrollTimer" then NeedTime
  else if String.eqb key "ButtonCount" then NeedButtons
  else NeedNothing.

Definition number_ok (b : bool) (key : string) (v : Z) : bool :=
  match need_of key with
  | NeedDivisor => 0 <=? v
  | NeedMomentum => 2 <=? v
  | NeedUnits => negb (v =? 0) && (-65536 <=? v) && (v <=? 65536)
  | NeedTime => v <=? 2147483648
  | NeedButtons => b || (v <=? 2)
  | NeedNothing => true
  end.

Definition config_ok (b : bool) (config : OSDict) : bool :=
  forallb (fun '(key, _) => match getObject key config ≫= asNumber with Some n => number_ok b key (s32 (u32 n)) | None => true end) int32vars &&
  forallb (fun '(key, _) => match getObject key config ≫= asNumber with Some n => number_ok b key (u64 n) | None => true end) int64vars.

Definition setting_ok (b : bool) (key : string) (f : Z -> setter) : Prop :=
  forall v c, 0 <= v \/ need_of key <> NeedTime -> number_ok b key v = true -> loadable b c -> loadable b (f v c).

(** A setter of the tables. *)
Ltac setting :=
  match goal with |- setting_ok _ ?key _ =>
    let n := eval vm_compute in (need_of key) in
    let v := fresh "v" in let c := fresh "c" in let Hn := fresh "Hn" in let Hv := fresh "Hv" in let Hc := fresh "Hc" in
    intros v c Hn Hv Hc; unfold number_ok in Hv; change (need_of key) with n in Hv, Hn;
    lazymatch n with
    | NeedNothing => apply (loadable_same _ c); [reflexivity|exact Hc]
    | _ => cbv iota in Hv; destruct Hc; split; simpl; try assumption; bool_hyps; try lia
    end
  end.

Lemma number_settings b : Forall (fun v => setting_ok b v.1 v.2) int32vars.
Proof.
  unfold int32vars. repeat apply Forall_cons_2; cbn [fst snd]; try setting; [|done].
  apply orb_true_iff in Hv as [->|Hv%Z.leb_le]; auto.
Qed.
Lemma time_settings b : Forall (fun v => setting_ok b v.1 v.2) int64vars.
Proof.
  unfold int64vars. repeat apply Forall_cons_2; cbn [fst snd]; try setting; [|done].
  split; [by destruct Hn|exact Hv].
Qed.

(** ** Loading *)

(** The objects of the driver, as far as the invariant needs them. *)
Definition objects (l : Life) := (_device l, attachedHIDPointerDevices l, _buttonTimer l, scrollTimer l, dragTimer l).
Definition Objects : Type := bool * option (gset positive) * bool * bool * bool.

(** A driver that loads settings; with [f] the divisors are fixed, with [m] the
    gesture has been reset. *)
Record configuring (b : bool) (o : Objects) (f m : bool) (w : SWorld) : Prop := {
  cg_conf : loadable b (conf (pad w));
  cg_ring : ring_ok (life (pad w));
  cg_momentum : momentum_ok (mom (pad w));
  cg_filters : filters_ok (flt (pad w));
  cg_objects : objects (life (pad w)) = o;
  cg_fixed : f = true -> 0 < divisorx (conf (pad w)) /\ 0 < divisory (conf (pad w));
  cg_mode : m = true -> touchmode (tch (pad w)) = MODE_NOTOUCH;
}.

Create HintDb cfg.

Section loading.
  Context (env : SEnv) (b : bool) (o : Objects).
  Abbreviation C := (configuring b o).
  Abbreviation holds_true := (fun _ => True).

Ltac component := exists tt; eexists; split; [reflexivity|]; split; [|done].

Lemma cfg_emit f m e : keeps (C f m) (semit e) holds_true.
Proof. intros w Hw. component. by destruct Hw; split. Qed.
Lemma cfg_get {A} f m (g : ApplePS2SynapticsTouchPad -> A) : keeps (C f m) (getp g) holds_true.
Proof. intros w Hw. by do 2 eexists. Qed.
Lemma cfg_conf g : (forall c, loadable b c -> loadable b (g c)) -> keeps (C false false) (set_conf g) holds_true.
Proof. intros Hg w Hw. component. destruct Hw. by split; simpl; auto. Qed.
Lemma cfg_life f m g : (forall l, ring_ok l -> ring_ok (g l)) -> (forall l, objects (g l) = objects l) -> keeps (C f m) (set_life g) holds_true.
Proof. intros H1 H2 w Hw. component. destruct Hw. split; simpl; auto. by rewrite H2. Qed.
Lemma cfg_caps f m g : keeps (C f m) (set_caps g) holds_true.
Proof. intros w Hw. component. by destruct Hw; split. Qed.
Lemma cfg_inp f m g : keeps (C f m) (set_inp g) holds_true.
Proof. intros w Hw. component. by destruct Hw; split. Qed.
Lemma cfg_forM {A} f m (l : list A) (g : A -> M SWorld unit) :
  Forall (fun x => keeps (C f m) (g x) holds_true) l -> keeps (C f m) (forM_ l g) holds_true.
Proof.
  induction 1 as [|x l Hx Hl IH]; [apply syn_skip|]. cbn [forM_]. apply syn_seq; [exact Hx|intros _; exact IH].
Qed.

Lemma cfg_int32 config : config_ok b config = true -> keeps (C false false) (forM_ int32vars (load_int32 config)) holds_true.
Proof.
  intros [Hc _]%andb_true_iff. apply cfg_forM. apply Forall_forall. intros [k g] Hin. unfold load_int32. cbn [fst snd].
  rewrite forallb_forall in Hc. apply list_elem_of_In in Hin. specialize (Hc _ Hin). cbn beta iota in Hc.
  destruct (getObject k config ≫= asNumber) as [n|]; [|apply syn_skip]. apply syn_seq; [|intros _; apply cfg_emit].
  pose proof (number_settings b) as Hs. rewrite Forall_forall in Hs. specialize (Hs _ (proj2 (list_elem_of_In _ _) Hin)).
  apply cfg_conf. intros c. apply Hs; [|exact Hc]. right. clear -Hin. cbn [fst]. revert k g Hin.
  assert (Forall (fun v : string * (Z -> setter) => need_of v.1 <> NeedTime) int32vars) as H by (repeat apply Forall_cons_2; done).
  intros k g Hin%list_elem_of_In. by rewrite Forall_forall in H; specialize (H _ Hin).
Qed.

Lemma cfg_int64 config : config_ok b config = true -> keeps (C false false) (forM_ int64vars (load_int64 config)) holds_true.
Proof.
  intros [_ Hc]%andb_true_iff. apply cfg_forM. apply Forall_forall. intros [k g] Hin. unfold load_int64. cbn [fst snd].
  rewrite forallb_forall in Hc. apply list_elem_of_In in Hin. specialize (Hc _ Hin). cbn beta iota in Hc.
  destruct (getObject k config ≫= asNumber) as [n|]; [|apply syn_skip]. apply syn_seq; [|intros _; apply cfg_emit].
  pose proof (time_settings b) as Hs. rewrite Forall_forall in Hs. specialize (Hs _ (proj2 (list_elem_of_In _ _) Hin)).
  apply cfg_conf. intros c. apply Hs; [|exact Hc]. left. unfold u64. by apply Z.mod_pos_bound.
Qed.

Lemma bool_settings : Forall (fun v : string * (bool -> setter) => forall x c, critical (v.2 x c) = critical c) boolvars.
Proof. unfold boolvars. repeat apply Forall_cons_2; cbn [fst snd]; done. Qed.
Lemma lowbit_settings : Forall (fun v : string * (bool -> setter) => forall x c, critical (v.2 x c) = critical c) lowbitvars.
Proof. unfold lowbitvars. repeat apply Forall_cons_2; cbn [fst snd]; done. Qed.

Lemma cfg_bool config : keeps (C false false) (forM_ boolvars (load_bool config)) holds_true.
Proof.
  apply cfg_forM. eapply Forall_impl; [apply bool_settings|]. intros [k g] Hg. unfold load_bool. case_match; [|apply syn_skip].
  apply syn_seq; [|intros _; apply cfg_emit]. apply cfg_conf. intros c. by apply loadable_same.
Qed.
Lemma cfg_lowbit config : keeps (C false false) (forM_ lowbitvars (load_lowbit config)) holds_true.
Proof.
  apply cfg_forM. eapply Forall_impl; [apply lowbit_settings|]. intros [k g] Hg. unfold load_lowbit. cbv zeta.
  repeat case_match; try apply syn_skip; (apply syn_seq; [|intros _; apply cfg_emit]; apply cfg_conf; intros c; by apply loadable_same).
Qed.

Lemma cfg_fix : takes (C false false) (C true false) (set_conf fix_settings) holds_true.
Proof.
  intros w []. component. split; simpl; try done; [destruct cg_conf0; split; simpl; try done; case_match; lia|].
  intros _. destruct cg_conf0. split; case_match; lia.
Qed.

Lemma cfg_mode_reset : takes (C true false) (C true true) (set_tch (fun t => t <| touchmode := MODE_NOTOUCH |>)) holds_true.
Proof. intros w []. component. by split. Qed.

Context (Ho : o.1.1.1.1 = true).

Lemma cfg_submit f m r : keeps (C f m) (submitRequestAndBlock env r) holds_true.
Proof.
  intros w Hw. unfold submitRequestAndBlock, getp. munfold.
  assert (_device (life (pad w)) = true) as -> by (by rewrite <- Ho, <- (cg_objects _ _ _ _ _ Hw)).
  do 2 eexists. split; [reflexivity|]. split; [|done]. by destruct Hw; split.
Qed.

Lemma cfg_modebyte f m g : keeps (C f m) (set_life (fun l => l <| _touchPadModeByte := g l |>)) holds_true.
Proof. apply cfg_life; [by intros l []|done]. Qed.

Hint Resolve syn_skip cfg_emit cfg_get cfg_caps cfg_inp cfg_submit cfg_modebyte cfg_int32 cfg_int64 cfg_bool cfg_lowbit : cfg.

Ltac cfg := repeat first
  [ progress (intros; cbn beta zeta)
  | solve [eauto with cfg nocore]
  | apply syn_when
  | apply syn_seq
  | case_match ].

Lemma cfg_LED f m : keeps (C f m) (updateTouchpadLED env) holds_true.
Proof. unfold updateTouchpadLED, setTouchpadLED. cfg. Qed.

Lemma cfg_setTouchpadModeByte f m : keeps (C f m) (setTouchpadModeByte env) holds_true.
Proof. unfold setTouchpadModeByte, setTouchPadModeByte_value. cfg. Qed.
Hint Resolve cfg_LED cfg_setTouchpadModeByte : cfg.

Lemma cfg_update_mode f m n : keeps (C f m) (update_mode env n) holds_true.
Proof.
  unfold update_mode. repeat (apply syn_seq; [cfg|intros ?]). case_match; [|apply syn_skip]. apply syn_seq; [cfg|intros _].
  apply cfg_life; [|done]. intros l []. split; simpl; [unfold kPacketLength; lia|by apply reset_packets].
Qed.

Lemma cfg_params config : config_ok b config = true -> takes (C false false) (C true true) (setParamPropertiesGated env (Some config)) holds_true.
Proof.
  intros Hc. unfold setParamPropertiesGated, load_highrate.
  eapply takes_seq; [apply cfg_get|intros l]. cbv zeta. eapply takes_seq; [cfg|intros _].
  eapply takes_seq; [by apply cfg_int64|intros _]. eapply takes_seq; [apply cfg_bool|intros _].
  eapply takes_seq; [by apply cfg_int32|intros _]. eapply takes_seq; [apply cfg_lowbit|intros _].
  eapply takes_seq; [apply cfg_fix|intros _]. eapply takes_seq; [apply cfg_update_mode|intros _].
  eapply takes_seq; [apply cfg_mode_reset|intros _]. apply syn_seq; [apply cfg_get|intros p]. cfg.
Qed.
End loading.

(** ** Run time *)

Definition running (b : bool) (w : SWorld) : Prop := exists c, live b c w.

Lemma inv_configuring c d w : inv c d false true w -> configuring (fr_button d) (objects (life (pad w))) false false w.
Proof.
  intros [[Hc [] Hr Hm Ho Hf] [S1 S2 S3 S4 S5] _ _]. split; try done. rewrite Hc. split; try done; try lia.
  rewrite S4. simpl. destruct (Z_lt_ge_dec 2 (_buttonCount c)); [left; auto|right; lia].
Qed.

Lemma configured_live b ds dt w : configuring b (true, Some ds, b, true, dt) true true w -> running b w.
Proof.
  intros [Hc Hr Ho Hf Hob Hd Hm]. specialize (Hd eq_refl). specialize (Hm eq_refl). injection Hob as O1 O2 O3 O4 O5.
  exists (conf (pad w)), (mkFrame b dt (_ringBuffer (life (pad w))) (_packetByteCount (life (pad w))) (_lastdata (life (pad w)))).
  split; [|done]. destruct Hc. split; [|split|done|by rewrite Hm]; try done; try (split; try done; tauto).
  - split; try done; [split; tauto|by rewrite Hm].
  - intros Hb. rewrite O3. destruct lo_buttons0; [done|lia].
  - by rewrite O3, O5.
Qed.

Lemma params_ok env b config w : running b w -> (if config is Some d then config_ok b d = true else True) ->
  exists w', setParamProperties env config w = Done (tt, w') /\ running b w'.
Proof.
  intros Hr Hc. unfold setParamProperties, getp, when. unfold mbind at 1, M_bind at 1, gets at 1.
  destruct (_cmdGate (life (pad w))); [|by exists w]. destruct config as [dict|]; [|by exists w].
  destruct Hr as (c & d & Hw & <-). pose proof (inv_configuring _ _ _ Hw) as Hcf.
  pose proof (iv_life _ _ _ _ _ Hw) as [S1 S2 S3 S4 [ds S5]].
  destruct (cfg_params env (fr_button d) (objects (life (pad w))) S1 dict Hc w Hcf) as ([] & w' & E & Hw' & _).
  exists w'. split; [exact E|]. unfold objects in Hw'. rewrite S1, S2, S5 in Hw'.
  replace (_buttonTimer (life (pad w))) with (fr_button d) in Hw' by (by rewrite S4). by eapply configured_live.
Qed.

(** ** Entry points *)

Inductive SOp :=
| SOpInterrupt (data : Z)
| SOpPacketReady
| SOpTimer (t : Timer)
| SOpMessage (type : PS2Message) (p : Payload)
| SOpParams (config : option OSDict)
| SOpProperties (props : OSObject)
| SOpNotify (s : HIDService) (n : HIDNotification)
| SOpPower (whatToDo : Z).

Definition run_sop (env : SEnv) (o : SOp) : M SWorld unit :=
  match o with
  | SOpInterrupt data => interruptOccurred data;; mret tt
  | SOpPacketReady => packetReady env
  | SOpTimer ButtonTimer => onButtonTimer env
  | SOpTimer ScrollTimer => onScrollTimer env
  | SOpTimer DragTimer => onDragTimer env
  | SOpMessage type p => message env type p;; mret tt
  | SOpParams config => setParamProperties env config
  | SOpProperties props => setProperties env props
  | SOpNotify s n => notificationHIDAttachedHandler env s n
  | SOpPower n => setDevicePowerState env n
  end.

Definition sop_ok (b : bool) (o : SOp) : Prop :=
  match o with
  | SOpMessage type p => payload_ok type p
  | SOpParams (Some config) => config_ok b config = true
  | SOpProperties (OSDictionary config) => config_ok b config = true
  | _ => True
  end.

(** Any block is a partial packet. *)
Lemma written_take n (b : list Z) : written (indexed (take n b)) b = b.
Proof.
  induction n as [|n IH]; [done|]. destruct (b !! n) as [x|] eqn:Hx.
  - rewrite (take_S_r _ _ _ Hx), written_snoc, IH, length_take. apply lookup_lt_Some in Hx as Hl.
    rewrite Nat.min_l by lia. by rewrite list_insert_id.
  - apply lookup_ge_None in Hx. rewrite (take_ge b (S n)) by lia. by rewrite take_ge in IH by lia.
Qed.

Lemma assembles_any l : ring_ok l -> exists a, assembles l a.
Proof.
  intros [Hn Hr]. pose proof (length_head_block _ _ _ Hr) as Hl.
  exists (mkAssembler (take (Z.to_nat (_packetByteCount l)) (head_block kPacketLength (_ringBuffer l))) (_lastdata l)).
  split; simpl; [rewrite length_take; lia|done|]. eexists. symmetry. apply written_take.
Qed.

Section running.
  Context (env : SEnv).

Lemma keeps_running {A} b (m : M SWorld A) Q :
  (forall c d, settings_ok c -> keeps (inv c d false true) m Q) -> reaches (running b) (running b) m.
Proof.
  intros Hm w (c & d & Hw & Hb). destruct (Hm c d (po_settings _ _ (iv_pad _ _ _ _ _ Hw)) w Hw) as (a & w' & E & Hw' & _).
  exists a, w'. split; [exact E|]. by exists c, d.
Qed.

Lemma run_sop_ok b o : sop_ok b o -> reaches (running b) (running b) (run_sop env o).
Proof.
  destruct o as [data| |[]|type p|config|props|s n|n]; intros Ho; cbn [run_sop].
  - apply (reaches_bind _ (running b)); [|intros ?; apply reaches_ret]. intros w (c & d & Hw & <-).
    destruct (po_ring _ _ (iv_pad _ _ _ _ _ Hw)) as [Hn Hr]. destruct (assembles_any _ (Build_ring_ok _ Hn Hr)) as [a Ha].
    destruct (aligned_queue _ _ _ Hr) as [q Hq]. pose proof (interrupt_ok c d w a data q Hw Ha Hq) as H.
    destruct (assemble_byte a data). destruct H as (w' & E & Hl & _). exists (ready_if o), w'. split; [exact E|by exists c].
  - intros w (c & d & Hw & <-). destruct (po_ring _ _ (iv_pad _ _ _ _ _ Hw)) as [Hn Hr].
    destruct (assembles_any _ (Build_ring_ok _ Hn Hr)) as [a Ha]. destruct (aligned_queue _ _ _ Hr) as [q Hq].
    destruct (packetReady_ok env c d w a q Hw Ha Hq) as (w' & E & Hl & _). exists tt, w'. split; [exact E|by exists c].
  - eapply keeps_running. intros. apply syn_buttonTimer.
  - eapply keeps_running. intros. apply syn_scrollTimer.
  - eapply keeps_running. intros. apply syn_dragTimer.
  - apply (reaches_bind _ (running b)); [|intros ?; apply reaches_ret]. eapply keeps_running. intros. by apply pad_message_ok.
  - intros w Hw. destruct (params_ok env b config w Hw) as (w' & E & Hw'); [by destruct config|]. by exists tt, w'.
  - intros w Hw. unfold setProperties. destruct (asDict props) as [dict|] eqn:Ep; [|by exists tt, w].
    destruct (params_ok env b (Some dict) w Hw) as (w' & E & Hw'); [destruct props; try discriminate Ep; injection Ep as <-; exact Ho|]. by exists tt, w'.
  - eapply keeps_running. intros. apply attached_ok.
  - intros w [c Hw]. destruct (power_ok env b c n w Hw) as (a & w' & E & Hw' & _). exists a, w'. split; [exact E|by exists c].
Qed.

Lemma run_sops_ok b ops : Forall (sop_ok b) ops -> reaches (running b) (running b) (forM_ ops (run_sop env)).
Proof. intros Ho. apply reaches_forM. intros o Hin. apply run_sop_ok. by eapply Forall_forall. Qed.
End running.

(** ** Life cycle *)

Section life.
  Context (env : SEnv).
  Context (Hsubmit : forall evs r, length (commands (submit env evs r)) = length (commands r)).
  Abbreviation holds_true := (fun _ => True).

Lemma cfg_answer b o f m r : o.1.1.1.1 = true ->
  keeps (configuring b o f m) (submitRequestAndBlock env r) (fun r' => length (commands r') = length (commands r)).
Proof.
  intros Ho w Hw. unfold submitRequestAndBlock, getp. munfold.
  assert (_device (life (pad w)) = true) as -> by (by rewrite <- Ho, <- (cg_objects _ _ _ _ _ Hw)).
  do 2 eexists. split; [reflexivity|]. split; [|apply Hsubmit]. by destruct Hw; split.
Qed.

Lemma cfg_result I r i : 0 <= i < Z.of_nat (length (commands r)) -> keeps I (result r i) (fun b => is_u8 b).
Proof.
  intros Hi. unfold result. eapply (syn_bind _ _ _ (fun _ => True)).
  - apply syn_lift. destruct (aget_ok (commands r) i) as (v & E & _); [lia|]. by exists v.
  - intros x _. apply syn_ret, union_byte_range.
Qed.

(** Three bytes of an answer. *)
Definition answer_ok (r : option (Z * Z * Z)) : Prop :=
  match r with Some (b0, b1, b2) => is_u8 b0 /\ is_u8 b1 /\ is_u8 b2 | None => True end.

Lemma cfg_data b o f m n : o.1.1.1.1 = true -> keeps (configuring b o f m) (getTouchPadData env n) answer_ok.
Proof.
  intros Ho. unfold getTouchPadData. eapply syn_bind; [by apply cfg_answer|]. intros r Hr. case_match; [by apply syn_ret|].
  change (length (commands (data_request n))) with 14%nat in Hr.
  cbn beta in Hr. do 3 (eapply syn_bind; [apply cfg_result; lia|intros ? ?]). by apply syn_ret.
Qed.

(** The resolution in the settings, as the touchpad reports it. *)
Lemma cfg_units b o b0 b2 : is_u8 b0 -> is_u8 b2 -> b0 <> 0 -> b2 <> 0 -> keeps (configuring b o true true)
  (set_conf (fun c => c <| xupmm := if xupmm c <? 0 then b0 else xupmm c |> <| yupmm := if yupmm c <? 0 then b2 else yupmm c |>)) holds_true.
Proof.
  intros [? ?] [? ?] ? ? w [[] ? ? ? ? Hf ?]. exists tt. eexists. split; [reflexivity|]. split; [|done]. split; simpl; try done.
  split; simpl; try done; case_match; try done; lia.
Qed.

Hint Resolve syn_skip cfg_emit cfg_get cfg_caps cfg_inp : cfg.
Ltac cfg := repeat first
  [ progress (intros; cbn beta zeta)
  | solve [eauto with cfg nocore]
  | apply syn_when
  | apply syn_seq
  | case_match ].

Lemma cfg_queryCapabilities b o : o.1.1.1.1 = true -> keeps (configuring b o true true) (queryCapabilities env) holds_true.
Proof.
  intros Ho. unfold queryCapabilities. eapply syn_bind; [by apply cfg_data|]. intros r2 _. destruct (match r2 with Some _ => _ | None => _ end) as [b0 b2].
  cbv zeta. apply syn_seq; [apply cfg_get|intros c].
  assert (forall n, keeps (configuring b o true true) (getTouchPadData env n) holds_true) as Hd.
  { intros n. eapply syn_mono; [by apply cfg_data|done]. }
  apply syn_seq; [cfg|intros _]. apply syn_seq; [cfg|intros _]. apply syn_seq; [cfg|intros l]. apply syn_seq; [cfg|intros _].
  apply syn_seq; [cfg|intros _]. case_match; [|apply syn_skip].
  eapply syn_bind; [by apply cfg_data|]. intros [[[d0 d1] d2]|] Hr; [|apply syn_skip]. destruct Hr as (H0 & _ & H2).
  apply syn_when. intros [[_ E0%negb_true_iff%Z.eqb_neq]%andb_true_iff E2%negb_true_iff%Z.eqb_neq]%andb_true_iff. by apply cfg_units.
Qed.

(** Changes of the objects. *)
Lemma cfg_objects b o o' f m g : (forall l, ring_ok l -> ring_ok (g l)) -> (forall l, objects l = o -> objects (g l) = o') ->
  takes (configuring b o f m) (configuring b o' f m) (set_life g) holds_true.
Proof. intros H1 H2 w []. exists tt. eexists. split; [reflexivity|]. split; [|done]. split; simpl; auto. Qed.

(** The objects after a change. *)
Ltac objs := intros l E; unfold objects in *; simpl in *; congruence.

(** *** [probe] *)

Definition fresh_pad : SWorld := mkSWorld init 0 [].

Lemma fresh_configuring : configuring true (objects (life init)) true true fresh_pad.
Proof. destruct init_pad_ok as [_ [] ? ? ? ?]. split; try done. split; try done; simpl; lia || auto. Qed.

Lemma pad_probe_ok config : config_ok true config = true ->
  exists r w', probe env (Some config) fresh_pad = Done (r, w') /\ exists o, configuring true o true true w' /\ o.1.1.2 = false.
Proof.
  intros Hc. unfold probe. pose proof fresh_configuring as Hf.
  destruct (cfg_objects true (objects (life init)) (true, None, false, false, false) true true (fun l => l <| _device := true |>))
    with (w := fresh_pad) as ([] & w1 & E1 & H1 & _); [by intros l []|objs|done|].
  rewrite (bind_done _ _ _ _ _ E1). case_bool_decide; [exists false, w1; eauto 7|]. cbv zeta.
  assert (takes (configuring true (true, None, false, false, false) false false) (configuring true (false, None, false, false, false) true true)
    (setParamPropertiesGated env (Some config);; injectVersionDependentProperties env (Some config);;
     r ← getTouchPadData env 0x0;
     ok ← (match r with
      | Some (b0, b1, b2) =>
          set_life (fun l => l <| _touchPadType := b1 |> <| _touchPadVersion := Z.lor (Z.shiftl (Z.land b2 0x0f) 8) b0 |>);;
          mret (supported b1 (Z.lor (Z.shiftl (Z.land b2 0x0f) 8) b0)
            (bool_decide ((getObject "ForceSynapticsDetect" config ≫= asBoolean) = Some true)))
      | None => mret false
      end);
     set_life (fun l => l <| _device := false |>);; mret ok) holds_true) as Hp.
  { eapply takes_seq; [by apply cfg_params|intros _]. eapply takes_seq.
    { unfold injectVersionDependentProperties. case_match; [|apply syn_skip]. apply cfg_forM, Forall_forall. intros [k v] _. cfg. }
    intros _. eapply takes_bind; [by apply cfg_data|]. intros r _. eapply takes_seq.
    { destruct r as [[[b0 b1] b2]|]; [|apply syn_skip]. apply syn_seq; [apply cfg_life; [by intros l []|done]|intros _; apply syn_skip]. }
    intros ok. eapply takes_seq; [apply cfg_objects|intros _; apply syn_skip]; [by intros l []|objs]. }
  destruct (Hp w1) as (r & w' & E & Hw' & _); [by destruct H1; split|]. exists r, w'. split; [exact E|]. by eexists.
Qed.

(** *** [start] *)

(** While the settings are [c]. *)
Definition starting (c : Settings) (b : bool) (o : Objects) (w : SWorld) : Prop :=
  configuring b o true true w /\ conf (pad w) = c.

Lemma start_emit c b o e : keeps (starting c b o) (semit e) holds_true.
Proof. intros w [Hw Hc]. exists tt. eexists. split; [reflexivity|]. split; [|done]. split; [|done]. by destruct Hw; split. Qed.
Lemma start_get {A} c b o (g : ApplePS2SynapticsTouchPad -> A) : keeps (starting c b o) (getp g) holds_true.
Proof. intros w Hw. by do 2 eexists. Qed.
Lemma start_conf c b o : keeps (starting c b o) (getp conf) (fun c' => c' = c).
Proof. intros w Hw. do 2 eexists. split; [reflexivity|]. split; [done|apply Hw]. Qed.
Lemma start_objects c b o o' g : (forall l, ring_ok l -> ring_ok (g l)) -> (forall l, objects l = o -> objects (g l) = o') ->
  takes (starting c b o) (starting c b o') (set_life g) holds_true.
Proof.
  intros H1 H2 w [Hw Hc]. destruct (cfg_objects b o o' true true g H1 H2 w Hw) as (u & w' & E & Hw' & _).
  exists u, w'. split; [exact E|]. split; [|done]. split; [done|]. by injection E as _ <-.
Qed.

Lemma start_announce c b o : keeps (starting c b o) (announce env) holds_true.
Proof.
  unfold announce. do 2 (apply syn_seq; [apply start_get|intros ?]). cbv zeta.
  repeat (apply syn_seq; [apply start_emit|intros _]). apply start_emit.
Qed.

Lemma start_register c b o : keeps (starting c b o) registerHIDPointerNotifications holds_true.
Proof.
  unfold registerHIDPointerNotifications. apply syn_seq; [apply start_get|intros c'].
  apply syn_seq; [|intros _]; apply syn_when; intros _; (apply syn_seq; [apply start_emit|intros _]);
    (apply start_objects; [by intros l []|objs]).
Qed.

(** The rest of [start], once the timers exist. *)
Lemma start_rest b o hw : o.1.1.1.1 = true -> keeps (configuring b o true true)
  (when hw (doHardwareReset env);; queryCapabilities env;; setTouchpadModeByte env;; semit SInstallInterruptAction;;
   set_life (fun l => l <| _interruptHandlerInstalled := true |>);; semit SInstallPowerControlAction;;
   set_life (fun l => l <| _powerControlHandlerInstalled := true |> <| _provider := has_TPDN env |>);;
   updateTouchpadLED env;; mret true) (fun r => r = true).
Proof.
  intros Ho. apply syn_seq.
  { apply syn_when. intros _. unfold doHardwareReset. apply syn_seq; [apply cfg_get|intros c]. apply syn_seq; [by apply cfg_submit|intros _; apply syn_skip]. }
  intros _. apply syn_seq; [by apply cfg_queryCapabilities|intros _]. apply syn_seq; [by apply cfg_setTouchpadModeByte|intros _].
  do 2 (apply syn_seq; [apply cfg_emit|intros _]; apply syn_seq; [apply cfg_life; [by intros l []|done]|intros _]).
  apply syn_seq; [by apply cfg_LED|intros _]. by apply syn_ret.
Qed.

(** Is there a timer for three buttons? *)
Definition button_timer (w : SWorld) : bool := _buttonCount (conf (pad w)) >=? 3.

Definition start_result (w : SWorld) : bool :=
  getWorkLoop env && alloc_gate env && (negb (button_timer w) || alloc_buttonTimer env).

Lemma pad_start_ok o w : alloc_scrollTimer env = true -> objects (life (pad w)) = o -> o.1.1.2 = false ->
  configuring true o true true w ->
  exists w', start env w = Done (start_result w, w') /\ (start_result w = true -> running (button_timer w) w').
Proof.
  intros Hst Hob Hbt Hw. unfold start, start_result. destruct o as [[[[dv at0] bt0] st0] dt0]. simpl in Hbt. subst bt0.
  set (c := conf (pad w)). set (b := button_timer w).
  assert (starting c b (dv, at0, false, st0, dt0) w) as Hs.
  { split; [|done]. destruct Hw as [[] ? ? ? ? ? ?]. split; try done. split; try done.
    unfold b, button_timer. destruct (Z.geb_spec (_buttonCount (conf (pad w))) 3); [by left|right; lia]. }
  assert (takes (starting c b (dv, at0, false, st0, dt0)) (starting c b (true, at0, false, st0, dt0))
    (set_life (fun l => l <| _device := true |>);; announce env;; set_life (fun l => l <| _cmdGate := alloc_gate env |>)) holds_true) as H1.
  { apply takes_seq with (J := starting c b (true, at0, false, st0, dt0)); [apply start_objects; [by intros l []|objs]|intros _].
    apply syn_seq; [apply start_announce|intros _]. apply start_objects; [by intros l []|objs]. }
  destruct (H1 w Hs) as ([] & w1 & E1 & Hw1 & _). clear H1 Hs.
  apply bind_done_inv in E1 as ([] & wa & Ea & E1). apply bind_done_inv in E1 as ([] & wb & Eb & E1).
  rewrite (bind_done _ _ _ _ _ Ea), (bind_done _ _ _ _ _ Eb), (bind_done _ _ _ _ _ E1).
  destruct (getWorkLoop env); [|by exists w1]. destruct (alloc_gate env); [|by exists w1]. cbn [negb orb andb].
  revert w1 Hw1 E1. intros w1 Hw1 _. clear Ea Eb.
  assert (takes (starting c b (true, at0, false, st0, dt0)) (starting c b (true, Some ∅, false, st0, dt0))
    (set_life (fun l => l <| attachedHIDPointerDevices := Some ∅ |>);; registerHIDPointerNotifications) holds_true) as H2.
  { eapply takes_seq; [apply start_objects|intros _; apply start_register]; [by intros l []|objs]. }
  destruct (H2 w1 Hw1) as ([] & w2 & E2 & Hw2 & _). clear H2. apply bind_done_inv in E2 as ([] & wa1 & Ea & E2).
  rewrite (bind_done _ _ _ _ _ Ea), (bind_done _ _ _ _ _ E2), (bind_done _ _ w2 c w2) by (unfold getp, gets; by rewrite (proj2 Hw2)).
  clear Ea E2 Hw1.
  assert (takes (starting c b (true, Some ∅, false, st0, dt0)) (starting c b (true, Some ∅, b && alloc_buttonTimer env, st0, dt0))
    (if _buttonCount c >=? 3 then set_life (fun l => l <| _buttonTimer := alloc_buttonTimer env |>);; mret (alloc_buttonTimer env) else mret true)
    (fun ok => ok = negb b || alloc_buttonTimer env)) as H3.
  { change (_buttonCount c >=? 3) with b. destruct b; [|by apply syn_ret].
    eapply takes_seq; [apply start_objects|intros _; by apply syn_ret]; [by intros l []|objs]. }
  destruct (H3 w2 Hw2) as (ok & w3 & E3 & Hw3 & ->). rewrite (bind_done _ _ _ _ _ E3). clear H3 E3 Hw2.
  destruct (negb b || alloc_buttonTimer env) eqn:Eok; cbn [negb]; [|by exists w3]. rewrite Hst.
  set (dt := if negb (dragexitdelay c =? 0) then alloc_dragTimer env else dt0).
  assert (b && alloc_buttonTimer env = b) as Eb by (destruct b; [by destruct (alloc_buttonTimer env)|done]). rewrite Eb in Hw3.
  assert (takes (configuring b (true, Some ∅, b, st0, dt0) true true) (configuring b (true, Some ∅, b, true, dt) true true)
    (set_life (fun l => l <| scrollTimer := true |> <| dragTimer := if negb (dragexitdelay c =? 0) then alloc_dragTimer env else dragTimer l |>))
    holds_true) as H4.
  { apply cfg_objects; [by intros l []|]. intros l E. unfold objects in *. simpl. injection E as E1 E2 E3 E4 E5.
    unfold dt. by rewrite E1, E2, E3, E5. }
  destruct (H4 w3 (proj1 Hw3)) as ([] & w4 & E4 & Hw4 & _). rewrite (bind_done _ _ _ _ _ E4).
  destruct (start_rest b (true, Some ∅, b, true, dt) (hwresetonstart c) eq_refl w4 Hw4) as (r & w5 & E5 & Hw5 & ->).
  exists w5. split; [exact E5|]. intros _. by eapply configured_live.
Qed.

(** *** [stop] *)

Lemma cfg_unregister b o f m : is_Some (o.1.1.1.2) ->
  takes (configuring b o f m) (configuring b (o.1.1.1.1, Some ∅, o.1.1.2, o.1.2, o.2) f m) unregisterHIDPointerNotifications holds_true.
Proof.
  intros [ds Ho] w Hw. unfold unregisterHIDPointerNotifications, getp. unfold mbind at 1, M_bind at 1, gets at 1.
  assert (attachedHIDPointerDevices (life (pad w)) = Some ds) as -> by (by rewrite <- Ho, <- (cg_objects _ _ _ _ _ Hw)).
  refine (takes_seq (configuring b o f m) (configuring b o f m) _ _ _ _ _ _ w Hw).
  { apply syn_when. intros _. apply syn_seq; [apply cfg_emit|intros _]. apply cfg_life; [by intros l []|done]. }
  intros _. eapply takes_seq.
  { apply syn_when. intros _. apply syn_seq; [apply cfg_emit|intros _]. apply cfg_life; [by intros l []|done]. }
  intros _. apply cfg_objects; [by intros l []|]. intros l <-. done.
Qed.

(** Nothing is left of a driver that was stopped. *)
Definition stopped (l : Life) : Prop :=
  _device l = false /\ _interruptHandlerInstalled l = false /\ _powerControlHandlerInstalled l = false /\
  attachedHIDPointerDevices l = None /\ (getWorkLoop env = true -> scrollTimer l = false /\ _buttonTimer l = false /\ _cmdGate l = false).

Lemma pad_stop_ok b w : running b w -> exists w', stop env w = Done (tt, w') /\ stopped (life (pad w')).
Proof.
  intros (c & d & Hw & <-). pose proof (inv_configuring _ _ _ Hw) as Hc. pose proof (iv_life _ _ _ _ _ Hw) as [S1 S2 S3 S4 S5].
  set (o := objects (life (pad w))) in Hc.
  assert (takes (configuring (fr_button d) o false false) (configuring (fr_button d) (true, None, o.1.1.2, o.1.2, o.2) false false)
    (unregisterHIDPointerNotifications;; set_life (fun l => l <| attachedHIDPointerDevices := None |>);;
     set_inp (fun i => i <| ignoreall := false |>);; updateTouchpadLED env;; setTouchPadEnable env false) holds_true) as H1.
  { eapply takes_seq; [by apply cfg_unregister|intros _]. eapply takes_seq; [apply cfg_objects|intros _].
    - by intros l [].
    - intros l E. unfold objects in E. injection E as E1 E2 E3 E4 E5. unfold objects. simpl. by rewrite E1, E3, E4, E5, S1.
    - apply syn_seq; [apply cfg_inp|intros _]. apply syn_seq; [by apply cfg_LED|intros _].
      unfold setTouchPadEnable. apply syn_seq; [by apply cfg_submit|intros _; apply syn_skip]. }
  destruct (H1 w Hc) as ([] & w1 & E1 & Hw1 & _). unfold stop.
  do 4 (apply bind_done_inv in E1 as ([] & ? & Ea & E1); rewrite (bind_done _ _ _ _ _ Ea); clear Ea). rewrite (bind_done _ _ _ _ _ E1).
  pose proof (cg_objects _ _ _ _ _ Hw1) as Ho. unfold objects in Ho. injection Ho as O1 O2 O3 O4 O5. clear - O2.
  unfold when, getp, set_life, setp, semit, stopped. munfold. destruct (getWorkLoop env); munfold; cbn;
    destruct (_interruptHandlerInstalled (life (pad w1))); munfold; cbn; destruct (_powerControlHandlerInstalled (life (pad w1))); munfold; cbn;
    (eexists; split; [reflexivity|]); done.
Qed.
End life.


Definition demo_sops : list SOp :=
  map SOpInterrupt [0x90; 0x44; 0x50; 0xC0; 0x10; 0x20] ++ [SOpPacketReady; SOpTimer ScrollTimer; SOpTimer DragTimer; SOpInterrupt 0x10;
   SOpMessage kPS2M_setDisableTouchpad (PBool false); SOpNotify {| service := 1%positive; classOfDevice := None |} UsbPublish;
   SOpParams (Some [("DivisorX", OSNumber 0); ("MomentumScrollDivisor", OSNumber 50)]); SOpPower kPS2C_EnableDevice].

Definition demo_config : OSDict := [("ButtonCount", OSNumber 3); ("UnitsPerMMX", OSNumber 60); ("VerticalScrollDivisor", OSNumber 0)].

