(* ===== verification/SynapticsGestures.v ===== *)
(** * SynapticsGestures: what fingers on the touchpad do

    Decoding of packets, the motion of a finger, momentum, taps in the disable
    zone: what the pieces of the gesture machine compute, not only that they are
    safe. *)

From S2P Require Import Prelude RingBuffer PS2Defs Controller Config Pointing Averages Synaptics SynapticsSpec SynapticsEntry.
From Stdlib Require String.

#[local] Open Scope list_scope.
#[local] Open Scope Z_scope.

(** ** Packets *)

Definition bit (z n : Z) : Z := z / 2 ^ n mod 2.

(** A packet in absolute mode, as the touchpad sends it: 13 bits of position, 8
    of pressure, the four bits of W in three places, two buttons. *)
Definition encode_absolute (x y z w b : Z) : list Z :=
  [0x80 + 16 * (w / 4) + 4 * bit w 1 + b;
   16 * (y / 256 mod 16) + x / 256 mod 16;
   z;
   0xC0 + 32 * bit y 12 + 16 * bit x 12 + 4 * bit w 0 + b;
   x mod 256;
   y mod 256].

(** A packet in extended W mode about the second finger. *)
Definition encode_secondary (x y z b : Z) : list Z :=
  [0x84 + b; x / 2 mod 256; y / 2 mod 256; 0xC0 + 16 * (z / 32) + b; 16 * (y / 512) + x / 512; 16 + z / 2 mod 16].

(** Masks of a byte, and joining of bit fields. *)
Lemma byte_masks p : is_u8 p ->
  Z.land p 0x0f = p mod 16 /\ Z.land p 0xf0 = 16 * (p / 16) /\ Z.land p 0x10 = 16 * (p / 16 mod 2) /\
  Z.land p 0x20 = 32 * (p / 32 mod 2) /\ Z.land p 0x30 = 16 * (p / 16 mod 4) /\ Z.land p 0x4 = 4 * (p / 4 mod 2) /\ Z.land p 0x3 = p mod 4.
Proof.
  intros Hp. pose (f := fun p => (Z.land p 0x0f =? p mod 16) && (Z.land p 0xf0 =? 16 * (p / 16)) && (Z.land p 0x10 =? 16 * (p / 16 mod 2)) &&
    (Z.land p 0x20 =? 32 * (p / 32 mod 2)) && (Z.land p 0x30 =? 16 * (p / 16 mod 4)) && (Z.land p 0x4 =? 4 * (p / 4 mod 2)) && (Z.land p 0x3 =? p mod 4)).
  assert (f p = true) as H by (revert Hp; apply (byte_forall f); vm_compute; reflexivity).
  unfold f in H. rewrite !andb_true_iff, !Z.eqb_eq in H. tauto.
Qed.

Lemma byte_marks p : is_u8 p -> byte0_ok p = (p / 64 =? 2) && (p / 8 mod 2 =? 0) /\ byte3_ok p = (p / 64 =? 3) && (p / 8 mod 2 =? 0).
Proof.
  intros Hp. pose (f := fun p => Bool.eqb (byte0_ok p) ((p / 64 =? 2) && (p / 8 mod 2 =? 0)) && Bool.eqb (byte3_ok p) ((p / 64 =? 3) && (p / 8 mod 2 =? 0))).
  assert (f p = true) as H by (revert Hp; apply (byte_forall f); vm_compute; reflexivity).
  unfold f in H. by rewrite andb_true_iff, !Bool.eqb_true_iff in H.
Qed.

(** The bytes with [f] the fields of a packet. *)
Lemma decode_x p1 p3 p4 : is_u8 p1 -> is_u8 p3 -> is_u8 p4 -> packet_x p1 p3 p4 = p4 + 256 * (p1 mod 16) + 4096 * (p3 / 16 mod 2).
Proof.
  intros H1 H3 H4. unfold packet_x. destruct (byte_masks p1 H1) as (-> & _). destruct (byte_masks p3 H3) as (_ & _ & -> & _).
  unfold is_u8 in *. rewrite !Z.shiftl_mul_pow2 by lia. rewrite (lor_high p4 (p1 mod 16) 8) by lia. change (2 ^ 8) with 256.
  replace (16 * (p3 / 16 mod 2) * 256) with (p3 / 16 mod 2 * 2 ^ 12) by lia.
  pose proof (Z.mod_pos_bound p1 16 ltac:(lia)). rewrite lor_high by lia. lia.
Qed.
Lemma decode_y p1 p3 p5 : is_u8 p1 -> is_u8 p3 -> is_u8 p5 -> packet_y p1 p3 p5 = p5 + 256 * (p1 / 16) + 4096 * (p3 / 32 mod 2).
Proof.
  intros H1 H3 H5. unfold packet_y. destruct (byte_masks p1 H1) as (_ & -> & _). destruct (byte_masks p3 H3) as (_ & _ & _ & -> & _).
  unfold is_u8 in *. rewrite !Z.shiftl_mul_pow2 by lia.
  replace (16 * (p1 / 16) * 2 ^ 4) with (p1 / 16 * 2 ^ 8) by lia. rewrite (lor_high p5 (p1 / 16) 8) by lia. change (2 ^ 8) with 256.
  replace (32 * (p3 / 32 mod 2) * 2 ^ 7) with (p3 / 32 mod 2 * 2 ^ 12) by lia.
  assert (0 <= p1 / 16 < 16) by (Z.to_euclidean_division_equations; lia). rewrite lor_high by lia. lia.
Qed.
Lemma decode_w p0 p3 : is_u8 p0 -> is_u8 p3 -> packet_w p0 p3 = p3 / 4 mod 2 + 2 * (p0 / 4 mod 2) + 4 * (p0 / 16 mod 4).
Proof.
  intros H0 H3. unfold packet_w. destruct (byte_masks p0 H0) as (_ & _ & _ & _ & -> & -> & _). destruct (byte_masks p3 H3) as (_ & _ & _ & _ & _ & -> & _).
  pose proof (Z.mod_pos_bound (p0 / 4) 2 ltac:(lia)). pose proof (Z.mod_pos_bound (p3 / 4) 2 ltac:(lia)). pose proof (Z.mod_pos_bound (p0 / 16) 4 ltac:(lia)).
  generalize dependent (p0 / 4 mod 2). generalize dependent (p3 / 4 mod 2). generalize dependent (p0 / 16 mod 4). intros a Ha b Hb e He.
  assert (a = 0 \/ a = 1 \/ a = 2 \/ a = 3) as Ja by lia. assert (b = 0 \/ b = 1) as Jb by lia. assert (e = 0 \/ e = 1) as Je by lia.
  by destruct_or! Ja; destruct_or! Jb; destruct_or! Je; subst.
Qed.

(** What the bytes of a packet say. *)
Definition says (p : list Z) (x y z w b : Z) : Prop :=
  match p with
  | [p0; p1; p2; p3; p4; p5] =>
      packet_x p1 p3 p4 = x /\ packet_y p1 p3 p5 = y /\ p2 = z /\ packet_w p0 p3 = w /\ Z.land p0 0x03 = b
  | _ => False
  end.

Lemma encode_bytes x y z w b : 0 <= x < 8192 -> 0 <= y < 8192 -> is_u8 z -> 0 <= w < 16 -> 0 <= b < 4 ->
  Forall is_u8 (encode_absolute x y z w b).
Proof.
  intros. unfold encode_absolute, bit, is_u8 in *. repeat apply Forall_cons_2; try apply Forall_nil_2; try done;
    change (2 ^ 12) with 4096; change (2 ^ 1) with 2; change (2 ^ 0) with 1; Z.to_euclidean_division_equations; lia.
Qed.

Lemma absolute_says x y z w b : 0 <= x < 8192 -> 0 <= y < 8192 -> is_u8 z -> 0 <= w < 16 -> 0 <= b < 4 ->
  says (encode_absolute x y z w b) x y z w b.
Proof.
  intros Hx Hy Hz Hw Hb. pose proof (encode_bytes x y z w b Hx Hy Hz Hw Hb) as H. unfold encode_absolute, says in *.
  rewrite !Forall_cons in H. destruct H as (H0 & H1 & H2 & H3 & H4 & H5 & _).
  rewrite decode_x, decode_y, decode_w by done. destruct (byte_masks _ H0) as (_ & _ & _ & _ & _ & _ & ->). clear H0 H1 H2 H3 H4 H5 Hz.
  unfold bit. change (2 ^ 12) with 4096. change (2 ^ 1) with 2. change (2 ^ 0) with 1.
  split; [|split; [|split; [done|split]]].
  all: Z.to_euclidean_division_equations; lia.
Qed.

(** The second finger. *)
Definition says2 (p : list Z) (x y z b : Z) : Prop :=
  match p with
  | [p0; p1; p2; p3; p4; p5] =>
      packet2_x p1 p4 = x /\ packet2_y p2 p4 = y /\ packet2_z p3 p5 = z /\ packet_w p0 p3 = 2 /\ Z.land p0 0x03 = b /\ Z.shiftr p5 4 = 1
  | _ => False
  end.

Lemma encode_bytes2 x y z b : 0 <= x < 8192 -> 0 <= y < 8192 -> 0 <= z < 128 -> 0 <= b < 4 -> Forall is_u8 (encode_secondary x y z b).
Proof.
  intros. unfold encode_secondary, is_u8 in *. repeat apply Forall_cons_2; try apply Forall_nil_2; Z.to_euclidean_division_equations; lia.
Qed.

Lemma secondary_says x y z b : 0 <= x < 8192 -> 0 <= y < 8192 -> 0 <= z < 128 -> 0 <= b < 4 ->
  x mod 2 = 0 -> y mod 2 = 0 -> z mod 2 = 0 -> says2 (encode_secondary x y z b) x y z b.
Proof.
  intros Hx Hy Hz Hb Ex Ey Ez. pose proof (encode_bytes2 x y z b Hx Hy Hz Hb) as H. unfold encode_secondary, says2 in *.
  rewrite !Forall_cons in H. destruct H as (H0 & H1 & H2 & H3 & H4 & H5 & _).
  unfold packet2_x, packet2_y, packet2_z. rewrite decode_w by done.
  destruct (byte_masks _ H0) as (_ & _ & _ & _ & _ & _ & ->). destruct (byte_masks _ H4) as (-> & -> & _).
  destruct (byte_masks _ H5) as (-> & _). destruct (byte_masks _ H3) as (_ & _ & _ & _ & -> & _). unfold is_u8 in *.
  rewrite !Z.shiftl_mul_pow2, Z.shiftr_div_pow2 by lia.
  replace (16 * (_ / 16) * 2 ^ 5) with ((16 * (y / 512) + x / 512) / 16 * 2 ^ 9) by lia.
  replace (16 * (_ / 16 mod 4) * 2 ^ 1) with ((192 + 16 * (z / 32) + b) / 16 mod 4 * 2 ^ 5) by lia.
  rewrite (lor_high (x / 2 mod 256 * 2 ^ 1) _ 9), (lor_high (y / 2 mod 256 * 2 ^ 1) _ 9) by lia.
  rewrite (lor_high _ _ 5) by (pose proof (Z.mod_pos_bound (16 + z / 2 mod 16) 16); lia). clear H0 H1 H2 H3 H4 H5.
  change (2 ^ 1) with 2. change (2 ^ 9) with 512. change (2 ^ 5) with 32. change (2 ^ 4) with 16.
  split; [|split; [|split; [|split; [|split]]]]; Z.to_euclidean_division_equations; lia.
Qed.

(** ** Streams of packets *)

(** No byte 0 after a byte AA: the driver would take it for a reset. *)
Fixpoint no_reset (last : Z) (bs : list Z) : bool :=
  match bs with [] => true | b :: bs => negb ((last =? 0xAA) && (b =? 0)) && no_reset b bs end.

Lemma no_reset_app last bs bs' : no_reset last (bs ++ bs') = no_reset last bs && no_reset (List.last bs last) bs'.
Proof.
  revert last. induction bs as [|b bs IH]; intros last; [done|]. cbn [app no_reset]. rewrite IH, andb_assoc. f_equal.
  destruct bs; [done|]. f_equal. simpl. clear. generalize z. induction bs as [|? ? IH]; [done|]. intros. apply IH.
Qed.

Definition six_results : list PS2InterruptResult := replicate 5 kPS2IR_packetBuffering ++ [kPS2IR_packetReady].

Lemma assemble_next bytes last d : (last =? 0xAA) && (d =? 0) = false -> (bytes = [] -> byte0_ok d = true) ->
  (length bytes = 3%nat -> byte3_ok d = true) ->
  assemble_byte (mkAssembler bytes last) d =
    if bool_decide (length bytes = 5%nat) then (mkAssembler [] d, Some (bytes ++ [d])) else (mkAssembler (bytes ++ [d]) d, None).
Proof.
  intros Hr H0 H3. unfold assemble_byte. cbn [a_bytes a_last]. rewrite Hr.
  destruct (bool_decide_reflect (bytes = [])) as [E|E]; [rewrite (H0 E); subst; done|].
  destruct (bool_decide_reflect (length bytes = 3%nat)) as [E3|E3]; [rewrite (H3 E3)|]; cbn [negb andb]; rewrite length_app; simpl;
    do 2 case_bool_decide; done || lia.
Qed.

Lemma assemble_packet last p0 p1 p2 p3 p4 p5 q : byte0_ok p0 = true -> byte3_ok p3 = true ->
  no_reset last [p0; p1; p2; p3; p4; p5] = true -> forall ins,
  assemble_inputs (map SByte [p0; p1; p2; p3; p4; p5] ++ ins) (mkAssembler [] last) q =
    let '(a, q', rs) := assemble_inputs ins (mkAssembler [] p5) (Fifo.push 31 q [p0; p1; p2; p3; p4; p5]) in (a, q', six_results ++ rs).
Proof.
  intros H0 H3 Hr ins. cbn [no_reset] in Hr. rewrite !andb_true_iff, !negb_true_iff in Hr. destruct Hr as (R0 & R1 & R2 & R3 & R4 & R5 & _).
  cbn [map app assemble_inputs]. do 6 (rewrite assemble_next by done; cbn [length app]; cbv beta iota;
    first [rewrite bool_decide_eq_false_2 by done | rewrite bool_decide_eq_true_2 by done]; cbn [enqueued]).
  by destruct (assemble_inputs ins _ _) as [[a q'] rs].
Qed.

(** What a packet in absolute mode reports. *)
Record Sample := mkSample { s_x : Z; s_y : Z; s_z : Z; s_w : Z; s_b : Z }.
Definition sample_ok (s : Sample) : bool :=
  (0 <=? s_x s) && (s_x s <? 8192) && (0 <=? s_y s) && (s_y s <? 8192) && (0 <=? s_z s) && (s_z s <? 256) &&
  (0 <=? s_w s) && (s_w s <? 16) && (0 <=? s_b s) && (s_b s <? 4).
Definition encode_sample (s : Sample) : list Z := encode_absolute (s_x s) (s_y s) (s_z s) (s_w s) (s_b s).
Definition says_sample (p : list Z) (s : Sample) : Prop := says p (s_x s) (s_y s) (s_z s) (s_w s) (s_b s).

Lemma sample_ranges s : sample_ok s = true ->
  0 <= s_x s < 8192 /\ 0 <= s_y s < 8192 /\ is_u8 (s_z s) /\ 0 <= s_w s < 16 /\ 0 <= s_b s < 4.
Proof. unfold sample_ok, is_u8. rewrite !andb_true_iff, !Z.leb_le, !Z.ltb_lt. lia. Qed.

Lemma sample_marks s : sample_ok s = true -> exists p0 p1 p2 p3 p4 p5, encode_sample s = [p0; p1; p2; p3; p4; p5] /\
  byte0_ok p0 = true /\ byte3_ok p3 = true.
Proof.
  intros (Hx & Hy & Hz & Hw & Hb)%sample_ranges. pose proof (encode_bytes _ _ _ _ _ Hx Hy Hz Hw Hb) as H.
  unfold encode_sample, encode_absolute in *. do 6 eexists. split; [reflexivity|].
  rewrite !Forall_cons in H. destruct H as (H0 & _ & _ & H3 & _). destruct (byte_marks _ H0) as [-> _]. destruct (byte_marks _ H3) as [_ ->].
  clear H0 H3. rewrite !andb_true_iff, !Z.eqb_eq. unfold bit. change (2 ^ 12) with 4096. change (2 ^ 1) with 2. change (2 ^ 0) with 1.
  split; split; Z.to_euclidean_division_equations; lia.
Qed.

Lemma assemble_stream ss : forall last q, Forall (fun s => sample_ok s = true) ss ->
  no_reset last (concat (encode_sample <$> ss)) = true -> (length q + length ss <= 31)%nat ->
  exists last', assemble_inputs (map SByte (concat (encode_sample <$> ss))) (mkAssembler [] last) q =
    (mkAssembler [] last', q ++ (encode_sample <$> ss), concat (replicate (length ss) six_results)).
Proof.
  induction ss as [|s ss IH]; intros last q Hs Hr Hl; [exists last; simpl; by rewrite app_nil_r|].
  apply Forall_cons in Hs as [Hs Hss]. destruct (sample_marks s Hs) as (p0 & p1 & p2 & p3 & p4 & p5 & E & H0 & H3).
  rewrite fmap_cons in *. cbn [concat length] in *. rewrite E in *. rewrite no_reset_app in Hr. apply andb_true_iff in Hr as [Hr Hr'].
  rewrite map_app, (assemble_packet last p0 p1 p2 p3 p4 p5 q H0 H3 Hr).
  destruct (IH p5 (Fifo.push 31 q [p0; p1; p2; p3; p4; p5]) Hss Hr') as [last' E'].
  - unfold Fifo.push. case_match; [rewrite length_app; simpl; lia|lia].
  - rewrite E'. exists last'. unfold Fifo.push. rewrite (proj2 (Z.ltb_lt _ _)) by lia. by rewrite <- app_assoc.
Qed.



(** A packet whose position ends in AA horizontally and in 00 vertically is
    lost: its last two bytes are taken for the announcement of a reset, and the
    other four are thrown away with them. *)
Theorem position_mistaken_for_reset env b c w last s :
  live b c w -> assembles (life (pad w)) (mkAssembler [] last) -> holds (_ringBuffer (life (pad w))) [] ->
  sample_ok s = true -> s_x s mod 256 = 0xAA -> s_y s mod 256 = 0 -> no_reset last (take 5 (encode_sample s)) = true ->
  exists w', run_sinputs env (map SByte (encode_sample s)) w = Done (six_results, w') /\
    holds (_ringBuffer (life (pad w'))) [[0; 0xAA]].
Proof.
  intros Hw Ha Hq Hs Ex Ey Hr. pose proof (pad_session_ok env (map SByte (encode_sample s)) b c w _ _ Hw Ha Hq) as H.
  destruct (sample_marks s Hs) as (p0 & p1 & p2 & p3 & p4 & p5 & E & H0 & H3). rewrite E in *.
  assert (p4 = 0xAA /\ p5 = 0) as [-> ->].
  { unfold encode_sample, encode_absolute in E. injection E as _ _ _ _ <- <-. by rewrite Ex, Ey. }
  cbn [take no_reset] in Hr. rewrite !andb_true_iff, !negb_true_iff in Hr. destruct Hr as (R0 & R1 & R2 & R3 & R4 & _).
  cbn [map assemble_inputs] in H. do 5 (rewrite assemble_next in H by done; cbn [length app] in H; cbv beta iota in H;
    rewrite bool_decide_eq_false_2 in H by done; cbn [enqueued] in H).
  destruct H as (w' & E' & _ & _ & Hq'). by exists w'.
Qed.

Lemma position_mistaken_for_reset_witness : exists w',
  run_sinputs dead_pad (map SByte (encode_sample (mkSample 0x10AA 0x0E00 80 5 0))) started_pad = Done (six_results, w') /\
    holds (_ringBuffer (life (pad w'))) [[0; 0xAA]].
Proof.
  apply (position_mistaken_for_reset dead_pad false init_settings started_pad 0 (mkSample 0x10AA 0x0E00 80 5 0)).
  - apply started_live.
  - apply pad_started_assembles.
  - apply pad_started_holds.
  - reflexivity.
  - reflexivity.
  - reflexivity.
  - reflexivity.
Defined.
