(* ===== verification/SynapticsMotion.v ===== *)
(** * SynapticsMotion: the motion of one finger, and momentum

    A finger that moves on the pad: every packet makes one pointer event, and
    nothing of the motion is lost to the divisors.  After a scroll the momentum
    runs out. *)

From S2P Require Import Prelude RingBuffer PS2Defs Controller Config Pointing Averages Synaptics SynapticsSpec SynapticsEntry SynapticsGestures.
From Stdlib Require String.

#[local] Open Scope list_scope.
#[local] Open Scope Z_scope.

(** ** One finger *)

(** Settings in which a finger simply moves the pointer: no filters, no palm or
    zone detection, two buttons, both axes of the same resolution. *)
Record plain (env : SEnv) (c : Settings) : Prop := {
  pl_units : xupmm c = yupmm c;
  pl_unsmooth : unsmoothinput c = false;
  pl_smooth : smoothinput c = false;
  pl_thinkpad : isthinkpad c = false;
  pl_outzone : outzone_wt c = false;
  pl_palm : palm c = false;
  pl_zone : diszctrl c <> 1;
  pl_buttons : _buttonCount c <= 2;
  pl_divisorx : 0 < divisorx c;
  pl_divisory : 0 < divisory c;
  pl_bogus : bogusdxthresh c < 2147483648 /\ bogusdythresh c < 2147483648;
  pl_time : forall n, maxtaptime c <= u64 (absolutetime_to_nanoseconds env (u64 (uptime env n)));
}.

(** A finger moves: where it was, what is left of the divisions, what was sent. *)
Record moving (c : Settings) (x y rx ry : Z) (evs : list SEvent) (w : SWorld) : Prop := {
  mv_conf : conf (pad w) = c;
  mv_caps : passthru (caps (pad w)) = false /\ _extendedwmode (caps (pad w)) = false /\ clickpadtype (caps (pad w)) = 0 /\ ledpresent (caps (pad w)) = false;
  mv_inp : ignoreall (inp (pad w)) = false /\ passbuttons (inp (pad w)) = 0;
  mv_touch : touchmode (tch (pad w)) = MODE_MOVE /\ lastf (tch (pad w)) = 1 /\ ignoredeltas (tch (pad w)) = 0 /\ touchtime (tch (pad w)) = 0;
  mv_last : lastx (tch (pad w)) = x /\ lasty (tch (pad w)) = y;
  mv_rest : xrest (tch (pad w)) = rx /\ yrest (tch (pad w)) = ry;
  mv_events : sevs w = evs;
}.

(** Pressure and width of one finger. *)
Definition one_finger (c : Settings) (s : Sample) : bool :=
  (z_finger c <? s_z s) && (s_z s <? zlimit c) && (4 <=? s_w s) && (s_w s <=? wlimit c).

Section motion.
  Context (env : SEnv) (c : Settings) (Hp : plain env c).
  Abbreviation Mv := (moving c).

Lemma mv_get {A} x y rx ry evs (f : ApplePS2SynapticsTouchPad -> A) : keeps (Mv x y rx ry evs) (getp f) (fun a => True).
Proof. intros w Hw. by do 2 eexists. Qed.
Lemma mv_clock x y rx ry evs : keeps (Mv x y rx ry evs) (clock_get_uptime env) (fun t => exists n, t = u64 (uptime env n)).
Proof. intros w Hw. do 2 eexists. split; [reflexivity|]. split; [by destruct Hw; split|by eexists]. Qed.

(** Reading the state. *)
Lemma mv_read {A B} x y rx ry evs J (g : ApplePS2SynapticsTouchPad -> A) (k : A -> M SWorld B) Q :
  (forall w, Mv x y rx ry evs w -> exists b w', k (g (pad w)) w = Done (b, w') /\ J w' /\ Q b) ->
  takes (Mv x y rx ry evs) J (a ← getp g; k a) Q.
Proof. intros H w Hw. unfold getp, gets. unfold mbind at 1, M_bind at 1. by apply H. Qed.

Lemma middle_off b t from x y rx ry evs : keeps (Mv x y rx ry evs) (middleButton env b t from) (fun a => a = b).
Proof.
  unfold middleButton. apply mv_read. intros w Hw. unfold id. rewrite (mv_conf _ _ _ _ _ _ _ Hw).
  rewrite (proj2 (Z.leb_le (_buttonCount c) 2)), orb_true_r by apply Hp. by exists b, w.
Qed.

Lemma mv_scale a b x y rx ry evs : keeps (Mv x y rx ry evs) (scale a b) (fun p => p = (a, b)).
Proof.
  unfold scale. apply mv_read. intros w Hw. rewrite (mv_conf _ _ _ _ _ _ _ Hw), (pl_units _ _ Hp), Z.ltb_irrefl.
  destruct (Z.gtb_spec (yupmm c) (yupmm c)); [lia|]. by exists (a, b), w.
Qed.

Lemma mv_filter a b x y rx ry evs : keeps (Mv x y rx ry evs) (filter_primary a b) (fun p => p = (a, b)).
Proof.
  unfold filter_primary. apply mv_read. intros w Hw. rewrite (mv_conf _ _ _ _ _ _ _ Hw), (pl_unsmooth _ _ Hp), (pl_smooth _ _ Hp).
  by exists (a, b), w.
Qed.

Lemma mv_finger_change x y rx ry evs : keeps (Mv x y rx ry evs) (finger_change 1) (fun _ => True).
Proof.
  unfold finger_change. apply mv_read. intros w Hw. unfold id. destruct (mv_touch _ _ _ _ _ _ _ Hw) as (_ & -> & _). by exists tt, w.
Qed.

Lemma mv_ignore_deltas a b x y rx ry evs : keeps (Mv x y rx ry evs) (ignore_deltas a b) (fun _ => True).
Proof.
  unfold ignore_deltas. apply mv_read. intros w Hw. destruct (mv_touch _ _ _ _ _ _ _ Hw) as (_ & _ & -> & _). by exists tt, w.
Qed.

Lemma mv_disable_zone a b z wd t x y rx ry evs : keeps (Mv x y rx ry evs) (disable_zone env a b z wd t) (fun u => u = false).
Proof.
  unfold disable_zone. apply mv_read. intros w Hw. unfold id. rewrite (mv_conf _ _ _ _ _ _ _ Hw).
  destruct (mv_caps _ _ _ _ _ _ _ Hw) as (_ & _ & _ & ->). rewrite andb_false_r, (proj2 (Z.eqb_neq 1 (diszctrl c))) by (pose proof (pl_zone _ _ Hp); lia).
  by exists false, w.
Qed.

Lemma mv_lift_fingers z b ta tn x y rx ry evs : z_finger c < z -> keeps (Mv x y rx ry evs) (lift_fingers z b ta tn) (fun a => a = b).
Proof.
  intros Hz. unfold lift_fingers. apply mv_read. intros w Hw. unfold id. rewrite (mv_conf _ _ _ _ _ _ _ Hw).
  rewrite (proj2 (Z.ltb_ge z (z_finger c))) by lia. by exists b, w.
Qed.

Lemma mv_cancel_taps a b z t x y rx ry evs : keeps (Mv x y rx ry evs) (cancel_taps a b z t) (fun _ => True).
Proof.
  unfold cancel_taps. apply mv_read. intros w Hw. unfold id. destruct (mv_touch _ _ _ _ _ _ _ Hw) as (Em & _).
  rewrite Em. cbn [andb bool_decide decide_rel]. rewrite bool_decide_eq_false_2 by done. cbn [andb when].
  rewrite (bind_done _ _ w tt w eq_refl). unfold getp, gets. unfold mbind at 1, M_bind at 1. case_match; [|by exists tt, w].
  cbv zeta. destruct (_ || _); [|by exists tt, w]. exists tt. eexists. split; [reflexivity|]. split; [|done].
  destruct Hw as [? ? ? (? & ? & ? & ?) ? ? ?]. by split.
Qed.

(** A step that is not bogus. *)
Definition steady (dx dy : Z) : Prop := Z.abs dx <= bogusdxthresh c /\ Z.abs dy <= bogusdythresh c.

Lemma iabs_small z n : Z.abs z <= n -> n < 2147483648 -> iabs z = Z.abs z.
Proof. intros Hz Hn. unfold iabs. destruct (Z.ltb_spec z 0); [rewrite s32_small; lia|lia]. Qed.

Lemma mv_move_finger x' y' x y rx ry evs : steady (x' - x + rx) (y - y' + ry) ->
  takes (Mv x y rx ry evs) (Mv x y (Z.rem (x' - x + rx) (divisorx c)) (Z.rem (y - y' + ry) (divisory c)) evs)
    (move_finger x' y') (fun d => d = (x' - x + rx, y - y' + ry)).
Proof.
  intros [Hx Hy]. destruct (pl_bogus _ _ Hp) as [Bx By]. unfold move_finger. apply mv_read. intros w Hw. unfold id.
  pose proof Hw as [Hc _ _ _ [Lx Ly] [Rx Ry] _]. rewrite Hc, Lx, Ly, Rx, Ry. rewrite (s32_small (x' - x + rx)), (s32_small (y - y' + ry)) by lia.
  rewrite !imod_pos by apply Hp. rewrite (bind_done _ _ w (Z.rem (x' - x + rx) (divisorx c)) w eq_refl), (bind_done _ _ w (Z.rem (y - y' + ry) (divisory c)) w eq_refl).
  unfold bogus. rewrite (iabs_small _ _ Hx Bx), (iabs_small _ _ Hy By).
  destruct (Z.gtb_spec (Z.abs (x' - x + rx)) (bogusdxthresh c)); [lia|]. destruct (Z.gtb_spec (Z.abs (y - y' + ry)) (bogusdythresh c)); [lia|].
  cbn [orb]. do 2 eexists. split; [reflexivity|]. split; [|done]. destruct Hw as [? ? ? (? & ? & ? & ?) [? ?] [? ?] ?]. by split.
Qed.

Lemma mv_touch_motion x' y' z wd b ta tn x y rx ry evs : steady (x' - x + rx) (y - y' + ry) -> maxtaptime c <= u64 tn ->
  takes (Mv x y rx ry evs) (Mv x y (Z.rem (x' - x + rx) (divisorx c)) (Z.rem (y - y' + ry) (divisory c)) evs)
    (touch_motion x' y' z wd 1 b ta tn) (fun d => d = (x' - x + rx, y - y' + ry, b)).
Proof.
  intros Hs Ht. unfold touch_motion. apply mv_read. intros w Hw. unfold id. pose proof Hw as [Hc _ _ (Em & Ef & _ & Et) _ _ _].
  rewrite Hc, Em, Ef, Et, (pl_palm _ _ Hp), Z.sub_0_r. rewrite (proj2 (Z.ltb_ge (u64 tn) (maxtaptime c))) by done.
  rewrite andb_false_r. cbn [Z.eqb Pos.eqb negb orb andb]. cbv zeta.
  destruct (mv_move_finger x' y' x y rx ry evs Hs w Hw) as (d & w' & E & Hw' & ->). rewrite (bind_done _ _ _ _ _ E). by do 2 eexists.
Qed.

Lemma mv_capture_touch a b z wd t x y rx ry evs : 4 <= wd -> keeps (Mv x y rx ry evs) (capture_touch a b z wd t) (fun _ => True).
Proof.
  intros Hwd. unfold capture_touch. apply mv_read. intros w Hw. unfold id. pose proof Hw as [Hc _ _ (Em & _) _ _ _]. rewrite Em.
  case_match; [|by exists tt, w]. cbn [isTouchMode mode_value Z.odd negb when].
  rewrite (proj2 (Z.eqb_neq 0 wd)), (proj2 (Z.eqb_neq 1 wd)), andb_false_r by lia.
  assert ((if (negb (palm_wt (conf (pad w))) || negb (typing (conf (pad w)) (inp (pad w)) t)) && (momentumscrollcurrent (mom (pad w)) =? 0)
    then mret tt;; mret tt else mret tt : M SWorld unit) w = Done (tt, w)) as E by (by case_match).
  rewrite (bind_done _ _ _ _ _ E). exists tt. eexists. split; [reflexivity|]. split; [|done]. by destruct Hw; split.
Qed.

Lemma mv_get_tch x y rx ry evs : keeps (Mv x y rx ry evs) (getp tch) (fun t => touchmode t = MODE_MOVE).
Proof. intros w Hw. do 2 eexists. split; [reflexivity|]. split; [done|apply Hw]. Qed.
Lemma mv_get_conf x y rx ry evs : keeps (Mv x y rx ry evs) (getp conf) (fun c' => c' = c).
Proof. intros w Hw. do 2 eexists. split; [reflexivity|]. split; [done|apply Hw]. Qed.

(** A change of mode whose condition does not hold. *)
Lemma mv_unless x y rx ry evs (b : Touch -> bool) (m : M SWorld unit) (k : Touch -> M SWorld unit) :
  (forall t, touchmode t = MODE_MOVE -> b t = false) -> (forall t, keeps (Mv x y rx ry evs) (k t) (fun _ => True)) ->
  keeps (Mv x y rx ry evs) (t ← getp tch; when (b t) m;; k t) (fun _ => True).
Proof. intros Hb Hk. eapply syn_bind; [apply mv_get_tch|]. intros t Ht. rewrite (Hb t Ht). apply syn_seq; [apply syn_skip|intros _; apply Hk]. Qed.

Lemma mv_switch_modes a b z wd x y rx ry evs : 4 <= wd <= wlimit c -> keeps (Mv x y rx ry evs) (switch_modes a b z wd) (fun _ => True).
Proof.
  intros Hwd. unfold switch_modes. eapply syn_bind; [apply mv_get_conf|]. intros ? ->. cbv zeta.
  eapply syn_bind; [apply mv_get_tch|intros t0 E0]. apply syn_seq; [apply mv_get|intros i].
  rewrite E0. cbn [andb when]. rewrite bool_decide_eq_false_2 by done. apply syn_seq; [apply syn_skip|intros _].
  eapply syn_bind; [apply mv_get_tch|intros t1 E1]. rewrite E1, bool_decide_eq_false_2 by done. apply syn_seq; [apply syn_skip|intros _].
  apply mv_unless; [intros t2 _|intros _].
  { destruct (Z.gtb_spec wd (wlimit c)); [lia|]. rewrite (proj2 (Z.ltb_ge wd 2)) by lia. cbn [orb]. by rewrite andb_false_r. }
  apply mv_unless; [intros t3 E3; rewrite E3, (bool_decide_eq_false_2 (MODE_MOVE = MODE_NOTOUCH)) by done; by rewrite andb_false_r|intros _].
  do 2 (apply mv_unless; [intros ? E; rewrite E, !bool_decide_eq_false_2 by done; done|intros _]).
  eapply syn_bind; [apply mv_get_tch|intros t4 E4]. rewrite E4, bool_decide_eq_false_2 by done. apply syn_skip.
Qed.

Lemma mv_dispatch dx dy b t x y rx ry evs : takes (Mv x y rx ry evs)
  (Mv x y rx ry (evs ++ [SPointer (Z.quot dx (divisorx c)) (Z.quot dy (divisory c)) b t])) (dispatch_motion dx dy b t) (fun _ => True).
Proof.
  unfold dispatch_motion. apply mv_read. intros w Hw. unfold id. rewrite (mv_conf _ _ _ _ _ _ _ Hw), (pl_thinkpad _ _ Hp). cbn [negb].
  rewrite !idiv_pos by apply Hp. exists tt. eexists. split; [reflexivity|]. split; [|done]. destruct Hw. split; simpl; try done. congruence.
Qed.

Lemma mv_settle x' y' x y rx ry evs : takes (Mv x y rx ry evs) (Mv x' y' rx ry evs)
  (set_tch (fun t => t <| lastx := x' |> <| lasty := y' |> <| lastf := 1 |>)) (fun _ => True).
Proof. intros w [? ? ? (? & ? & ? & ?) ? ? ?]. exists tt. eexists. split; [reflexivity|]. split; [|done]. by split. Qed.

Lemma read_byte_ok (I : SWorld -> Prop) (p : list Z) i v : aget p i = Done v -> is_u8 v -> keeps I (packet_byte p i) (fun b => b = v).
Proof. intros E Hv w Hw. exists (u8 v), w. unfold packet_byte. munfold. rewrite E. rewrite u8_id by done. by split. Qed.

Lemma takes_run (I J : SWorld -> Prop) (m : M SWorld unit) : takes I J m (fun _ => True) -> forall w, I w -> exists w', m w = Done (tt, w') /\ J w'.
Proof. intros Hm w Hw. destruct (Hm w Hw) as ([] & w' & E & Hw' & _). by exists w'. Qed.

Lemma mv_get_caps x y rx ry evs : keeps (Mv x y rx ry evs) (getp caps)
  (fun k => passthru k = false /\ _extendedwmode k = false /\ clickpadtype k = 0 /\ ledpresent k = false).
Proof. intros w Hw. do 2 eexists. split; [reflexivity|]. split; [done|apply Hw]. Qed.
Lemma mv_get_inp x y rx ry evs : keeps (Mv x y rx ry evs) (getp inp) (fun i => ignoreall i = false /\ passbuttons i = 0).
Proof. intros w Hw. do 2 eexists. split; [reflexivity|]. split; [done|apply Hw]. Qed.
Lemma mv_get_id x y rx ry evs : keeps (Mv x y rx ry evs) (getp id) (fun p => lastf (tch p) = 1).
Proof. intros w Hw. do 2 eexists. split; [reflexivity|]. split; [done|apply Hw]. Qed.
Lemma mv_lastbuttons b x y rx ry evs : keeps (Mv x y rx ry evs) (set_tch (fun t => t <| lastbuttons := b |>)) (fun _ => True).
Proof. intros w [? ? ? (? & ? & ? & ?) ? ? ?]. exists tt. eexists. split; [reflexivity|]. split; [|done]. by split. Qed.

Lemma mv_touchpad_packet s p1 p3 p4 p5 t tn x y rx ry evs :
  packet_x p1 p3 p4 = s_x s -> packet_y p1 p3 p5 = s_y s -> z_finger c < s_z s -> 4 <= s_w s -> s_w s <= wlimit c ->
  steady (s_x s - x + rx) (y - s_y s + ry) -> maxtaptime c <= u64 tn ->
  takes (Mv x y rx ry evs) (Mv (s_x s) (s_y s) (Z.rem (s_x s - x + rx) (divisorx c)) (Z.rem (y - s_y s + ry) (divisory c))
      (evs ++ [SPointer (Z.quot (s_x s - x + rx) (divisorx c)) (Z.quot (y - s_y s + ry) (divisory c)) (s_b s) t]))
    (touchpad_packet env p1 (s_z s) p3 p4 p5 (s_w s) (s_b s) (s_b s) t tn) (fun _ => True).
Proof.
  intros Sx Sy Hz Hw1 Hw2 Hd Ht. unfold touchpad_packet. rewrite Sx, Sy.
  eapply takes_bind; [apply mv_scale|intros ? ->]. eapply takes_bind; [apply mv_get_conf|intros ? ->].
  eapply takes_bind; [apply mv_get_caps|intros k (_ & Ke & Kc & _)]. rewrite Ke, Kc. cbn [andb Z.eqb negb]. cbv zeta.
  assert (fingers c (s_z s) (s_w s) = 1) as ->.
  { unfold fingers. rewrite (proj2 (Z.gtb_gt _ _)) by lia. by rewrite (proj2 (Z.geb_le _ _)) by lia. }
  eapply takes_bind; [apply mv_get_id|intros p Ef]. rewrite Ef. cbn [Z.eqb andb].
  eapply takes_bind; [by apply (syn_ret _ (s_b s) (fun b => b = s_b s))|intros ? ->].
  eapply takes_seq; [apply mv_finger_change|intros _]. eapply takes_bind; [apply mv_filter|intros ? ->].
  eapply takes_seq; [apply mv_ignore_deltas|intros _]. eapply takes_bind; [by apply (syn_ret _ (s_b s) (fun b => b = s_b s))|intros ? ->].
  eapply takes_bind; [apply mv_get_inp|intros i [Ki _]]. unfold outside_zone. rewrite (pl_outzone _ _ Hp). cbn [andb].
  eapply takes_bind; [apply mv_disable_zone|intros ? ->]. eapply takes_bind; [apply mv_get_inp|intros i' [Ki' _]]. rewrite Ki'.
  eapply takes_bind; [by apply mv_lift_fingers|intros ? ->]. eapply takes_seq; [apply mv_cancel_taps|intros _].
  eapply takes_bind; [by apply mv_touch_motion|intros ? ->]. eapply takes_seq; [by apply mv_capture_touch|intros _].
  eapply takes_seq; [by apply mv_switch_modes|intros _]. eapply takes_seq; [apply mv_dispatch|intros _]. apply mv_settle.
Qed.

(** One packet of a moving finger: one pointer event. *)
Lemma finger_packet s x y rx ry evs : sample_ok s = true -> one_finger c s = true -> steady (s_x s - x + rx) (y - s_y s + ry) ->
  forall w, Mv x y rx ry evs w -> exists t w',
    dispatchEventsWithPacket env (encode_sample s) w = Done (tt, w') /\
    Mv (s_x s) (s_y s) (Z.rem (s_x s - x + rx) (divisorx c)) (Z.rem (y - s_y s + ry) (divisory c))
      (evs ++ [SPointer (Z.quot (s_x s - x + rx) (divisorx c)) (Z.quot (y - s_y s + ry) (divisory c)) (s_b s) t]) w'.
Proof.
  intros Hs Hf Hd w Hw. destruct (sample_ranges s Hs) as (Hx & Hy & Hz & Hwd & Hb).
  pose proof (absolute_says _ _ _ _ _ Hx Hy Hz Hwd Hb) as Hsays. pose proof (encode_bytes _ _ _ _ _ Hx Hy Hz Hwd Hb) as Hbytes.
  fold (encode_sample s) in Hsays, Hbytes. destruct (sample_marks s Hs) as (p0 & p1 & p2 & p3 & p4 & p5 & E & _). rewrite E in *.
  destruct Hsays as (Sx & Sy & -> & Sw & Sb). rewrite !Forall_cons in Hbytes. destruct Hbytes as (B0 & B1 & B2 & B3 & B4 & B5 & _).
  unfold one_finger in Hf. rewrite !andb_true_iff, !Z.ltb_lt, !Z.leb_le in Hf. destruct Hf as [[[Hz1 Hz2] Hw1] Hw2].
  unfold dispatchEventsWithPacket. destruct (mv_clock x y rx ry evs w Hw) as (t & w0 & E0 & Hw0 & n & ->). rewrite (bind_done _ _ _ _ _ E0).
  set (t := u64 (uptime env n)). cbv zeta. set (tn := absolutetime_to_nanoseconds env t).
  assert (maxtaptime c <= u64 tn) as Ht by apply (pl_time _ _ Hp).
  exists t. apply (takes_run (Mv x y rx ry evs)); [|exact Hw0]. clear w0 Hw0 E0 w Hw.
  do 6 (eapply takes_bind; [by apply read_byte_ok|intros ? ->]). rewrite Sw, Sb.
  eapply takes_bind; [apply mv_get_caps|intros k (Kp & Ke & Kc & _)]. rewrite Kp, Ke, Kc. cbn [andb orb when Z.eqb].
  eapply takes_seq; [apply syn_skip|intros _]. eapply takes_bind; [apply mv_get_inp|intros i [_ Ki]]. rewrite Ki, Z.lor_0_r.
  eapply takes_seq; [apply mv_lastbuttons|intros _]. eapply takes_bind; [apply middle_off|intros ? ->].
  by apply mv_touchpad_packet.
Qed.

(** No step of the path is as long as a bogus one. *)
Fixpoint steady_path (x y : Z) (ss : list Sample) : bool :=
  match ss with
  | [] => true
  | s :: ss => (Z.abs (s_x s - x) + divisorx c <=? bogusdxthresh c) && (Z.abs (s_y s - y) + divisory c <=? bogusdythresh c) &&
      steady_path (s_x s) (s_y s) ss
  end.

(** Where the path ends. *)
Definition path_end (x y : Z) (ss : list Sample) : Z * Z :=
  match last ss with Some s => (s_x s, s_y s) | None => (x, y) end.

Lemma path_end_cons x y s ss : path_end x y (s :: ss) = path_end (s_x s) (s_y s) ss.
Proof. unfold path_end. destruct ss; [done|]. by rewrite last_cons_cons; destruct (last _) eqn:E; [|by apply last_None in E]. Qed.

Definition dx_of (e : SEvent) : Z := match e with SPointer dx _ _ _ => dx | _ => 0 end.
Definition dy_of (e : SEvent) : Z := match e with SPointer _ dy _ _ => dy | _ => 0 end.
Definition total (f : SEvent -> Z) (es : list SEvent) : Z := foldr (fun e n => f e + n) 0 es.

(** A pointer event with the buttons of a sample. *)
Definition pointer_for (s : Sample) (e : SEvent) : Prop := exists dx dy t, e = SPointer dx dy (s_b s) t.

Lemma finger_path ss : forall x y rx ry evs w, Mv x y rx ry evs w -> Z.abs rx < divisorx c -> Z.abs ry < divisory c ->
  Forall (fun s => sample_ok s && one_finger c s = true) ss -> steady_path x y ss = true ->
  exists w' es rx' ry', forM_ ss (fun s => dispatchEventsWithPacket env (encode_sample s)) w = Done (tt, w') /\
    Mv (path_end x y ss).1 (path_end x y ss).2 rx' ry' (evs ++ es) w' /\ Forall2 pointer_for ss es /\
    Z.abs rx' < divisorx c /\ Z.abs ry' < divisory c /\
    divisorx c * total dx_of es + rx' = (path_end x y ss).1 - x + rx /\
    divisory c * total dy_of es + ry' = y - (path_end x y ss).2 + ry.
Proof.
  destruct Hp as [_ _ _ _ _ _ _ _ Dx Dy _ _].
  induction ss as [|s ss IH]; intros x y rx ry evs w Hw Hrx Hry Hs Hpath.
  { exists w, [], rx, ry. rewrite app_nil_r. cbn. split; [done|]. split; [done|]. split; [constructor|]. lia. }
  apply Forall_cons in Hs as [[Hs Hf]%andb_true_iff Hss]. cbn [steady_path] in Hpath.
  rewrite !andb_true_iff, !Z.leb_le in Hpath. destruct Hpath as [[P1 P2] P3].
  set (dx := s_x s - x + rx). set (dy := y - s_y s + ry).
  destruct (finger_packet s x y rx ry evs Hs Hf ltac:(unfold steady; lia) w Hw) as (t & w1 & E1 & Hw1). fold dx dy in Hw1.
  pose proof (Z.rem_bound_abs dx (divisorx c) ltac:(lia)). pose proof (Z.rem_bound_abs dy (divisory c) ltac:(lia)).
  destruct (IH _ _ _ _ _ w1 Hw1) as (w' & es & rx' & ry' & E & Hw' & Hes & R1 & R2 & S1 & S2); [lia|lia|done|done|].
  pose proof (Z.quot_rem' dx (divisorx c)) as Q1. pose proof (Z.quot_rem' dy (divisory c)) as Q2.
  exists w', (SPointer (Z.quot dx (divisorx c)) (Z.quot dy (divisory c)) (s_b s) t :: es), rx', ry'. rewrite path_end_cons.
  split; [cbn [forM_]; by rewrite (bind_done _ _ _ _ _ E1)|]. split; [by rewrite <- app_assoc in Hw'|].
  split; [constructor; [by do 3 eexists|done]|]. cbn [total foldr dx_of dy_of]. unfold total in S1, S2. unfold dx, dy in *. lia.
Qed.
End motion.


Definition moving_settings : Settings := init_settings <| divisorx := 3 |> <| divisory := 7 |> <| maxtaptime := 0 |>.
Definition moving_pad : SWorld :=
  mkSWorld (init <| life := started_life |> <| conf := moving_settings |>
    <| tch := (tch init) <| touchmode := MODE_MOVE |> <| lastx := 3000 |> <| lasty := 3000 |> <| lastf := 1 |> |>) 0 [].
Definition moving_path : list Sample := [mkSample 3010 3005 60 5 0; mkSample 3100 2995 70 4 1; mkSample 2999 2800 80 6 0].


(** ** Momentum *)

(** The numerator of the momentum, and what the next callback makes of it. *)
Definition momentum_total (c : Settings) (m : Momentum) : Z :=
  momentumscrollcurrent m * momentumscrolldivisor c + momentumscrollrest1 m.

Record slowing (c : Settings) (m : Momentum) : Prop := {
  sl_factor : 0 <= momentumscrollmultiplier c < momentumscrolldivisor c;
  sl_range : Z.abs (momentumscrollcurrent m) * momentumscrollmultiplier c + momentumscrolldivisor c < 9223372036854775808;
  sl_rest : Z.abs (momentumscrollrest1 m) < momentumscrolldivisor c;
  sl_sign : 0 <= momentumscrollcurrent m * momentumscrollrest1 m;
}.

Lemma timer_mom t ns w u w' : setTimerTimeout t ns w = Done (u, w') -> mom (pad w') = mom (pad w).
Proof. unfold setTimerTimeout, getp, semit. munfold. destruct (has_timer t (life (pad w))); [|done]. by intros [= _ <-]. Qed.

(** One callback. *)
Lemma scroll_step env c w u w' : conf (pad w) = c -> 0 < momentumscrolldivisor c -> momentumscrollcurrent (mom (pad w)) <> 0 ->
  onScrollTimer env w = Done (u, w') ->
  let v := s64 (momentumscrollcurrent (mom (pad w)) * momentumscrollmultiplier c + momentumscrollrest1 (mom (pad w))) in
  momentumscrollcurrent (mom (pad w')) = 0 \/
  (momentumscrollcurrent (mom (pad w')) = Z.quot v (momentumscrolldivisor c) /\ momentumscrollrest1 (mom (pad w')) = Z.rem v (momentumscrolldivisor c)).
Proof.
  intros Hc Hd Hn E v. unfold onScrollTimer, getp in E. unfold mbind at 1, M_bind at 1, gets at 1 in E. unfold id in E. rewrite Hc in E.
  rewrite (proj2 (Z.eqb_neq _ _)) in E by done.
  apply bind_done_inv in E as (t & w1 & E1 & E). apply bind_done_inv in E as (q & w2 & E2 & E).
  cbv zeta in E. destruct (iabs _ >? _); [|left; by injection E as _ <-]. right.
  apply bind_done_inv in E as (dd & w3 & E3 & E). apply bind_done_inv in E as (u1 & w4 & E4 & E). apply bind_done_inv in E as (r2 & w5 & E5 & E).
  fold v in E. rewrite lmod_pos, (ldiv_ok v) in E by lia. rewrite (bind_done _ _ w5 (Z.rem v (momentumscrolldivisor c)) w5 eq_refl) in E.
  rewrite (bind_done _ _ w5 (Z.quot v (momentumscrolldivisor c)) w5 eq_refl) in E. apply bind_done_inv in E as (u2 & w6 & E6 & E).
  apply timer_mom in E. rewrite E. by injection E6 as _ <-.
Qed.

Lemma quot_rem_sign v d : 0 < d -> 0 <= Z.quot v d * Z.rem v d /\ Z.abs (Z.quot v d) * d + Z.abs (Z.rem v d) = Z.abs v /\ Z.abs (Z.rem v d) < d.
Proof.
  intros Hd. pose proof (Z.quot_rem' v d). pose proof (Z.rem_bound_abs v d ltac:(lia)). destruct (Z.le_ge_cases 0 v) as [Hv|Hv].
  - pose proof (Z.quot_pos v d Hv Hd). pose proof (Z.rem_nonneg v d ltac:(lia) Hv). split; [nia|]. split; [|lia]. nia.
  - pose proof (Z.quot_pos (- v) d ltac:(lia) Hd) as H1. rewrite Z.quot_opp_l in H1 by lia. pose proof (Z.rem_nonpos v d ltac:(lia) Hv).
    split; [nia|]. split; [|lia]. nia.
Qed.

Lemma abs_same_sign n r k : 0 <= k -> 0 <= n * r -> Z.abs (n * k + r) = Z.abs n * k + Z.abs r.
Proof. intros Hk Hs. destruct (Z.lt_trichotomy n 0) as [H|[->|H]]; [|lia|]; assert (n * k <= 0 \/ 0 <= n * k) by lia; nia. Qed.

Lemma slowing_step c m m' : slowing c m -> momentumscrollcurrent m <> 0 ->
  let v := s64 (momentumscrollcurrent m * momentumscrollmultiplier c + momentumscrollrest1 m) in
  momentumscrollcurrent m' = Z.quot v (momentumscrolldivisor c) -> momentumscrollrest1 m' = Z.rem v (momentumscrolldivisor c) ->
  slowing c m' /\ Z.abs (momentum_total c m') < Z.abs (momentum_total c m).
Proof.
  intros [Hf Hr Hs Hg] Hn v E1 E2. unfold momentum_total.
  set (n := momentumscrollcurrent m) in *. set (r := momentumscrollrest1 m) in *. set (k := momentumscrollmultiplier c) in *.
  set (d := momentumscrolldivisor c) in *.
  pose proof (abs_same_sign n r k ltac:(lia) Hg) as Ha. pose proof (abs_same_sign n r d ltac:(lia) Hg) as Hb.
  assert (Z.abs n * k < Z.abs n * d) as Hlt by (apply Z.mul_lt_mono_pos_l; lia).
  assert (v = n * k + r) as Ev by (apply s64_small; lia). rewrite Ev in E1, E2. clear Ev v.
  destruct (quot_rem_sign (n * k + r) d ltac:(lia)) as (Q1 & Q2 & Q3). pose proof (Z.quot_rem' (n * k + r) d) as Q4.
  rewrite E1, E2. split; [|replace (Z.quot (n * k + r) d * d + Z.rem (n * k + r) d) with (n * k + r) by lia; lia].
  split; rewrite ?E1, ?E2; try done. fold k d.
  assert (Z.abs n * k <= Z.abs n * (d - 1)) by (apply Z.mul_le_mono_nonneg_l; lia).
  assert (Z.abs (Z.quot (n * k + r) d) < Z.abs n + 1) by (apply (Z.mul_lt_mono_pos_r d); lia).
  assert (Z.abs (Z.quot (n * k + r) d) * k <= Z.abs n * k) by (apply Z.mul_le_mono_nonneg_r; lia). lia.
Qed.

(** Callbacks of the scroll timer. *)
Definition scroll_timers (env : SEnv) (n : nat) : M SWorld unit := forM_ (replicate n tt) (fun _ => onScrollTimer env).

(** C17: Momentum scrolling comes to an end: if the multiplier is below the
    divisor, finitely many callbacks of the scroll timer, at most as many as the
    momentum times its divisor, bring the momentum to zero, after which a
    callback does nothing and does not set the timer again. *)
Theorem momentum_stops env b c w :
  live b c w -> slowing c (mom (pad w)) ->
  exists n w', Z.of_nat n <= Z.abs (momentum_total c (mom (pad w))) + 1 /\ scroll_timers env n w = Done (tt, w') /\ live b c w' /\
    momentumscrollcurrent (mom (pad w')) = 0 /\ onScrollTimer env w' = Done (tt, w').
Proof.
  remember (Z.to_nat (Z.abs (momentum_total c (mom (pad w))))) as k eqn:Ek. revert w Ek.
  induction (lt_wf k) as [k _ IH]. intros w -> (d & Hw & Hb) Hs.
  assert (forall w, momentumscrollcurrent (mom (pad w)) = 0 -> onScrollTimer env w = Done (tt, w)) as Hidle.
  { intros w0 E. unfold onScrollTimer, getp. munfold. unfold id. by rewrite E. }
  destruct (Z.eq_dec (momentumscrollcurrent (mom (pad w))) 0) as [E0|E0].
  { exists 0%nat, w. split; [lia|]. split; [done|]. split; [by exists d|]. split; [done|by apply Hidle]. }
  destruct (syn_scrollTimer env c d false true w Hw) as ([] & w1 & E1 & Hw1 & _).
  pose proof (so_momentum _ (po_settings _ _ (iv_pad _ _ _ _ _ Hw))) as Hd.
  destruct (scroll_step env c w tt w1 (po_conf _ _ (iv_pad _ _ _ _ _ Hw)) ltac:(lia) E0 E1) as [H|[H1 H2]].
  { exists 1%nat, w1. split; [lia|]. split; [unfold scroll_timers; simpl; by rewrite (bind_done _ _ _ _ _ E1)|].
    split; [by exists d|]. split; [done|by apply Hidle]. }
  destruct (slowing_step c _ _ Hs E0 H1 H2) as [Hs1 Hlt].
  destruct (IH (Z.to_nat (Z.abs (momentum_total c (mom (pad w1))))) ltac:(lia) w1 eq_refl) as (n & w' & Hn & E & Hr); [by exists d|done|].
  exists (S n), w'. split; [lia|]. split; [|done]. unfold scroll_timers in *. cbn [replicate forM_]. by rewrite (bind_done _ _ _ _ _ E1).
Qed.

Definition flung_pad : SWorld :=
  started_pad <| pad := (pad started_pad) <| mom := (mom init) <| momentumscrollcurrent := -100000 |> <| momentumscrollinterval := 50 |> |> |>.

Lemma flung_live : live false init_settings flung_pad.
Proof.
  destruct started_live as (d & [[Hc Hs Hr Hm Ho Hf] Hl _ _] & Hd). exists d. split; [|done].
  split; [|exact Hl|done|by intros _ [=]]. split; try done. destruct Ho. split; simpl; try done; lia.
Qed.

Lemma momentum_stops_witness : exists n w', Z.of_nat n <= 10000001 /\ scroll_timers dead_pad n flung_pad = Done (tt, w') /\
  live false init_settings w' /\ momentumscrollcurrent (mom (pad w')) = 0 /\ onScrollTimer dead_pad w' = Done (tt, w').
Proof.
  apply (momentum_stops dead_pad false init_settings flung_pad); [apply flung_live|].
  split; simpl; lia.
Defined.
