(* ===== verification/PadLine.v ===== *)
(** * PadLine: the touchpad driver, the controller and a touchpad

    The Synaptics driver of Synaptics.v with the controller of Controller.v
    behind its requests, a chip behind the controller and a touchpad behind the
    chip.  [on_controller] is the driver's environment whose answers are those of
    the controller; [SynapticsPad] says what a touchpad does with the commands
    that carry an argument two bits at a time.  What the driver asks for is what
    the touchpad does. *)

From S2P Require Import Prelude PS2Defs PortIO Controller ControllerSpec Line Pointing Synaptics SynapticsEntry.

(** ** The touchpad

    From the interfacing guide of the PS/2 touchpads: each of the last four
    resolution commands carries two bits of an argument; a sample rate of 20
    makes the argument the mode byte, other sample rates do something else; an
    information command answers the query the argument names; enabling,
    disabling and scaling leave the mode byte alone. *)
Class SynapticsPad (A : Type) `{Device A} := {
  pad_command : A -> option Z;              (* a command that waits for its parameter *)
  pad_arg : A -> Z;
  pad_mode : A -> Z;
  pad_info : A -> Z -> Z * Z * Z;
  pad_plain : forall p v, pad_command p = None -> v ∈ [kDP_SetMouseScaling1To1; kDP_Enable; kDP_SetDefaultsAndDisable] ->
    exists p', react p v = (p', [kSC_Acknowledge]) /\ pad_command p' = None /\ pad_mode p' = pad_mode p /\ pad_info p' = pad_info p;
  pad_opens : forall p v, pad_command p = None -> v ∈ [kDP_SetMouseResolution; kDP_SetMouseSampleRate] ->
    exists p', react p v = (p', [kSC_Acknowledge]) /\ pad_command p' = Some v /\ pad_arg p' = pad_arg p /\ pad_mode p' = pad_mode p /\
      pad_info p' = pad_info p;
  pad_resolution : forall p r, pad_command p = Some kDP_SetMouseResolution -> 0 <= r < 4 ->
    exists p', react p r = (p', [kSC_Acknowledge]) /\ pad_command p' = None /\ pad_arg p' = u8 (4 * pad_arg p + r) /\ pad_mode p' = pad_mode p /\
      pad_info p' = pad_info p;
  pad_rate : forall p r, pad_command p = Some kDP_SetMouseSampleRate -> is_u8 r ->
    exists p', react p r = (p', [kSC_Acknowledge]) /\ pad_command p' = None /\
      pad_mode p' = (if r =? 20 then pad_arg p else pad_mode p) /\ pad_info p' = pad_info p;
  pad_query : forall p, pad_command p = None ->
    exists p', react p kDP_GetMouseInformation = (p', kSC_Acknowledge :: (let '(a, b, c) := pad_info p (pad_arg p) in [a; b; c])) /\
      pad_command p' = None /\ pad_mode p' = pad_mode p /\ pad_info p' = pad_info p;
}.

(** ** Requests as sequences *)

Section sequences.
  Context {K A : Type} `{Device K} `{Device A}.
  Abbreviation L := (Line K A).

(** The commands one after the other, if none fails. *)
Fixpoint talk_seq (cs : list PS2Command) (s : CmdState) : @Talk K A (list PS2Command * CmdState) :=
  match cs with
  | [] => mret ([], s)
  | c :: cs =>
      '(c', s', failed) ← talk_command c s;
      if failed : bool then unheard else '(cs', s'') ← talk_seq cs s'; mret (c' :: cs', s'')
  end.

Lemma talk_loop_seq cs pre s r (l l' : L) cs' s' hs : commands r = pre ++ cs -> talk_seq cs s l = Some (cs', s', l', hs) ->
  talk_loop (length cs) (Z.of_nat (length pre)) s r l = Some (false, Z.of_nat (length (pre ++ cs)), r <| commands := pre ++ cs' |>, l', hs).
Proof.
  revert pre s r l cs' s' hs. induction cs as [|c cs IH]; intros pre s r l cs' s' hs Hr E.
  - injection E as <- <- <- <-. rewrite app_nil_r in *. cbn [length talk_loop]. destruct r. simpl in *. by subst.
  - cbn [length talk_loop talk_seq] in *. unfold mbind, Talk_bind in *. unfold have.
    rewrite (aget_lookup _ _ c); [|lia|rewrite Hr, Nat2Z.id, lookup_app_r by lia; by rewrite Nat.sub_diag].
    destruct (talk_command c s l) as [[[[[c' s1] failed] l1] hs1]|]; [|done]. destruct failed; [done|].
    destruct (talk_seq cs s1 l1) as [[[[cs1 s2] l2] hs2]|] eqn:E2; [|done]. injection E as <- <- <- <-.
    rewrite aset_ok by (rewrite Hr, length_app; simpl; lia). rewrite Nat2Z.id, Hr.
    replace (<[length pre:=c']> (pre ++ c :: cs)) with ((pre ++ [c']) ++ cs) by (rewrite insert_app_r_alt, Nat.sub_diag, <- app_assoc by lia; done).
    replace (Z.of_nat (length pre) + 1) with (Z.of_nat (length (pre ++ [c']))) by (rewrite length_app; simpl; lia).
    rewrite (IH (pre ++ [c']) s1 _ l1 cs1 s2 hs2); [|done|done]. rewrite !length_app, app_nil_r, <- app_assoc. cbn [length app].
    replace (length pre + 1 + length cs)%nat with (length pre + S (length cs))%nat by lia. done.
Qed.

Lemma talk_seq_app cs1 cs2 s (l l1 l2 : L) cs1' cs2' s1 s2 hs1 hs2 :
  talk_seq cs1 s l = Some (cs1', s1, l1, hs1) -> talk_seq cs2 s1 l1 = Some (cs2', s2, l2, hs2) ->
  talk_seq (cs1 ++ cs2) s l = Some (cs1' ++ cs2', s2, l2, hs1 ++ hs2).
Proof.
  revert s l cs1' hs1. induction cs1 as [|c cs1 IH]; intros s l cs1' hs1 E1 E2.
  - by injection E1 as <- <- <- <-.
  - cbn [app talk_seq] in *. unfold mbind, Talk_bind in *. destruct (talk_command c s l) as [[[[[c' s'] failed] l'] hs]|]; [|done].
    destruct failed; [done|]. destruct (talk_seq cs1 s' l') as [[[[cs s''] l''] hs']|] eqn:E; [|done]. injection E1 as <- <- <- <-.
    rewrite (IH s' l' cs hs' E E2). simpl. by rewrite !app_nil_r, app_assoc.
Qed.

(** A request on the stack whose commands all succeed. *)
Lemma stack_talks cs (l l' : L) cs' s' hs : talk_seq cs (mkCmdState kDT_Keyboard false) l = Some (cs', s', l', hs) ->
  talk_request (stack_request cs) l = Some ((stack_request cs) <| commands := cs' |>, l', hs).
Proof.
  intros E. unfold talk_request. change (Z.to_nat (commandsCount (stack_request cs))) with (Z.to_nat (Z.of_nat (length cs))). rewrite Nat2Z.id.
  pose proof (talk_loop_seq cs [] _ (stack_request cs) l l' cs' s' hs eq_refl E) as F. unfold mbind, Talk_bind.
  cbn [length] in F. change (Z.of_nat 0) with 0 in F. rewrite F. simpl. by rewrite app_nil_r.
Qed.

(** Every byte is acknowledged. *)
Inductive acked : A -> list Z -> A -> Prop :=
| acked_nil p : acked p [] p
| acked_cons p v p1 vs p2 : is_u8 v -> react p v = (p1, [kSC_Acknowledge]) -> acked p1 vs p2 -> acked p (v :: vs) p2.

Lemma acked_app p vs p1 ws p2 : acked p vs p1 -> acked p1 ws p2 -> acked p (vs ++ ws) p2.
Proof. induction 1; [done|]. intros. simpl. econstructor; eauto. Qed.

(** Nothing on the way. *)
Definition at_rest (l : L) : Prop := awaiting l = None /\ sent l = [].

Lemma aux_command v s (l : L) p q : at_rest l -> is_u8 v -> react (aux_dev l) v = (p, kSC_Acknowledge :: q) -> (length q < 16)%nat ->
  talk_command (mouse_command v) s l =
    Some (mouse_command v, mkCmdState kDT_Mouse (transmitToMouse s), false, l <| aux_dev := p |> <| sent := (fun b => (kDT_Mouse, u8 b)) <$> q |>, []).
Proof.
  intros [Ha Hs] Hv E Hq. unfold talk_command, mouse_command. change (command (cmd ?e _)) with e. cbn beta iota. rewrite inOrOut_cmd, (u8_id v Hv).
  unfold mbind, Talk_bind, say_command, command_written, say_data, hear_expected, mbind, option_bind. rewrite Ha.
  cbn [Z.eqb]. change (kCP_TransmitToMouse =? kCP_GetCommandByte) with false. change ((kCP_TransmitToMouse =? kCP_SetCommandByte) || _) with true.
  cbn beta iota. rewrite (proj2 (Z.leb_le 0 v)), (proj2 (Z.ltb_lt v 256)) by (destruct Hv; lia). cbn [andb].
  unfold data_written. cbn [awaiting]. change (awaiting (l <| awaiting := ?x |>)) with x. cbn beta iota.
  change (kCP_TransmitToMouse =? kCP_SetCommandByte) with false. cbn beta iota. change (aux_dev (_ <| awaiting := None |>)) with (aux_dev l). rewrite E.
  unfold says. simpl. rewrite Hs. simpl. rewrite length_fmap, (proj2 (Nat.ltb_ge _ _)) by (unfold capacity; lia).
  destruct l. simpl in *. by subst.
Qed.

Lemma acked_talks vs s (l : L) p : at_rest l -> acked (aux_dev l) vs p -> exists s',
  talk_seq (map mouse_command vs) s l = Some (map mouse_command vs, s', l <| aux_dev := p |>, []) /\
  transmitToMouse s' = transmitToMouse s /\ (vs <> [] -> deviceMode s' = kDT_Mouse).
Proof.
  intros Hl Ha. remember (aux_dev l) as p0 eqn:Ep. revert s l Hl Ep. induction Ha as [p|p v p1 vs p2 Hv E Ha IH]; intros s l Hl ->.
  - exists s. split; [by destruct l|done].
  - cbn [map talk_seq]. unfold mbind at 1, Talk_bind at 1. rewrite (aux_command v s l p1 []), fmap_nil by (done || simpl; lia).
    assert (at_rest (l <| aux_dev := p1 |> <| sent := [] |>)) as Hl1 by (by destruct Hl).
    destruct (IH (mkCmdState kDT_Mouse (transmitToMouse s)) _ Hl1 eq_refl) as (s' & F & Ht & Hd). exists s'.
    unfold mbind, Talk_bind. rewrite F. split; [|split; [done|]].
    + destruct l, Hl. simpl in *. by subst.
    + intros _. destruct vs; [|by apply Hd]. by injection F as <-.
Qed.

Lemma aux_read s (l : L) b q : deviceMode s = kDT_Mouse -> sent l = (kDT_Mouse, b) :: q -> (length q < 16)%nat ->
  talk_command read_byte s l = Some (set_inOrOut b read_byte, s, false, l <| sent := q |>, []).
Proof.
  intros Hd Hs Hq. unfold talk_command, read_byte. change (command (cmd ?e _)) with e. cbn beta iota. unfold mbind, Talk_bind, hear. rewrite Hd, Hs.
  simpl length. rewrite (proj2 (Nat.ltb_ge _ _)) by (unfold capacity; lia). done.
Qed.
End sequences.

(** ** What a touchpad makes of the requests *)

Section pad.
  Context {K A : Type} `{Device K} `{Device A} `{!SynapticsPad A}.
  Abbreviation L := (Line K A).

(** Ready for a command, with this mode byte and these answers. *)
Record pad_is (mode : Z) (info : Z -> Z * Z * Z) (p : A) : Prop := {
  pi_command : pad_command p = None;
  pi_mode : pad_mode p = mode;
  pi_info : pad_info p = info;
}.

Definition bits_of (x : Z) : list Z := concat (map (fun shift => [kDP_SetMouseResolution; Z.land (Z.shiftr x shift) 0x3]) [6; 4; 2; 0]).

Lemma send_bits_of x : send_bits x = map mouse_command (bits_of x).
Proof. done. Qed.

Lemma two_bits m i p x shift : pad_is m i p -> exists p', acked p [kDP_SetMouseResolution; Z.land (Z.shiftr x shift) 0x3] p' /\
  pad_is m i p' /\ pad_arg p' = u8 (4 * pad_arg p + Z.land (Z.shiftr x shift) 0x3).
Proof.
  intros []. pose proof (land_bound (Z.shiftr x shift) 3 ltac:(lia)) as Hb.
  destruct (pad_opens p kDP_SetMouseResolution) as (p1 & E1 & C1 & A1 & M1 & I1); [done|by left|].
  destruct (pad_resolution p1 (Z.land (Z.shiftr x shift) 0x3)) as (p2 & E2 & C2 & A2 & M2 & I2); [done|lia|].
  exists p2. split; [econstructor; [unfold is_u8, kDP_SetMouseResolution; lia|exact E1|]; econstructor; [unfold is_u8; lia|exact E2|constructor]|].
  split; [split; congruence|]. by rewrite A2, A1.
Qed.

Lemma bits_sum x : is_u8 x -> 64 * Z.land (Z.shiftr x 6) 3 + 16 * Z.land (Z.shiftr x 4) 3 + 4 * Z.land (Z.shiftr x 2) 3 + Z.land (Z.shiftr x 0) 3 = x.
Proof. intros Hx. apply Z.eqb_eq. revert x Hx. apply byte_forall. vm_compute. reflexivity. Qed.

(** Four times two bits are the argument, whatever was there before. *)
Lemma argument m i p x : pad_is m i p -> is_u8 x -> exists p', acked p (bits_of x) p' /\ pad_is m i p' /\ pad_arg p' = x.
Proof.
  intros Hp Hx. destruct (two_bits m i p x 6 Hp) as (p1 & E1 & H1 & A1). destruct (two_bits m i p1 x 4 H1) as (p2 & E2 & H2 & A2).
  destruct (two_bits m i p2 x 2 H2) as (p3 & E3 & H3 & A3). destruct (two_bits m i p3 x 0 H3) as (p4 & E4 & H4 & A4).
  exists p4. split; [|split; [done|]].
  - unfold bits_of. cbn [map concat]. rewrite app_nil_r. eauto using acked_app.
  - rewrite A4, A3, A2, A1. unfold u8. pose proof (bits_sum x Hx). unfold is_u8 in Hx. Z.to_euclidean_division_equations. lia.
Qed.

Lemma plain_ok m i p vs : pad_is m i p -> Forall (fun v => v ∈ [kDP_SetMouseScaling1To1; kDP_Enable; kDP_SetDefaultsAndDisable]) vs ->
  exists p', acked p vs p' /\ pad_is m i p'.
Proof.
  intros Hp Hv. revert p Hp. induction Hv as [|v vs Hv _ IH]; intros p Hp; [exists p; split; [constructor|done]|].
  pose proof Hp as []. destruct (pad_plain p v) as (p1 & E1 & C1 & M1 & I1); [done..|].
  destruct (IH p1) as (p2 & E2 & H2); [split; congruence|]. exists p2. split; [|done]. econstructor; [|exact E1|exact E2].
  unfold is_u8. rewrite !elem_of_cons in Hv. destruct Hv as [->|[->|[->|Hv]]]; [done..|]. by apply not_elem_of_nil in Hv.
Qed.

Lemma rate_ok m i p r : pad_is m i p -> is_u8 r ->
  exists p', acked p [kDP_SetMouseSampleRate; r] p' /\ pad_is (if r =? 20 then pad_arg p else m) i p'.
Proof.
  intros [] Hr. destruct (pad_opens p kDP_SetMouseSampleRate) as (p1 & E1 & C1 & A1 & M1 & I1); [done|by right; left|].
  destruct (pad_rate p1 r) as (p2 & E2 & C2 & M2 & I2); [done..|]. exists p2.
  split; [econstructor; [done|exact E1|]; econstructor; [done|exact E2|constructor]|]. split; [done| |congruence]. rewrite M2, A1, M1. by case_match.
Qed.

(** An argument and a sample rate between plain commands. *)
Lemma stroke m i p vs x r ws : pad_is m i p -> is_u8 x -> is_u8 r ->
  Forall (fun v => v ∈ [kDP_SetMouseScaling1To1; kDP_Enable; kDP_SetDefaultsAndDisable]) vs ->
  Forall (fun v => v ∈ [kDP_SetMouseScaling1To1; kDP_Enable; kDP_SetDefaultsAndDisable]) ws ->
  exists p', acked p (vs ++ bits_of x ++ [kDP_SetMouseSampleRate; r] ++ ws) p' /\ pad_is (if r =? 20 then x else m) i p'.
Proof.
  intros Hp Hx Hr Hv Hw. destruct (plain_ok m i p vs Hp Hv) as (p1 & E1 & H1). destruct (argument m i p1 x H1 Hx) as (p2 & E2 & H2 & A2).
  destruct (rate_ok m i p2 r H2 Hr) as (p3 & E3 & H3). rewrite A2 in H3. destruct (plain_ok _ i p3 ws H3 Hw) as (p4 & E4 & H4).
  exists p4. split; [|done]. eauto 6 using acked_app.
Qed.

(** ** The requests of the driver *)

Lemma acked_request vs (l : L) p : at_rest l -> acked (aux_dev l) vs p ->
  talk_request (stack_request (map mouse_command vs)) l = Some (stack_request (map mouse_command vs), l <| aux_dev := p |>, []).
Proof. intros Hl Ha. destruct (acked_talks vs (mkCmdState kDT_Keyboard false) l p Hl Ha) as (s' & E & _). by rewrite (stack_talks _ _ _ _ _ _ E). Qed.

(** A request that is acknowledged throughout and leaves the touchpad with mode
    byte [m']. *)
Definition sets_mode (r : PS2Request) (m m' : Z) (i : Z -> Z * Z * Z) : Prop := forall l : L, at_rest l -> pad_is m i (aux_dev l) ->
  exists p, talk_request r l = Some (r, l <| aux_dev := p |>, []) /\ pad_is m' i p.

Lemma acked_sets vs m m' i : (forall p, pad_is m i p -> exists p', acked p vs p' /\ pad_is m' i p') -> sets_mode (stack_request (map mouse_command vs)) m m' i.
Proof. intros Hv l Hl Hp. destruct (Hv _ Hp) as (p & Ha & Hp'). exists p. split; [by apply acked_request|done]. Qed.

Ltac plain := repeat (constructor; [set_solver|]); constructor.

Lemma mode_sets v m i : is_u8 v -> sets_mode (mode_request v) m v i.
Proof.
  intros Hv. apply (acked_sets ([kDP_SetDefaultsAndDisable; kDP_SetDefaultsAndDisable; kDP_SetMouseScaling1To1; kDP_SetMouseScaling1To1] ++
    bits_of v ++ [kDP_SetMouseSampleRate; 20] ++ [kDP_SetMouseScaling1To1; kDP_Enable])).
  intros p Hp. apply (stroke m i p _ v 20 _ Hp Hv ltac:(done)); plain.
Qed.

Lemma final_sets v m i : is_u8 v -> sets_mode (final_init_request v) m v i.
Proof.
  intros Hv. apply (acked_sets (([kDP_SetDefaultsAndDisable; kDP_SetDefaultsAndDisable; kDP_SetMouseScaling1To1; kDP_SetMouseScaling1To1] ++
    bits_of v ++ [kDP_SetMouseSampleRate; 20] ++ [kDP_SetMouseScaling1To1]) ++ ([kDP_SetMouseScaling1To1] ++ bits_of 3 ++ [kDP_SetMouseSampleRate; 200] ++ [kDP_Enable]))).
  intros p Hp. destruct (stroke m i p [kDP_SetDefaultsAndDisable; kDP_SetDefaultsAndDisable; kDP_SetMouseScaling1To1; kDP_SetMouseScaling1To1] v 20
    [kDP_SetMouseScaling1To1] Hp Hv) as (p1 & E1 & H1); [done|plain|plain|].
  destruct (stroke v i p1 [kDP_SetMouseScaling1To1] 3 200 [kDP_Enable] H1) as (p2 & E2 & H2); [done|done|plain|plain|].
  exists p2. split; [by eapply acked_app|done].
Qed.

Lemma led_sets x m i : is_u8 x -> sets_mode (led_request x) m m i.
Proof.
  intros Hx. apply (acked_sets ([kDP_SetMouseScaling1To1] ++ bits_of x ++ [kDP_SetMouseSampleRate; 10] ++ [kDP_SetMouseScaling1To1])).
  intros p Hp. apply (stroke m i p _ x 10 _ Hp Hx ltac:(done)); plain.
Qed.

Lemma enable_sets b m i : sets_mode (enable_request b) m m i.
Proof.
  apply (acked_sets [if b then kDP_Enable else kDP_SetDefaultsAndDisable]). intros p Hp. apply plain_ok; [done|]. destruct b; plain.
Qed.

(** The answer to a query, in the commands that read it. *)
Definition answered (r : PS2Request) (a : Z * Z * Z) : PS2Request :=
  r <| commands := take 10 (commands r) ++ [set_inOrOut (u8 a.1.1) read_byte; set_inOrOut (u8 a.1.2) read_byte; set_inOrOut (u8 a.2) read_byte] ++
    drop 13 (commands r) |>.

Lemma data_answered sel m i (l : L) : is_u8 sel -> at_rest l -> pad_is m i (aux_dev l) ->
  exists p, talk_request (data_request sel) l = Some (answered (data_request sel) (i sel), l <| aux_dev := p |>, []) /\ pad_is m i p.
Proof.
  intros Hs Hl Hp. destruct (plain_ok m i (aux_dev l) [kDP_SetDefaultsAndDisable] Hp) as (p1 & E1 & H1); [plain|].
  destruct (argument m i p1 sel H1 Hs) as (p2 & E2 & H2 & A2). destruct (pad_query p2 (pi_command _ _ _ H2)) as (p3 & E3 & C3 & M3 & I3).
  rewrite A2, (pi_info _ _ _ H2) in E3. destruct (i sel) as [[a b] c] eqn:Ei.
  destruct (plain_ok m i p3 [kDP_SetDefaultsAndDisable]) as (p4 & E4 & H4); [destruct H2; split; congruence|plain|].
  exists p4. split; [|done]. unfold data_request. rewrite send_bits_of.
  destruct (acked_talks _ (mkCmdState kDT_Keyboard false) l p2 Hl (acked_app _ _ _ _ _ E1 E2)) as (s1 & F1 & T1 & D1).
  assert (at_rest (l <| aux_dev := p2 |>)) as Hl2 by (by destruct Hl).
  pose (l3 := l <| aux_dev := p3 |> <| sent := [(kDT_Mouse, u8 a); (kDT_Mouse, u8 b); (kDT_Mouse, u8 c)] |>).
  destruct (acked_talks [kDP_SetDefaultsAndDisable] (mkCmdState kDT_Mouse false) (l <| aux_dev := p3 |> <| sent := [] |>) p4) as (s4 & F4 & _);
    [by destruct Hl|exact E4|].
  assert (talk_seq [mouse_command kDP_GetMouseInformation; read_byte; read_byte; read_byte] s1 (l <| aux_dev := p2 |>) =
    Some ([mouse_command kDP_GetMouseInformation; set_inOrOut (u8 a) read_byte; set_inOrOut (u8 b) read_byte; set_inOrOut (u8 c) read_byte],
      mkCmdState kDT_Mouse false, l3 <| sent := [] |>, [])) as F2.
  { cbn [talk_seq]. unfold mbind, Talk_bind. rewrite (aux_command kDP_GetMouseInformation s1 _ p3 [a; b; c] Hl2 ltac:(done) E3 ltac:(simpl; lia)). rewrite T1.
    rewrite (aux_read _ l3 (u8 a) [(kDT_Mouse, u8 b); (kDT_Mouse, u8 c)]) by (done || simpl; lia).
    rewrite (aux_read _ _ (u8 b) [(kDT_Mouse, u8 c)]) by (done || simpl; lia). rewrite (aux_read _ _ (u8 c) []) by (done || simpl; lia). done. }
  pose proof (talk_seq_app _ _ _ _ _ _ _ _ _ _ _ _ F1 (talk_seq_app _ _ _ _ _ _ _ _ _ _ _ _ F2 F4)) as F.
  etransitivity; [exact (stack_talks _ _ _ _ _ _ F)|]. destruct l, Hl as [? Hs0]. simpl in Hs0. by subst.
Qed.
End pad.

(** ** The driver with the controller behind it *)

Section driver.
  Context {H D : Type} `{PortIO H} {K A : Type} `{Device K} `{Device A} `{!Wired H K A} `{!SynapticsPad A}.
  Abbreviation W := (World H D).
  Context (callInterrupt : positive -> option positive -> Z -> D -> PS2InterruptResult * D).
  Context (callCompletion : positive -> positive -> PS2Request -> M W unit).
  Context (fuel : nat) (Hfuel : (capacity + busy_time < fuel)%nat).
  Context (env : SEnv) (w0 : W).

(** [_device->submitRequestAndBlock], which is the controller's. *)
Definition submitted (r : PS2Request) : M W PS2Request := Controller.submitRequestAndBlock callInterrupt callCompletion fuel r.

(** The controller after what the driver did, [w0] at first. *)
Definition controller_step (w : W) (e : SEvent) : W :=
  match e with
  | SSubmitBlock r => match submitted r w with Done (_, w') => w' | _ => w end
  | _ => w
  end.
Definition controller_after (evs : list SEvent) : W := fold_left controller_step evs w0.

(** The driver's environment, with the answers of that controller. *)
Definition on_controller : SEnv := {|
  uptime := uptime env;
  absolutetime_to_nanoseconds := absolutetime_to_nanoseconds env;
  submit := fun evs r => match submitted r (controller_after evs) with Done (r', _) => r' | _ => r end;
  getWorkLoop := getWorkLoop env;
  alloc_gate := alloc_gate env;
  alloc_buttonTimer := alloc_buttonTimer env;
  alloc_scrollTimer := alloc_scrollTimer env;
  alloc_dragTimer := alloc_dragTimer env;
  has_TPDN := has_TPDN env;
  version_major := version_major env;
  version_minor := version_minor env;
  bt := bt env;
  hid := hid env;
|}.

(** The controller can take requests and nothing is under way; the touchpad has
    mode byte [m] and answers queries with [i]. *)
Record linked (w : W) (m : Z) (i : Z -> Z * Z * Z) (l : Line K A) : Prop := {
  li_able : able (ctl w);
  li_queue : _requestQueue (ctl w) = [];
  li_wired : wired (hw w) l;
  li_rest : at_rest l;
  li_pad : pad_is m i (aux_dev l);
}.

Lemma linked_submit w m i l r r' p m' : linked w m i l -> talk_request r l = Some (r', l <| aux_dev := p |>, []) -> pad_is m' i p ->
  exists w', submitted r w = Done (r', w') /\ linked w' m' i (l <| aux_dev := p |>).
Proof.
  intros [Ha Hq Hw Hr _] E Hp. destruct (submit_talks callInterrupt callCompletion fuel Hfuel r w l r' (l <| aux_dev := p |>) []) as (h' & F & Hw'); [done|done| |].
  - rewrite Hq. cbn [talk_requests]. unfold mbind, Talk_bind, mret, Talk_ret. by rewrite E.
  - eexists. split; [exact F|]. cbn [happen_all fold_left]. split; simpl; try done. destruct Ha as [Hs ? ? ? ?]. destruct Hs. by split.
Qed.

(** What the driver gets is what the controller returned. *)
Lemma driver_submit s m i l r r' p m' : _device (life (pad s)) = true -> linked (controller_after (sevs s)) m i l ->
  talk_request r l = Some (r', l <| aux_dev := p |>, []) -> pad_is m' i p ->
  exists s', Synaptics.submitRequestAndBlock on_controller r s = Done (r', s') /\ pad s' = pad s /\
    linked (controller_after (sevs s')) m' i (l <| aux_dev := p |>).
Proof.
  intros Hd Hl E Hp. destruct (linked_submit _ _ _ _ _ _ _ _ Hl E Hp) as (w' & F & Hl').
  exists (s <| sevs := sevs s ++ [SSubmitBlock r] |>). unfold Synaptics.submitRequestAndBlock, getp, semit. munfold. rewrite Hd. cbn [submit on_controller].
  rewrite F. split; [done|]. split; [done|]. simpl. unfold controller_after in *. rewrite fold_left_app. cbn [fold_left controller_step]. by rewrite F.
Qed.

(** The calls of the driver that talk to the touchpad, and their results. *)
Inductive PadCall :=
| CQuery (dataSelector : Z)
| CMode (modeByteValue : Z)
| CFinal (modeByteValue : Z)
| CLed (touchLED : Z)
| CEnable (enable : bool).

Inductive Answer := AData (d : option (Z * Z * Z)) | ABool (b : bool) | ANone.

Definition run_call (c : PadCall) : M SWorld Answer :=
  match c with
  | CQuery sel => d ← getTouchPadData on_controller sel; mret (AData d)
  | CMode v => b ← setModeByte_value on_controller v; mret (ABool b)
  | CFinal v => b ← setTouchPadModeByte_value on_controller v; mret (ABool b)
  | CLed x => b ← setTouchpadLED on_controller x; mret (ABool b)
  | CEnable b => setTouchPadEnable on_controller b;; mret ANone
  end.

Fixpoint run_calls (cs : list PadCall) : M SWorld (list Answer) :=
  match cs with
  | [] => mret []
  | c :: cs => a ← run_call c; rest ← run_calls cs; mret (a :: rest)
  end.

(** Arguments are bytes. *)
Definition legal_call (c : PadCall) : Prop := match c with CQuery x | CMode x | CFinal x | CLed x => is_u8 x | CEnable _ => True end.

Definition answer_of (i : Z -> Z * Z * Z) (c : PadCall) : Answer :=
  match c with
  | CQuery sel => let '(a, b, c) := i sel in AData (Some (u8 a, u8 b, u8 c))
  | CMode _ | CFinal _ | CLed _ => ABool true
  | CEnable _ => ANone
  end.
Definition mode_after (m : Z) (c : PadCall) : Z := match c with CMode v | CFinal v => v | _ => m end.

Lemma sets_call s m m' i l r : _device (life (pad s)) = true -> linked (controller_after (sevs s)) m i l -> sets_mode (K := K) (A := A) r m m' i ->
  exists s' p, Synaptics.submitRequestAndBlock on_controller r s = Done (r, s') /\ pad s' = pad s /\
    linked (controller_after (sevs s')) m' i (l <| aux_dev := p |>).
Proof.
  intros Hd Hl Hr. destruct (Hr l (li_rest _ _ _ _ Hl) (li_pad _ _ _ _ Hl)) as (p & E & Hp).
  destruct (driver_submit s m i l r r p m' Hd Hl E Hp) as (s' & F & Hs & Hl'). by exists s', p.
Qed.

Lemma inOrOut_answer b : inOrOut (set_inOrOut (u8 b) read_byte) = u8 b.
Proof. unfold inOrOut, set_inOrOut. rewrite union_byte_set by lia. simpl. apply u8_id, u8_range. Qed.

Lemma answered_reads sel a : let r := answered (data_request sel) a in commandsCount r = 14 /\
  (fun c => inOrOut c) <$> aget (commands r) 10 = Done (u8 a.1.1) /\ (fun c => inOrOut c) <$> aget (commands r) 11 = Done (u8 a.1.2) /\
  (fun c => inOrOut c) <$> aget (commands r) 12 = Done (u8 a.2).
Proof. split; [done|]. split; [|split]; exact (f_equal Done (inOrOut_answer _)). Qed.

Lemma result_reads (r : PS2Request) k v (s : SWorld) : (fun c => inOrOut c) <$> aget (commands r) k = Done v -> result r k s = Done (v, s).
Proof. unfold result. munfold. destruct (aget (commands r) k) as [c| |]; [|done|done]. by intros [= <-]. Qed.

Lemma query_call s m i l sel : _device (life (pad s)) = true -> linked (controller_after (sevs s)) m i l -> is_u8 sel ->
  exists s' p, run_call (CQuery sel) s = Done (answer_of i (CQuery sel), s') /\ pad s' = pad s /\
    linked (controller_after (sevs s')) m i (l <| aux_dev := p |>).
Proof.
  intros Hd Hl Hs. destruct (data_answered sel m i l Hs (li_rest _ _ _ _ Hl) (li_pad _ _ _ _ Hl)) as (p & E & Hp).
  destruct (driver_submit s m i l _ _ p m Hd Hl E Hp) as (s' & F & Hs' & Hl'). exists s', p. split; [|done].
  destruct (answered_reads sel (i sel)) as (R0 & R1 & R2 & R3). unfold run_call, getTouchPadData. unfold mbind at 1, M_bind at 1.
  rewrite (bind_done _ _ _ _ _ F), R0. cbn [Z.eqb negb Pos.eqb].
  rewrite (bind_done _ _ _ _ _ (result_reads _ _ _ s' R1)), (bind_done _ _ _ _ _ (result_reads _ _ _ s' R2)), (bind_done _ _ _ _ _ (result_reads _ _ _ s' R3)).
  cbn [answer_of]. by destruct (i sel) as [[a b] c].
Qed.

Lemma call_ok c s m i l : _device (life (pad s)) = true -> linked (controller_after (sevs s)) m i l -> legal_call c ->
  exists s' p, run_call c s = Done (answer_of i c, s') /\ pad s' = pad s /\ linked (controller_after (sevs s')) (mode_after m c) i (l <| aux_dev := p |>).
Proof.
  intros Hd Hl Hc. destruct c as [sel|v|v|x|b]; [by apply query_call| | | |].
  - destruct (sets_call s m v i l _ Hd Hl (mode_sets v m i Hc)) as (s' & p & E & Hs & Hl'). exists s', p. split; [|done].
    unfold run_call, setModeByte_value, getp. rewrite bind_assoc. rewrite (bind_done _ _ s (life (pad s)) s) by done. rewrite Hd. cbn [negb].
    rewrite bind_assoc. by rewrite (bind_done _ _ _ _ _ E).
  - destruct (sets_call s m v i l _ Hd Hl (final_sets v m i Hc)) as (s' & p & E & Hs & Hl'). exists s', p. split; [|done].
    unfold run_call, setTouchPadModeByte_value, getp. rewrite bind_assoc. rewrite (bind_done _ _ s (life (pad s)) s) by done. rewrite Hd. cbn [negb].
    rewrite bind_assoc. by rewrite (bind_done _ _ _ _ _ E).
  - destruct (sets_call s m m i l _ Hd Hl (led_sets x m i Hc)) as (s' & p & E & Hs & Hl'). exists s', p. split; [|done].
    unfold run_call, setTouchpadLED. rewrite bind_assoc. by rewrite (bind_done _ _ _ _ _ E).
  - destruct (sets_call s m m i l _ Hd Hl (enable_sets b m i)) as (s' & p & E & Hs & Hl'). exists s', p. split; [|done].
    unfold run_call, setTouchPadEnable. rewrite bind_assoc. by rewrite (bind_done _ _ _ _ _ E).
Qed.

End driver.

(** ** A touchpad that follows the guide *)

Record Pad := mkPad { p_command : option Z; p_arg : Z; p_mode : Z; p_info : Z -> Z * Z * Z }.
#[export] Instance Pad_eta : Settable Pad := mkSettable _ (fun p => mkPad (p_command p) (p_arg p) (p_mode p) (p_info p)).

#[export] Instance pad_device : Device Pad := fun p v =>
  match p_command p with
  | Some c =>
      let p := p <| p_command := None |> in
      (if c =? kDP_SetMouseResolution then p <| p_arg := u8 (4 * p_arg p + v) |>
       else if v =? 20 then p <| p_mode := p_arg p |> else p, [kSC_Acknowledge])
  | None =>
      if (v =? kDP_SetMouseResolution) || (v =? kDP_SetMouseSampleRate) then (p <| p_command := Some v |>, [kSC_Acknowledge])
      else if v =? kDP_GetMouseInformation then (p, kSC_Acknowledge :: (let '(a, b, c) := p_info p (p_arg p) in [a; b; c]))
      else (p, [kSC_Acknowledge])
  end.

#[export] Program Instance pad_follows : SynapticsPad Pad := {|
  pad_command := p_command; pad_arg := p_arg; pad_mode := p_mode; pad_info := p_info |}.
Next Obligation.
  intros p v Hc Hv. rewrite !elem_of_cons, elem_of_nil in Hv. unfold react, pad_device. rewrite Hc. exists p. destruct Hv as [->|[->|[->|[]]]]; done.
Qed.
Next Obligation. intros p v Hc Hv. rewrite !elem_of_cons, elem_of_nil in Hv. unfold react, pad_device. rewrite Hc. destruct Hv as [->|[->|[]]]; by eexists. Qed.
Next Obligation. intros p r Hc Hr. unfold react, pad_device. rewrite Hc. by eexists. Qed.
Next Obligation. intros p r Hc Hr. unfold react, pad_device. rewrite Hc. eexists. split; [reflexivity|]. simpl. by destruct (r =? 20). Qed.
Next Obligation. intros p Hc. unfold react, pad_device. rewrite Hc. by exists p. Qed.

Module PadDemo.
Import Heard.
Definition info (sel : Z) : Z * Z * Z := (sel, 0x47, 0x18).
Definition pad0 : Pad := mkPad None 0 0 info.
Definition line0 : Line (list Z) Pad := mkLine [] pad0 0x47 None [].
Definition world0 : World (Wires.wires (list Z) Pad) (list (positive * Z)) := mkWorld Demo.ctl0 (Wires.mkWires line0 0 0) [] true [].
Definition no_completion (a t : positive) (r : PS2Request) : M (World (Wires.wires (list Z) Pad) (list (positive * Z))) unit := mret tt.
Definition driver0 : SWorld := mkSWorld (Synaptics.init <| life := (life Synaptics.init) <| _device := true |> |>) 0 [].
Definition calls : list PadCall := [CQuery 0; CMode 0xC1; CQuery 2; CEnable true].

Lemma linked0 : linked world0 0 info line0.
Proof.
  split; [split; [split; [exact Demo.ctl0_wf|done|done]|done|done| |done]|done| |done|done].
  - unfold is_s32. simpl. lia.
  - split; [done|]. repeat split; simpl; try lia. constructor.
Qed.
End PadDemo.

Import Heard.
