(* ===== verification/Typing.v ===== *)
(** * Typing: the keyboard, the controller and the touchpad

    The keyboard driver tells the pointing drivers about keys, and asks whether
    the touchpad is on, with messages that the controller passes to every
    service that registered for them.  Here the messages of Keyboard.v go through
    dispatchMessage of Controller.v to the Synaptics driver, among any other
    services that leave them alone. *)

From S2P Require Import Prelude RingBuffer PS2Defs PortIO Controller ControllerSpec.
From S2P Require Import Synaptics SynapticsEntry.
From S2P Require Import KeyMaps Keyboard KeyboardSpec KeyboardEntry.

Section typing.
  Context {H : Type} `{PortIO H}.
  Abbreviation W := (World H SWorld).
  Context (kenv : KEnv) (penv : SEnv) (touchpad : positive) (w0 : W).

(** [service->message(message, this, data)] *)
Definition callMessage (s : positive) (m : PS2Message) (p : Payload) : M W Payload :=
  if bool_decide (s = touchpad) then fun w =>
    match Synaptics.message penv m p (drv w) with
    | Done (p', d) => Done (p', w <| drv := d |>)
    | Undef => Undef
    | NoFuel => NoFuel
    end
  else mret p.

Definition dispatched (m : PS2Message) (p : Payload) : M W Payload := Controller.dispatchMessage callMessage m p.

(** The controller and the touchpad driver after what the keyboard driver did. *)
Definition message_step (w : W) (e : KEvent) : W :=
  match e with
  | KMessage m p => match dispatched m p w with Done (_, w') => w' | _ => w end
  | _ => w
  end.
Definition messages_after (evs : list KEvent) : W := fold_left message_step evs w0.

(** The keyboard driver's environment with these receivers. *)
Definition on_messages : KEnv := {|
  uptime := uptime kenv;
  absolutetime_to_nanoseconds := absolutetime_to_nanoseconds kenv;
  reply := fun evs m p => match dispatched m p (messages_after evs) with Done (p', _) => p' | _ => p end;
  evaluateInteger := evaluateInteger kenv;
  validateObject := validateObject kenv;
  evaluateLevels := evaluateLevels kenv;
  has_PS2K := has_PS2K kenv;
  getWorkLoop := getWorkLoop kenv;
  alloc_gate := alloc_gate kenv;
  alloc_sleep_timer := alloc_sleep_timer kenv;
  alloc_macro_timer := alloc_macro_timer kenv;
  rootDomain := rootDomain kenv;
  hidSystem := hidSystem kenv;
  version_major := version_major kenv;
  stack_time := stack_time kenv;
  stack_bool := stack_bool kenv;
|}.

(** ** One message *)

(** The touchpad driver is registered, once. *)
Record listening (w : W) : Prop := {
  lis_gate : Controller._cmdGate (ctl w) = true;
  lis_services : exists before after, _notificationServices (ctl w) = before ++ touchpad :: after /\ (touchpad ∉ before) /\ (touchpad ∉ after);
  lis_device : Synaptics._device (life (pad (drv w))) = true;
}.

Lemma not_ours s m p w : s <> touchpad -> callMessage s m p w = Done (p, w).
Proof. intros Hs. unfold callMessage. by rewrite bool_decide_eq_false_2. Qed.

Lemma bystanders l m p w : touchpad ∉ l -> deliver_message callMessage l m p w = Done (p, w).
Proof.
  induction l as [|s l IH]; intros Hl; [done|]. rewrite not_elem_of_cons in Hl. destruct Hl as [Hs Hl]. cbn [deliver_message].
  rewrite (bind_done _ _ w p w) by (by apply not_ours). by apply IH.
Qed.

Lemma delivered w m p p' d : listening w -> Synaptics.message penv m p (drv w) = Done (p', d) ->
  deliver_message callMessage (_notificationServices (ctl w)) m p w = Done (p', w <| drv := d |>).
Proof.
  intros [_ (l1 & l2 & -> & H1 & H2) _] E. revert H1. induction l1 as [|s l1 IH]; intros H1; cbn [app deliver_message].
  - rewrite (bind_done _ _ w p' (w <| drv := d |>)); [by apply bystanders|]. unfold callMessage. rewrite bool_decide_eq_true_2 by done. by rewrite E.
  - rewrite not_elem_of_cons in H1. destruct H1 as [Hs H1]. rewrite (bind_done _ _ w p w) by (by apply not_ours). by apply IH.
Qed.

(** What a key does to the touchpad driver. *)
Definition key_effect (info : PS2KeyInfo) (p : ApplePS2SynapticsTouchPad) : ApplePS2SynapticsTouchPad :=
  if Synaptics.is_modifier (adbKeyCode info) then
    let mask := default 0 (Synaptics.masks !! Z.to_nat (adbKeyCode info - 0x36)) in
    if goingDown info then p <| inp := (inp p) <| _modifierdown := Z.lor (_modifierdown (inp p)) mask |> |>
    else p <| inp := (inp p) <| _modifierdown := clear (_modifierdown (inp p)) mask |> <| keytime := time info |> |>
  else p <| mom := (mom p) <| momentumscrollcurrent := 0 |> |> <| inp := (inp p) <| keytime := time info |> |>.

Lemma modifier_range adb : Synaptics.is_modifier adb = true -> 0x36 <= adb <= 0x3f.
Proof. unfold Synaptics.is_modifier. rewrite existsb_exists. intros (x & Hx & ->%Z.eqb_eq). simpl in Hx. lia. Qed.

Lemma key_message info s : Synaptics.message penv kPS2M_notifyKeyPressed (PKeyInfo info) s = Done (PKeyInfo info, s <| pad := key_effect info (pad s) |>).
Proof.
  unfold Synaptics.message, Synaptics.notifyKeyPressed, key_effect. destruct (Synaptics.is_modifier (adbKeyCode info)) eqn:Em.
  - apply modifier_range in Em. destruct (aget_ok Synaptics.masks (adbKeyCode info - 0x36)) as (mask & E1 & E2); [simpl; lia|]. munfold. rewrite E1, E2.
    by destruct (goingDown info).
  - done.
Qed.

Lemma time_message t s : Synaptics.message penv kPS2M_notifyKeyTime (PTime t) s = Done (PTime t, s).
Proof. done. Qed.

(** The notification of a key comes back as it was, after a second message with
    its time for keys that are not modifiers. *)
Lemma key_dispatched w info : listening w ->
  dispatched kPS2M_notifyKeyPressed (PKeyInfo info) w = Done (PKeyInfo info, w <| drv := (drv w) <| pad := key_effect info (pad (drv w)) |> |>).
Proof.
  intros Hw. pose proof Hw as []. unfold dispatched, Controller.dispatchMessage, gated, getc. rewrite (bind_done _ _ w true w) by (unfold gets; by rewrite lis_gate0).
  unfold dispatchMessageGated, getc. rewrite (bind_done _ _ w (_notificationServices (ctl w)) w) by done.
  rewrite (bind_done _ _ _ _ _ (delivered w _ _ _ _ Hw (key_message info (drv w)))). rewrite bool_decide_eq_true_2 by done. cbn beta iota.
  destruct (is_modifier_adb (adbKeyCode info)); [done|]. set (w1 := w <| drv := _ |>).
  assert (listening w1) as Hw1.
  { split; [done|done|]. unfold w1, key_effect. simpl. by repeat case_match. }
  rewrite (bind_done _ _ w1 (_notificationServices (ctl w1)) w1) by done.
  rewrite (bind_done _ _ _ _ _ (delivered w1 _ _ _ _ Hw1 (time_message (time info) (drv w1)))). destruct info. by unfold w1; simpl; destruct w.
Qed.

(** Asking and telling whether the touchpad is on. *)
Definition set_ignore (b : bool) (p : ApplePS2SynapticsTouchPad) : ApplePS2SynapticsTouchPad := p <| inp := (inp p) <| ignoreall := b |> |>.

Lemma get_dispatched w b : listening w -> dispatched kPS2M_getDisableTouchpad (PBool b) w = Done (PBool (negb (ignoreall (inp (pad (drv w))))), w).
Proof.
  intros Hw. pose proof Hw as []. unfold dispatched, Controller.dispatchMessage, gated, getc. rewrite (bind_done _ _ w true w) by (unfold gets; by rewrite lis_gate0).
  unfold dispatchMessageGated, getc. rewrite (bind_done _ _ w (_notificationServices (ctl w)) w) by done.
  rewrite (bind_done _ _ _ _ _ (delivered w kPS2M_getDisableTouchpad (PBool b) (PBool (negb (ignoreall (inp (pad (drv w)))))) (drv w) Hw eq_refl)). by destruct w.
Qed.

Lemma led_updates s : Synaptics._device (life (pad s)) = true -> exists s', Synaptics.updateTouchpadLED penv s = Done (tt, s') /\ pad s' = pad s.
Proof.
  intros Hd. unfold Synaptics.updateTouchpadLED, Synaptics.setTouchpadLED, Synaptics.submitRequestAndBlock, Synaptics.getp, Synaptics.semit. munfold. unfold id.
  destruct (Synaptics.ledpresent _ && _); cbn beta iota; rewrite ?Hd; destruct (Synaptics._provider _); by eexists.
Qed.

Lemma set_dispatched w : listening w -> exists w',
  dispatched kPS2M_setDisableTouchpad (PBool (ignoreall (inp (pad (drv w))))) w = Done (PBool (ignoreall (inp (pad (drv w)))), w') /\
  pad (drv w') = set_ignore (negb (ignoreall (inp (pad (drv w))))) (pad (drv w)) /\ listening w'.
Proof.
  intros Hw. pose proof Hw as []. set (b := ignoreall (inp (pad (drv w)))).
  destruct (led_updates ((drv w) <| pad := set_ignore (negb b) (pad (drv w)) |>)) as (s' & E & Hs); [done|].
  assert (Synaptics.message penv kPS2M_setDisableTouchpad (PBool b) (drv w) = Done (PBool b, s')) as Em.
  { unfold Synaptics.message, Synaptics.getp. unfold mbind at 1, M_bind at 1, gets. rewrite bool_decide_eq_true_2 by done.
    rewrite bind_assoc. unfold Synaptics.set_inp, Synaptics.setp. rewrite (bind_done _ _ (drv w) tt ((drv w) <| pad := set_ignore (negb b) (pad (drv w)) |>)) by done.
    by rewrite (bind_done _ _ _ _ _ E). }
  exists (w <| drv := s' |>). split; [|split; [done|split; [done|done|]; simpl; by rewrite Hs]].
  unfold dispatched, Controller.dispatchMessage, gated, getc. rewrite (bind_done _ _ w true w) by (unfold gets; by rewrite lis_gate0).
  unfold dispatchMessageGated, getc. rewrite (bind_done _ _ w (_notificationServices (ctl w)) w) by done.
  by rewrite (bind_done _ _ _ _ _ (delivered w _ _ _ _ Hw Em)).
Qed.

(** ** Sequences of keys *)

(** A packet of the keyboard: the key, its ADB code and the time; [toggle] for the
    key that switches the touchpad on and off. *)
Record Stroke := mkStroke { packet : list Z; pkind : Z; code : Z; adb : Z; stamp : Z; toggle : bool }.

Definition down (x : Stroke) : bool := code x <? 128.
Definition raw_key (x : Stroke) : Z := packet_key (pkind x) (code x).
Definition info_of (x : Stroke) : PS2KeyInfo := mkKeyInfo (absolutetime_to_nanoseconds kenv (stamp x)) (adb x) (down x) false.

Definition kbd_after (k : ApplePS2Keyboard) (x : Stroke) : ApplePS2Keyboard := k <| _PS2modifierState := modifiers_after k (raw_key x) (down x) |>.

(** A packet the interrupt routine queued, of an ordinary key or the key for the
    touchpad. *)
Record legal_stroke (k : ApplePS2Keyboard) (x : Stroke) : Prop := {
  ls_made : made_by kPacketLength (packet x) (packet_writes (pkind x) (code x) (stamp x));
  ls_time : 0 <= stamp x < 2 ^ 64;
  ls_kind : pkind x = 1 \/ pkind x = 2;
  ls_code : is_u8 (code x);
  ls_special : pkind x = 1 -> code x <> 0xf1 /\ code x <> 0xf2;
  ls_key : if toggle x then down x = true /\ toggles k (raw_key x) (adb x) else plain k (raw_key x) (adb x);
}.

Fixpoint legal_strokes (k : ApplePS2Keyboard) (xs : list Stroke) : Prop :=
  match xs with
  | [] => True
  | x :: xs => legal_stroke k x /\ legal_strokes (kbd_after k x) xs
  end.

(** The key events, and what the touchpad driver makes of it. *)
Definition key_event (x : Stroke) : list KEvent := if toggle x then [] else [KKey (adb x) (down x) (stamp x)].
Definition is_key (e : KEvent) : bool := match e with KKey _ _ _ => true | _ => false end.
Definition pad_after (p : ApplePS2SynapticsTouchPad) (x : Stroke) : ApplePS2SynapticsTouchPad :=
  key_effect (info_of x) (if toggle x then set_ignore (negb (ignoreall (inp p))) p else p).

Lemma key_effect_device info p : life (key_effect info p) = life p.
Proof. unfold key_effect. by repeat case_match. Qed.

Lemma listening_pad w p : listening w -> life p = life (pad (drv w)) -> listening (w <| drv := (drv w) <| pad := p |> |>).
Proof. intros [] Hp. split; [done|done|]. simpl. by rewrite Hp. Qed.

Lemma messages_snoc evs e : messages_after (evs ++ [e]) = message_step (messages_after evs) e.
Proof. unfold messages_after. by rewrite fold_left_app. Qed.

Lemma key_stroke_ok w x : kb_wf (kbd w) -> listening (messages_after (kevs w)) -> legal_stroke (kbd w) x -> toggle x = false ->
  exists w', dispatchKeyboardEventWithPacket on_messages (packet x) w = Done (true, w') /\ kbd w' = kbd_after (kbd w) x /\
    filter (fun e => is_key e = true) (kevs w') = filter (fun e => is_key e = true) (kevs w) ++ key_event x /\
    pad (drv (messages_after (kevs w'))) = pad_after (pad (drv (messages_after (kevs w)))) x /\ listening (messages_after (kevs w')).
Proof.
  intros Hw Hl [] Ht. rewrite Ht in ls_key0. destruct (packet_reads _ _ _ _ ls_made0 ls_time0) as (E0 & E1 & E2).
  assert (lets_through on_messages (kevs w) (adb x) (down x) (stamp x)) as Hlets.
  { exists (info_of x). split; [|done]. cbn [reply on_messages absolutetime_to_nanoseconds]. change (PKeyInfo _) with (PKeyInfo (info_of x)).
    by rewrite key_dispatched. }
  eexists. split; [apply (dispatch_plain on_messages w _ _ _ (adb x) (stamp x) Hw E0 E1 E2 ls_kind0 ls_code0 ls_special0 ls_key0 Hlets)|].
  split; [done|]. cbn [kevs]. change (kevs (_ <| kevs := ?v |>)) with v. unfold plain_events.
  split; [by rewrite filter_app, !filter_cons; unfold key_event; rewrite Ht|].
  change [?a; ?b] with ([a] ++ [b]). rewrite app_assoc, !messages_snoc. cbn [message_step absolutetime_to_nanoseconds on_messages]. change (PKeyInfo _) with (PKeyInfo (info_of x)).
  rewrite key_dispatched by done. split; [by unfold pad_after; rewrite Ht|]. apply listening_pad; [done|apply key_effect_device].
Qed.

Lemma toggle_stroke_ok w x : kb_wf (kbd w) -> listening (messages_after (kevs w)) -> legal_stroke (kbd w) x -> toggle x = true ->
  exists w', dispatchKeyboardEventWithPacket on_messages (packet x) w = Done (true, w') /\ kbd w' = kbd_after (kbd w) x /\
    filter (fun e => is_key e = true) (kevs w') = filter (fun e => is_key e = true) (kevs w) ++ key_event x /\
    pad (drv (messages_after (kevs w'))) = pad_after (pad (drv (messages_after (kevs w)))) x /\ listening (messages_after (kevs w')).
Proof.
  intros Hw Hl [] Ht. rewrite Ht in ls_key0. destruct ls_key0 as [Hd Hk]. destruct (packet_reads _ _ _ _ ls_made0 ls_time0) as (E0 & E1 & E2).
  set (w1 := messages_after (kevs w)) in *. set (ign := ignoreall (inp (pad (drv w1)))).
  destruct (set_dispatched w1 Hl) as (w2 & Es & Hp & Hl2). fold ign in Es, Hp.
  assert (forall b, messages_after (kevs w ++ [KMessage kPS2M_getDisableTouchpad (PBool b); KMessage kPS2M_setDisableTouchpad (PBool ign)]) = w2) as E12.
  { intros b. change [?a; ?b] with ([a] ++ [b]). rewrite app_assoc, !messages_snoc. fold w1. cbn [message_step].
    rewrite (get_dispatched w1 b Hl). by rewrite Es. }
  exists (w <| kbd := kbd_after (kbd w) x |> <| kevs := kevs w ++ toggle_events on_messages (negb ign) (adb x) (stamp x) |>).
  split; [|split; [reflexivity|]].
  - unfold kbd_after. rewrite Hd. apply (dispatch_toggle on_messages w _ _ _ _ _ (negb ign) Hw E0 E1 E2 ls_kind0); [|done| |].
    + unfold down in Hd. destruct ls_code0. lia.
    + cbn [reply on_messages]. fold w1. by rewrite get_dispatched.
    + eexists. unfold toggle_events. cbn [take]. rewrite negb_involutive. cbn [reply on_messages]. rewrite E12. by rewrite key_dispatched.
  - change (kevs (_ <| kevs := ?v |>)) with v. unfold toggle_events. rewrite negb_involutive.
    split; [by rewrite filter_app, !filter_cons; unfold key_event; rewrite Ht|].
    change [?a; ?b; ?c] with ([a; b] ++ [c]). rewrite app_assoc, messages_snoc, E12. cbn [message_step].
    change (PKeyInfo (mkKeyInfo _ (adb x) true false)) with (PKeyInfo (mkKeyInfo (absolutetime_to_nanoseconds kenv (stamp x)) (adb x) true false)).
    rewrite key_dispatched by done. unfold pad_after, info_of. rewrite Ht, Hd. simpl. rewrite Hp. split; [done|].
    apply listening_pad; [done|]. rewrite key_effect_device. by rewrite Hp.
Qed.

(** ** What the user sees *)

(** The time the touchpad driver goes by when it ignores touches while typing:
    that of the last key, but for a modifier going down. *)
Definition typed_after (t : Z) (x : Stroke) : Z := if Synaptics.is_modifier (adb x) && down x then t else absolutetime_to_nanoseconds kenv (stamp x).

(** The modifiers it knows, by ADB code and bit. *)
Definition tracked : list (Z * Z) := [(0x36, 4); (0x37, 20); (0x3a, 19); (0x3b, 18); (0x3d, 3); (0x3e, 2); (0x3f, 21)].
Definition held_after (key : Z) (b : bool) (x : Stroke) : bool := if adb x =? key then down x else b.

Lemma effect_ignore xs p : ignoreall (inp (fold_left pad_after xs p)) = xorb (Nat.odd (length (filter (fun x => toggle x = true) xs))) (ignoreall (inp p)).
Proof.
  revert p. induction xs as [|x xs IH]; intros p; [done|]. cbn [fold_left]. rewrite IH, filter_cons.
  assert (forall i q, ignoreall (inp (key_effect i q)) = ignoreall (inp q)) as He by (intros i q; unfold key_effect; by repeat case_match).
  unfold pad_after. rewrite He. destruct (toggle x).
  - rewrite (decide_True (P := true = true)) by done. cbn [length]. rewrite Nat.odd_succ, <- Nat.negb_odd. simpl. by destruct (Nat.odd _), (ignoreall _).
  - by rewrite (decide_False (P := false = true)).
Qed.

Lemma effect_time xs p : keytime (inp (fold_left pad_after xs p)) = fold_left typed_after xs (keytime (inp p)).
Proof.
  revert p. induction xs as [|x xs IH]; intros p; [done|]. cbn [fold_left]. rewrite IH. f_equal. unfold pad_after, key_effect, typed_after, info_of. simpl.
  destruct (Synaptics.is_modifier (adb x)), (down x), (toggle x); done.
Qed.

(** A fact about the tracked keys, one by one. *)
Lemma tracked_forall (P : Z * Z -> bool) key j : forallb P tracked = true -> (key, j) ∈ tracked -> P (key, j) = true.
Proof. rewrite forallb_forall. intros HP Hj. by apply HP, list_elem_of_In. Qed.

Lemma mask_bit adb : Synaptics.is_modifier adb = true -> let mask := default 0 (Synaptics.masks !! Z.to_nat (adb - 0x36)) in
  (exists j, (adb, j) ∈ tracked /\ mask = Z.shiftl 1 j) \/ (mask = 0 /\ forall key j, (key, j) ∈ tracked -> key <> adb).
Proof.
  unfold Synaptics.is_modifier. rewrite existsb_exists. intros (y & Hy & ->%Z.eqb_eq).
  simpl in Hy. destruct Hy as [<-|[<-|[<-|[<-|[<-|[<-|[<-|[<-|[<-|[]]]]]]]]]];
    let go j := solve [left; exists j; split; [unfold tracked; set_solver|reflexivity]] in
    first [go 4|go 20|go 19|go 18|go 3|go 2|go 21|right].
  all: split; [reflexivity|]; intros key j Hk; apply Z.eqb_neq, negb_true_iff;
    match goal with |- negb (_ =? ?a) = true => exact (tracked_forall (fun x => negb (x.1 =? a)) key j eq_refl Hk) end.
Qed.

(** Different keys, different bits. *)
Lemma tracked_bits key j key' j' : (key, j) ∈ tracked -> (key', j') ∈ tracked -> 0 <= j /\ (j =? j') = (key' =? key).
Proof.
  intros Hj Hj'. split; [apply Z.leb_le, (tracked_forall (fun x => 0 <=? x.2) key j eq_refl Hj)|]. apply eqb_prop.
  apply (tracked_forall (fun x => Bool.eqb (j =? x.2) (x.1 =? key)) key' j'); [|done].
  apply (tracked_forall (fun y => forallb (fun x => Bool.eqb (y.2 =? x.2) (x.1 =? y.1)) tracked) key j eq_refl Hj).
Qed.

Lemma tracked_modifier key j : (key, j) ∈ tracked -> Synaptics.is_modifier key = true.
Proof. apply (tracked_forall (fun x => Synaptics.is_modifier x.1)). reflexivity. Qed.

Lemma effect_held key j xs p : (key, j) ∈ tracked ->
  Z.testbit (_modifierdown (inp (fold_left pad_after xs p))) j = fold_left (held_after key) xs (Z.testbit (_modifierdown (inp p)) j).
Proof.
  intros Hj. revert p. induction xs as [|x xs IH]; intros p; [done|]. cbn [fold_left]. rewrite IH. f_equal. unfold pad_after, key_effect, held_after, info_of. simpl.
  assert (forall b, _modifierdown (inp (if toggle x then set_ignore b p else p)) = _modifierdown (inp p)) as Hs by (intros b; by destruct (toggle x)).
  destruct (Synaptics.is_modifier (adb x)) eqn:Em; simpl.
  2: { rewrite Hs. destruct (Z.eqb_spec (adb x) key) as [E|]; [|done]. apply tracked_modifier in Hj. congruence. }
  destruct (mask_bit _ Em) as [(j' & Hj' & ->)|[-> Hn]].
  - destruct (tracked_bits _ _ _ _ Hj Hj') as [Hpos <-]. pose proof (proj1 (tracked_bits _ _ _ _ Hj' Hj')).
    destruct (down x); simpl; rewrite Hs; [by rewrite setbit_spec|by rewrite clearbit_spec].
  - rewrite (proj2 (Z.eqb_neq (adb x) key)) by (intros <-; by apply (Hn _ _ Hj)).
    destruct (down x); simpl; rewrite Hs; [by rewrite Z.lor_0_r|]. unfold clear. by rewrite Z.ldiff_0_r.
Qed.

Lemma kbd_after_wf k x : kb_wf k -> kb_wf (kbd_after k x).
Proof. intros []. by split. Qed.

Lemma strokes_ok xs w : kb_wf (kbd w) -> listening (messages_after (kevs w)) -> legal_strokes (kbd w) xs ->
  exists w', forM_ xs (fun x => dispatchKeyboardEventWithPacket on_messages (packet x);; mret tt) w = Done (tt, w') /\
    filter (fun e => is_key e = true) (kevs w') = filter (fun e => is_key e = true) (kevs w) ++ concat (key_event <$> xs) /\
    pad (drv (messages_after (kevs w'))) = fold_left pad_after xs (pad (drv (messages_after (kevs w)))) /\ listening (messages_after (kevs w')).
Proof.
  revert w. induction xs as [|x xs IH]; intros w Hw Hl Hx.
  - exists w. cbn [forM_ fmap list_fmap concat fold_left]. by rewrite app_nil_r.
  - destruct Hx as [Hx Hxs].
    assert (exists w1, dispatchKeyboardEventWithPacket on_messages (packet x) w = Done (true, w1) /\ kbd w1 = kbd_after (kbd w) x /\
      filter (fun e => is_key e = true) (kevs w1) = filter (fun e => is_key e = true) (kevs w) ++ key_event x /\
      pad (drv (messages_after (kevs w1))) = pad_after (pad (drv (messages_after (kevs w)))) x /\ listening (messages_after (kevs w1)))
      as (w1 & E1 & K1 & F1 & P1 & L1).
    { destruct (toggle x) eqn:Et; [by apply toggle_stroke_ok|by apply key_stroke_ok]. }
    destruct (IH w1) as (w2 & E2 & F2 & P2 & L2); [rewrite K1; by apply kbd_after_wf|done|by rewrite K1|].
    exists w2. cbn [forM_]. rewrite (bind_done _ _ w tt w1) by (by rewrite (bind_done _ _ _ _ _ E1)). split; [done|].
    rewrite F2, F1, P2, P1, fmap_cons, <- app_assoc. done.
Qed.

(** C4: Typing, seen from the touchpad.  The keyboard driver dispatches any sequence
    of packets of ordinary keys and of the key that switches the touchpad on and
    off; its messages go through the controller to the touchpad driver, among any
    number of other services.  Every call returns; exactly the ordinary keys make
    key events, in order, and none is swallowed; the touchpad is off after an odd
    number of presses of its key if it was on, and the other way round; the time
    after which touches count again is that of the last key that was not a
    modifier going down; each modifier it tracks is down for it exactly if the
    last event of that key was a press; and it is ready for the next message. *)
Theorem typing_session xs w : kb_wf (kbd w) -> listening (messages_after (kevs w)) -> legal_strokes (kbd w) xs ->
  let p := pad (drv (messages_after (kevs w))) in
  exists w', forM_ xs (fun x => dispatchKeyboardEventWithPacket on_messages (packet x);; mret tt) w = Done (tt, w') /\
    listening (messages_after (kevs w')) /\
    filter (fun e => is_key e = true) (kevs w') = filter (fun e => is_key e = true) (kevs w) ++ concat (key_event <$> xs) /\
    let p' := pad (drv (messages_after (kevs w'))) in
    ignoreall (inp p') = xorb (Nat.odd (length (filter (fun x => toggle x = true) xs))) (ignoreall (inp p)) /\
    keytime (inp p') = fold_left typed_after xs (keytime (inp p)) /\
    forall key j, (key, j) ∈ tracked -> Z.testbit (_modifierdown (inp p')) j = fold_left (held_after key) xs (Z.testbit (_modifierdown (inp p)) j).
Proof.
  intros Hw Hl Hx p. destruct (strokes_ok xs w Hw Hl Hx) as (w' & E & F & P & L). exists w'. split; [done|]. split; [done|]. split; [done|].
  cbv zeta. rewrite P. split; [apply effect_ignore|]. split; [apply effect_time|]. intros key j Hj. by apply effect_held.
Qed.
End typing.

(** ** A machine with a touchpad and two other services *)

Module TypingDemo.
Definition ctl3 : ApplePS2Controller := Demo.ctl0 <| _notificationServices := [5%positive; 7%positive; 9%positive] |>.
Definition world3 : World Chip.chip SWorld := mkWorld ctl3 (Demo.holding []) started_pad true [].
Definition stroke (kind sc adb t : Z) (toggle : bool) : Stroke :=
  mkStroke (written (packet_writes kind sc t) (replicate 16 0)) kind sc adb t toggle.
(** The left Alt key down, A down and up, the key for the touchpad. *)
Definition strokes : list Stroke :=
  [stroke 1 0x38 0x3a 1000 false; stroke 1 0x1e 0 2000 false; stroke 1 0x9e 0 3000 false; stroke 2 0x37 DEADKEY 4000 true].
Definition keys : KWorld := mkKWorld stock 0 [].

Lemma listens : listening 7%positive (messages_after dead_pad 7%positive world3 (kevs keys)).
Proof.
  split; [done| |done]. exists [5%positive], [9%positive]. split; [done|]. split; apply (bool_decide_unpack (_ ∉ _)); vm_compute; exact I.
Qed.

Lemma plain_stock raw adb c : (raw =? 0x012a) = false -> breakless_of stock raw = false -> bool_decide (adb ∈ [0x39; 0x90; 0x91; 0x92]) = false ->
  _PS2ToPS2Map stock !! Z.to_nat raw = Some c -> bool_decide (c ∈ special_codes) = false -> (0 <? c) && (c <? 0x01f0) = true ->
  _PS2ToADBMap stock !! Z.to_nat c = Some adb -> forall m, plain (stock <| _PS2modifierState := m |>) raw adb.
Proof.
  intros H1 H2 H3 H4 H5 H6 H7 m. apply bool_decide_eq_false in H3, H5. bool_hyps. split; [done|]. split; [done|]. split; [done|]. by exists c.
Qed.

Lemma made kind sc adb t tg : made_by kPacketLength (packet (stroke kind sc adb t tg)) (packet_writes kind sc t).
Proof. split; [|by eexists]. unfold packet, stroke. by rewrite written_length. Qed.

Lemma strokes_legal : legal_strokes stock strokes.
Proof.
  split; [|split; [|split; [|split; [|exact I]]]]; (split; [apply made|simpl; lia|simpl; lia|simpl; unfold is_u8; lia|simpl; lia|]); cbn [toggle].
  - exact (plain_stock 0x38 0x3a 0x38 eq_refl eq_refl eq_refl eq_refl eq_refl eq_refl eq_refl 0).
  - refine (plain_stock 0x1e 0 0x1e _ _ _ _ _ _ _ _); vm_compute; reflexivity.
  - refine (plain_stock 0x1e 0 0x1e _ _ _ _ _ _ _ _); vm_compute; reflexivity.
  - split; [done|]. split; [done|]. split; [exists 0x137; split; [vm_compute; reflexivity|by right]|].
    split; [apply (bool_decide_unpack (_ ∉ _)); vm_compute; exact I|]. split; vm_compute; reflexivity.
Qed.
End TypingDemo.

Lemma typing_session_witness : exists w',
  forM_ TypingDemo.strokes (fun x => dispatchKeyboardEventWithPacket (on_messages quiet_env dead_pad 7%positive TypingDemo.world3) (packet x);; mret tt)
    TypingDemo.keys = Done (tt, w') /\
  filter (fun e => is_key e = true) (kevs w') = [KKey 0x3a true 1000; KKey 0 true 2000; KKey 0 false 3000] /\
  let p := pad (drv (messages_after dead_pad 7%positive TypingDemo.world3 (kevs w'))) in
  ignoreall (inp p) = true /\ keytime (inp p) = 4000 /\ Z.testbit (_modifierdown (inp p)) 19 = true.
Proof.
  destruct (typing_session quiet_env dead_pad 7%positive TypingDemo.world3 TypingDemo.strokes TypingDemo.keys) as (w' & E & _ & F & I & T & B).
  - exact stock_wf.
  - exact TypingDemo.listens.
  - exact TypingDemo.strokes_legal.
  - exists w'. split; [exact E|]. split; [exact F|]. split; [exact I|]. split; [exact T|]. apply (B 0x3a 19). unfold tracked. set_solver.
Defined.
