(* ===== verification/Alps.v ===== *)
(** * Alps: ApplePS2ALPSGlidePoint

    The driver for ALPS touchpads,
    src/VoodooPS2Trackpad/VoodooPS2ALPSGlidePoint.cpp/.h: identification by two
    reports, packets of three or six bytes, edge scrolling with an acceleration
    in floating point, settings and life cycle.  IOKit hands out zeroed memory
    for the members [init] does not set. *)

From S2P Require Import Prelude RingBuffer PS2Defs Controller Config Pointing.
From Stdlib Require Import SpecFloat.
From Stdlib Require String.

#[local] Open Scope string_scope.
#[local] Open Scope list_scope.
#[local] Open Scope Z_scope.

(** ** Floating point: [double] is binary64, by the specification of IEEE 754 *)

Definition double : Type := spec_float.
Definition d_of_int (z : Z) : double := binary_normalize 53 1024 z 0 false.
Definition d_mul : double -> double -> double := SFmul 53 1024.
Definition d_div : double -> double -> double := SFdiv 53 1024.

(** Conversion to [int] rounds toward zero; outside the range it is not defined. *)
Definition d_to_int (f : double) : outcome Z :=
  match f with
  | S754_zero _ => Done 0
  | S754_finite s m e =>
      let n := Z.shiftl (Zpos m) e in
      let n := if s then - n else n in
      if (-2147483648 <=? n) && (n <=? 2147483647) then Done n else Undef
  | S754_infinity _ | S754_nan => Undef
  end.

(** ** State *)

Definition kTapEnabled : Z := 0x01.
Definition SCROLL_NONE : Z := 0.
Definition SCROLL_HORIZ : Z := 1.
Definition SCROLL_VERT : Z := 2.
Definition kPacketLengthSmall : Z := 3.
Definition kPacketLengthLarge : Z := 6.
Definition kPacketLengthMax : Z := 6.
Definition ringSize : Z := kPacketLengthMax * 32.

Record ALPSStatus := mkStatus { byte0 : Z; byte1 : Z; byte2 : Z }.

Record ApplePS2ALPSGlidePoint := mkAlps {
  _device : bool;
  _interruptHandlerInstalled : bool;
  _powerControlHandlerInstalled : bool;
  _ringBuffer : RingBuffer Z;
  _packetByteCount : Z;
  _resolution : Z;
  _touchPadVersion : Z;
  _touchPadModeByte : Z;
  _dragging : bool;
  _edgehscroll : bool;
  _edgevscroll : bool;
  _edgeaccell : Z;
  _edgeaccellvalue : double;
  _draglock : bool;
  _xpos : Z; _xscrollpos : Z;
  _ypos : Z; _yscrollpos : Z;
  _zpos : Z; _zscrollpos : Z;
  _scrolling : Z;
}.
#[export] Instance ApplePS2ALPSGlidePoint_eta : Settable ApplePS2ALPSGlidePoint := mkSettable _ (fun r =>
  mkAlps (_device r) (_interruptHandlerInstalled r) (_powerControlHandlerInstalled r) (_ringBuffer r) (_packetByteCount r)
    (_resolution r) (_touchPadVersion r) (_touchPadModeByte r) (_dragging r) (_edgehscroll r) (_edgevscroll r) (_edgeaccell r)
    (_edgeaccellvalue r) (_draglock r) (_xpos r) (_xscrollpos r) (_ypos r) (_yscrollpos r) (_zpos r) (_zscrollpos r) (_scrolling r)).

Inductive AEvent :=
| APointer (dx dy buttons time : Z)           (* dispatchRelativePointerEvent *)
| AScroll (d1 d2 d3 time : Z)                 (* dispatchScrollWheelEvent *)
| ASubmitBlock (r : PS2Request)
| ASetProperty (key : string) (v : OSObject)
| ASuperSetParamProperties (config : OSDict)  (* super::setParamProperties *)
| AInstallInterruptAction
| AInstallPowerControlAction
| AUninstallInterruptAction
| AUninstallPowerControlAction.

(** [max_1 v] is [max(v, 1)], a macro of IOKit, as a [double]. *)
Record AEnv := {
  uptime : nat -> Z;
  submit : list AEvent -> PS2Request -> PS2Request;   (* the request after the controller executed it *)
  max_1 : double -> double;
  hid : HIDConstants;
}.

Record AWorld := mkAWorld { alps : ApplePS2ALPSGlidePoint; ticks : nat; aevs : list AEvent }.
#[export] Instance AWorld_eta : Settable AWorld := mkSettable _ (fun w => mkAWorld (alps w) (ticks w) (aevs w)).

Section alps.
  Context (env : AEnv).
  Notation "'prog' A" := (M AWorld A) (at level 10, A at next level).

Definition aemit (e : AEvent) : prog unit := modify (fun w => w <| aevs := aevs w ++ [e] |>).
Definition geta {A} (f : ApplePS2ALPSGlidePoint -> A) : prog A := gets (fun w => f (alps w)).
Definition seta (f : ApplePS2ALPSGlidePoint -> ApplePS2ALPSGlidePoint) : prog unit := modify (fun w => w <| alps := f (alps w) |>).

Definition clock_get_uptime : prog Z :=
  fun w => Done (u64 (uptime env (ticks w)), w <| ticks := S (ticks w) |>).
Definition dispatchRelativePointerEventX (dx dy buttons now : Z) : prog unit := aemit (APointer dx dy buttons now).
Definition dispatchScrollWheelEventX (d1 d2 d3 now : Z) : prog unit := aemit (AScroll (s16 d1) (s16 d2) (s16 d3) now).
Definition setProperty (key : string) (v : OSObject) : prog unit := aemit (ASetProperty key v).

(** [_device->submitRequestAndBlock(&request)] *)
Definition submitRequestAndBlock (r : PS2Request) : prog PS2Request :=
  d ← geta _device;
  if d : bool then evs ← gets aevs; aemit (ASubmitBlock r);; mret (submit env evs r) else undef.
Definition result (r : PS2Request) (i : Z) : prog Z := c ← lift (aget (commands r) i); mret (inOrOut c).

(** ** Requests *)

Definition status_request : PS2Request :=
  stack_request (map mouse_command [kDP_SetDefaultsAndDisable; kDP_SetDefaultsAndDisable; kDP_SetDefaultsAndDisable; kDP_GetMouseInformation] ++
    [read_byte; read_byte; read_byte]).
(** The bytes are read whether or not the request succeeded. *)
Definition getStatus : prog ALPSStatus :=
  r ← submitRequestAndBlock status_request;
  b0 ← result r 4; b1 ← result r 5; b2 ← result r 6; mret (mkStatus b0 b1 b2).

(** The E6 and the E7 report. *)
Definition model_request (scaling : Z) : PS2Request :=
  stack_request (map mouse_command [kDP_SetMouseResolution; 0; scaling; scaling; scaling; kDP_GetMouseInformation] ++
    [read_byte; read_byte; read_byte]).
Definition getReport (scaling : Z) : prog ALPSStatus :=
  r ← submitRequestAndBlock (model_request scaling);
  b0 ← result r 6; b1 ← result r 7; b2 ← result r 8; mret (mkStatus b0 b1 b2).
Definition getModel : prog (ALPSStatus * ALPSStatus) :=
  e6 ← getReport kDP_SetMouseScaling1To1; e7 ← getReport kDP_SetMouseScaling2To1; mret (e6, e7).

Definition absolute_request : PS2Request :=
  stack_request (map mouse_command [kDP_SetDefaultsAndDisable; kDP_SetDefaultsAndDisable; kDP_SetDefaultsAndDisable; kDP_SetDefaultsAndDisable;
    kDP_Enable; 0xF0]).
Definition setAbsoluteMode : prog unit := submitRequestAndBlock absolute_request;; mret tt.

Definition enable_request (enable : bool) : PS2Request :=
  stack_request (map mouse_command [kDP_SetDefaultsAndDisable; kDP_SetDefaultsAndDisable; kDP_SetDefaultsAndDisable; kDP_SetDefaultsAndDisable;
    if enable then kDP_Enable else kDP_SetDefaultsAndDisable]).
Definition setTouchPadEnable (enable : bool) : prog unit := submitRequestAndBlock (enable_request enable);; mret tt.

Definition tap_request (enable : bool) : PS2Request :=
  stack_request ([mouse_command kDP_GetMouseInformation; read_byte; read_byte; read_byte;
    mouse_command kDP_SetDefaultsAndDisable; mouse_command kDP_SetDefaultsAndDisable;
    mouse_command (if enable then kDP_SetMouseSampleRate else kDP_SetMouseResolution)] ++
    to_mouse (if enable then 0x0A else 0x00) ++ [read_ack]).
Definition setTapEnable (enable : bool) : prog unit :=
  s ← getStatus;
  let enable := if anyset (byte0 s) 0x04 then false else enable in
  submitRequestAndBlock (tap_request enable);;
  getStatus;;
  mret tt.

(** ** Identification *)

Definition singles : list (Z * Z * Z) :=
  [(0x33, 0x2, 0x0a); (0x53, 0x2, 0x0a); (0x53, 0x2, 0x14); (0x63, 0x2, 0xa); (0x63, 0x2, 0x14); (0x73, 0x2, 0x0a);
   (0x63, 0x2, 0x28); (0x63, 0x2, 0x3c); (0x63, 0x2, 0x50); (0x63, 0x2, 0x64)].
Definition duals : list (Z * Z * Z) := [(0x20, 0x2, 0xe); (0x22, 0x2, 0xa); (0x22, 0x2, 0x14)].

Definition IsItALPS (E6 E7 : ALPSStatus) : bool :=
  let matches := fun '(b0, b1, b2) => (byte0 E7 =? b0) && (byte1 E7 =? b1) && (byte2 E7 =? b2) in
  existsb matches singles || existsb matches duals.

Definition probe (config : option OSDict) : prog bool :=
  if bool_decide ((d ← config; getObject "DisableDevice" d ≫= asBoolean) = Some true) then mret false
  else
    seta (fun a => a <| _device := true |>);;
    '(e6, e7) ← getModel;
    seta (fun a => a <| _touchPadVersion := Z.lor (Z.shiftl (Z.land (byte2 e7) 0x0f) 8) (byte0 e7) |> <| _device := false |>);;
    mret (IsItALPS e6 e7).

Definition start : prog bool :=
  seta (fun a => a <| _device := true |>);;
  setProperty "Clicking" (OSNumber 1);;
  setProperty "TrackpadScroll" (OSNumber 1);;
  setProperty "TrackpadHorizScroll" (OSNumber 1);;
  setProperty (kIOHIDPointerAccelerationTypeKey (hid env)) (OSString (kIOHIDTrackpadAccelerationType (hid env)));;
  setTapEnable true;;
  setAbsoluteMode;;
  setTouchPadEnable true;;
  aemit AInstallInterruptAction;;
  seta (fun a => a <| _interruptHandlerInstalled := true |>);;
  aemit AInstallPowerControlAction;;
  seta (fun a => a <| _powerControlHandlerInstalled := true |>);;
  mret true.

Definition stop : prog unit :=
  setTouchPadEnable false;;
  a ← geta id;
  when (_interruptHandlerInstalled a) (aemit AUninstallInterruptAction);;
  when (_powerControlHandlerInstalled a) (aemit AUninstallPowerControlAction);;
  seta (fun a => a <| _interruptHandlerInstalled := false |> <| _powerControlHandlerInstalled := false |> <| _device := false |>).

(** ** Interrupt time *)

(** [packet[0]], where [packet] is [_ringBuffer.head()]. *)
Definition head_get (rb : RingBuffer Z) (i : Z) : outcome Z := aget (m_buffer rb) (m_head rb + i).

Definition interruptOccurred (data : Z) : prog PS2InterruptResult :=
  a ← geta id;
  let n := _packetByteCount a in
  if (0 =? n) && negb (Z.land data 0xc8 =? 0x08) && negb (Z.land data 0xf8 =? 0xf8) then mret kPS2IR_packetBuffering
  else if (n >=? 1) && (data =? 0x80) then
    seta (fun a => a <| _packetByteCount := 0 |>);; mret kPS2IR_packetBuffering
  else
    rb ← lift (head_set (_ringBuffer a) n data);
    let n := u32 (n + 1) in
    seta (fun a => a <| _ringBuffer := rb |> <| _packetByteCount := n |>);;
    first ← lift (head_get rb 0);
    if (kPacketLengthLarge =? n) || ((kPacketLengthSmall =? n) && (Z.land first 0xc8 =? 0x08)) then
      seta (fun a => a <| _ringBuffer := advanceHead ringSize (_ringBuffer a) kPacketLengthMax |> <| _packetByteCount := 0 |>);;
      mret kPS2IR_packetReady
    else mret kPS2IR_packetBuffering.

(** ** Packets *)

Definition packet_byte (packet : list Z) (i : Z) : prog Z := b ← lift (aget packet i); mret (u8 b).

(** In the edge: which scrolling; in the corner, the one that was going on. *)
Definition insideScrollArea (x y : Z) : prog Z :=
  s ← geta _scrolling;
  let scroll :=
    if (x >? 900) && (y >? 650) then if s =? SCROLL_VERT then SCROLL_VERT else SCROLL_HORIZ
    else Z.lor (if x >? 900 then SCROLL_VERT else 0) (if y >? 650 then SCROLL_HORIZ else 0) in
  seta (fun a => a <| _scrolling := scroll |>);;
  mret scroll.

(** [-((int)((double)diff * _edgeaccellvalue))] *)
Definition accelerated (v : double) (diff : Z) : outcome Z := n ← d_to_int (d_mul (d_of_int diff) v); mret (s32 (- n)).
(** [(p >= 950 ? 25 : (p <= 100 ? -25 : 0)) / max(_edgeaccellvalue, 1)] *)
Definition angle_tap (v : double) (p : Z) : outcome Z :=
  d_to_int (d_div (d_of_int (if p >=? 950 then 25 else if p <=? 100 then -25 else 0)) (max_1 env v)).

Definition edge_scroll (x y z scroll : Z) (wasNotScrolling : bool) (now_abs : Z) : prog unit :=
  a ← geta id;
  when ((_zscrollpos a <=? 0) || wasNotScrolling) (seta (fun a => a <| _xscrollpos := x |> <| _yscrollpos := y |>));;
  a ← geta id;
  let v := _edgeaccellvalue a in
  ydiff ← (if scroll =? SCROLL_VERT then lift (accelerated v (s32 (y - _yscrollpos a))) else mret 0);
  xdiff ← (if scroll =? SCROLL_HORIZ then lift (accelerated v (s32 (x - _xscrollpos a))) else mret 0);
  ydiff ← (if (ydiff =? 0) && (scroll =? SCROLL_HORIZ) then lift (angle_tap v x) else mret ydiff);
  xdiff ← (if (xdiff =? 0) && (scroll =? SCROLL_VERT) then lift (angle_tap v y) else mret xdiff);
  dispatchScrollWheelEventX ydiff xdiff 0 now_abs;;
  seta (fun a => a <| _zscrollpos := z |>).

(** The position and the buttons of an absolute packet. *)
Definition absolute_x (p1 p2 : Z) : Z := Z.lor (Z.land p1 0x7f) (Z.shiftl (Z.land p2 0x78) (7 - 3)).
Definition absolute_y (p3 p4 : Z) : Z := Z.lor (Z.land p4 0x7f) (Z.shiftl (Z.land p3 0x70) (7 - 4)).
Definition absolute_buttons (p0 p2 p3 : Z) : Z :=
  let plain := negb (p0 =? 0xff) in
  let left := Z.testbit p2 0 || Z.testbit p3 0 || (plain && Z.testbit p0 0) in
  let right := Z.testbit p3 1 || (plain && Z.testbit p0 1) in
  let middle := plain && (Z.testbit p0 2 || Z.testbit p3 2) in
  Z.lor (Z.lor (if left then 0x01 else 0) (if right then 0x02 else 0)) (if middle then 0x04 else 0).

Definition dispatchAbsolutePointerEventWithPacket (packet : list Z) : prog unit :=
  p0 ← packet_byte packet 0; p1 ← packet_byte packet 1; p2 ← packet_byte packet 2;
  p3 ← packet_byte packet 3; p4 ← packet_byte packet 4; p5 ← packet_byte packet 5;
  let x := absolute_x p1 p2 in let y := absolute_y p3 p4 in let z := p5 in
  now_abs ← clock_get_uptime;
  let buttons := absolute_buttons p0 p2 p3 in
  a ← geta id;
  let wasNotScrolling := _scrolling a =? SCROLL_NONE in
  scroll ← insideScrollArea x y;
  let willScroll := (anyset scroll SCROLL_VERT && _edgevscroll a) || (anyset scroll SCROLL_HORIZ && _edgehscroll a) in
  when ((z =? 0) || ((_zpos a >=? 1) && negb (z =? 0) && negb willScroll)) (seta (fun a => a <| _xpos := x |> <| _ypos := y |>));;
  if willScroll then edge_scroll x y z scroll wasNotScrolling now_abs
  else
    seta (fun a => a <| _zpos := if z =? 0 then s32 (_zpos a + 1) else 0 |> <| _scrolling := SCROLL_NONE |>);;
    a ← geta id;
    let xdiff := s32 (x - _xpos a) in let ydiff := s32 (y - _ypos a) in
    seta (fun a => a <| _xpos := x |> <| _ypos := y |>);;
    dispatchRelativePointerEventX xdiff ydiff buttons now_abs.

Definition dispatchRelativePointerEventWithPacket (packet : list Z) : prog unit :=
  p0 ← packet_byte packet 0; p1 ← packet_byte packet 1; p2 ← packet_byte packet 2;
  let buttons := Z.lor (Z.lor (if anyset p0 0x1 then 0x1 else 0) (if anyset p0 0x2 then 0x2 else 0)) (if anyset p0 0x4 then 0x4 else 0) in
  let dx := if anyset p0 0x10 then p1 - 256 else p1 in
  let dy := if anyset p0 0x20 then p2 - 256 else p2 in
  now_abs ← clock_get_uptime;
  dispatchRelativePointerEventX dx dy buttons now_abs.

(** [while (_ringBuffer.count() >= kPacketLengthMax)]; at most [n] packets. *)
Fixpoint packetReady_loop (n : nat) : prog unit :=
  a ← geta id;
  if count ringSize (_ringBuffer a) >=? kPacketLengthMax then
    match n with
    | O => nofuel
    | S n =>
        packet ← lift (tail_read (_ringBuffer a) 0 (Z.to_nat kPacketLengthMax));
        p0 ← lift (aget packet 0);
        (if Z.land p0 0xf8 =? 0xf8 then dispatchAbsolutePointerEventWithPacket packet else dispatchRelativePointerEventWithPacket packet);;
        seta (fun a => a <| _ringBuffer := advanceTail ringSize (_ringBuffer a) kPacketLengthMax |>);;
        packetReady_loop n
    end
  else mret tt.

(** A ring of 32 packets holds at most 31. *)
Definition packetReady : prog unit := packetReady_loop 32.

(** ** Settings and power *)

(** [(((double)(_edgeaccell / 1966.08)) / 75.0)], and never 0. *)
Definition accel_value (n : Z) : double :=
  let v := d_div (d_div (d_of_int n) (d_div (d_of_int 196608) (d_of_int 100))) (d_of_int 75) in
  if SFeqb v (d_of_int 0) then d_div (d_of_int 1) (d_of_int 100) else v.

Definition number (config : OSDict) (key : string) : option Z := getObject key config ≫= asNumber.

(** A setting that is one bit. *)
Definition load_bit (config : OSDict) (key : string) (f : bool -> ApplePS2ALPSGlidePoint -> ApplePS2ALPSGlidePoint) : prog unit :=
  match number config key with
  | Some n => seta (f (anyset (u32 n) 0x1));; setProperty key (OSNumber n)
  | None => mret tt
  end.

Definition setParamProperties (config : OSDict) : prog unit :=
  match number config "Clicking" with
  | Some n =>
      let mode := if anyset (u32 n) 0x1 then kTapEnabled else 0 in
      a ← geta id;
      if negb (_touchPadModeByte a =? mode) then
        seta (fun a => a <| _touchPadModeByte := mode |>);;
        setTapEnable (negb (mode =? 0));;
        setProperty "Clicking" (OSNumber n);;
        setAbsoluteMode
      else mret tt
  | None => mret tt
  end;;
  load_bit config "Dragging" (fun b a => a <| _dragging := b |>);;
  load_bit config "DragLock" (fun b a => a <| _draglock := b |>);;
  load_bit config "TrackpadHorizScroll" (fun b a => a <| _edgehscroll := b |>);;
  load_bit config "TrackpadScroll" (fun b a => a <| _edgevscroll := b |>);;
  match number config "HIDTrackpadScrollAcceleration" with
  | Some n =>
      seta (fun a => a <| _edgeaccell := u32 n |> <| _edgeaccellvalue := accel_value (u32 n) |>);;
      setProperty "HIDTrackpadScrollAcceleration" (OSNumber n)
  | None => mret tt
  end;;
  aemit (ASuperSetParamProperties config).

Definition setDevicePowerState (whatToDo : Z) : prog unit :=
  if whatToDo =? kPS2C_DisableDevice then setTouchPadEnable false
  else if whatToDo =? kPS2C_EnableDevice then
    a ← geta id;
    setTapEnable (negb (_touchPadModeByte a =? 0));;
    setAbsoluteMode;;
    seta (fun a => a <| _ringBuffer := reset (_ringBuffer a) |> <| _packetByteCount := 0 |>);;
    setTouchPadEnable true
  else mret tt.
End alps.

Definition init : ApplePS2ALPSGlidePoint :=
  mkAlps false false false (mkRB (replicate (Z.to_nat ringSize) 0) 0 0) 0 (Z.shiftl 100 16) 0 kTapEnabled
    false false false 0 (S754_zero false) false 0 0 0 0 0 0 SCROLL_NONE.
