(* ===== verification/AlpsSpec.v ===== *)
(** * AlpsSpec: what the ALPS driver guarantees

    The magnitude of the floating point numbers of edge scrolling, the invariant
    of a started driver, packet assembly against an abstract assembler, the
    decoding of packets. *)

From S2P Require Import Prelude RingBuffer PS2Defs Controller Config Pointing Alps.
From Stdlib Require Import SpecFloat.
From Stdlib Require String.

#[local] Open Scope string_scope.
#[local] Open Scope list_scope.
#[local] Open Scope Z_scope.

(** ** Magnitude of floating point numbers *)

(** Number of binary digits. *)
Abbreviation digits := Zdigits2.

(** The value [m * 2 ^ e] is less than [2 ^ k]. *)
Definition small (k m e : Z) : Prop := 0 <= m /\ (m = 0 \/ digits m + e <= k).

(** Finite, and less than [2 ^ k] in magnitude. *)
Definition below (k : Z) (f : double) : Prop :=
  match f with
  | S754_zero _ => True
  | S754_finite _ m e => digits (Zpos m) + e <= k
  | _ => False
  end.

Lemma digits_spec m : 0 < m -> 0 < digits m /\ 2 ^ (digits m - 1) <= m < 2 ^ digits m.
Proof.
  destruct m as [|p|p]; [lia| |lia]. intros _. cbn [Zdigits2]. split; [lia|].
  induction p as [p IH|p IH|]; cbn [digits2_pos]; [| |by compute].
  all: rewrite Pos2Z.inj_succ; set (d := Zpos (digits2_pos p)) in *; replace (Z.succ d - 1) with (Z.succ (d - 1)) by lia;
    rewrite !Z.pow_succ_r by lia; lia.
Qed.

(** Digits from a bound, and a bound from digits. *)
Lemma digits_le m k : 0 < m < 2 ^ k -> 0 <= k -> digits m <= k.
Proof.
  intros Hm Hk. destruct (digits_spec m) as (_ & H & _); [lia|].
  destruct (Z.le_gt_cases (digits m) k); [done|]. assert (2 ^ k <= 2 ^ (digits m - 1)) by (apply Z.pow_le_mono_r; lia). lia.
Qed.

Lemma small_shr_1 k r e : small k (shr_m r) e -> small k (shr_m (shr_1 r)) (e + 1).
Proof.
  destruct r as [[|[p|p|]|p] b s]; intros [Hp H]; simpl in *; try lia; (split; simpl; [lia|]); try (by left);
    (right; destruct H as [H|H]; [done|]); rewrite Pos2Z.inj_succ in H; lia.
Qed.

Lemma small_iter k p r e : small k (shr_m r) e -> small k (shr_m (iter_pos shr_1 p r)) (e + Zpos p).
Proof.
  revert r e. induction p as [p IH|p IH|]; intros r e H; cbn [iter_pos]; [| |by apply small_shr_1].
  - replace (e + Zpos p~1) with (e + 1 + Zpos p + Zpos p) by lia. by apply IH, IH, small_shr_1.
  - replace (e + Zpos p~0) with (e + Zpos p + Zpos p) by lia. by apply IH, IH.
Qed.

Lemma small_shr_fexp k m e l : small k m e ->
  let '(r, e') := shr_fexp 53 1024 m e l in
  small k (shr_m r) e' /\ e' = Z.max e (fexp 53 1024 (digits m + e)).
Proof.
  intros H. unfold shr_fexp, shr. assert (small k (shr_m (shr_record_of_loc m l)) e) as H' by (by destruct l as [|[]]).
  destruct (_ - e) as [|p|p] eqn:E; [split; [done|lia]| |split; [done|lia]]. split; [by apply small_iter|lia].
Qed.

Lemma small_round k m l e : small k m e -> e <= k -> small (k + 1) (round_nearest_even m l) e.
Proof.
  intros [Hm H] He. assert (small (k + 1) m e) as H0 by (split; [done|]; destruct H; [by left|right; lia]).
  assert (small (k + 1) (m + 1) e) as H1.
  { split; [lia|]. right. destruct (Z.eq_dec m 0) as [->|Hne]; [simpl; lia|]. destruct H as [H|H]; [done|].
    destruct (digits_spec m) as (Hp & _ & Hd); [lia|]. assert (digits (m + 1) <= digits m + 1); [|lia].
    apply digits_le; [|lia]. rewrite Z.pow_add_r by lia. lia. }
  destruct l as [|[]]; simpl; try done. by destruct (Z.even m).
Qed.

(** Rounding at most doubles the bound. *)
Lemma below_round k s m e l : small k m e -> e <= k -> -1000 <= k <= 900 -> below (k + 1) (binary_round_aux 53 1024 s m e l).
Proof.
  intros H He Hk. unfold binary_round_aux. pose proof (small_shr_fexp k m e l H) as H1.
  destruct (shr_fexp 53 1024 m e l) as [r1 e1]. destruct H1 as [H1 E1].
  assert (e1 <= k) as He1.
  { subst. destruct H as [_ [-> | H]]; unfold fexp, emin; simpl; lia. }
  pose proof (small_shr_fexp (k + 1) _ e1 loc_Exact (small_round k _ (loc_of_shr_record r1) e1 H1 He1)) as H2.
  destruct (shr_fexp _ _ _ e1 loc_Exact) as [r2 e2]. destruct H2 as [[Hp H2] _].
  destruct (shr_m r2) as [|p|p]; [done| |lia]. destruct H2 as [H2|H2]; [done|].
  rewrite (proj2 (Z.leb_le _ _)) by (simpl in H2; lia). exact H2.
Qed.

Lemma below_mul j k x y : below j x -> below k y -> -1000 <= j + k <= 900 -> below (j + k + 1) (d_mul x y).
Proof.
  intros Hx Hy Hk. destruct x as [|?| |sx mx ex], y as [|?| |sy my ey]; try done. unfold d_mul, SFmul.
  cbn [below] in Hx, Hy. destruct (digits_spec (Zpos mx)) as (Dx & _ & Mx); [lia|]. destruct (digits_spec (Zpos my)) as (Dy & _ & My); [lia|].
  apply below_round; [|lia|done]. split; [lia|right].
  assert (digits (Zpos (mx * my)) <= digits (Zpos mx) + digits (Zpos my)); [|lia].
  apply digits_le; [|lia]. rewrite Z.pow_add_r by lia. split; [lia|]. rewrite Pos2Z.inj_mul. by apply Z.mul_lt_mono_nonneg.
Qed.

(** Division by a number of magnitude [2 ^ (h - 1)] at least. *)
Lemma below_div j h x sy my ey : below j x -> h <= digits (Zpos my) + ey -> -1000 <= j - h + 1 <= 900 ->
  below (j - h + 2) (d_div x (S754_finite sy my ey)).
Proof.
  intros Hx Hh Hk. destruct x as [|?| |sx mx ex]; try done. unfold d_div, SFdiv, SFdiv_core_binary. cbn [below] in Hx.
  destruct (digits_spec (Zpos mx)) as (Dx & _ & Mx); [lia|]. destruct (digits_spec (Zpos my)) as (Dy & My & _); [lia|].
  set (d1 := digits (Zpos mx)) in *. set (d2 := digits (Zpos my)) in *. set (e' := Z.min _ _). set (s := ex - ey - e').
  assert (0 <= s) as Hs by lia. assert (e' <= j - h + 1) as He by (unfold e', fexp, emin; lia).
  assert (match s with Z0 => Zpos mx | Zpos _ => Z.shiftl (Zpos mx) s | Zneg _ => 0 end = Zpos mx * 2 ^ s) as ->.
  { rewrite <- Z.shiftl_mul_pow2 by lia. by destruct s. }
  pose proof (Z_div_mod (Zpos mx * 2 ^ s) (Zpos my) ltac:(lia)) as Hqr. destruct (Z.div_eucl _ _) as [q r]. destruct Hqr as [Hq Hr].
  replace (j - h + 2) with (j - h + 1 + 1) by lia. apply below_round; [|done|done].
  assert (0 < 2 ^ s) as Hs2 by (apply Z.pow_pos_nonneg; lia). assert (0 <= q) as Hq0 by nia. split; [done|].
  destruct (Z.eq_dec q 0) as [->|Hne]; [by left|right].
  assert (2 ^ (d2 - 1) * q < 2 ^ (d1 + s)) as Hlt by (rewrite Z.pow_add_r by lia; nia).
  destruct (digits_spec q) as (Dq & Mq & _); [lia|].
  assert (2 ^ (d2 - 1 + (digits q - 1)) < 2 ^ (d1 + s)) as H2 by (rewrite (Z.pow_add_r 2 (d2 - 1)) by lia; nia).
  apply Z.pow_lt_mono_r_iff in H2; lia.
Qed.

Lemma below_mono j k f : below j f -> j <= k -> below k f.
Proof. destruct f; simpl; lia || done. Qed.

Lemma shl_align_small k m e e' : small k (Zpos m) e -> let '(m', e2) := shl_align m e e' in small k (Zpos m') e2 /\ e2 <= e.
Proof.
  intros H. unfold shl_align. destruct (e' - e) as [|p|p] eqn:E; try (split; [done|lia]). split; [|lia].
  replace e' with (e - Zpos p) by lia. clear E. revert H. generalize m, e. induction p as [|p IH] using Pos.peano_ind; intros m0 e0 [_ [H|H]]; try done.
  - split; [lia|right]. cbn in *. rewrite Pos2Z.inj_succ. lia.
  - rewrite Pos.iter_succ_r. replace (e0 - Zpos (Pos.succ p)) with (e0 - 1 - Zpos p) by lia. apply IH.
    split; [lia|right]. cbn in *. rewrite Pos2Z.inj_succ. lia.
Qed.

Lemma below_of_int k z : 0 <= k <= 900 -> Z.abs z < 2 ^ k -> below (k + 1) (d_of_int z).
Proof.
  intros Hk Hz. unfold d_of_int, binary_normalize. destruct z as [|p|p]; [done| |];
    (assert (small k (Zpos p) 0) as H by (split; [lia|right]; pose proof (digits_le (Zpos p) k); lia);
     unfold binary_round; pose proof (shl_align_small k p 0 (fexp 53 1024 (Zpos (digits2_pos p) + 0)) H) as H';
     destruct (shl_align _ _ _) as [m e]; destruct H' as [H' He]; apply below_round; [done|lia|lia]).
Qed.

(** What is less than [2 ^ 31] converts to [int]. *)
Lemma d_to_int_ok f : below 31 f -> exists n, d_to_int f = Done n /\ - 2 ^ 31 < n < 2 ^ 31.
Proof.
  destruct f as [s|s| |s m e]; try done; cbn [below d_to_int]; intros H; [by exists 0|].
  destruct (digits_spec (Zpos m)) as (Dm & _ & Mm); [lia|]. set (d := digits (Zpos m)) in *.
  assert (0 <= Z.shiftl (Zpos m) e < 2 ^ 31) as Hn.
  { split; [apply Z.shiftl_nonneg; lia|]. destruct (Z.le_gt_cases 0 e) as [He|He].
    - rewrite Z.shiftl_mul_pow2 by lia. apply (Z.lt_le_trans _ (2 ^ (d + e))); [|apply Z.pow_le_mono_r; lia].
      rewrite Z.pow_add_r by lia. apply Z.mul_lt_mono_pos_r; [|done]. apply Z.pow_pos_nonneg; lia.
    - rewrite Z.shiftl_div_pow2 by lia. apply Z.div_lt_upper_bound; [apply Z.pow_pos_nonneg; lia|].
      apply (Z.lt_le_trans _ (2 ^ (- e + 31))); [|rewrite Z.pow_add_r by lia; done].
      apply (Z.lt_le_trans _ (2 ^ d)); [done|]. apply Z.pow_le_mono_r; lia. }
  set (n := Z.shiftl _ _) in *. set (n' := if s then - n else n). assert (- 2 ^ 31 < n' < 2 ^ 31) as Hn' by (unfold n'; destruct s; lia).
  clearbody n'. destruct ((_ <=? n') && (n' <=? _)) eqn:E; [by exists n'|].
  apply andb_false_iff in E as [E|E]; apply Z.leb_gt in E; lia.
Qed.

(** Every acceleration that can be set. *)
Lemma below_accel n : is_u32 n -> below 19 (accel_value n).
Proof.
  intros Hn. unfold accel_value. cbv zeta. destruct (SFeqb _ _); [vm_compute; intuition congruence|].
  set (c1 := d_div (d_of_int 196608) (d_of_int 100)). set (c2 := d_of_int 75).
  vm_compute in c1. vm_compute in c2. subst c1 c2.
  apply (below_div 24 7); [|vm_compute; intuition congruence|lia]. apply (below_div 33 11); [|vm_compute; intuition congruence|lia].
  apply (below_of_int 32); [lia|]. unfold is_u32 in Hn. lia.
Qed.

(** Differences of positions, exactly. *)
Lemma below_diff d : -2047 <= d <= 2047 -> below 11 (d_of_int d).
Proof.
  intros Hd. assert (forallb (fun i => match d_of_int (Z.of_nat i - 2047) with
    | S754_zero _ => true | S754_finite _ m e => digits (Zpos m) + e <=? 11 | _ => false end) (seq 0 4095) = true) as H by (vm_compute; reflexivity).
  rewrite forallb_forall in H. specialize (H (Z.to_nat (d + 2047))). rewrite in_seq in H. specialize (H ltac:(lia)).
  replace (Z.of_nat (Z.to_nat (d + 2047)) - 2047) with d in H by lia.
  destruct (d_of_int d); try done. by apply Z.leb_le.
Qed.

Lemma accelerated_ok v d : below 19 v -> -2047 <= d <= 2047 -> exists n, accelerated v d = Done n /\ - 2 ^ 31 < n < 2 ^ 31.
Proof.
  intros Hv Hd. destruct (d_to_int_ok (d_mul (d_of_int d) v)) as (n & E & Hn).
  { by apply (below_mul 11 19); [apply below_diff| |lia]. }
  exists (s32 (- n)). unfold accelerated. rewrite E. split; [done|]. unfold s32. rewrite Z.mod_small; lia.
Qed.

(** As a real number. *)
Definition at_least_1 (f : double) : bool :=
  match f with
  | S754_finite false m e => 2 ^ (- e) <=? Zpos m
  | S754_infinity false => true
  | _ => false
  end.

Lemma angle_tap_ok env v p : (forall v, v <> S754_nan -> at_least_1 (max_1 env v) = true) -> below 19 v ->
  exists n, angle_tap env v p = Done n /\ - 2 ^ 31 < n < 2 ^ 31.
Proof.
  intros Hmax Hv. apply d_to_int_ok. assert (at_least_1 (max_1 env v) = true) as H by (apply Hmax; by intros ->).
  set (c := if p >=? 950 then 25 else _). assert (below 11 (d_of_int c)) as Hc by (apply below_diff; unfold c; repeat case_match; lia).
  destruct (max_1 env v) as [|[]| |[] m e]; try done; [by destruct (d_of_int c)|].
  apply (below_mono 12); [|lia]. apply (below_div 11 1); [done| |lia]. cbn [at_least_1] in H. apply Z.leb_le in H.
  destruct (digits_spec (Zpos m)) as (Dm & _ & Mm); [lia|]. destruct (Z.le_gt_cases e 0) as [He|He]; [|lia].
  assert (2 ^ (- e) < 2 ^ digits (Zpos m)) as H2 by lia. apply Z.pow_lt_mono_r_iff in H2; lia.
Qed.

(** ** The invariant *)

Record alps_wf (a : ApplePS2ALPSGlidePoint) : Prop := {
  aw_device : _device a = true;
  aw_count : 0 <= _packetByteCount a < kPacketLengthMax;
  aw_ring : aligned ringSize kPacketLengthMax (_ringBuffer a);
  aw_accel : below 19 (_edgeaccellvalue a);
  aw_xscroll : 0 <= _xscrollpos a <= 2047;
  aw_yscroll : 0 <= _yscrollpos a <= 2047;
}.
Definition operating (w : AWorld) : Prop := alps_wf (alps w).

(** Packet assembly is left alone. *)
Definition asm_state (a : ApplePS2ALPSGlidePoint) := (_ringBuffer a, _packetByteCount a).
Definition astep (w w' : AWorld) : Prop := asm_state (alps w') = asm_state (alps w) /\ (operating w -> operating w').

#[export] Instance astep_preorder : PreOrder astep.
Proof. split; [by split|]. intros w1 w2 w3 [] []. split; [congruence|auto]. Qed.

Lemma astep_operating w w' : astep w w' -> operating w -> operating w'.
Proof. intros [_ H]. exact H. Qed.

Create HintDb asafe.

Section safety.
  Context (env : AEnv).
  (** The controller keeps the commands of a request; [max(v, 1)] is at least 1. *)
  Context (Hsubmit : forall evs r, length (commands (submit env evs r)) = length (commands r)).
  Context (Hmax : forall v, v <> S754_nan -> at_least_1 (max_1 env v) = true).

Abbreviation asafe := (safe operating astep).

Lemma asafe_bind {A B} (m : M AWorld A) (f : A -> M AWorld B) Q Q' :
  asafe m Q -> (forall a, Q a -> asafe (f a) Q') -> asafe (m ≫= f) Q'.
Proof. apply safe_bind; [apply _|apply astep_operating]. Qed.
Lemma asafe_seq {A B} (m : M AWorld A) (f : A -> M AWorld B) Q' :
  asafe m (fun _ => True) -> (forall a, asafe (f a) Q') -> asafe (m ≫= f) Q'.
Proof. intros Hm Hf. eapply asafe_bind; [exact Hm|auto]. Qed.
Lemma asafe_ret {A} (a : A) (Q : A -> Prop) : Q a -> asafe (mret a) Q.
Proof. apply safe_ret, _. Qed.
Lemma asafe_skip {A} (a : A) : asafe (mret a) (fun _ => True).
Proof. by apply asafe_ret. Qed.
Lemma asafe_geta {A} (f : ApplePS2ALPSGlidePoint -> A) (Q : A -> Prop) : (forall a, alps_wf a -> Q (f a)) -> asafe (geta f) Q.
Proof. intros HQ. apply safe_gets; [apply _|]. intros w. apply HQ. Qed.
Lemma asafe_get {A} (f : ApplePS2ALPSGlidePoint -> A) : asafe (geta f) (fun _ => True).
Proof. by apply asafe_geta. Qed.
Lemma asafe_set f : (forall a, asm_state (f a) = asm_state a) -> (forall a, alps_wf a -> alps_wf (f a)) -> asafe (seta f) (fun _ => True).
Proof. intros H1 H2. apply safe_modify. intros w _. split; simpl; [apply H1|apply H2]. Qed.
Lemma asafe_emit e : asafe (aemit e) (fun _ => True).
Proof. apply safe_modify. intros w _. by split. Qed.
Lemma asafe_when b (m : M AWorld unit) : asafe m (fun _ => True) -> asafe (when b m) (fun _ => True).
Proof. apply safe_when, _. Qed.
Lemma asafe_clock : asafe (clock_get_uptime env) (fun _ => True).
Proof. intros w _. do 2 eexists. split; [reflexivity|]. split; [by split|done]. Qed.
Lemma asafe_lift {A} (o : outcome A) (Q : A -> Prop) : (exists a, o = Done a /\ Q a) -> asafe (lift o) Q.
Proof. apply safe_lift, _. Qed.

Lemma asafe_send {B} r (f : PS2Request -> M AWorld B) Q :
  (forall r', length (commands r') = length (commands r) -> asafe (f r') Q) -> asafe (submitRequestAndBlock env r ≫= f) Q.
Proof.
  intros Hf. eapply (asafe_bind _ _ (fun r' => length (commands r') = length (commands r))); [|done].
  intros w Hw. unfold submitRequestAndBlock, geta. munfold. rewrite (aw_device _ Hw). do 2 eexists.
  split; [reflexivity|]. split; [by split|apply Hsubmit].
Qed.

Lemma asafe_result r i : 0 <= i < Z.of_nat (length (commands r)) -> asafe (result r i) (fun b => is_u8 b).
Proof.
  intros Hi w _. destruct (nth_lookup_or_length (commands r) (Z.to_nat i) (cmd kPS2C_ReadDataPort 0)) as [E|E]; [|lia].
  unfold result. munfold. rewrite (aget_lookup _ _ _ (proj1 Hi) E). eexists _, w. split; [reflexivity|].
  split; [done|apply union_byte_range].
Qed.

Hint Resolve asafe_skip asafe_get asafe_emit asafe_clock : asafe.
Ltac aauto := repeat first
  [ progress (intros; cbn beta zeta)
  | solve [eauto with asafe nocore]
  | apply asafe_set; solve [intros []; try (intros []; split); simpl; auto]
  | apply asafe_when
  | apply asafe_send
  | apply asafe_seq
  | case_match ].

Lemma asafe_absolute : asafe (setAbsoluteMode env) (fun _ => True).
Proof. unfold setAbsoluteMode. aauto. Qed.
Lemma asafe_enable b : asafe (setTouchPadEnable env b) (fun _ => True).
Proof. unfold setTouchPadEnable. aauto. Qed.
Lemma asafe_status : asafe (getStatus env) (fun _ => True).
Proof.
  unfold getStatus. apply asafe_send. intros r Hr. simpl in Hr.
  do 3 (eapply asafe_bind; [apply asafe_result; lia|intros ? _]). apply asafe_skip.
Qed.
Lemma asafe_report n : asafe (getReport env n) (fun _ => True).
Proof.
  unfold getReport. apply asafe_send. intros r Hr. simpl in Hr.
  do 3 (eapply asafe_bind; [apply asafe_result; lia|intros ? _]). apply asafe_skip.
Qed.
Hint Resolve asafe_absolute asafe_enable asafe_status asafe_report : asafe.

Lemma asafe_tap b : asafe (setTapEnable env b) (fun _ => True).
Proof. unfold setTapEnable. aauto. Qed.
Lemma asafe_load config key f : (forall b a, asm_state (f b a) = asm_state a) -> (forall b a, alps_wf a -> alps_wf (f b a)) ->
  asafe (load_bit config key f) (fun _ => True).
Proof.
  intros H1 H2. unfold load_bit. case_match; [|apply asafe_skip]. apply asafe_seq; [by apply asafe_set; auto|intros _; apply asafe_emit].
Qed.
Hint Resolve asafe_tap : asafe.

Lemma asafe_params config : asafe (setParamProperties env config) (fun _ => True).
Proof.
  unfold setParamProperties. apply asafe_seq; [aauto|intros _].
  do 4 (apply asafe_seq; [apply asafe_load; [by intros b []|by intros b [] []; split]|intros _]).
  apply asafe_seq; [|intros _; apply asafe_emit]. case_match; [|apply asafe_skip]. apply asafe_seq; [|intros _; apply asafe_emit].
  apply asafe_set; [by intros []|]. intros a []. split; simpl; try done. apply below_accel, u32_range.
Qed.

(** ** Packets *)

Lemma asafe_byte p i : (6 <= length p)%nat -> 0 <= i < 6 -> asafe (packet_byte p i) (fun b => is_u8 b).
Proof.
  intros Hp Hi. unfold packet_byte. eapply (asafe_bind _ _ (fun _ => True)); [apply asafe_lift|intros b _; apply asafe_ret, u8_range].
  destruct (aget_ok p i) as (v & E & _); [lia|]. by exists v.
Qed.

Lemma absolute_x_range p1 p2 : 0 <= absolute_x p1 p2 <= 2047.
Proof.
  unfold absolute_x. pose proof (land_bound p1 0x7f). pose proof (land_bound p2 0x78).
  rewrite Z.shiftl_mul_pow2 by lia. pose proof (lor_bound (Z.land p1 0x7f) (Z.land p2 0x78 * 2 ^ (7 - 3))). lia.
Qed.
Lemma absolute_y_range p3 p4 : 0 <= absolute_y p3 p4 <= 1023.
Proof.
  unfold absolute_y. pose proof (land_bound p4 0x7f). pose proof (land_bound p3 0x70).
  rewrite Z.shiftl_mul_pow2 by lia. pose proof (lor_bound (Z.land p4 0x7f) (Z.land p3 0x70 * 2 ^ (7 - 4))). lia.
Qed.

Lemma asafe_acc v p q : below 19 v -> 0 <= p <= 2047 -> 0 <= q <= 2047 -> asafe (lift (accelerated v (s32 (p - q)))) (fun _ => True).
Proof.
  intros Hv Hp Hq. apply asafe_lift. destruct (accelerated_ok v (s32 (p - q)) Hv) as (n & E & _); [|by exists n].
  unfold s32. rewrite Z.mod_small; lia.
Qed.
Lemma asafe_tap_angle v p : below 19 v -> asafe (lift (angle_tap env v p)) (fun _ => True).
Proof. intros Hv. apply asafe_lift. destruct (angle_tap_ok env v p Hmax Hv) as (n & E & _). by exists n. Qed.
Hint Resolve asafe_acc asafe_tap_angle : asafe.

Lemma asafe_scroll x y z scroll b t : 0 <= x <= 2047 -> 0 <= y <= 2047 -> asafe (edge_scroll env x y z scroll b t) (fun _ => True).
Proof.
  intros Hx Hy. unfold edge_scroll. apply asafe_seq; [apply asafe_get|intros a]. apply asafe_seq.
  { apply asafe_when, asafe_set; [by intros []|]. intros a' []. by split. }
  intros _. eapply (asafe_bind _ _ alps_wf); [by apply asafe_geta|]. intros a' []. cbv zeta. unfold dispatchScrollWheelEventX. aauto.
Qed.

Lemma asafe_dispatch_absolute p : (6 <= length p)%nat -> asafe (dispatchAbsolutePointerEventWithPacket env p) (fun _ => True).
Proof.
  intros Hp. unfold dispatchAbsolutePointerEventWithPacket.
  do 6 (eapply asafe_bind; [apply asafe_byte; [done|lia]|intros ? _]). cbv zeta.
  pose proof (absolute_x_range a0 a1). pose proof (absolute_y_range a2 a3).
  apply asafe_seq; [apply asafe_clock|intros t]. apply asafe_seq; [apply asafe_get|intros al].
  apply asafe_seq; [unfold insideScrollArea; aauto|intros scroll]. apply asafe_seq; [aauto|intros _].
  case_match; [apply asafe_scroll; lia|]. unfold dispatchRelativePointerEventX. aauto.
Qed.

Lemma asafe_dispatch_relative p : (6 <= length p)%nat -> asafe (dispatchRelativePointerEventWithPacket env p) (fun _ => True).
Proof.
  intros Hp. unfold dispatchRelativePointerEventWithPacket, dispatchRelativePointerEventX.
  do 3 (eapply asafe_bind; [apply asafe_byte; [done|lia]|intros ? _]). aauto.
Qed.

(** One packet of the queue. *)
Definition handle_packet (p : list Z) : M AWorld unit :=
  p0 ← lift (aget p 0);
  if Z.land p0 0xf8 =? 0xf8 then dispatchAbsolutePointerEventWithPacket env p else dispatchRelativePointerEventWithPacket env p.

Lemma asafe_handle p : (6 <= length p)%nat -> asafe (handle_packet p) (fun _ => True).
Proof.
  intros Hp. apply asafe_seq.
  - apply asafe_lift. destruct (aget_ok p 0) as (v & E & _); [lia|by exists v].
  - intros p0. case_match; [by apply asafe_dispatch_absolute|by apply asafe_dispatch_relative].
Qed.

Definition with_ring (w : AWorld) (rb : RingBuffer Z) : AWorld := w <| alps := (alps w) <| _ringBuffer := rb |> |>.

Lemma alps_drain_ok n w q : operating w -> queue_of ringSize kPacketLengthMax (_ringBuffer (alps w)) q -> (length q <= n)%nat ->
  exists w', packetReady_loop env n w = Done (tt, w') /\ operating w' /\
    queue_of ringSize kPacketLengthMax (_ringBuffer (alps w')) [] /\ _packetByteCount (alps w') = _packetByteCount (alps w) /\
    m_head (_ringBuffer (alps w')) = m_head (_ringBuffer (alps w)) /\
    m_buffer (_ringBuffer (alps w')) = m_buffer (_ringBuffer (alps w)).
Proof.
  revert w q. induction n as [|n IH]; intros w [|ws q] Hw Hq Hn; try (simpl in Hn; lia); cbn [packetReady_loop];
    unfold mbind at 1, M_bind at 1, geta at 1, gets at 1.
  1, 2: unfold id; rewrite count_len, (queue_of_len _ _ _ _ Hq) by apply Hq; by exists w.
  destruct (queue_head _ _ _ _ _ Hq) as (Ec & Et & Hm & Hq'). set (p := slice _ _ _) in *. unfold id.
  rewrite Ec. unfold mbind at 1, M_bind at 1, lift at 1. rewrite Et. cbn beta iota.
  assert (6 <= length p)%nat as Hp by (destruct Hm as [Hm _]; unfold kPacketLengthMax in Hm; lia).
  destruct (asafe_handle p Hp w Hw) as ([] & w1 & E1 & [Hs1 Hw1] & _). specialize (Hw1 Hw).
  unfold handle_packet, mbind at 1, M_bind at 1, lift at 1 in E1. unfold mbind at 1, M_bind at 1, lift at 1.
  destruct (aget p 0) as [p0| |]; [|done|done]. cbn beta iota in E1 |- *. rewrite (bind_done _ _ _ _ _ E1).
  pose (w2 := with_ring w1 (advanceTail ringSize (_ringBuffer (alps w1)) kPacketLengthMax)). rewrite (bind_done _ _ w1 tt w2) by done.
  injection Hs1 as Hr1 Hc1.
  destruct (IH w2 q) as (w' & E & Hw' & Hq2 & Hc2 & Hh2 & Hb2).
  - destruct Hw1. split; simpl; try done. rewrite Hr1. apply Hq'.
  - simpl. by rewrite Hr1.
  - simpl in Hn. lia.
  - exists w'. rewrite Hc2, Hh2, Hb2. simpl. by rewrite Hr1, Hc1.
Qed.
End safety.

(** ** Packet assembly *)

(** A packet of three bytes, of six bytes. *)
Definition small_start (data : Z) : bool := Z.land data 0xc8 =? 0x08.
Definition large_start (data : Z) : bool := Z.land data 0xf8 =? 0xf8.

Definition complete (bytes : list Z) : bool :=
  bool_decide (length bytes = 6%nat) || (bool_decide (length bytes = 3%nat) && match bytes with b :: _ => small_start b | [] => false end).

(** One byte from the touchpad: the bytes of the packet so far, and what is
    queued. *)
Definition assemble_byte (bytes : list Z) (data : Z) : list Z * option (list Z) :=
  if bool_decide (bytes = []) && negb (small_start data || large_start data) then ([], None)
  else if negb (bool_decide (bytes = [])) && (data =? 0x80) then ([], None)
  else
    let bytes := bytes ++ [data] in
    if complete bytes then ([], Some bytes) else (bytes, None).

(** The driver's state represents the bytes so far and the queue. *)
Record assembles (a : ApplePS2ALPSGlidePoint) (bytes : list Z) (q : list (list Z)) : Prop := {
  as_count : _packetByteCount a = Z.of_nat (length bytes);
  as_bytes : exists b0, head_block kPacketLengthMax (_ringBuffer a) = written (indexed bytes) b0;
  as_queue : queue_of ringSize kPacketLengthMax (_ringBuffer a) (indexed <$> q);
}.

Lemma written_first x l (b : list Z) : (0 < length b)%nat -> written (indexed (x :: l)) b !! 0%nat = Some x.
Proof.
  intros Hb. induction l as [|y l IH] using rev_ind.
  - change [x] with ([] ++ [x]). rewrite written_snoc. by apply list_lookup_insert_eq.
  - change (x :: l ++ [y]) with ((x :: l) ++ [y]). rewrite written_snoc. by rewrite list_lookup_insert_ne.
Qed.

(** [packet[0]], once written. *)
Lemma head_get_first (rb : RingBuffer Z) x l b0 : aligned ringSize kPacketLengthMax rb ->
  head_block kPacketLengthMax rb = written (indexed (x :: l)) b0 -> head_get rb 0 = Done x.
Proof.
  intros Ha Hb. pose proof (length_head_block _ _ _ Ha) as Hl. rewrite Hb, written_length in Hl. unfold kPacketLengthMax in Hl.
  assert (written (indexed (x :: l)) b0 !! 0%nat = Some x) as H by (apply written_first; lia).
  rewrite <- Hb in H. unfold head_block, slice in H. rewrite lookup_take_lt, lookup_drop in H by (unfold kPacketLengthMax; lia).
  unfold head_get. destruct (al_wf _ _ _ Ha). apply aget_lookup; [lia|]. replace (Z.to_nat (m_head rb + 0)) with (Z.to_nat (m_head rb) + 0)%nat by lia.
  done.
Qed.

Lemma alps_asm a rb n : alps_wf a -> aligned ringSize kPacketLengthMax rb -> 0 <= n < kPacketLengthMax ->
  alps_wf (a <| _ringBuffer := rb |> <| _packetByteCount := n |>).
Proof. intros [] Hr Hn. by split. Qed.

Lemma alps_byte_ok w bytes q data : operating w -> assembles (alps w) bytes q ->
  let '(bytes', p) := assemble_byte bytes data in
  exists w', interruptOccurred data w = Done (ready_if p, w') /\ operating w' /\ assembles (alps w') bytes' (enqueued q p).
Proof.
  intros Hw [Hc [b0 Hb] Hq]. unfold assemble_byte, interruptOccurred, geta, seta. munfold. unfold id.
  assert ((0 =? _packetByteCount (alps w)) = bool_decide (bytes = [])) as ->.
  { rewrite Hc. destruct bytes; [done|]. by rewrite bool_decide_eq_false_2. }
  assert ((_packetByteCount (alps w) >=? 1) = negb (bool_decide (bytes = []))) as ->.
  { rewrite Hc. destruct bytes; [done|]. rewrite bool_decide_eq_false_2 by done. simpl length. apply Z.geb_le. lia. }
  unfold small_start at 1, large_start. rewrite negb_orb, andb_assoc.
  destruct (bool_decide (bytes = []) && _ && _) eqn:E0.
  { rewrite <- andb_assoc in E0. apply andb_true_iff in E0 as [->%bool_decide_eq_true _]. exists w. split; [done|]. split; [done|]. split; [done|by eexists|done]. }
  destruct (negb _ && _) eqn:E1.
  { eexists. split; [reflexivity|]. split; [|split; simpl; [done|by eexists|done]]. destruct Hw. by split. }
  pose proof (aw_count _ Hw) as Hlt. unfold kPacketLengthMax in Hlt.
  destruct (queue_head_set _ _ _ _ (_packetByteCount (alps w)) data Hq) as (rb & E & Hq1 & Hb1); [done|]. rewrite E. cbn beta iota.
  set (bytes' := bytes ++ [data]).
  assert (length bytes' = S (length bytes)) as Hlen by (unfold bytes'; rewrite length_app; simpl; lia).
  assert (u32 (_packetByteCount (alps w) + 1) = Z.of_nat (length bytes')) as ->.
  { unfold u32. rewrite Z.mod_small; lia. }
  assert (head_block kPacketLengthMax rb = written (indexed bytes') b0) as Hb2.
  { unfold bytes'. rewrite written_snoc, <- Hb, Hb1, Hc. by rewrite Nat2Z.id. }
  destruct bytes' as [|x l] eqn:Eb; [done|]. rewrite (head_get_first rb x l b0) by (apply Hq1 || done). cbn beta iota.
  assert ((kPacketLengthLarge =? Z.of_nat (length (x :: l))) || ((kPacketLengthSmall =? Z.of_nat (length (x :: l))) && (Z.land x 0xc8 =? 0x08)) = complete (x :: l)) as ->.
  { unfold complete, kPacketLengthLarge, kPacketLengthSmall, small_start. f_equal; [|f_equal]; apply eq_bool_prop_intro;
      rewrite bool_decide_spec; unfold Is_true; case_match; lia. }
  destruct (complete (x :: l)) eqn:Ef.
  - eexists. split; [reflexivity|]. assert (queue_of ringSize kPacketLengthMax (advanceHead ringSize rb kPacketLengthMax) (indexed <$> Fifo.push 31 q (x :: l))) as Hq2.
    { rewrite <- push_indexed. apply (queue_advance ringSize kPacketLengthMax); [done|eauto]. }
    split; [destruct (alps_asm (alps w) _ 0 Hw (proj1 Hq2)); [by compute|by split]|]. split; simpl; [done|by eexists|done].
  - eexists. split; [reflexivity|]. assert (length (x :: l) <> 6%nat) as Hne.
    { intros H6. unfold complete in Ef. by rewrite bool_decide_eq_true_2 in Ef. }
    split; [destruct (alps_asm (alps w) _ (Z.of_nat (length (x :: l))) Hw (proj1 Hq1)); [unfold kPacketLengthMax; lia|by split]|]. split; [done|by exists b0|done].
Qed.

(** ** Bytes, drains, settings and power changes in any order *)

Inductive AInput :=
| AByte (data : Z)
| ADrain
| AParams (config : OSDict)
| APower (whatToDo : Z).

Fixpoint run_ainputs (env : AEnv) (ins : list AInput) : M AWorld (list PS2InterruptResult) :=
  match ins with
  | [] => mret []
  | AByte data :: ins => r ← interruptOccurred data; rs ← run_ainputs env ins; mret (r :: rs)
  | ADrain :: ins => packetReady env;; run_ainputs env ins
  | AParams config :: ins => setParamProperties env config;; run_ainputs env ins
  | APower n :: ins => setDevicePowerState env n;; run_ainputs env ins
  end.

Fixpoint assemble_inputs (ins : list AInput) (bytes : list Z) (q : list (list Z)) : list Z * list (list Z) * list PS2InterruptResult :=
  match ins with
  | [] => (bytes, q, [])
  | AByte data :: ins =>
      let '(bytes', p) := assemble_byte bytes data in
      let '(b2, q2, rs) := assemble_inputs ins bytes' (enqueued q p) in
      (b2, q2, ready_if p :: rs)
  | ADrain :: ins => assemble_inputs ins bytes []
  | AParams _ :: ins => assemble_inputs ins bytes q
  | APower n :: ins => if n =? kPS2C_EnableDevice then assemble_inputs ins [] [] else assemble_inputs ins bytes q
  end.

Section session.
  Context (env : AEnv).
  Context (Hsubmit : forall evs r, length (commands (submit env evs r)) = length (commands r)).
  Context (Hmax : forall v, v <> S754_nan -> at_least_1 (max_1 env v) = true).

Lemma alps_drained w bytes q : operating w -> assembles (alps w) bytes q ->
  exists w', packetReady env w = Done (tt, w') /\ operating w' /\ assembles (alps w') bytes [].
Proof.
  intros Hw [Hc [b0 Hb] Hq]. pose proof (queue_of_len _ _ _ _ Hq) as Hl. destruct (aligned_len _ _ _ (proj1 Hq)) as (_ & Hbd & _).
  destruct (alps_drain_ok env Hmax 32 w _ Hw Hq) as (w' & E & Hw' & Hq' & Hc' & Hh & Hb'); [unfold ringSize, kPacketLengthMax in *; lia|].
  exists w'. split; [exact E|]. split; [done|]. split; [congruence| |done]. exists b0. rewrite <- Hb. unfold head_block. by rewrite Hh, Hb'.
Qed.

(** A routine that leaves packet assembly alone. *)
Lemma asafe_assembles {A} (m : M AWorld A) Q w bytes q : safe operating astep m Q -> operating w -> assembles (alps w) bytes q ->
  exists a w', m w = Done (a, w') /\ operating w' /\ assembles (alps w') bytes q.
Proof.
  intros Hm Hw [Hc Hb Hq]. destruct (Hm w Hw) as (a & w' & E & [Hs Hi] & _). injection Hs as Hr Hn. exists a, w'.
  split; [done|]. split; [auto|]. split; rewrite ?Hr, ?Hn; done.
Qed.

Lemma alps_power_ok w bytes q n : operating w -> assembles (alps w) bytes q ->
  exists w', setDevicePowerState env n w = Done (tt, w') /\ operating w' /\
    (if n =? kPS2C_EnableDevice then assembles (alps w') [] [] else assembles (alps w') bytes q).
Proof.
  intros Hw Ha. unfold setDevicePowerState. destruct (Z.eqb_spec n kPS2C_DisableDevice) as [->|_].
  { destruct (asafe_assembles _ _ w bytes q (asafe_enable env Hsubmit false) Hw Ha) as ([] & w' & E & H). by exists w'. }
  destruct (n =? kPS2C_EnableDevice); [|by exists w].
  unfold mbind at 1, M_bind at 1, geta at 1, gets at 1.
  destruct (asafe_assembles _ _ w bytes q (asafe_tap env Hsubmit (negb (_touchPadModeByte (id (alps w)) =? 0))) Hw Ha) as ([] & w1 & E1 & Hw1 & Ha1).
  rewrite (bind_done _ _ _ _ _ E1). destruct (asafe_assembles _ _ w1 bytes q (asafe_absolute env Hsubmit) Hw1 Ha1) as ([] & w2 & E2 & Hw2 & Ha2).
  rewrite (bind_done _ _ _ _ _ E2).
  pose (w3 := w2 <| alps := (alps w2) <| _ringBuffer := reset (_ringBuffer (alps w2)) |> <| _packetByteCount := 0 |> |>).
  rewrite (bind_done _ _ w2 tt w3) by done.
  assert (aligned ringSize kPacketLengthMax (reset (_ringBuffer (alps w2)))) as Hal.
  { destruct (aw_ring _ Hw2). split; [by apply reset_wf|done|done|apply Z.divide_0_r|apply Z.divide_0_r]. }
  assert (operating w3) as Hw3 by (destruct Hw2; by split).
  assert (assembles (alps w3) [] []) as Ha3.
  { split; [done|by eexists|]. split; [done|]. by exists []. }
  destruct (asafe_assembles _ _ w3 [] [] (asafe_enable env Hsubmit true) Hw3 Ha3) as ([] & w' & E & H). by exists w'.
Qed.

Lemma alps_inputs_ok ins w bytes q :
  operating w -> assembles (alps w) bytes q ->
  let '(bytes', q', rs) := assemble_inputs ins bytes q in
  exists w', run_ainputs env ins w = Done (rs, w') /\ operating w' /\ assembles (alps w') bytes' q'.
Proof.
  revert w bytes q. induction ins as [|[data| |config|n] ins IH]; intros w bytes q Hw Ha; cbn [assemble_inputs run_ainputs].
  - by exists w.
  - pose proof (alps_byte_ok w bytes q data Hw Ha) as H. destruct (assemble_byte bytes data) as [b1 p].
    destruct H as (w1 & E1 & Hw1 & Ha1). specialize (IH w1 b1 _ Hw1 Ha1). destruct (assemble_inputs ins b1 _) as [[b2 q2] rs].
    destruct IH as (w2 & E2 & IH). exists w2. split; [|done]. by rewrite (bind_done _ _ _ _ _ E1), (bind_done _ _ _ _ _ E2).
  - destruct (alps_drained w bytes q Hw Ha) as (w1 & E1 & Hw1 & Ha1). rewrite (bind_done _ _ _ _ _ E1). by apply IH.
  - destruct (asafe_assembles _ _ w bytes q (asafe_params env Hsubmit config) Hw Ha) as ([] & w1 & E1 & Hw1 & Ha1).
    rewrite (bind_done _ _ _ _ _ E1). by apply IH.
  - destruct (alps_power_ok w bytes q n Hw Ha) as (w1 & E1 & Hw1 & Ha1). rewrite (bind_done _ _ _ _ _ E1).
    destruct (n =? kPS2C_EnableDevice); by apply IH.
Qed.

(** C13: Whatever bytes an ALPS touchpad sends and however draining, changes of
    settings (with any acceleration) and changes of power interleave with them,
    nothing is undefined: no index out of the ring, no conversion of a product
    or quotient of floating point numbers that [int] cannot hold.  The interrupt
    routine returns what the abstract assembler returns and the ring buffer holds
    its queue, packets of three or six bytes by their first byte, none torn. *)
Theorem alps_session ins w bytes q :
  operating w -> assembles (alps w) bytes q ->
  let '(bytes', q', rs) := assemble_inputs ins bytes q in
  exists w', run_ainputs env ins w = Done (rs, w') /\ operating w' /\ assembles (alps w') bytes' q'.
Proof. by apply alps_inputs_ok. Qed.

(** ** From init to stop *)

Definition fresh : AWorld := mkAWorld init 0 [].
Definition attached (w : AWorld) : AWorld := w <| alps := (alps w) <| _device := true |> |>.

Lemma attached_operating : operating (attached fresh).
Proof.
  split; try done; try (simpl; unfold kPacketLengthMax; lia). simpl.
  split; [split; vm_compute; intuition congruence|unfold ringSize, kPacketLengthMax; lia| | |]; apply Z.mod_divide; done.
Qed.
Lemma attached_assembles : assembles (alps (attached fresh)) [] [].
Proof. split; [done|by eexists|]. split; [apply attached_operating|]. by exists []. Qed.

(** Everything of a driver without a device, but the device. *)
Definition detached (w : AWorld) : Prop := operating (attached w) /\ assembles (alps (attached w)) [] [] /\ _device (alps w) = false.

Lemma alps_probe_ok w config : detached w -> exists b w', probe env config w = Done (b, w') /\ detached w'.
Proof.
  intros Hd. unfold probe. case_match; [by exists false, w|]. pose proof Hd as (Hw & Ha & _).
  rewrite (bind_done _ _ w tt (attached w)) by done.
  assert (safe operating astep (getModel env) (fun _ => True)) as Hm.
  { unfold getModel. do 2 (apply asafe_seq; [by apply asafe_report|intros ?]). apply asafe_skip. }
  destruct (asafe_assembles _ _ _ _ _ Hm Hw Ha) as ([e6 e7] & w1 & E1 & [] & []). rewrite (bind_done _ _ _ _ _ E1).
  do 2 eexists. split; [reflexivity|]. split; [by split|]. split; [by split|done].
Qed.

Lemma alps_start_ok w : detached w -> exists w', start env w = Done (true, w') /\ operating w' /\ assembles (alps w') [] [].
Proof.
  intros (Hw & Ha & _). unfold start. rewrite (bind_done _ _ w tt (attached w)) by done.
  match goal with |- exists w', ?m (attached w) = _ /\ _ => assert (safe operating astep m (fun b => b = true)) as Hm end.
  { do 4 (apply asafe_seq; [apply asafe_emit|intros _]).
    apply asafe_seq; [by apply asafe_tap|intros _]. apply asafe_seq; [by apply asafe_absolute|intros _]. apply asafe_seq; [by apply asafe_enable|intros _].
    do 2 (apply asafe_seq; [apply asafe_emit|intros _]; apply asafe_seq; [apply asafe_set; [by intros []|by intros a []; split]|intros _]).
    by apply asafe_ret. }
  destruct (asafe_assembles _ _ _ _ _ Hm Hw Ha) as (b & w1 & E1 & Hw1 & Ha1).
  destruct (Hm _ Hw) as (b' & w2 & E2 & _ & ->). rewrite E2 in E1. injection E1 as <- <-. by exists w2.
Qed.

Lemma alps_stop_ok w : operating w -> exists w', stop env w = Done (tt, w') /\ _device (alps w') = false /\
  _interruptHandlerInstalled (alps w') = false /\ _powerControlHandlerInstalled (alps w') = false.
Proof.
  intros Hw. unfold stop. destruct (asafe_enable env Hsubmit false w Hw) as ([] & w1 & E1 & _). rewrite (bind_done _ _ _ _ _ E1).
  unfold geta, seta, aemit, when. munfold. unfold id.
  destruct (_interruptHandlerInstalled (alps w1)), (_powerControlHandlerInstalled (alps w1)); munfold; eexists; split; try reflexivity; done.
Qed.

(** The life of a driver: matched against the hardware, started, in use, stopped. *)
Definition alps_life (config : option OSDict) (ins : list AInput) : M AWorld (option (list PS2InterruptResult)) :=
  matched ← probe env config;
  if matched : bool then start env;; rs ← run_ainputs env ins; stop env;; mret (Some rs) else mret None.

(** C8: From initialisation through identification, start, any interleaving of
    bytes, drains, settings and power changes, to stop, an ALPS driver never
    follows a null pointer, leaves its ring buffer or converts a floating point
    number that [int] cannot hold, whatever the touchpad answers; the bytes have
    the results of the abstract assembler, and at the end no action stays installed
    with the device. *)
Theorem alps_safe config ins :
  exists matched w', alps_life config ins fresh = Done (matched, w') /\ _device (alps w') = false /\
    match matched with
    | Some rs => rs = (assemble_inputs ins [] []).2 /\
        _interruptHandlerInstalled (alps w') = false /\ _powerControlHandlerInstalled (alps w') = false
    | None => True
    end.
Proof.
  destruct (alps_probe_ok fresh config) as (b & w1 & E1 & Hd).
  { split; [apply attached_operating|]. split; [apply attached_assembles|done]. }
  unfold alps_life. rewrite (bind_done _ _ _ _ _ E1). destruct b; [|exists None, w1; split; [done|split; [apply Hd|done]]].
  destruct (alps_start_ok w1 Hd) as (w2 & E2 & Hw2 & Ha2). rewrite (bind_done _ _ _ _ _ E2).
  pose proof (alps_inputs_ok ins w2 [] [] Hw2 Ha2) as H. destruct (assemble_inputs ins [] []) as [[b q] rs].
  destruct H as (w3 & E3 & Hw3 & _). rewrite (bind_done _ _ _ _ _ E3). destruct (alps_stop_ok w3 Hw3) as (w4 & E4 & H4 & H5).
  rewrite (bind_done _ _ _ _ _ E4). by exists (Some rs), w4.
Qed.
End session.

(** ** A concrete touchpad *)

(** It answers the E7 report 33 02 0A. *)
Definition glidepoint : AEnv := {|
  uptime := fun n => 1000000 * Z.of_nat n;
  submit := fun _ r => r <| commands := <[6%nat := cmd kPS2C_ReadDataPort 0x33]> (<[7%nat := cmd kPS2C_ReadDataPort 0x02]>
    (<[8%nat := cmd kPS2C_ReadDataPort 0x0A]> (commands r))) |>;
  max_1 := fun v => if at_least_1 v then v else d_of_int 1;
  hid := {| kIOHIDScrollResolutionKey := "HIDScrollResolution"; kIOHIDScrollAccelerationTypeKey := "HIDScrollAccelerationType";
            kIOHIDPointerAccelerationTypeKey := "HIDPointerAccelerationType";
            kIOHIDMouseAccelerationType := "HIDMouseAcceleration"; kIOHIDTrackpadAccelerationType := "HIDTrackpadAcceleration";
            kIOHIDTrackpadScrollAccelerationKey := "HIDTrackpadScrollAcceleration" |};
|}.

Lemma glidepoint_submit evs r : length (commands (submit glidepoint evs r)) = length (commands r).
Proof. simpl. by rewrite !length_insert. Qed.
Lemma glidepoint_max v : v <> S754_nan -> at_least_1 (max_1 glidepoint v) = true.
Proof. intros _. simpl. by destruct (at_least_1 v) eqn:E. Qed.

(** A packet of three bytes, one of six that is drained, one that 80 breaks off. *)
Definition glidepoint_inputs : list AInput :=
  map AByte [0x08; 0x05; 0x03] ++ [AParams [("TrackpadScroll", OSNumber 1); ("HIDTrackpadScrollAcceleration", OSNumber 4294967295)]] ++
  map AByte [0xF8; 0x7F; 0x78; 0x10; 0x00; 0x20] ++ [ADrain] ++ map AByte [0x08; 0x80; 0x08].

Lemma alps_session_witness : exists w',
  run_ainputs glidepoint glidepoint_inputs (attached fresh) = Done ((assemble_inputs glidepoint_inputs [] []).2, w') /\
  assembles (alps w') [0x08] [].
Proof.
  pose proof (alps_session glidepoint glidepoint_submit glidepoint_max glidepoint_inputs (attached fresh) [] [] attached_operating attached_assembles) as H.
  destruct H as (w' & E & _ & Ha). exists w'. split; [exact E|exact Ha].
Defined.

Lemma alps_safe_witness : exists w',
  alps_life glidepoint None (map AByte [0x08; 0x05; 0x03]) fresh =
    Done (Some [kPS2IR_packetBuffering; kPS2IR_packetBuffering; kPS2IR_packetReady], w') /\ _device (alps w') = false.
Proof.
  destruct (alps_safe glidepoint glidepoint_submit glidepoint_max None (map AByte [0x08; 0x05; 0x03])) as (m & w' & E & Hd & Hm).
  exists w'. split; [|exact Hd]. destruct m as [rs|]; [destruct Hm as [-> _]; exact E|]. exfalso.
  assert (match alps_life glidepoint None (map AByte [0x08; 0x05; 0x03]) fresh with Done (Some _, _) => true | _ => false end = true) as H
    by (vm_compute; reflexivity).
  rewrite E in H. discriminate.
Defined.

(** ** Decoding *)

(** The packet for a finger at [x], [y] with pressure [z]. *)
Definition encode_absolute (x y z buttons : Z) : list Z :=
  [0xF8; x mod 128; 8 * (x / 128); 16 * (y / 128) + buttons; y mod 128; z].

Lemma absolute_x_ok x : 0 <= x <= 2047 -> absolute_x (u8 (x mod 128)) (u8 (8 * (x / 128))) = x.
Proof.
  intros Hx. unfold absolute_x, u8. rewrite !(Z.mod_small _ 256) by (Z.to_euclidean_division_equations; lia).
  change 0x7f with (Z.ones 7). rewrite Z.land_ones by lia. rewrite Z.mod_mod by lia.
  assert (Z.land (8 * (x / 128)) 0x78 = 8 * (x / 128)) as ->.
  { assert (0 <= x / 128 <= 15) as Hd by (Z.to_euclidean_division_equations; lia). revert Hd. generalize (x / 128). intros n Hn.
    assert (n ∈ seqZ 0 16) as Hin by (apply elem_of_seqZ; lia). clear Hn. vm_compute in Hin. set_unfold. by destruct_or! Hin; subst. }
  rewrite Z.shiftl_mul_pow2 by lia. replace (8 * (x / 128) * 2 ^ (7 - 3)) with (x / 128 * 2 ^ 7) by lia.
  rewrite lor_high by (try apply Z.mod_pos_bound; lia). Z.to_euclidean_division_equations. lia.
Qed.

Lemma seqZ_forall (P : Z -> bool) n : forallb P (seqZ 0 n) = true -> forall i, 0 <= i < n -> P i = true.
Proof. rewrite forallb_forall. intros H i Hi. apply H, list_elem_of_In, elem_of_seqZ. lia. Qed.

Lemma absolute_y_ok y b : 0 <= y <= 1023 -> 0 <= b < 8 -> absolute_y (u8 (16 * (y / 128) + b)) (u8 (y mod 128)) = y.
Proof.
  intros Hy Hb. unfold absolute_y, u8. rewrite !(Z.mod_small _ 256) by (Z.to_euclidean_division_equations; lia).
  change 0x7f with (Z.ones 7). rewrite Z.land_ones by lia. rewrite Z.mod_mod by lia.
  assert (Z.land (16 * (y / 128) + b) 0x70 = 16 * (y / 128)) as ->.
  { assert (0 <= y / 128 < 8) as Hd by (Z.to_euclidean_division_equations; lia). revert Hd. generalize (y / 128). intros n Hn.
    apply Z.eqb_eq. apply (seqZ_forall (fun b => Z.land (16 * n + b) 0x70 =? 16 * n) 8); [|done].
    apply (seqZ_forall (fun n => forallb (fun b => Z.land (16 * n + b) 0x70 =? 16 * n) (seqZ 0 8)) 8); [vm_compute; reflexivity|done]. }
  rewrite Z.shiftl_mul_pow2 by lia. replace (16 * (y / 128) * 2 ^ (7 - 4)) with (y / 128 * 2 ^ 7) by lia.
  rewrite lor_high by (try apply Z.mod_pos_bound; lia). Z.to_euclidean_division_equations. lia.
Qed.

Lemma absolute_buttons_ok x y b : 0 <= x <= 2047 -> 0 <= y <= 1023 -> 0 <= b < 8 ->
  absolute_buttons 0xF8 (u8 (8 * (x / 128))) (u8 (16 * (y / 128) + b)) = b.
Proof.
  intros Hx Hy Hb. assert (0 <= x / 128 < 16 /\ 0 <= y / 128 < 8) as [H1 H2] by (Z.to_euclidean_division_equations; lia).
  revert H1 H2. generalize (x / 128), (y / 128). intros n k Hn Hk. apply Z.eqb_eq.
  pose (P n k b := absolute_buttons 0xF8 (u8 (8 * n)) (u8 (16 * k + b)) =? b).
  apply (seqZ_forall (P n k) 8); [|done]. apply (seqZ_forall (fun k => forallb (P n k) (seqZ 0 8)) 8); [|done].
  apply (seqZ_forall (fun n => forallb (fun k => forallb (P n k) (seqZ 0 8)) (seqZ 0 8)) 16); [vm_compute; reflexivity|done].
Qed.

(** Motion is relative to the last position of the same touch. *)
Definition motion (a : ApplePS2ALPSGlidePoint) (z p0 p : Z) : Z := if (z =? 0) || (_zpos a >=? 1) then 0 else p - p0.

(** C16: Outside the scroll areas the packet for a finger at [x], [y] with its
    buttons produces exactly one pointer event: the distance from the last
    position while the finger stays on the pad, and no motion when it is lifted
    or put down again, with the buttons of the packet. *)
Theorem alps_motion env w x y z buttons :
  0 <= x <= 900 -> 0 <= y <= 650 -> is_u8 z -> 0 <= buttons < 8 -> 0 <= _xpos (alps w) <= 2047 -> 0 <= _ypos (alps w) <= 2047 ->
  dispatchAbsolutePointerEventWithPacket env (encode_absolute x y z buttons) w =
    Done (tt, w <| alps := (alps w) <| _scrolling := SCROLL_NONE |> <| _xpos := x |> <| _ypos := y |>
                                    <| _zpos := if z =? 0 then s32 (_zpos (alps w) + 1) else 0 |> |>
                <| ticks := S (ticks w) |>
                <| aevs := aevs w ++ [APointer (motion (alps w) z (_xpos (alps w)) x) (motion (alps w) z (_ypos (alps w)) y) buttons
                                       (u64 (uptime env (ticks w)))] |>).
Proof.
  intros Hx Hy Hz Hb Hxp Hyp. unfold dispatchAbsolutePointerEventWithPacket, encode_absolute. set (p := [_; _; _; _; _; _]).
  rewrite (bind_done _ _ w (u8 0xF8) w), (bind_done _ _ w (u8 (x mod 128)) w), (bind_done _ _ w (u8 (8 * (x / 128))) w),
    (bind_done _ _ w (u8 (16 * (y / 128) + buttons)) w), (bind_done _ _ w (u8 (y mod 128)) w), (bind_done _ _ w (u8 z) w) by done.
  clear p. cbv zeta. change (u8 0xF8) with 0xF8. rewrite absolute_x_ok, absolute_y_ok, absolute_buttons_ok by lia.
  replace (u8 z) with z by (unfold u8; rewrite Z.mod_small; done).
  unfold insideScrollArea, dispatchRelativePointerEventX, clock_get_uptime, geta, seta, aemit, when, motion. munfold. unfold id.
  assert ((x >? 900) = false) as -> by (rewrite Z.gtb_ltb; apply Z.ltb_ge; lia).
  assert ((y >? 650) = false) as -> by (rewrite Z.gtb_ltb; apply Z.ltb_ge; lia). cbn.
  destruct w as [[] t evs]. cbn in *. rewrite andb_true_r.
  assert (forall p q, 0 <= p <= 2047 -> 0 <= q <= 2047 -> s32 (p - q) = p - q) as Es by (intros; unfold s32; rewrite Z.mod_small; lia).
  destruct (z =? 0); cbn; [|rewrite andb_true_r; destruct (_ >=? 1)]; cbv -[s32 Z.sub Z.add u64 app uptime];
    rewrite !Es by lia; rewrite ?Z.sub_diag; reflexivity.
Qed.

Lemma alps_motion_witness :
  dispatchAbsolutePointerEventWithPacket glidepoint (encode_absolute 300 200 40 2) (attached fresh) =
    Done (tt, mkAWorld ((alps (attached fresh)) <| _xpos := 300 |> <| _ypos := 200 |>) 1 [APointer 300 200 2 0]).
Proof.
  etransitivity; [apply (alps_motion glidepoint (attached fresh) 300 200 40 2)|vm_compute; reflexivity]; simpl; unfold is_u8; lia.
Defined.
