(* ===== verification/Sentelic.v ===== *)
(** * Sentelic: ApplePS2SentelicFSP

    The driver for Sentelic finger sensing pads,
    src/VoodooPS2Trackpad/VoodooPS2SentelicFSP.cpp/.h: the pad's registers, read
    and written through sample rate commands, packets of three or four bytes,
    settings and life cycle.  IOKit hands out zeroed memory for the members
    [init] does not set. *)

From S2P Require Import Prelude RingBuffer PS2Defs Controller Config Pointing.
From Stdlib Require String.

#[local] Open Scope string_scope.
#[local] Open Scope list_scope.
#[local] Open Scope Z_scope.

(** ** State *)

Definition kModeByteValueGesturesEnabled : Z := 0x00.
Definition kModeByteValueGesturesDisabled : Z := 0x04.
Definition kPacketLengthMax : Z := 4.
Definition ringSize : Z := kPacketLengthMax * 32.

Definition FSP_REG_DEVICE_ID : Z := 0x00.
Definition FSP_REG_VERSION : Z := 0x01.
Definition FSP_REG_REVISION : Z := 0x04.
Definition FSP_REG_OPC_QDOWN : Z := 0x31.
Definition FSP_REG_SYSCTL1 : Z := 0x10.
Definition FSP_DEVICE_MAGIC : Z := 0x01.
Definition FSP_BIT_EN_REG_CLK : Z := 0x20.
Definition FSP_BIT_EN_OPC_TAG : Z := 0x80.
Definition FSP_PKT_TYPE_NORMAL_OPC : Z := 0x03.
Definition FSP_PKT_TYPE_SHIFT : Z := 6.

Record ApplePS2SentelicFSP := mkFSP {
  _device : bool;
  _interruptHandlerInstalled : bool;
  _powerControlHandlerInstalled : bool;
  _ringBuffer : RingBuffer Z;
  _packetByteCount : Z;
  _packetSize : Z;
  _resolution : Z;
  _touchPadVersion : Z;
  _touchPadModeByte : Z;
}.
#[export] Instance ApplePS2SentelicFSP_eta : Settable ApplePS2SentelicFSP := mkSettable _ (fun r =>
  mkFSP (_device r) (_interruptHandlerInstalled r) (_powerControlHandlerInstalled r) (_ringBuffer r) (_packetByteCount r) (_packetSize r)
    (_resolution r) (_touchPadVersion r) (_touchPadModeByte r)).

Inductive FEvent :=
| FPointer (dx dy buttons time : Z)           (* dispatchRelativePointerEvent *)
| FScroll (d1 d2 d3 time : Z)                 (* dispatchScrollWheelEvent *)
| FSubmitBlock (r : PS2Request)
| FSetProperty (key : string) (v : OSObject)
| FSuperSetParamProperties (config : OSDict)  (* super::setParamProperties *)
| FSleep (ms : Z)
| FInstallInterruptAction
| FInstallPowerControlAction
| FUninstallInterruptAction
| FUninstallPowerControlAction.

Record FEnv := {
  uptime : nat -> Z;
  submit : list FEvent -> PS2Request -> PS2Request;   (* the request after the controller executed it *)
  stack : list PS2Command;                            (* what an uninitialised [TPS2Request<>] holds *)
  hid : HIDConstants;
}.

Record FWorld := mkFWorld { fsp : ApplePS2SentelicFSP; ticks : nat; fevs : list FEvent }.
#[export] Instance FWorld_eta : Settable FWorld := mkSettable _ (fun w => mkFWorld (fsp w) (ticks w) (fevs w)).

Section sentelic.
  Context (env : FEnv).
  Notation "'prog' A" := (M FWorld A) (at level 10, A at next level).

Definition femit (e : FEvent) : prog unit := modify (fun w => w <| fevs := fevs w ++ [e] |>).
Definition getf {A} (f : ApplePS2SentelicFSP -> A) : prog A := gets (fun w => f (fsp w)).
Definition setf (f : ApplePS2SentelicFSP -> ApplePS2SentelicFSP) : prog unit := modify (fun w => w <| fsp := f (fsp w) |>).

Definition clock_get_uptime : prog Z :=
  fun w => Done (u64 (uptime env (ticks w)), w <| ticks := S (ticks w) |>).
Definition dispatchRelativePointerEventX (dx dy buttons now : Z) : prog unit := femit (FPointer dx dy buttons now).
Definition dispatchScrollWheelEventX (d1 d2 d3 now : Z) : prog unit := femit (FScroll (s16 d1) (s16 d2) (s16 d3) now).
Definition setProperty (key : string) (v : OSObject) : prog unit := femit (FSetProperty key v).

(** [device->submitRequestAndBlock(request)] *)
Definition submitRequestAndBlock (device : bool) (r : PS2Request) : prog PS2Request :=
  if device then evs ← gets fevs; femit (FSubmitBlock r);; mret (submit env evs r) else undef.
Definition result (r : PS2Request) (i : Z) : prog Z := c ← lift (aget (commands r) i); mret (inOrOut c).

(** The first commands of a request that is used again and again. *)
Definition fill (cs : list PS2Command) (r : PS2Request) : prog PS2Request :=
  if (length cs <=? length (commands r))%nat
  then mret (r <| commands := cs ++ drop (length cs) (commands r) |> <| commandsCount := Z.of_nat (length cs) |>)
  else undef.
Definition stackRequest : PS2Request := mkRequest 0 kStackCompletionTarget None 0 (stack env).

(** ** Registers of the pad *)

Definition fsp_ps2_command (device : bool) (request : PS2Request) (cmd : Z) : prog (Z * PS2Request) :=
  r ← fill (to_mouse cmd ++ [read_byte]) request;
  r ← submitRequestAndBlock device r;
  if commandsCount r =? 3 then b ← result r 2; mret (b, r) else mret (-1, r).

(** The commands for their effect only, one after the other. *)
Fixpoint fsp_ps2_commands (device : bool) (request : PS2Request) (cmds : list Z) : prog PS2Request :=
  match cmds with
  | [] => mret request
  | c :: cmds => '(_, r) ← fsp_ps2_command device request c; fsp_ps2_commands device r cmds
  end.

(** A value with the selector for it, neither a reserved value: plain, with the
    halves swapped, or inverted. *)
Definition mangle (plain swapped inverted v : Z) : Z * Z :=
  if existsb (Z.eqb v) [10; 20; 40; 60; 80; 100; 200] then (swapped, Z.lor (Z.shiftr v 4) (Z.shiftl v 4))
  else if existsb (Z.eqb v) [0xe9; 0xee; 0xf2; 0xff] then (inverted, Z.lnot v)
  else (plain, v).

Definition fsp_reg_read (device : bool) (request : PS2Request) (reg : Z) : prog (Z * PS2Request) :=
  let '(register_select, register_value) := mangle 0x66 0xCC 0x68 reg in
  r ← fsp_ps2_commands device request [0xf3; 0x66; 0x88; 0xf3; register_select; register_value];
  r ← fill [mouse_command kDP_GetMouseInformation; read_byte; read_byte; read_byte] r;
  r ← submitRequestAndBlock device r;
  if commandsCount r =? 4 then b ← result r 3; mret (b, r) else mret (-1, r).

Definition fsp_reg_write (device : bool) (request : PS2Request) (reg val : Z) : prog PS2Request :=
  let '(register_select, register_value) := mangle 0x55 0x77 0x74 reg in
  r ← fsp_ps2_commands device request [0xf3; register_select; register_value];
  let '(register_select, register_value) := mangle 0x33 0x44 0x47 val in
  fsp_ps2_commands device r [0xf3; register_select; register_value].

(** One bit of a register. *)
Definition with_bit (enable : bool) (x bit : Z) : Z := if enable then Z.lor x bit else Z.land x (Z.lnot bit).

Definition fsp_write_enable (device : bool) (request : PS2Request) (enable : bool) : prog PS2Request :=
  '(wen, r) ← fsp_reg_read device request FSP_REG_SYSCTL1;
  fsp_reg_write device r FSP_REG_SYSCTL1 (with_bit enable wen FSP_BIT_EN_REG_CLK).

Definition fsp_opctag_enable (device : bool) (request : PS2Request) (enable : bool) : prog PS2Request :=
  r ← fsp_write_enable device request true;
  '(opc, r) ← fsp_reg_read device r FSP_REG_OPC_QDOWN;
  r ← fsp_reg_write device r FSP_REG_OPC_QDOWN (with_bit enable opc FSP_BIT_EN_OPC_TAG);
  fsp_write_enable device r false.

Definition intellimouse_commands : list PS2Command :=
  map mouse_command [kDP_SetMouseSampleRate; 200; kDP_SetMouseSampleRate; 200; kDP_SetMouseSampleRate; 80; kDP_GetId] ++ [read_byte].
(** The byte is read whether or not the request succeeded. *)
Definition fsp_intellimouse_mode (device : bool) (request : PS2Request) : prog (Z * PS2Request) :=
  r ← fill intellimouse_commands request;
  r ← submitRequestAndBlock device r;
  b ← result r 7; mret (b, r).

(** ** Requests *)

Definition setTouchPadEnable (enable : bool) : prog unit :=
  device ← getf _device;
  r ← fill [mouse_command (if enable then kDP_Enable else kDP_SetDefaultsAndDisable)] stackRequest;
  r ← submitRequestAndBlock device r;
  r ← fsp_opctag_enable device r true;
  '(id, _) ← fsp_intellimouse_mode device r;
  when (id =? 4) (setf (fun f => f <| _packetSize := 4 |>)).

Definition data_request (dataSelector : Z) : PS2Request :=
  stack_request ([mouse_command kDP_SetDefaultsAndDisable] ++ send_bits dataSelector ++
    [mouse_command kDP_GetMouseInformation; read_byte; read_byte; read_byte]).
Definition getTouchPadData (dataSelector : Z) : prog Z :=
  device ← getf _device;
  r ← submitRequestAndBlock device (data_request dataSelector);
  if commandsCount r =? 13 then
    b0 ← result r 10; b1 ← result r 11; b2 ← result r 12;
    mret (Z.lor (Z.lor (Z.shiftl b0 16) (Z.shiftl b1 8)) b2)
  else mret (u32 (-1)).

Definition mode_request (modeByteValue : Z) (enableStreamMode : bool) : PS2Request :=
  stack_request ([mouse_command kDP_SetDefaultsAndDisable] ++ send_bits modeByteValue ++
    map mouse_command [kDP_SetMouseSampleRate; 20; if enableStreamMode then kDP_Enable else kDP_SetMouseScaling1To1]).
Definition setTouchPadModeByte (modeByteValue : Z) (enableStreamMode : bool) : prog bool :=
  device ← getf _device;
  r ← submitRequestAndBlock device (mode_request modeByteValue enableStreamMode);
  mret (12 =? commandsCount r).

(** ** Life cycle *)

(** [_touchPadVersion] has 16 bits. *)
Definition version (major revision : Z) : Z := Z.lor (Z.shiftl major 8) revision mod 65536.

Definition probe (config : option OSDict) : prog bool :=
  if bool_decide ((d ← config; getObject "DisableDevice" d ≫= asBoolean) = Some true) then mret false
  else
    '(id, r) ← fsp_reg_read true stackRequest FSP_REG_DEVICE_ID;
    if id =? FSP_DEVICE_MAGIC then
      '(major, r) ← fsp_reg_read true r FSP_REG_VERSION;
      '(revision, r) ← fsp_reg_read true r FSP_REG_REVISION;
      setf (fun f => f <| _touchPadVersion := version major revision |>);;
      mret true
    else mret false.

Definition start : prog bool :=
  setf (fun f => f <| _device := true |> <| _packetSize := 3 |>);;
  mode ← getf _touchPadModeByte;
  setProperty "Clicking" (OSNumber (if mode =? kModeByteValueGesturesEnabled then 1 else 0));;
  setProperty (kIOHIDPointerAccelerationTypeKey (hid env)) (OSString (kIOHIDTrackpadAccelerationType (hid env)));;
  setTouchPadEnable true;;
  femit FInstallInterruptAction;;
  setf (fun f => f <| _interruptHandlerInstalled := true |>);;
  femit FInstallPowerControlAction;;
  setf (fun f => f <| _powerControlHandlerInstalled := true |>);;
  mret true.

Definition stop : prog unit :=
  setTouchPadEnable false;;
  f ← getf id;
  when (_interruptHandlerInstalled f) (femit FUninstallInterruptAction);;
  when (_powerControlHandlerInstalled f) (femit FUninstallPowerControlAction);;
  setf (fun f => f <| _interruptHandlerInstalled := false |> <| _powerControlHandlerInstalled := false |> <| _device := false |>).

(** ** Packets *)

Definition interruptOccurred (data : Z) : prog PS2InterruptResult :=
  f ← getf id;
  let n := _packetByteCount f in
  if (n =? 0) && ((data =? kSC_Acknowledge) || negb (anyset data 0x08)) then mret kPS2IR_packetBuffering
  else
    rb ← lift (head_set (_ringBuffer f) n data);
    let n := u32 (n + 1) in
    setf (fun f => f <| _ringBuffer := rb |> <| _packetByteCount := n |>);;
    if n =? _packetSize f then
      setf (fun f => f <| _ringBuffer := advanceHead ringSize (_ringBuffer f) kPacketLengthMax |> <| _packetByteCount := 0 |>);;
      mret kPS2IR_packetReady
    else mret kPS2IR_packetBuffering.

Definition packet_byte (packet : list Z) (i : Z) : prog Z := b ← lift (aget packet i); mret (u8 b).
Definition delta (sign : bool) (low : Z) : Z := u32 (Z.lor (if sign then 0xffffff00 else 0) low).

Definition dispatchRelativePointerEventWithPacket (packet : list Z) (packetSize : Z) : prog unit :=
  p0 ← packet_byte packet 0; p1 ← packet_byte packet 1; p2 ← packet_byte packet 2;
  mode ← getf _touchPadModeByte;
  let buttons :=
    if (mode =? kModeByteValueGesturesEnabled) || negb (Z.shiftr p0 FSP_PKT_TYPE_SHIFT =? FSP_PKT_TYPE_NORMAL_OPC)
    then Z.lor (Z.lor (if anyset p0 0x1 then 0x1 else 0) (if anyset p0 0x2 then 0x2 else 0)) (if anyset p0 0x4 then 0x4 else 0)
    else 0 in
  let dx := s32 (delta (anyset p0 0x10) p1) in
  let dy := s32 (u32 (- delta (anyset p0 0x20) p2)) in
  now_abs ← clock_get_uptime;
  dispatchRelativePointerEventX dx dy buttons now_abs;;
  if packetSize =? 4 then
    p3 ← packet_byte packet 3;
    dispatchScrollWheelEventX (Z.land p3 8 - Z.land p3 7) 0 0 now_abs
  else mret tt.

(** [while (_ringBuffer.count() >= kPacketLengthMax)]; at most [n] packets. *)
Fixpoint packetReady_loop (n : nat) : prog unit :=
  f ← getf id;
  if count ringSize (_ringBuffer f) >=? kPacketLengthMax then
    match n with
    | O => nofuel
    | S n =>
        packet ← lift (tail_read (_ringBuffer f) 0 (Z.to_nat kPacketLengthMax));
        dispatchRelativePointerEventWithPacket packet (_packetSize f);;
        setf (fun f => f <| _ringBuffer := advanceTail ringSize (_ringBuffer f) kPacketLengthMax |>);;
        packetReady_loop n
    end
  else mret tt.

(** A ring of 32 packets holds at most 31. *)
Definition packetReady : prog unit := packetReady_loop 32.

(** ** Settings and power *)

Definition setParamProperties (config : OSDict) : prog unit :=
  match getObject "Clicking" config ≫= asNumber with
  | Some n =>
      let mode := if anyset (u32 n) 0x1 then kModeByteValueGesturesEnabled else kModeByteValueGesturesDisabled in
      f ← getf id;
      if negb (_touchPadModeByte f =? mode) then
        setf (fun f => f <| _touchPadModeByte := mode |>);; setProperty "Clicking" (OSNumber n)
      else mret tt
  | None => mret tt
  end;;
  femit (FSuperSetParamProperties config).

Definition setDevicePowerState (whatToDo : Z) : prog unit :=
  if whatToDo =? kPS2C_DisableDevice then setTouchPadEnable false
  else if whatToDo =? kPS2C_EnableDevice then
    femit (FSleep 1000);;
    setf (fun f => f <| _packetByteCount := 0 |> <| _ringBuffer := reset (_ringBuffer f) |>);;
    setTouchPadEnable true
  else mret tt.
End sentelic.

Definition init : ApplePS2SentelicFSP :=
  mkFSP false false false (mkRB (replicate (Z.to_nat ringSize) 0) 0 0) 0 0 (Z.shiftl 100 16) 0 kModeByteValueGesturesDisabled.
