(* ===== verification/SentelicSpec.v ===== *)
(** * SentelicSpec: what the Sentelic driver guarantees

    The invariant of a started driver and that every entry point keeps it, packet
    assembly against an abstract assembler, the encoding of register accesses, and
    what the driver sends when the pad does not answer. *)

From S2P Require Import Prelude RingBuffer PS2Defs Controller Config Pointing Sentelic.
From Stdlib Require String.

#[local] Open Scope string_scope.
#[local] Open Scope list_scope.
#[local] Open Scope Z_scope.

(** ** The invariant *)

Record fsp_wf (f : ApplePS2SentelicFSP) : Prop := {
  fw_device : _device f = true;
  fw_size : _packetSize f = 3 \/ _packetSize f = 4;
  fw_count : 0 <= _packetByteCount f < _packetSize f;
  fw_ring : aligned ringSize kPacketLengthMax (_ringBuffer f);
}.
Definition operating (w : FWorld) : Prop := fsp_wf (fsp w).

(** Packet assembly is left alone, but with [longer] packets may become longer. *)
Record fstep (longer : bool) (w w' : FWorld) : Prop := {
  fs_ring : _ringBuffer (fsp w') = _ringBuffer (fsp w);
  fs_count : _packetByteCount (fsp w') = _packetByteCount (fsp w);
  fs_device : _device (fsp w') = _device (fsp w);
  fs_size : _packetSize (fsp w') = _packetSize (fsp w) \/ (longer = true /\ _packetSize (fsp w') = 4);
}.

#[export] Instance fstep_preorder longer : PreOrder (fstep longer).
Proof.
  split; [intros w; split; auto|]. intros w1 w2 w3 [R1 C1 D1 S1] [R2 C2 D2 S2]. split; try congruence.
  destruct S2 as [->|[]]; auto.
Qed.

Lemma fstep_operating longer w w' : fstep longer w w' -> operating w -> operating w'.
Proof. intros [R C D S] []. split; rewrite ?R, ?C, ?D; [done|lia|lia|done]. Qed.

Section safety.
  Context (env : FEnv).
  (** The controller keeps the commands of a request; a [TPS2Request<>] has room
      for 30. *)
  Context (Hsubmit : forall evs r, length (commands (submit env evs r)) = length (commands r)).
  Context (Hstack : Z.of_nat (length (stack env)) = kMaxCommands).
  Context (longer : bool).

Abbreviation safely I := (safe I (fstep longer)).
(** Registers are also read before the driver has started. *)
Definition anywhere (w : FWorld) : Prop := True.

Definition roomy (r : PS2Request) : Prop := length (commands r) = 30%nat.

Lemma anywhere_bind {A B} (m : M FWorld A) (f : A -> M FWorld B) Q Q' :
  safely anywhere m Q -> (forall a, Q a -> safely anywhere (f a) Q') -> safely anywhere (m ≫= f) Q'.
Proof. apply safe_bind; [apply _|done]. Qed.
Lemma anywhere_ret {A} (a : A) (Q : A -> Prop) : Q a -> safely anywhere (mret a) Q.
Proof. apply safe_ret, _. Qed.

Lemma safe_fill cs r : roomy r -> (length cs <= 30)%nat -> safely anywhere (fill cs r) roomy.
Proof.
  intros Hr Hc. unfold fill. rewrite Hr, (proj2 (Nat.leb_le _ _)) by done. apply anywhere_ret. unfold roomy in *. simpl.
  rewrite length_app, length_drop. lia.
Qed.
Lemma safe_submit r : roomy r -> safely anywhere (submitRequestAndBlock env true r) roomy.
Proof. intros Hr w _. do 2 eexists. split; [reflexivity|]. split; [by split; auto|]. unfold roomy. by rewrite Hsubmit. Qed.
Lemma safe_result r i : roomy r -> 0 <= i < 30 -> safely anywhere (result r i) (fun _ => True).
Proof.
  intros Hr Hi. eapply anywhere_bind; [apply safe_lift|]; [apply _| |].
  - destruct (aget_ok (commands r) i) as (c & E & _); [unfold roomy in Hr; lia|]. exists c. split; [exact E|exact I].
  - intros c _. by apply anywhere_ret.
Qed.

Lemma safe_command r c : roomy r -> safely anywhere (fsp_ps2_command env true r c) (fun x => roomy x.2).
Proof.
  intros Hr. unfold fsp_ps2_command. eapply anywhere_bind; [apply safe_fill; [done|simpl; lia]|intros r1 H1].
  eapply anywhere_bind; [by apply safe_submit|intros r2 H2]. case_match; [|by apply anywhere_ret].
  eapply anywhere_bind; [apply safe_result; [done|lia]|intros b _; by apply anywhere_ret].
Qed.
Lemma safe_commands cs r : roomy r -> safely anywhere (fsp_ps2_commands env true r cs) roomy.
Proof.
  revert r. induction cs as [|c cs IH]; intros r Hr; [by apply anywhere_ret|]. cbn [fsp_ps2_commands].
  eapply anywhere_bind; [by apply safe_command|]. intros [b r1] H1. by apply IH.
Qed.
Lemma safe_read r reg : roomy r -> safely anywhere (fsp_reg_read env true r reg) (fun x => roomy x.2).
Proof.
  intros Hr. unfold fsp_reg_read. destruct (mangle _ _ _ reg) as [s v]. eapply anywhere_bind; [by apply safe_commands|intros r1 H1].
  eapply anywhere_bind; [apply safe_fill; [done|simpl; lia]|intros r2 H2].
  eapply anywhere_bind; [by apply safe_submit|intros r3 H3]. case_match; [|by apply anywhere_ret].
  eapply anywhere_bind; [apply safe_result; [done|lia]|intros b _; by apply anywhere_ret].
Qed.
Lemma safe_write r reg val : roomy r -> safely anywhere (fsp_reg_write env true r reg val) roomy.
Proof.
  intros Hr. unfold fsp_reg_write. destruct (mangle _ _ _ reg) as [s v]. eapply anywhere_bind; [by apply safe_commands|intros r1 H1].
  destruct (mangle _ _ _ val) as [s' v']. by apply safe_commands.
Qed.
Lemma safe_write_enable r b : roomy r -> safely anywhere (fsp_write_enable env true r b) roomy.
Proof.
  intros Hr. unfold fsp_write_enable. eapply anywhere_bind; [by apply safe_read|]. intros [x r1] H1. by apply safe_write.
Qed.
Lemma safe_opctag r b : roomy r -> safely anywhere (fsp_opctag_enable env true r b) roomy.
Proof.
  intros Hr. unfold fsp_opctag_enable. eapply anywhere_bind; [by apply safe_write_enable|intros r1 H1].
  eapply anywhere_bind; [by apply safe_read|]. intros [x r2] H2. eapply anywhere_bind; [by apply safe_write|intros r3 H3].
  by apply safe_write_enable.
Qed.
Lemma safe_intellimouse r : roomy r -> safely anywhere (fsp_intellimouse_mode env true r) (fun _ => True).
Proof.
  intros Hr. unfold fsp_intellimouse_mode. eapply anywhere_bind; [apply safe_fill; [done|simpl; lia]|intros r1 H1].
  eapply anywhere_bind; [by apply safe_submit|intros r2 H2]. eapply anywhere_bind; [apply safe_result; [done|lia]|intros b _; by apply anywhere_ret].
Qed.

(** ** Started *)

Abbreviation fsafe := (safe operating (fstep longer)).

Lemma started {A} (m : M FWorld A) Q : safely anywhere m Q -> fsafe m Q.
Proof. intros Hm w _. by apply Hm. Qed.
Lemma fsafe_bind {A B} (m : M FWorld A) (f : A -> M FWorld B) Q Q' :
  fsafe m Q -> (forall a, Q a -> fsafe (f a) Q') -> fsafe (m ≫= f) Q'.
Proof. apply safe_bind; [apply _|apply fstep_operating]. Qed.
Lemma fsafe_seq {A B} (m : M FWorld A) (f : A -> M FWorld B) Q' :
  fsafe m (fun _ => True) -> (forall a, fsafe (f a) Q') -> fsafe (m ≫= f) Q'.
Proof. intros Hm Hf. eapply fsafe_bind; [exact Hm|auto]. Qed.
Lemma fsafe_ret {A} (a : A) (Q : A -> Prop) : Q a -> fsafe (mret a) Q.
Proof. apply safe_ret, _. Qed.
Lemma fsafe_get {A} (f : ApplePS2SentelicFSP -> A) (Q : A -> Prop) : (forall x, fsp_wf x -> Q (f x)) -> fsafe (getf f) Q.
Proof. intros HQ. apply safe_gets; [apply _|]. intros w. apply HQ. Qed.
Lemma fsafe_set f : (forall w, fstep longer w (w <| fsp := f (fsp w) |>)) -> fsafe (setf f) (fun _ => True).
Proof. intros H1. apply safe_modify. intros w _. apply H1. Qed.
Lemma fsafe_emit e : fsafe (femit e) (fun _ => True).
Proof. apply safe_modify. intros w _. split; auto. Qed.
Lemma fsafe_clock : fsafe (clock_get_uptime env) (fun _ => True).
Proof. intros w _. do 2 eexists. split; [reflexivity|]. split; [split; auto|done]. Qed.

Lemma fsafe_enable b : longer = true -> fsafe (setTouchPadEnable env b) (fun _ => True).
Proof.
  intros Hl. unfold setTouchPadEnable. eapply (fsafe_bind _ _ (fun d => d = true)); [apply fsafe_get; by intros x []|intros d ->].
  assert (roomy (stackRequest env)) as Hr by (unfold roomy, stackRequest; simpl; unfold kMaxCommands in Hstack; lia).
  eapply fsafe_bind; [apply started, safe_fill; [done|simpl; lia]|intros r1 H1]. eapply fsafe_bind; [by apply started, safe_submit|intros r2 H2].
  eapply fsafe_bind; [by apply started, safe_opctag|intros r3 H3]. eapply fsafe_bind; [by apply started, safe_intellimouse|intros [i r4] _].
  apply safe_when; [apply _|]. apply fsafe_set. intros w. split; simpl; auto.
Qed.

Lemma fsafe_params config : fsafe (setParamProperties config) (fun _ => True).
Proof.
  unfold setParamProperties. apply fsafe_seq; [|intros _; apply fsafe_emit]. case_match; [|by apply fsafe_ret].
  apply fsafe_seq; [by apply fsafe_get|intros x]. case_match; [|by apply fsafe_ret].
  apply fsafe_seq; [apply fsafe_set; intros w; split; auto|intros _; apply fsafe_emit].
Qed.

Lemma fsafe_byte p i : (4 <= length p)%nat -> 0 <= i < 4 -> fsafe (packet_byte p i) (fun _ => True).
Proof.
  intros Hp Hi. unfold packet_byte. apply fsafe_seq; [|intros b; by apply fsafe_ret]. apply safe_lift; [apply _|].
  destruct (aget_ok p i) as (v & E & _); [lia|]. by exists v.
Qed.
Lemma fsafe_dispatch p n : (4 <= length p)%nat -> fsafe (dispatchRelativePointerEventWithPacket env p n) (fun _ => True).
Proof.
  intros Hp. unfold dispatchRelativePointerEventWithPacket. do 3 (apply fsafe_seq; [apply fsafe_byte; [done|lia]|intros ?]).
  apply fsafe_seq; [by apply fsafe_get|intros mode]. cbv zeta. apply fsafe_seq; [apply fsafe_clock|intros t].
  apply fsafe_seq; [apply fsafe_emit|intros _]. case_match; [|by apply fsafe_ret].
  apply fsafe_seq; [apply fsafe_byte; [done|lia]|intros ?]. apply fsafe_emit.
Qed.
End safety.

(** ** Packet assembly *)

(** One byte from the pad: the bytes of the packet so far, and what is queued. *)
Definition assemble_byte (len : Z) (bytes : list Z) (data : Z) : list Z * option (list Z) :=
  if bool_decide (bytes = []) && ((data =? 0xFA) || negb (Z.testbit data 3)) then ([], None)
  else
    let bytes := bytes ++ [data] in
    if Z.of_nat (length bytes) =? len then ([], Some bytes) else (bytes, None).

(** The driver's state represents the bytes so far and the queue. *)
Record assembles (f : ApplePS2SentelicFSP) (bytes : list Z) (q : list (list Z)) : Prop := {
  as_count : _packetByteCount f = Z.of_nat (length bytes);
  as_bytes : exists b0, head_block kPacketLengthMax (_ringBuffer f) = written (indexed bytes) b0;
  as_queue : queue_of ringSize kPacketLengthMax (_ringBuffer f) (indexed <$> q);
}.

(** After an entry point. *)
Definition after (w' : FWorld) (len : Z) (bytes : list Z) (q : list (list Z)) : Prop :=
  operating w' /\ _packetSize (fsp w') = len /\ assembles (fsp w') bytes q.

Lemma fsp_byte_ok w len bytes q data : after w len bytes q ->
  let '(bytes', p) := assemble_byte len bytes data in
  exists w', interruptOccurred data w = Done (ready_if p, w') /\ after w' len bytes' (enqueued q p).
Proof.
  intros (Hw & <- & [Hc [b0 Hb] Hq]). unfold assemble_byte, interruptOccurred, getf, setf. munfold. unfold id.
  assert ((_packetByteCount (fsp w) =? 0) = bool_decide (bytes = [])) as ->.
  { rewrite Hc. destruct bytes; [done|]. by rewrite bool_decide_eq_false_2. }
  change 0x08 with (Z.shiftl 1 3). rewrite anyset_bit by lia. change kSC_Acknowledge with 0xFA.
  destruct (bool_decide (bytes = []) && _) eqn:E0.
  { apply andb_true_iff in E0 as [->%bool_decide_eq_true _]. exists w. split; [done|]. split; [done|]. split; [done|]. by split; eauto. }
  destruct Hw as [Hd Hs Hn Hr]. 
  destruct (queue_head_set _ _ _ _ (_packetByteCount (fsp w)) data Hq) as (rb & E & Hq1 & Hb1); [unfold kPacketLengthMax; lia|].
  rewrite E. cbn beta iota. set (bytes' := bytes ++ [data]).
  assert (length bytes' = S (length bytes)) as Hlen by (unfold bytes'; rewrite length_app; simpl; lia).
  assert (u32 (_packetByteCount (fsp w) + 1) = Z.of_nat (length bytes')) as -> by (unfold u32; rewrite Z.mod_small; lia).
  assert (head_block kPacketLengthMax rb = written (indexed bytes') b0) as Hb2.
  { unfold bytes'. rewrite written_snoc, <- Hb, Hb1, Hc. by rewrite Nat2Z.id. }
  destruct (Z.eqb_spec (Z.of_nat (length bytes')) (_packetSize (fsp w))) as [Ee|Ee].
  - assert (queue_of ringSize kPacketLengthMax (advanceHead ringSize rb kPacketLengthMax) (indexed <$> Fifo.push 31 q bytes')) as Hq2.
    { rewrite <- push_indexed. apply (queue_advance ringSize kPacketLengthMax); [done|eauto]. }
    eexists. split; [reflexivity|]. split; [split; try done; [simpl; lia|apply Hq2]|]. split; [done|]. split; [done|by eexists|done].
  - eexists. split; [reflexivity|]. split; [split; try done; [|apply Hq1]|]; [|split; [done|]; split; [done|by exists b0|done]].
    cbn -[Z.of_nat length]. lia.
Qed.

Lemma quiet_after {A} (m : M FWorld A) Q w len bytes q : safe operating (fstep false) m Q -> after w len bytes q ->
  exists a w', m w = Done (a, w') /\ after w' len bytes q /\ Q a.
Proof.
  intros Hm (Hw & Hs & [Hc Hb Hq]). destruct (Hm w Hw) as (a & w' & E & R & Ha). exists a, w'. split; [done|]. split; [|done].
  split; [by eapply fstep_operating|]. destruct R as [R C D [S|[? _]]]; [|done]. split; [congruence|]. split; rewrite ?R, ?C; done.
Qed.

(** A routine that may make packets longer. *)
Lemma longer_after {A} (m : M FWorld A) Q w len bytes q : safe operating (fstep true) m Q -> after w len bytes q ->
  exists a w' len', m w = Done (a, w') /\ (len' = len \/ len' = 4) /\ after w' len' bytes q /\ Q a.
Proof.
  intros Hm (Hw & Hs & [Hc Hb Hq]). destruct (Hm w Hw) as (a & w' & E & R & Ha). exists a, w', (_packetSize (fsp w')).
  split; [done|]. pose proof R as [R' C D S]. split; [destruct S as [->|[_ ->]]; auto|]. split; [|done].
  split; [by eapply fstep_operating|]. split; [done|]. split; rewrite ?R', ?C; done.
Qed.

Lemma fsp_drain_ok env n w len bytes q : after w len bytes q -> (length q <= n)%nat ->
  exists w', packetReady_loop env n w = Done (tt, w') /\ after w' len bytes [].
Proof.
  revert w q. induction n as [|n IH]; intros w [|ws q] Hw Hn; try (simpl in Hn; lia); cbn [packetReady_loop];
    unfold mbind at 1, M_bind at 1, getf at 1, gets at 1; pose proof Hw as (Ho & Hs & [Hc Hb Hq]).
  1, 2: unfold id; rewrite count_len, (queue_of_len _ _ _ _ Hq) by apply Hq; by exists w.
  destruct (queue_head _ _ _ _ _ Hq) as (Ec & Et & Hm & Hq'). set (p := slice _ _ _) in *. unfold id.
  rewrite Ec. unfold mbind at 1, M_bind at 1, lift at 1. rewrite Et. cbn beta iota.
  assert (4 <= length p)%nat as Hp by (destruct Hm as [Hm _]; unfold kPacketLengthMax in Hm; lia).
  destruct (fsafe_dispatch env false p (_packetSize (fsp w)) Hp w Ho) as ([] & w1 & E1 & R1 & _). rewrite (bind_done _ _ _ _ _ E1).
  pose proof (fstep_operating _ _ _ R1 Ho) as Ho1. destruct R1 as [R C D [S|[? _]]]; [|done].
  pose (w2 := w1 <| fsp := (fsp w1) <| _ringBuffer := advanceTail ringSize (_ringBuffer (fsp w1)) kPacketLengthMax |> |>).
  rewrite (bind_done _ _ w1 tt w2) by done. apply (IH w2 q); [|simpl in Hn; lia]. destruct Ho1.
  split; [split; simpl; try done; rewrite R; apply Hq'|]. split; [simpl; congruence|].
  split; simpl; rewrite ?R, ?C; done.
Qed.

(** ** Entry points in any order *)

Inductive FInput :=
| FByte (data : Z)
| FDrain
| FParams (config : OSDict)
| FPower (whatToDo : Z).

Fixpoint run_finputs (env : FEnv) (ins : list FInput) : M FWorld (list PS2InterruptResult) :=
  match ins with
  | [] => mret []
  | FByte data :: ins => r ← interruptOccurred data; rs ← run_finputs env ins; mret (r :: rs)
  | FDrain :: ins => packetReady env;; run_finputs env ins
  | FParams config :: ins => setParamProperties config;; run_finputs env ins
  | FPower n :: ins => setDevicePowerState env n;; run_finputs env ins
  end.

(** What the abstract assembler may do: packets have [len] bytes, four once the
    pad has answered so when its power changed. *)
Inductive fsession : list FInput -> Z -> list Z -> list (list Z) -> list PS2InterruptResult -> Prop :=
| fs_nil len bytes q : fsession [] len bytes q []
| fs_byte data ins len bytes q bytes' p rs :
    assemble_byte len bytes data = (bytes', p) -> fsession ins len bytes' (enqueued q p) rs ->
    fsession (FByte data :: ins) len bytes q (ready_if p :: rs)
| fs_drain ins len bytes q rs : fsession ins len bytes [] rs -> fsession (FDrain :: ins) len bytes q rs
| fs_params config ins len bytes q rs : fsession ins len bytes q rs -> fsession (FParams config :: ins) len bytes q rs
| fs_wake ins len len' bytes q rs :
    len' = len \/ len' = 4 -> fsession ins len' [] [] rs -> fsession (FPower kPS2C_EnableDevice :: ins) len bytes q rs
| fs_power n ins len len' bytes q rs :
    n <> kPS2C_EnableDevice -> len' = len \/ len' = 4 -> fsession ins len' bytes q rs -> fsession (FPower n :: ins) len bytes q rs.

Section session.
  Context (env : FEnv).
  Context (Hsubmit : forall evs r, length (commands (submit env evs r)) = length (commands r)).
  Context (Hstack : Z.of_nat (length (stack env)) = kMaxCommands).

Lemma fsp_drained w len bytes q : after w len bytes q -> exists w', packetReady env w = Done (tt, w') /\ after w' len bytes [].
Proof.
  intros Hw. pose proof Hw as (_ & _ & [_ _ Hq]). pose proof (queue_of_len _ _ _ _ Hq) as Hl.
  destruct (aligned_len _ _ _ (proj1 Hq)) as (_ & Hbd & _). apply (fsp_drain_ok env 32 w len bytes q Hw).
  rewrite length_fmap in Hl. unfold ringSize, kPacketLengthMax in *. lia.
Qed.

Lemma fsp_reset w len bytes q : after w len bytes q ->
  after (w <| fsp := (fsp w) <| _packetByteCount := 0 |> <| _ringBuffer := reset (_ringBuffer (fsp w)) |> |>) len [] [].
Proof.
  intros ([Hd Hs Hn []] & Hl & _).
  assert (aligned ringSize kPacketLengthMax (reset (_ringBuffer (fsp w)))) as Ha.
  { split; [by apply reset_wf|done|done|apply Z.divide_0_r|apply Z.divide_0_r]. }
  split; [split; simpl; try done; lia|]. split; [done|]. split; [done|by eexists|]. split; [done|]. by exists [].
Qed.

Lemma fsp_inputs_ok ins w len bytes q : after w len bytes q ->
  exists rs w', run_finputs env ins w = Done (rs, w') /\ operating w' /\ fsession ins len bytes q rs.
Proof.
  revert w len bytes q. induction ins as [|[data| |config|n] ins IH]; intros w len bytes q Hw; cbn [run_finputs].
  - exists [], w. split; [done|]. split; [apply Hw|constructor].
  - pose proof (fsp_byte_ok w len bytes q data Hw) as H. destruct (assemble_byte len bytes data) as [b1 p] eqn:E0.
    destruct H as (w1 & E1 & Hw1). destruct (IH w1 len b1 _ Hw1) as (rs & w2 & E2 & Ho & Hf). exists (ready_if p :: rs), w2.
    split; [by rewrite (bind_done _ _ _ _ _ E1), (bind_done _ _ _ _ _ E2)|]. split; [done|by econstructor].
  - destruct (fsp_drained w len bytes q Hw) as (w1 & E1 & Hw1). rewrite (bind_done _ _ _ _ _ E1).
    destruct (IH w1 len bytes [] Hw1) as (rs & w2 & E2 & Ho & Hf). exists rs, w2. split; [done|]. split; [done|by constructor].
  - destruct (quiet_after _ _ w len bytes q (fsafe_params false config) Hw) as ([] & w1 & E1 & Hw1 & _). rewrite (bind_done _ _ _ _ _ E1).
    destruct (IH w1 len bytes q Hw1) as (rs & w2 & E2 & Ho & Hf). exists rs, w2. split; [done|]. split; [done|by constructor].
  - unfold setDevicePowerState. destruct (Z.eqb_spec n kPS2C_DisableDevice) as [->|Hn1]; [|destruct (Z.eqb_spec n kPS2C_EnableDevice) as [->|Hn2]].
    + destruct (longer_after _ _ w len bytes q (fsafe_enable env Hsubmit Hstack true false eq_refl) Hw) as ([] & w1 & len' & E1 & Hl & Hw1 & _).
      rewrite (bind_done _ _ _ _ _ E1). destruct (IH w1 len' bytes q Hw1) as (rs & w2 & E2 & Ho & Hf). exists rs, w2.
      split; [done|]. split; [done|]. by apply (fs_power _ _ _ len').
    + destruct (quiet_after _ _ w len bytes q (fsafe_emit false (FSleep 1000)) Hw) as ([] & w0 & E0 & Hw0 & _).
      destruct (longer_after _ _ _ len [] [] (fsafe_enable env Hsubmit Hstack true true eq_refl) (fsp_reset _ _ _ _ Hw0)) as ([] & w1 & len' & E1 & Hl & Hw1 & _).
      destruct (IH w1 len' [] [] Hw1) as (rs & w2 & E2 & Ho & Hf). exists rs, w2. split; [|split; [done|by apply (fs_wake _ _ len')]].
      etransitivity; [apply (bind_done _ _ w tt w1)|exact E2]. rewrite (bind_done _ _ _ _ _ E0). exact E1.
    + rewrite (bind_done _ _ w tt w) by done. destruct (IH w len bytes q Hw) as (rs & w2 & E2 & Ho & Hf). exists rs, w2.
      split; [done|]. split; [done|]. apply (fs_power _ _ _ len); auto.
Qed.

(** ** From init to stop *)

Definition fresh : FWorld := mkFWorld init 0 [].

(** A driver that has not been started. *)
Definition idle (w : FWorld) : Prop := _device (fsp w) = false /\ _ringBuffer (fsp w) = _ringBuffer init /\ _packetByteCount (fsp w) = 0.

Lemma fsp_probe_ok w config : idle w -> exists b w', probe env config w = Done (b, w') /\ idle w'.
Proof.
  intros (Hd & Hr & Hc). assert (safe anywhere (fstep false) (probe env config) (fun _ => True)) as Hp.
  { unfold probe. case_match; [by apply anywhere_ret|].
    assert (roomy (stackRequest env)) as H0 by (unfold roomy, stackRequest; simpl; unfold kMaxCommands in Hstack; lia).
    eapply anywhere_bind; [by apply safe_read|intros [x r1] H1]. case_match; [|by apply anywhere_ret].
    eapply anywhere_bind; [by apply safe_read|intros [y r2] Hr2]. eapply anywhere_bind; [by apply safe_read|intros [z r3] Hr3].
    eapply (anywhere_bind _ _ _ (fun _ => True)); [apply safe_modify; intros v _; by split; auto|intros _ _; by apply anywhere_ret]. }
  destruct (Hp w I) as (b & w' & E & [R C D _] & _). exists b, w'. split; [done|]. split; [congruence|]. split; congruence.
Qed.

Lemma fsp_start_ok w : idle w -> exists w' len, start env w = Done (true, w') /\ (len = 3 \/ len = 4) /\ after w' len [] [].
Proof.
  intros (Hd & Hr & Hc). unfold start. pose (w1 := w <| fsp := (fsp w) <| _device := true |> <| _packetSize := 3 |> |>).
  rewrite (bind_done _ _ w tt w1) by done. assert (after w1 3 [] []) as Hw1.
  { assert (aligned ringSize kPacketLengthMax (_ringBuffer init)) as Ha.
    { split; [split; vm_compute; intuition congruence|unfold ringSize, kPacketLengthMax; lia| | |]; apply Z.mod_divide; done. }
    split; [split; simpl; [done|by left|rewrite Hc; lia|by rewrite Hr]|]. split; [done|]. split; simpl; rewrite ?Hr, ?Hc; [done|by eexists|].
    split; [done|]. by exists []. }
  match goal with |- exists w' len, ?m w1 = _ /\ _ => assert (safe operating (fstep true) m (fun b => b = true)) as Hm end.
  { apply fsafe_seq; [by apply fsafe_get|intros mode]. do 2 (apply fsafe_seq; [apply fsafe_emit|intros _]).
    apply fsafe_seq; [by apply fsafe_enable|intros _].
    do 2 (apply fsafe_seq; [apply fsafe_emit|intros _]; apply fsafe_seq; [apply fsafe_set; intros v; by split; auto|intros _]).
    by apply fsafe_ret. }
  destruct (longer_after _ _ w1 3 [] [] Hm Hw1) as (b & w2 & len & E & Hl & Hw2 & ->). by exists w2, len.
Qed.

Lemma fsp_stop_ok w : operating w -> exists w', stop env w = Done (tt, w') /\ _device (fsp w') = false /\
  _interruptHandlerInstalled (fsp w') = false /\ _powerControlHandlerInstalled (fsp w') = false.
Proof.
  intros Hw. unfold stop. destruct (fsafe_enable env Hsubmit Hstack true false eq_refl w Hw) as ([] & w1 & E1 & _). rewrite (bind_done _ _ _ _ _ E1).
  unfold getf, setf, femit, when. munfold. unfold id.
  destruct (_interruptHandlerInstalled (fsp w1)), (_powerControlHandlerInstalled (fsp w1)); munfold; eexists; split; try reflexivity; done.
Qed.

(** The life of a driver: matched against the hardware, started, in use, stopped. *)
Definition fsp_life (config : option OSDict) (ins : list FInput) : M FWorld (option (list PS2InterruptResult)) :=
  matched ← probe env config;
  if matched : bool then start env;; rs ← run_finputs env ins; stop env;; mret (Some rs) else mret None.

(** C9: From initialisation through identification, start, any interleaving of
    bytes, drains, settings and power changes, to stop, the Sentelic driver does
    nothing undefined, whatever the pad answers; the bytes have the results of
    the abstract assembler of packets of three or four bytes, and at the end no
    action stays installed with the device. *)
Theorem sentelic_safe config ins :
  exists matched w', fsp_life config ins fresh = Done (matched, w') /\ _device (fsp w') = false /\
    match matched with
    | Some rs => (fsession ins 3 [] [] rs \/ fsession ins 4 [] [] rs) /\
        _interruptHandlerInstalled (fsp w') = false /\ _powerControlHandlerInstalled (fsp w') = false
    | None => True
    end.
Proof.
  destruct (fsp_probe_ok fresh config) as (b & w1 & E1 & Hd); [done|].
  unfold fsp_life. rewrite (bind_done _ _ _ _ _ E1). destruct b; [|exists None, w1; split; [done|split; [apply Hd|done]]].
  destruct (fsp_start_ok w1 Hd) as (w2 & len & E2 & Hl & Hw2). rewrite (bind_done _ _ _ _ _ E2).
  destruct (fsp_inputs_ok ins w2 len [] [] Hw2) as (rs & w3 & E3 & Hw3 & Hf). rewrite (bind_done _ _ _ _ _ E3).
  destruct (fsp_stop_ok w3 Hw3) as (w4 & E4 & H4 & H5). rewrite (bind_done _ _ _ _ _ E4). exists (Some rs), w4.
  split; [done|]. split; [done|]. split; [|done]. destruct Hl as [-> | ->]; auto.
Qed.
End session.

(** ** What the registers are sent *)

(** The byte a raw command sends to the pad. *)
Definition sent_byte (e : FEvent) : option Z :=
  match e with
  | FSubmitBlock r =>
      match commands r with
      | c0 :: c1 :: c2 :: _ =>
          if bool_decide (commandsCount r = 3 /\ command c0 = kPS2C_WriteCommandPort /\ inOrOut c0 = kCP_TransmitToMouse /\
                          command c1 = kPS2C_WriteDataPort /\ command c2 = kPS2C_ReadDataPort)
          then Some (inOrOut c1) else None
      | _ => None
      end
  | _ => None
  end.
Definition sent (w : FWorld) : list Z := omap sent_byte (fevs w).

(** Sample rates and commands of a mouse: as a value they would be understood so. *)
Definition reserved : list Z := [10; 20; 40; 60; 80; 100; 200; 0xe9; 0xee; 0xf2; 0xff].

(** The pad's side: the value that a selector and a byte stand for. *)
Definition demangle (plain swapped inverted select v : Z) : option Z :=
  if select =? plain then Some v
  else if select =? swapped then Some (Z.lor (Z.shiftr v 4) (Z.shiftl (Z.land v 15) 4))
  else if select =? inverted then Some (255 - v)
  else None.
Definition decode_write (bytes : list Z) : option (Z * Z) :=
  match bytes with
  | [r1; s1; v1; r2; s2; v2] =>
      if (r1 =? 0xf3) && (r2 =? 0xf3) then
        reg ← demangle 0x55 0x77 0x74 s1 v1; val ← demangle 0x33 0x44 0x47 s2 v2; Some (reg, val)
      else None
  | _ => None
  end.

Lemma mangle_ok plain swapped inverted v : is_u8 v -> plain <> swapped -> plain <> inverted -> swapped <> inverted ->
  let '(s, b) := mangle plain swapped inverted v in
  demangle plain swapped inverted s (u8 b) = Some v /\ u8 b ∉ reserved.
Proof.
  intros Hv H1 H2 H3.
  unfold mangle, demangle. destruct (existsb (Z.eqb v) [10; 20; 40; 60; 80; 100; 200]) eqn:E1; [|destruct (existsb (Z.eqb v) [0xe9; 0xee; 0xf2; 0xff]) eqn:E2].
  - rewrite (proj2 (Z.eqb_neq swapped plain)), Z.eqb_refl by congruence.
    apply existsb_exists in E1 as (x & Hx & ->%Z.eqb_eq). repeat (destruct Hx as [<-|Hx]; [split; [reflexivity|by apply (bool_decide_unpack _)]|]). destruct Hx.
  - rewrite (proj2 (Z.eqb_neq inverted plain)), (proj2 (Z.eqb_neq inverted swapped)), Z.eqb_refl by congruence.
    apply existsb_exists in E2 as (x & Hx & ->%Z.eqb_eq). repeat (destruct Hx as [<-|Hx]; [split; [reflexivity|by apply (bool_decide_unpack _)]|]). destruct Hx.
  - rewrite Z.eqb_refl. replace (u8 v) with v by (unfold u8, is_u8 in *; rewrite Z.mod_small; lia). split; [done|].
    intros Hin%list_elem_of_In. assert (existsb (Z.eqb v) reserved = true) as Hr by (apply existsb_exists; exists v; by rewrite Z.eqb_refl).
    change reserved with ([10; 20; 40; 60; 80; 100; 200] ++ [0xe9; 0xee; 0xf2; 0xff]) in Hr. rewrite existsb_app, E1, E2 in Hr. done.
Qed.

Lemma mangle_select plain swapped inverted v :
  let s := (mangle plain swapped inverted v).1 in s = plain \/ s = swapped \/ s = inverted.
Proof. unfold mangle. repeat case_match; simpl; auto. Qed.

Section sends.
  Context (env : FEnv).
  Context (Hsubmit : forall evs r, length (commands (submit env evs r)) = length (commands r)).

(** One command: nothing of the driver changes, one byte is sent. *)
Lemma command_sends r c w : roomy r ->
  exists x r' w', fsp_ps2_command env true r c w = Done ((x, r'), w') /\ roomy r' /\ fsp w' = fsp w /\ sent w' = sent w ++ [u8 c].
Proof.
  intros Hr. unfold roomy in Hr. unfold fsp_ps2_command, fill. rewrite Hr. cbn [length to_mouse app Nat.leb].
  set (r1 := _ <| commandsCount := _ |>). rewrite (bind_done _ _ w r1 w) by done.
  set (w1 := w <| fevs := fevs w ++ [FSubmitBlock r1] |>). set (r2 := submit env (fevs w) r1).
  rewrite (bind_done _ _ w r2 w1) by done.
  assert (roomy r2) as Hr2 by (unfold roomy, r2; rewrite Hsubmit; unfold r1; simpl; rewrite length_drop; lia).
  assert (sent w1 = sent w ++ [u8 c]) as Hs.
  { unfold sent, w1. simpl. rewrite omap_app. f_equal. unfold r1. cbn -[u8]. rewrite bool_decide_eq_true_2 by done.
    unfold inOrOut, union_byte. simpl. rewrite Z.shiftr_0_r. f_equal. unfold u8. by rewrite Zmod_mod. }
  destruct (commandsCount r2 =? 3); [|by exists (-1), r2, w1].
  destruct (aget_ok (commands r2) 2) as (c2 & E & _); [unfold roomy in Hr2; lia|]. exists (inOrOut c2), r2, w1.
  split; [|done]. unfold result. munfold. by rewrite E.
Qed.

Lemma commands_sends cs r w : roomy r ->
  exists r' w', fsp_ps2_commands env true r cs w = Done (r', w') /\ roomy r' /\ fsp w' = fsp w /\ sent w' = sent w ++ map u8 cs.
Proof.
  revert r w. induction cs as [|c cs IH]; intros r w Hr; [exists r, w; by rewrite app_nil_r|]. cbn [fsp_ps2_commands].
  destruct (command_sends r c w Hr) as (x & r1 & w1 & E1 & Hr1 & Hf1 & Hs1). rewrite (bind_done _ _ _ _ _ E1).
  destruct (IH r1 w1 Hr1) as (r2 & w2 & E2 & Hr2 & Hf2 & Hs2). exists r2, w2. split; [done|]. split; [done|]. split; [congruence|].
  by rewrite Hs2, Hs1, <- app_assoc.
Qed.

(** Reading a register: what is sent, and the answer. *)
Lemma read_sends r reg w : roomy r ->
  exists x r' w', fsp_reg_read env true r reg w = Done ((x, r'), w') /\ roomy r' /\ fsp w' = fsp w /\
    sent w' = sent w ++ [0xf3; 0x66; 0x88; 0xf3; u8 (mangle 0x66 0xCC 0x68 reg).1; u8 (mangle 0x66 0xCC 0x68 reg).2] /\
    ((forall evs r, commandsCount (submit env evs r) = 0) -> x = -1).
Proof.
  intros Hr. unfold fsp_reg_read. destruct (mangle _ _ _ reg) as [s v].
  destruct (commands_sends [0xf3; 0x66; 0x88; 0xf3; s; v] r w Hr) as (r1 & w1 & E1 & Hr1 & Hf1 & Hs1). rewrite (bind_done _ _ _ _ _ E1).
  unfold roomy in Hr1. unfold fill. rewrite Hr1. cbn [length Nat.leb]. set (r2 := _ <| commandsCount := _ |>). rewrite (bind_done _ _ w1 r2 w1) by done.
  set (w2 := w1 <| fevs := fevs w1 ++ [FSubmitBlock r2] |>). set (r3 := submit env (fevs w1) r2). rewrite (bind_done _ _ w1 r3 w2) by done.
  assert (roomy r3) as Hr3 by (unfold roomy, r3; rewrite Hsubmit; unfold r2; simpl; rewrite length_drop; lia).
  assert (sent w2 = sent w1) as Hs2.
  { unfold sent, w2. simpl. rewrite omap_app. unfold r2. cbn. by rewrite bool_decide_eq_false_2, app_nil_r by (by intros []). }
  assert (fsp w2 = fsp w /\ sent w2 = sent w ++ [0xf3; 0x66; 0x88; 0xf3; u8 s; u8 v]) as Hw2 by (split; [done|by rewrite Hs2, Hs1]).
  destruct (Z.eqb_spec (commandsCount r3) 4) as [E4|E4]; [|exists (-1), r3, w2; split; [done|]; split; [done|]; by destruct Hw2].
  destruct (aget_ok (commands r3) 3) as (c3 & E & _); [unfold roomy in Hr3; lia|]. exists (inOrOut c3), r3, w2.
  split; [unfold result; munfold; by rewrite E|]. split; [done|]. destruct Hw2. split; [done|]. split; [done|].
  intros Hd. unfold r3 in E4. by rewrite Hd in E4.
Qed.

Lemma write_sends r reg val w : roomy r ->
  exists r' w', fsp_reg_write env true r reg val w = Done (r', w') /\ roomy r' /\ fsp w' = fsp w /\
    sent w' = sent w ++ [0xf3; u8 (mangle 0x55 0x77 0x74 reg).1; u8 (mangle 0x55 0x77 0x74 reg).2;
                         0xf3; u8 (mangle 0x33 0x44 0x47 val).1; u8 (mangle 0x33 0x44 0x47 val).2].
Proof.
  intros Hr. unfold fsp_reg_write. destruct (mangle _ _ _ reg) as [s v].
  destruct (commands_sends [0xf3; s; v] r w Hr) as (r1 & w1 & E1 & Hr1 & Hf1 & Hs1). rewrite (bind_done _ _ _ _ _ E1).
  destruct (mangle _ _ _ val) as [s' v'].
  destruct (commands_sends [0xf3; s'; v'] r1 w1 Hr1) as (r2 & w2 & E2 & Hr2 & Hf2 & Hs2). exists r2, w2. split; [done|]. split; [done|].
  split; [congruence|]. by rewrite Hs2, Hs1, <- app_assoc.
Qed.

(** C34: Writing a register sends six bytes, whatever the pad answers; the pad
    recovers the register and the value from them, for all 256 registers and
    values, and neither is sent as a byte that a mouse would take for a sample
    rate or a command. *)
Theorem register_roundtrip r reg val w : roomy r -> is_u8 reg -> is_u8 val ->
  exists r' w' s1 v1 s2 v2, fsp_reg_write env true r reg val w = Done (r', w') /\ fsp w' = fsp w /\
    sent w' = sent w ++ [0xf3; s1; v1; 0xf3; s2; v2] /\ decode_write [0xf3; s1; v1; 0xf3; s2; v2] = Some (reg, val) /\
    (v1 ∉ reserved) /\ v2 ∉ reserved.
Proof.
  intros Hr Hreg Hval. destruct (write_sends r reg val w Hr) as (r' & w' & E & _ & Hf & Hs).
  pose proof (mangle_ok 0x55 0x77 0x74 reg Hreg) as H1. pose proof (mangle_ok 0x33 0x44 0x47 val Hval) as H2.
  pose proof (mangle_select 0x55 0x77 0x74 reg) as S1. pose proof (mangle_select 0x33 0x44 0x47 val) as S2.
  destruct (mangle _ _ _ reg) as [s1 v1], (mangle _ _ _ val) as [s2 v2]. destruct H1 as [D1 R1]; [done..|]. destruct H2 as [D2 R2]; [done..|].
  exists r', w', s1, (u8 v1), s2, (u8 v2). split; [done|]. split; [done|]. split; [|split; [|done]].
  - rewrite Hs. cbn [fst snd] in *. by destruct S1 as [-> | [-> | ->]], S2 as [-> | [-> | ->]].
  - cbn [decode_write Z.eqb andb]. rewrite D1. simpl. by rewrite D2.
Qed.

(** When the pad answers nothing, a register that could not be read is
    written back all the same: enabling register access sends FF, which resets a
    pointing device, as the new value of the register. *)
Theorem failed_read_sends_reset r w : (forall evs r, commandsCount (submit env evs r) = 0) -> roomy r ->
  exists r' w', fsp_write_enable env true r true w = Done (r', w') /\
    sent w' = sent w ++ [0xf3; 0x66; 0x88; 0xf3; 0x66; FSP_REG_SYSCTL1] ++ [0xf3; 0x55; FSP_REG_SYSCTL1; 0xf3; 0x33; kDP_Reset].
Proof.
  intros Hdead Hr. unfold fsp_write_enable. destruct (read_sends r FSP_REG_SYSCTL1 w Hr) as (x & r1 & w1 & E1 & Hr1 & _ & Hs1 & Hx).
  rewrite (bind_done _ _ _ _ _ E1), (Hx Hdead). destruct (write_sends r1 FSP_REG_SYSCTL1 (-1) w1 Hr1) as (r2 & w2 & E2 & _ & _ & Hs2).
  exists r2, w2. split; [exact E2|]. by rewrite Hs2, Hs1, <- app_assoc.
Qed.
End sends.

(** ** Concrete pads *)

(** Every register reads 1, and the pad has packets of four bytes. *)
Definition sensing_pad : FEnv := {|
  uptime := fun n => 1000000 * Z.of_nat n;
  submit := fun _ r => r <| commands := <[3%nat := cmd kPS2C_ReadDataPort 1]> (<[7%nat := cmd kPS2C_ReadDataPort 4]> (commands r)) |>;
  stack := replicate 30 (cmd kPS2C_ReadDataPort 0);
  hid := {| kIOHIDScrollResolutionKey := "HIDScrollResolution"; kIOHIDScrollAccelerationTypeKey := "HIDScrollAccelerationType";
            kIOHIDPointerAccelerationTypeKey := "HIDPointerAccelerationType";
            kIOHIDMouseAccelerationType := "HIDMouseAcceleration"; kIOHIDTrackpadAccelerationType := "HIDTrackpadAcceleration";
            kIOHIDTrackpadScrollAccelerationKey := "HIDTrackpadScrollAcceleration" |};
|}.
(** No request gets past its first command. *)
Definition silent_pad : FEnv := {|
  uptime := uptime sensing_pad; submit := fun _ r => r <| commandsCount := 0 |>; stack := stack sensing_pad; hid := hid sensing_pad;
|}.

Lemma sensing_submit evs r : length (commands (submit sensing_pad evs r)) = length (commands r).
Proof. simpl. by rewrite !length_insert. Qed.
Lemma silent_submit evs r : length (commands (submit silent_pad evs r)) = length (commands r).
Proof. done. Qed.

Definition sensing_inputs : list FInput :=
  map FByte [0x00; 0x09; 0x05; 0x03; 0x0F] ++ [FDrain; FPower kPS2C_EnableDevice] ++ map FByte [0x08; 0x01].

Lemma sentelic_safe_witness : exists rs w', fsp_life sensing_pad None sensing_inputs fresh = Done (Some rs, w') /\
  (fsession sensing_inputs 3 [] [] rs \/ fsession sensing_inputs 4 [] [] rs).
Proof.
  destruct (sentelic_safe sensing_pad sensing_submit eq_refl None sensing_inputs) as (m & w' & E & _ & Hm).
  destruct m as [rs|]; [exists rs, w'; destruct Hm as [Hm _]; split; [exact E|exact Hm]|]. exfalso.
  assert (match fsp_life sensing_pad None sensing_inputs fresh with Done (Some _, _) => true | _ => false end = true) as H
    by (vm_compute; reflexivity).
  rewrite E in H. discriminate.
Defined.

Lemma register_roundtrip_witness : exists r' w',
  fsp_reg_write sensing_pad true (stackRequest sensing_pad) 0x31 200 fresh = Done (r', w') /\ sent w' = [0xf3; 0x55; 0x31; 0xf3; 0x44; 0x8C].
Proof.
  destruct (register_roundtrip sensing_pad sensing_submit (stackRequest sensing_pad) 0x31 200 fresh) as (r' & w' & s1 & v1 & s2 & v2 & E & _).
  { reflexivity. } { unfold is_u8; lia. } { unfold is_u8; lia. }
  exists r', w'. split; [exact E|].
  assert (match fsp_reg_write sensing_pad true (stackRequest sensing_pad) 0x31 200 fresh with Done (_, w) => sent w | _ => [] end =
    [0xf3; 0x55; 0x31; 0xf3; 0x44; 0x8C]) as H by (vm_compute; reflexivity).
  rewrite E in H. exact H.
Defined.

Lemma failed_read_sends_reset_witness : exists r' w',
  fsp_write_enable silent_pad true (stackRequest silent_pad) true fresh = Done (r', w') /\
  sent w' = [0xf3; 0x66; 0x88; 0xf3; 0x66; 0x10; 0xf3; 0x55; 0x10; 0xf3; 0x33; 0xFF].
Proof.
  destruct (failed_read_sends_reset silent_pad silent_submit (stackRequest silent_pad) fresh) as (r' & w' & E & Hs).
  { intros evs r. reflexivity. } { reflexivity. }
  exists r', w'. split; [exact E|exact Hs].
Defined.
