(* ===== verification/AcpiNub.v ===== *)
(** * AcpiNub: AppleACPIPS2Nub

    src/VoodooPS2Controller/AppleACPIPS2Nub.cpp/.h: the nub that gives the
    controller one provider for the two ACPI devices of keyboard and mouse.  It
    publishes the interrupts of both and translates the legacy interrupt numbers
    of its clients into indices of what it published; messages go to every
    interested service below it. *)

From S2P Require Import Prelude Config.
From Stdlib Require String.

#[local] Open Scope string_scope.
#[local] Open Scope list_scope.
#[local] Open Scope Z_scope.

(** ** State *)

Definition kIOReturnSuccess : Z := 0.
Definition LEGACY_KEYBOARD_IRQ : Z := 1.
Definition LEGACY_MOUSE_IRQ : Z := 12.

(** An ACPI device: its interrupt controllers and specifiers (objects by their
    identity), and is it in the power plane. *)
Record Provider := mkProvider {
  controllers : option (list positive);
  specifiers : option (list positive);
  inPowerPlane : bool;
}.

Record AppleACPIPS2Nub := mkNub {
  m_mouseProvider : option Provider;
  m_interruptControllers : option (list positive);
  m_interruptSpecifiers : option (list positive);
  publishedControllers : option (list positive);   (* properties of the nub *)
  publishedSpecifiers : option (list positive);
}.
#[export] Instance AppleACPIPS2Nub_eta : Settable AppleACPIPS2Nub := mkSettable _ (fun r =>
  mkNub (m_mouseProvider r) (m_interruptControllers r) (m_interruptSpecifiers r) (publishedControllers r) (publishedSpecifiers r)).

Inductive NEvent :=
| NPMinit
| NRegisterPowerDriver
| NJoinPMtree (mouse : bool)
| NSleep (ms : Z)
| NAttachMouse
| NSetName (name : string)
| NRegisterService
| NMessage (service : positive) (type : Z).

Record NWorld := mkNWorld { nub : AppleACPIPS2Nub; nevs : list NEvent }.
#[export] Instance NWorld_eta : Settable NWorld := mkSettable _ (fun w => mkNWorld (nub w) (nevs w)).

(** What an entry of the ACPI plane is: does its name match, and the service. *)
Record Entry := mkEntry { compareNames : bool; asService : option Provider }.

Inductive InterruptOp := OpRegister | OpUnregister | OpType | OpEnable | OpDisable.

Record NEnv := {
  nub_start : bool;                                   (* super::start *)
  alloc_controllers : bool;
  alloc_specifiers : bool;
  findMouseDelay_property : option OSObject;          (* getProperty("FindMouseDelay") *)
  findMouseDelay_bootarg : option Z;
  acpiPlane : option (list Entry);                    (* what the iterator yields *)
  attach : bool;
  super_interrupt : InterruptOp -> Z -> Z;            (* IOPlatformDevice's methods *)
  kIOReturnBadArgument : Z;
  servicePlane : option (list (option positive * bool));  (* below the nub: service, kDeliverNotifications *)
}.

Section nub.
  Context (env : NEnv).
  Notation "'prog' A" := (M NWorld A) (at level 10, A at next level).

Definition nemit (e : NEvent) : prog unit := modify (fun w => w <| nevs := nevs w ++ [e] |>).
Definition getn {A} (f : AppleACPIPS2Nub -> A) : prog A := gets (fun w => f (nub w)).
Definition setn (f : AppleACPIPS2Nub -> AppleACPIPS2Nub) : prog unit := modify (fun w => w <| nub := f (nub w) |>).

(** [array->setObject(x)] through a pointer that must not be null. *)
Definition append (a : option (list positive)) (x : positive) : outcome (option (list positive)) :=
  match a with Some l => Done (Some (l ++ [x])) | None => Undef end.

Definition mergeInterruptProperties (pnpProvider : Provider) : prog unit :=
  match controllers pnpProvider, specifiers pnpProvider with
  | Some (c :: _), Some (s :: _) =>
      n ← getn id;
      cs ← lift (append (m_interruptControllers n) c);
      ss ← lift (append (m_interruptSpecifiers n) s);
      setn (fun n => n <| m_interruptControllers := cs |> <| m_interruptSpecifiers := ss |>)
  | _, _ => mret tt
  end.

(** The first entry with the name, if it is a service. *)
Definition findMouseDevice : prog (option Provider) :=
  let delay := match findMouseDelay_property env ≫= asNumber with Some n => u32 n | None => 100 end in
  let delay := match findMouseDelay_bootarg env with Some n => u32 n | None => delay end in
  when (negb (delay =? 0)) (nemit (NSleep delay));;
  match acpiPlane env with
  | Some entries => mret (List.find compareNames entries ≫= asService)
  | None => mret None
  end.

Definition start (provider : Provider) : prog bool :=
  if negb (nub_start env) then mret false else
  setn (fun n => n <| m_interruptControllers := if alloc_controllers env then Some [] else None |>
                   <| m_interruptSpecifiers := if alloc_specifiers env then Some [] else None |>);;
  if negb (alloc_controllers env) || negb (alloc_specifiers env) then mret false
  else
    mergeInterruptProperties provider;;
    nemit NPMinit;;
    nemit NRegisterPowerDriver;;
    nemit (NJoinPMtree false);;
    mouse ← findMouseDevice;
    setn (fun n => n <| m_mouseProvider := mouse |>);;
    match mouse with
    | Some m =>
        nemit NAttachMouse;;
        when (attach env) (mergeInterruptProperties m;; when (inPowerPlane m) (nemit (NJoinPMtree true)))
    | None => mret tt
    end;;
    n ← getn id;
    match m_interruptControllers n, m_interruptSpecifiers n with
    | Some cs, Some ss =>
        when (negb (length cs =? 0)%nat && negb (length ss =? 0)%nat)
          (setn (fun n => n <| publishedControllers := Some cs |> <| publishedSpecifiers := Some ss |>))
    | _, _ => undef
    end;;
    setn (fun n => n <| m_interruptControllers := None |> <| m_interruptSpecifiers := None |>);;
    nemit (NSetName "ps2controller");;
    nemit NRegisterService;;
    mret true.

(** ** Interrupts: legacy numbers of the clients *)

Definition translate (source : Z) : option Z :=
  if source =? LEGACY_KEYBOARD_IRQ then Some 0 else if source =? LEGACY_MOUSE_IRQ then Some 1 else None.
Definition interrupt (op : InterruptOp) (source : Z) : Z :=
  match translate source with Some i => super_interrupt env op i | None => kIOReturnBadArgument env end.

Definition registerInterrupt : Z -> Z := interrupt OpRegister.
Definition unregisterInterrupt : Z -> Z := interrupt OpUnregister.
Definition getInterruptType : Z -> Z := interrupt OpType.
Definition enableInterrupt : Z -> Z := interrupt OpEnable.
Definition disableInterrupt : Z -> Z := interrupt OpDisable.

(** The names are the registry's; there are no resources to find. *)
Definition getResources : Z := kIOReturnSuccess.

(** [message]: to every service below that wants notifications. *)
Definition message (type : Z) : prog unit :=
  match servicePlane env with
  | Some entries =>
      forM_ entries (fun '(service, deliver) =>
        match service with Some s => when deliver (nemit (NMessage s type)) | None => mret tt end)
  | None => mret tt
  end.
End nub.

Definition nub0 : NWorld := mkNWorld (mkNub None None None None None) [].

(** ** What the clients' interrupts are *)

(** The interrupt a device brings in. *)
Definition first_interrupt (p : Provider) : list (positive * positive) :=
  match controllers p, specifiers p with
  | Some (c :: _), Some (s :: _) => [(c, s)]
  | _, _ => []
  end.

(** The mouse, when it is found and the nub could attach to it. *)
Definition mouse_of (env : NEnv) : option Provider :=
  if attach env then entries ← acpiPlane env; List.find compareNames entries ≫= asService else None.

(** The published interrupt behind a legacy number. *)
Definition wired (n : AppleACPIPS2Nub) (source : Z) : option (positive * positive) :=
  i ← translate source;
  cs ← publishedControllers n; ss ← publishedSpecifiers n;
  c ← cs !! Z.to_nat i; s ← ss !! Z.to_nat i; Some (c, s).

(** Everything merged, keyboard first. *)
Definition merged (env : NEnv) (keyboard : Provider) : list (positive * positive) :=
  first_interrupt keyboard ++ match mouse_of env with Some m => first_interrupt m | None => [] end.

(** The arrays of the nub hold the pairs. *)
Definition arrays (n : AppleACPIPS2Nub) (l : list (positive * positive)) : Prop :=
  m_interruptControllers n = Some (l.*1) /\ m_interruptSpecifiers n = Some (l.*2).

Lemma merge_ok p w l : arrays (nub w) l -> exists n', mergeInterruptProperties p w = Done (tt, w <| nub := n' |>) /\
  arrays n' (l ++ first_interrupt p) /\ publishedControllers n' = publishedControllers (nub w) /\ publishedSpecifiers n' = publishedSpecifiers (nub w) /\
  m_mouseProvider n' = m_mouseProvider (nub w).
Proof.
  intros [Hc Hs]. unfold mergeInterruptProperties, first_interrupt.
  destruct (controllers p) as [[|c cs]|], (specifiers p) as [[|s ss]|];
    try (exists (nub w); rewrite app_nil_r; split; [by destruct w|done]).
  unfold getn, setn. munfold. unfold id. rewrite Hc, Hs. munfold. eexists. split; [reflexivity|].
  split; [|done]. unfold arrays. rewrite !fmap_app. done.
Qed.

(** What [start] has published when it looks at its arrays. *)
Definition published (n : AppleACPIPS2Nub) (l : list (positive * positive)) : Prop :=
  match l with
  | [] => publishedControllers n = None /\ publishedSpecifiers n = None
  | _ => publishedControllers n = Some (l.*1) /\ publishedSpecifiers n = Some (l.*2)
  end.

Lemma published_wired n l : published n l ->
  wired n LEGACY_KEYBOARD_IRQ = l !! 0%nat /\ wired n LEGACY_MOUSE_IRQ = l !! 1%nat.
Proof.
  destruct l as [|[c s] [|[c' s'] l]]; intros [Hc Hs]; unfold wired; rewrite Hc, Hs; done.
Qed.

(** Looking for the mouse changes nothing of the nub. *)
Lemma find_ok env w : exists w', findMouseDevice env w = Done ((entries ← acpiPlane env; List.find compareNames entries ≫= asService), w') /\ nub w' = nub w.
Proof.
  unfold findMouseDevice. set (d := match findMouseDelay_bootarg env with Some n => u32 n | None => _ end).
  unfold when, nemit. destruct (d =? 0), (acpiPlane env); munfold; eexists; by split.
Qed.

Lemma start_publishes env keyboard : nub_start env = true -> alloc_controllers env = true -> alloc_specifiers env = true ->
  exists w', start env keyboard nub0 = Done (true, w') /\ published (nub w') (merged env keyboard) /\
    m_interruptControllers (nub w') = None /\ m_interruptSpecifiers (nub w') = None.
Proof.
  intros Hst Hc Hs. unfold start. rewrite Hst, Hc, Hs. cbn [negb orb].
  pose (w1 := nub0 <| nub := (nub nub0) <| m_interruptControllers := Some [] |> <| m_interruptSpecifiers := Some [] |> |>).
  rewrite (bind_done _ _ nub0 tt w1) by done.
  destruct (merge_ok keyboard w1 []) as (n2 & E2 & A2 & P2 & Q2 & _); [done|]. rewrite (bind_done _ _ _ _ _ E2).
  set (w2 := w1 <| nub := n2 |>). do 3 (erewrite bind_done by reflexivity). set (w3 := _ <| nevs := _ |>).
  destruct (find_ok env w3) as (w4 & E4 & N4). rewrite (bind_done _ _ _ _ _ E4). set (mouse := acpiPlane env ≫= _).
  pose (w5 := w4 <| nub := (nub w4) <| m_mouseProvider := mouse |> |>). rewrite (bind_done _ _ w4 tt w5) by done.
  assert (arrays (nub w5) (first_interrupt keyboard) /\ publishedControllers (nub w5) = None /\ publishedSpecifiers (nub w5) = None) as (A5 & P5 & Q5).
  { simpl. rewrite N4. simpl. split; [exact A2|]. by rewrite P2, Q2. }
  assert (exists w6, match mouse with
    | Some m => nemit NAttachMouse;; when (attach env) (mergeInterruptProperties m;; when (inPowerPlane m) (nemit (NJoinPMtree true)))
    | None => mret tt end w5 = Done (tt, w6) /\ arrays (nub w6) (merged env keyboard) /\ publishedControllers (nub w6) = None /\ publishedSpecifiers (nub w6) = None)
    as (w6 & E6 & [A6 B6] & P6 & Q6).
  { unfold merged, mouse_of. fold mouse. destruct mouse as [m|]; [|exists w5; split; [done|]; destruct (attach env); rewrite app_nil_r; by split].
    pose (w5' := w5 <| nevs := nevs w5 ++ [NAttachMouse] |>). rewrite (bind_done _ _ w5 tt w5') by done.
    destruct (attach env); [|exists w5'; rewrite app_nil_r; by split].
    destruct (merge_ok m w5' _ A5) as (n6 & E6 & A6 & P6 & Q6 & _). cbn [when]. rewrite (bind_done _ _ _ _ _ E6).
    unfold when, nemit. destruct (inPowerPlane m); munfold; (eexists; split; [reflexivity|]); (split; [exact A6|]); simpl; by rewrite P6, Q6. }
  rewrite (bind_done _ _ _ _ _ E6), (bind_done _ _ w6 (nub w6) w6) by done. rewrite A6, B6.
  unfold when, setn, nemit. destruct (merged env keyboard) as [|[c s] l]; simpl; munfold; (eexists; split; [reflexivity|]); by split.
Qed.

(** C27: The nub publishes the first interrupt of the keyboard's device and then
    the mouse's, so the legacy numbers 1 and 12 mean them; any other number is
    refused by every operation.  When the keyboard's device has no interrupt, the
    mouse's moves up: number 1 is then the interrupt of the mouse, and 12 is
    nothing. *)
Theorem nub_routing env keyboard : nub_start env = true -> alloc_controllers env = true -> alloc_specifiers env = true ->
  let mouse := match mouse_of env with Some m => first_interrupt m | None => [] end in
  exists w', start env keyboard nub0 = Done (true, w') /\
    (forall k, first_interrupt keyboard = [k] ->
       wired (nub w') LEGACY_KEYBOARD_IRQ = Some k /\ wired (nub w') LEGACY_MOUSE_IRQ = mouse !! 0%nat) /\
    (first_interrupt keyboard = [] ->
       wired (nub w') LEGACY_KEYBOARD_IRQ = mouse !! 0%nat /\ wired (nub w') LEGACY_MOUSE_IRQ = None) /\
    (forall op source, source <> LEGACY_KEYBOARD_IRQ -> source <> LEGACY_MOUSE_IRQ -> interrupt env op source = kIOReturnBadArgument env).
Proof.
  intros Hst Hc Hs mouse. destruct (start_publishes env keyboard Hst Hc Hs) as (w' & E & Hp & _). exists w'. split; [done|].
  apply published_wired in Hp as [H1 H2]. unfold merged in H1, H2. fold mouse in H1, H2.
  assert (length mouse <= 1)%nat as Hm.
  { unfold mouse, first_interrupt. destruct (mouse_of env) as [m|]; [|simpl; lia]. repeat case_match; simpl; lia. }
  split; [|split].
  - intros k Hk. rewrite H1, H2, Hk. by destruct mouse.
  - intros Hk. rewrite H1, H2, Hk. simpl. split; [done|]. apply lookup_ge_None_2. lia.
  - intros op source N1 N2. unfold interrupt, translate. by rewrite (proj2 (Z.eqb_neq _ _) N1), (proj2 (Z.eqb_neq _ _) N2).
Qed.

(** A laptop with one device each. *)
Definition laptop : NEnv := {|
  nub_start := true;
  alloc_controllers := true; alloc_specifiers := true; findMouseDelay_property := None; findMouseDelay_bootarg := None;
  acpiPlane := Some [mkEntry false None; mkEntry true (Some (mkProvider (Some [7%positive]) (Some [12%positive]) true))];
  attach := true; super_interrupt := fun _ i => i; kIOReturnBadArgument := -1; servicePlane := None;
|}.

Lemma nub_routing_witness : exists w',
  start laptop (mkProvider (Some [7%positive]) (Some [1%positive]) true) nub0 = Done (true, w') /\
  wired (nub w') LEGACY_KEYBOARD_IRQ = Some (7%positive, 1%positive) /\ wired (nub w') LEGACY_MOUSE_IRQ = Some (7%positive, 12%positive).
Proof.
  destruct (nub_routing laptop (mkProvider (Some [7%positive]) (Some [1%positive]) true)) as (w' & E & H & _); [reflexivity|reflexivity|reflexivity|].
  exists w'. split; [exact E|]. exact (H (7%positive, 1%positive) eq_refl).
Defined.
