(* ===== verification/Daemon.v ===== *)
(** * Daemon: the process that counts USB mice

    src/VoodooPS2Daemon/main.cpp: a daemon that asks IOKit for the USB mice of
    the machine and tells the touchpad or mouse driver how many there are.  Its
    global variables are the record [Globals], its callbacks definitions in the
    state monad; [main] includes the calls IOKit makes from the run loop. *)

From S2P Require Import Prelude.
From Stdlib Require String.
From Stdlib Require Import Ascii.

#[local] Open Scope string_scope.
#[local] Open Scope list_scope.
#[local] Open Scope Z_scope.

(** ** State *)

(** [g_ioservice] is the driver that is told; [interests] are the notifications
    asked for and not released, with the interface each is about. *)
Record Globals := mkGlobals {
  g_MouseCount : Z;
  g_ioservice : option string;
  g_startupDelay : Z;
  g_notificationDelay : Z;
  g_AddedIter : bool;
  interests : list positive;
  lost : nat;                     (* [NotificationData] nobody frees *)
}.
#[export] Instance Globals_eta : Settable Globals := mkSettable _ (fun r =>
  mkGlobals (g_MouseCount r) (g_ioservice r) (g_startupDelay r) (g_notificationDelay r) (g_AddedIter r) (interests r) (lost r)).

Definition globals0 : Globals := mkGlobals 0 None 1000000 20000 false [] 0.

Inductive DEvent :=
| DSetProperty (service : string) (key : string) (n : Z)   (* IORegistryEntrySetCFProperty *)
| DSleep (us : Z)
| DExit.

Record DWorld := mkDWorld { glob : Globals; devs : list DEvent }.
#[export] Instance DWorld_eta : Settable DWorld := mkSettable _ (fun w => mkDWorld (glob w) (devs w)).

(** What the daemon asks the system: the numeric properties of an interface, is
    memory to be had and is the request for notifications granted, which drivers
    are there, do matching and its notification work. *)
Record DEnv := {
  property : positive -> string -> option Z;
  malloc_ok : positive -> bool;
  interest_ok : positive -> bool;
  matching : string -> bool;
  matchingDict_ok : bool;
  notification_ok : bool;
  kIOMessageServiceIsTerminated : Z;
}.

Section daemon.
  Context (env : DEnv).
  Notation "'prog' A" := (M DWorld A) (at level 10, A at next level).

Definition demit (e : DEvent) : prog unit := modify (fun w => w <| devs := devs w ++ [e] |>).
Definition getg {A} (f : Globals -> A) : prog A := gets (fun w => f (glob w)).
Definition setg (f : Globals -> Globals) : prog unit := modify (fun w => w <| glob := f (glob w) |>).

Definition SendMouseCount (nCount : Z) : prog unit :=
  s ← getg g_ioservice;
  match s with
  | Some s => demit (DSetProperty s "MouseCount" nCount)
  | None => mret tt
  end.

(** ** Mice that come and go *)

(** The notification for [service]; [remove_one] releases its interest. *)
Fixpoint remove_one (x : positive) (l : list positive) : list positive :=
  match l with
  | [] => []
  | y :: l => if bool_decide (x = y) then l else y :: remove_one x l
  end.
Definition DeviceNotification (service : positive) (messageType : Z) : prog unit :=
  if kIOMessageServiceIsTerminated env =? messageType then
    g ← getg id;
    when (negb (g_MouseCount g =? 0)) (setg (fun g => g <| g_MouseCount := s32 (g_MouseCount g - 1) |>));;
    setg (fun g => g <| interests := remove_one service (interests g) |>);;
    n ← getg g_MouseCount;
    SendMouseCount n
  else mret tt.

Definition GetNumericProperty (service : positive) (name : string) : Z := u64 (default 0 (property env service name)).

Definition is_mouse (service : positive) : bool :=
  (GetNumericProperty service "bInterfaceClass" =? 3) && (GetNumericProperty service "bInterfaceSubClass" =? 1) &&
  (GetNumericProperty service "bInterfaceProtocol" =? 2).

Definition CheckForMouseAndRegisterInterest (service : positive) : prog unit :=
  if is_mouse service && malloc_ok env service then
    if interest_ok env service then
      setg (fun g => g <| interests := service :: interests g |> <| g_MouseCount := s32 (g_MouseCount g + 1) |>)
    else setg (fun g => g <| lost := S (lost g) |>)
  else mret tt.

Definition InterfaceAdded (iter1 : list positive) : prog unit :=
  d ← getg g_notificationDelay;
  demit (DSleep d);;
  oldMouseCount ← getg g_MouseCount;
  forM_ iter1 CheckForMouseAndRegisterInterest;;
  n ← getg g_MouseCount;
  when (negb (oldMouseCount =? n)) (SendMouseCount n).

Definition SignalHandler1 : prog unit :=
  SendMouseCount 0;;
  SendMouseCount (-1);;
  setg (fun g => g <| g_AddedIter := false |> <| g_ioservice := None |>);;
  demit DExit.

(** ** main *)

(** [atoi]: blanks, a sign, digits; a value that is not an [int] is not defined. *)
Fixpoint digits (acc : Z) (s : string) : Z :=
  match s with
  | String.String c s =>
      let d := Z.of_N (N_of_ascii c) - 48 in
      if (0 <=? d) && (d <=? 9) then digits (10 * acc + d) s else acc
  | String.EmptyString => acc
  end.
Fixpoint skip_blanks (s : string) : string :=
  match s with
  | String.String c s' =>
      let n := Z.of_N (N_of_ascii c) in
      if (n =? 32) || ((9 <=? n) && (n <=? 13)) then skip_blanks s' else s
  | String.EmptyString => s
  end.
Definition atoi (s : string) : outcome Z :=
  let n := match skip_blanks s with
           | String.String "-"%char s' => - digits 0 s'
           | String.String "+"%char s' => digits 0 s'
           | s' => digits 0 s'
           end in
  if (-2147483648 <=? n) && (n <=? 2147483647) then Done n else Undef.

(** [0 == strcmp(argv[i], s)]; [argv[argc]] is null, and comparing it is not defined. *)
Definition arg_is (argv : list string) (i : nat) (s : string) : prog bool :=
  match argv !! i with
  | Some a => mret (bool_decide (a = s))
  | None => undef
  end.

(** One option with its value: the index after it. *)
Definition option_value (argv : list string) (i : nat) (name : string) (set : Z -> Globals -> Globals) : prog nat :=
  found ← arg_is argv i name;
  if found : bool then
    match argv !! S i with
    | Some a => n ← lift (atoi a); setg (set n);; mret (S i)
    | None => mret (S i)
    end
  else mret i.

(** [for (int i = 1; i < argc; i++)], with at most [n] iterations. *)
Fixpoint parse_arguments (n : nat) (argv : list string) (i : nat) : prog unit :=
  if (i <? length argv)%nat then
    match n with
    | O => nofuel
    | S n =>
        i ← option_value argv i "--startupDelay" (fun v g => g <| g_startupDelay := v |>);
        i ← option_value argv i "--notificationDelay" (fun v g => g <| g_notificationDelay := v |>);
        parse_arguments n argv (S i)
    end
  else mret tt.

(** What happens after [CFRunLoopRun]: interfaces appear, notifications arrive. *)
Inductive DInput :=
| Added (services : list positive)
| Notified (service : positive) (messageType : Z).

Definition callback (i : DInput) : prog unit :=
  match i with
  | Added l => InterfaceAdded l
  | Notified s t => DeviceNotification s t
  end.

(** [main] up to the run loop: false when it returned -1. *)
Definition main_setup (argv : list string) (present : list positive) : prog bool :=
  parse_arguments (length argv) argv 1;;
  d ← getg g_startupDelay;
  demit (DSleep d);;
  let driver := if matching env "ApplePS2SynapticsTouchPad" then Some "ApplePS2SynapticsTouchPad"
                else if matching env "ApplePS2Mouse" then Some "ApplePS2Mouse" else None in
  setg (fun g => g <| g_ioservice := driver |>);;
  match driver with
  | None => mret false
  | Some _ =>
      if negb (matchingDict_ok env) then mret false
      else if negb (notification_ok env) then mret false
      else
        setg (fun g => g <| g_AddedIter := true |>);;
        InterfaceAdded present;;
        mret true
  end.

Definition main (argv : list string) (present : list positive) (ins : list DInput) : prog bool :=
  ok ← main_setup argv present;
  if ok : bool then forM_ ins callback;; mret true else mret false.
End daemon.

(** ** The count is right and the driver knows it *)

(** The count the driver was told last; it starts from none. *)
Definition told (evs : list DEvent) : Z :=
  fold_left (fun n e => match e with DSetProperty _ "MouseCount" m => m | _ => n end) evs 0.

Lemma told_snoc evs e : told (evs ++ [e]) = match e with DSetProperty _ "MouseCount" m => m | _ => told evs end.
Proof. unfold told. by rewrite fold_left_app. Qed.

Section counting.
  Context (env : DEnv).

(** The mice whose removal IOKit will report. *)
Definition watched (s : positive) : bool := is_mouse env s && malloc_ok env s && interest_ok env s.
Definition track (l : list positive) (services : list positive) : list positive :=
  fold_left (fun l s => if watched s then s :: l else l) services l.

(** Notifications come for interfaces that are watched. *)
Fixpoint legal (l : list positive) (ins : list DInput) : Prop :=
  match ins with
  | [] => True
  | Added ss :: ins => legal (track l ss) ins
  | Notified s t :: ins => s ∈ l /\ legal (if kIOMessageServiceIsTerminated env =? t then remove_one s l else l) ins
  end.
Fixpoint tracked (l : list positive) (ins : list DInput) : list positive :=
  match ins with
  | [] => l
  | Added ss :: ins => tracked (track l ss) ins
  | Notified s t :: ins => tracked (if kIOMessageServiceIsTerminated env =? t then remove_one s l else l) ins
  end.

(** How many interfaces appear. *)
Definition appearing (ins : list DInput) : nat := sum_list (map (fun i => match i with Added ss => length ss | Notified _ _ => 0%nat end) ins).

Record counts (driver : string) (l : list positive) (w : DWorld) : Prop := {
  ct_driver : g_ioservice (glob w) = Some driver;
  ct_interests : interests (glob w) = l;
  ct_count : g_MouseCount (glob w) = Z.of_nat (length l);
  ct_told : told (devs w) = g_MouseCount (glob w);
}.

Lemma length_track l ss : (length l <= length (track l ss) <= length l + length ss)%nat.
Proof.
  revert l. induction ss as [|s ss IH]; intros l; simpl; [lia|]. specialize (IH (if watched s then s :: l else l)).
  change (fold_left _ ss ?l) with (track l ss) in *. destruct (watched s); simpl in *; lia.
Qed.

Lemma length_remove_one s l : s ∈ l -> S (length (remove_one s l)) = length l.
Proof.
  induction l as [|y l IH]; [by intros ?%elem_of_nil|]. intros Hs. simpl. case_bool_decide as E; [done|].
  apply elem_of_cons in Hs as [?|Hs]; [done|]. simpl. by rewrite IH.
Qed.

(** Registration alone: nothing is sent yet. *)
Lemma register_all ss w : Z.of_nat (length (interests (glob w)) + length ss) < 2147483648 ->
  g_MouseCount (glob w) = Z.of_nat (length (interests (glob w))) ->
  exists w', forM_ ss (CheckForMouseAndRegisterInterest env) w = Done (tt, w') /\ devs w' = devs w /\
    g_ioservice (glob w') = g_ioservice (glob w) /\ interests (glob w') = track (interests (glob w)) ss /\
    g_MouseCount (glob w') = Z.of_nat (length (interests (glob w'))).
Proof.
  revert w. induction ss as [|s ss IH]; intros w Hb Hc; [by exists w|]. cbn [forM_ track fold_left length] in *.
  change (fold_left _ ss ?l) with (track l ss). unfold watched.
  assert (exists w1, CheckForMouseAndRegisterInterest env s w = Done (tt, w1) /\ devs w1 = devs w /\ g_ioservice (glob w1) = g_ioservice (glob w) /\
    interests (glob w1) = (if is_mouse env s && malloc_ok env s && interest_ok env s then s :: interests (glob w) else interests (glob w)) /\
    g_MouseCount (glob w1) = Z.of_nat (length (interests (glob w1)))) as (w1 & E1 & D1 & S1 & I1 & C1).
  { unfold CheckForMouseAndRegisterInterest, setg. destruct (is_mouse env s && malloc_ok env s); [destruct (interest_ok env s)|];
      munfold; eexists; (split; [reflexivity|]); simpl; repeat (split; [done|]); [|done|done].
    rewrite Hc. unfold s32. rewrite Z.mod_small; lia. }
  rewrite (bind_done _ _ _ _ _ E1). destruct (IH w1) as (w2 & E2 & D2 & S2 & I2 & C2); [rewrite I1; case_match; simpl; lia|done|].
  exists w2. split; [done|]. split; [congruence|]. split; [congruence|]. split; [by rewrite I2, I1|done].
Qed.

Lemma added_ok driver l ss w : counts driver l w -> Z.of_nat (length l + length ss) < 2147483648 ->
  exists w', InterfaceAdded env ss w = Done (tt, w') /\ counts driver (track l ss) w'.
Proof.
  intros [Hd Hi Hc Ht] Hb. unfold InterfaceAdded, getg, demit. munfold. set (w0 := w <| devs := _ |>).
  destruct (register_all ss w0) as (w1 & E1 & D1 & S1 & I1 & C1); [simpl; by rewrite Hi|simpl; by rewrite Hi|].
  rewrite E1. unfold when. simpl. simpl in I1, S1. rewrite Hi in I1.
  assert (told (devs w1) = g_MouseCount (glob w)) as Ht1 by (rewrite D1; simpl; by rewrite told_snoc).
  destruct (Z.eqb_spec (g_MouseCount (glob w)) (g_MouseCount (glob w1))) as [E|E]; simpl.
  - exists w1. split; [done|]. split; [by rewrite S1|done|by rewrite C1, I1|by rewrite Ht1].
  - unfold SendMouseCount, getg, demit. munfold. rewrite S1, Hd. munfold. eexists. split; [reflexivity|].
    split; simpl; [by rewrite S1|done|by rewrite C1, I1|by rewrite told_snoc].
Qed.

Lemma notified_ok driver l s t w : counts driver l w -> Z.of_nat (length l) < 2147483648 -> s ∈ l ->
  exists w', DeviceNotification env s t w = Done (tt, w') /\
    counts driver (if kIOMessageServiceIsTerminated env =? t then remove_one s l else l) w'.
Proof.
  intros Hw Hb Hs. pose proof Hw as [Hd Hi Hc Ht]. unfold DeviceNotification. destruct (_ =? t); [|by exists w].
  pose proof (length_remove_one s l Hs) as Hl. unfold SendMouseCount, getg, setg, demit, when. munfold. unfold id.
  rewrite (proj2 (Z.eqb_neq _ _)) by lia. cbn. rewrite Hd. eexists. split; [reflexivity|].
  split; simpl; [done|by rewrite Hi| |by rewrite told_snoc]. rewrite Hc. unfold s32. rewrite Z.mod_small; lia.
Qed.

Lemma appearing_cons i ins : appearing (i :: ins) = (match i with Added ss => length ss | Notified _ _ => 0 end + appearing ins)%nat.
Proof. by destruct i. Qed.

Lemma callbacks_ok driver ins l w : counts driver l w -> legal l ins -> Z.of_nat (length l + appearing ins) < 2147483648 ->
  exists w', forM_ ins (callback env) w = Done (tt, w') /\ counts driver (tracked l ins) w'.
Proof.
  revert l w. induction ins as [|i ins IH]; intros l w Hw Hl Hb; [by exists w|]. rewrite appearing_cons in Hb.
  destruct i as [ss|s t]; cbn [forM_ tracked legal callback] in *.
  - destruct (added_ok driver l ss w Hw) as (w1 & E1 & Hw1); [lia|]. rewrite (bind_done _ _ _ _ _ E1).
    apply IH; [done|done|]. pose proof (length_track l ss). lia.
  - destruct Hl as [Hs Hl]. destruct (notified_ok driver l s t w Hw) as (w1 & E1 & Hw1); [lia|done|]. rewrite (bind_done _ _ _ _ _ E1).
    apply IH; [done|done|]. destruct (_ =? t); [|lia]. pose proof (length_remove_one s l Hs). lia.
Qed.

(** Reading the arguments changes the delays at most. *)
Definition delays_only (w w' : DWorld) : Prop :=
  devs w' = devs w /\ exists a b, glob w' = (glob w) <| g_startupDelay := a |> <| g_notificationDelay := b |>.
#[local] Instance delays_preorder : PreOrder delays_only.
Proof.
  split.
  - intros [[] ?]. split; [done|]. by do 2 eexists.
  - intros w1 w2 w3 [E1 (a1 & b1 & G1)] [E2 (a2 & b2 & G2)]. split; [congruence|]. exists a2, b2. rewrite G2, G1. by destruct (glob w1).
Qed.

Lemma option_value_pres argv i name f w i' w' :
  (forall v g, exists a b, f v g = g <| g_startupDelay := a |> <| g_notificationDelay := b |>) ->
  option_value argv i name f w = Done (i', w') -> delays_only w w'.
Proof.
  intros Hf. unfold option_value, arg_is. destruct (argv !! i); [|done]. munfold. case_bool_decide; [|intros [= <- <-]; reflexivity].
  destruct (argv !! S i) as [a|]; [|intros [= <- <-]; reflexivity]. unfold setg. munfold. destruct (atoi a) as [v| |]; [|done|done].
  intros [= <- <-]. split; [done|]. apply Hf.
Qed.

Lemma parse_pres n argv i w w' : parse_arguments n argv i w = Done (tt, w') -> delays_only w w'.
Proof.
  revert i w. induction n as [|n IH]; intros i w; cbn [parse_arguments]; destruct (i <? length argv)%nat; try done; [intros [= <-]; reflexivity| |intros [= <-]; reflexivity].
  intros H. apply bind_done_inv in H as (i1 & w1 & E1 & H). apply bind_done_inv in H as (i2 & w2 & E2 & H). apply IH in H.
  etrans; [|etrans; [|exact H]]; [eapply option_value_pres; [|exact E1]|eapply option_value_pres; [|exact E2]]; intros v g.
  - exists v, (g_notificationDelay g). by destruct g.
  - exists (g_startupDelay g), v. by destruct g.
Qed.

(** The driver to talk to. *)
Definition driver_of : option string :=
  if matching env "ApplePS2SynapticsTouchPad" then Some "ApplePS2SynapticsTouchPad"
  else if matching env "ApplePS2Mouse" then Some "ApplePS2Mouse" else None.

Definition daemon0 : DWorld := mkDWorld globals0 [].

(** C28: Once the arguments are read, and as long as notifications come for the
    interfaces they were asked for, the daemon either finds nobody to talk to and
    returns -1 without a message, or counts exactly the USB mice that appeared and
    did not go, and the driver, the touchpad's if there is one, was last told that
    number. *)
Theorem daemon_counts argv present ins w1 :
  parse_arguments (length argv) argv 1 daemon0 = Done (tt, w1) -> legal (track [] present) ins ->
  Z.of_nat (length present + appearing ins) < 2147483648 ->
  exists ok w', main env argv present ins daemon0 = Done (ok, w') /\
    match driver_of with
    | Some driver => if matchingDict_ok env && notification_ok env
                     then ok = true /\ counts driver (tracked (track [] present) ins) w' else ok = false
    | None => ok = false /\ told (devs w') = 0
    end.
Proof.
  intros E1 Hl Hb. pose proof (parse_pres _ _ _ _ _ E1) as (HD & a & b & HG).
  pose (w2 := w1 <| devs := devs w1 ++ [DSleep (g_startupDelay (glob w1))] |> <| glob := (glob w1) <| g_ioservice := driver_of |> |>).
  assert (told (devs w2) = 0) as Ht by (simpl; by rewrite told_snoc, HD).
  unfold main, main_setup. fold driver_of. rewrite bind_assoc, (bind_done _ _ _ _ _ E1).
  unfold getg at 1, demit at 1, setg at 1. rewrite bind_assoc, (bind_done _ _ w1 (g_startupDelay (glob w1)) w1) by done.
  rewrite bind_assoc, (bind_done _ _ w1 tt (w1 <| devs := devs w1 ++ [DSleep (g_startupDelay (glob w1))] |>)) by done.
  rewrite bind_assoc, (bind_done _ _ _ tt w2) by done. destruct driver_of as [driver|] eqn:Ed; [|by exists false, w2].
  destruct (matchingDict_ok env); [|by exists false, w2]. destruct (notification_ok env); [|by exists false, w2]. simpl negb. cbn iota.
  pose (w3 := w2 <| glob := (glob w2) <| g_AddedIter := true |> |>). rewrite bind_assoc, (bind_done _ _ w2 tt w3) by done.
  assert (counts driver [] w3) as Hw3.
  { split; [done|simpl; by rewrite HG|simpl; by rewrite HG|]. change (devs w3) with (devs w2). rewrite Ht. simpl. by rewrite HG. }
  destruct (added_ok driver [] present w3 Hw3) as (w4 & E4 & Hw4); [simpl; lia|]. rewrite bind_assoc, (bind_done _ _ _ _ _ E4).
  rewrite (bind_done _ _ w4 true w4) by done. pose proof (length_track [] present) as Hlen.
  destruct (callbacks_ok driver ins _ w4 Hw4 Hl) as (w5 & E5 & Hw5); [simpl in Hlen; lia|]. rewrite (bind_done _ _ _ _ _ E5).
  by exists true, w5.
Qed.
End counting.

(** ** Arguments *)

(** Not an option. *)
Definition word (a : string) : Prop := a <> "--startupDelay" /\ a <> "--notificationDelay".

Lemma option_value_word argv i a name f w : argv !! i = Some a -> a <> name -> option_value argv i name f w = Done (i, w).
Proof. intros E Ha. unfold option_value, arg_is. rewrite E. munfold. by rewrite bool_decide_eq_false_2. Qed.

Lemma option_value_last argv i name f w : argv !! i = Some name -> argv !! S i = None -> option_value argv i name f w = Done (S i, w).
Proof. intros E1 E2. unfold option_value, arg_is. rewrite E1. munfold. rewrite bool_decide_eq_true_2 by done. by rewrite E2. Qed.
Lemma option_value_null argv i name f w : argv !! i = None -> option_value argv i name f w = Undef.
Proof. intros E. unfold option_value, arg_is. by rewrite E. Qed.

Lemma parse_trailing n argv i w : Forall word argv -> (i <= length argv)%nat -> (length argv - i < n)%nat ->
  parse_arguments n (argv ++ ["--startupDelay"]) i w = Undef.
Proof.
  intros Hw. revert i. induction n as [|n IH]; intros i Hi Hn; [lia|]. cbn [parse_arguments]. rewrite length_app, (proj2 (Nat.ltb_lt _ _)) by (simpl; lia).
  destruct (decide (i = length argv)) as [->|Hne].
  - assert ((argv ++ ["--startupDelay"]) !! length argv = Some "--startupDelay") as E1 by (by rewrite lookup_app_r, Nat.sub_diag by lia).
    assert ((argv ++ ["--startupDelay"]) !! S (length argv) = None) as E2 by (apply lookup_ge_None_2; rewrite length_app; simpl; lia).
    rewrite (bind_done _ _ _ _ _ (option_value_last _ _ _ _ _ E1 E2)). unfold mbind at 1, M_bind at 1. by rewrite option_value_null.
  - destruct (lookup_lt_is_Some_2 argv i) as [a Ea]; [lia|]. assert ((argv ++ ["--startupDelay"]) !! i = Some a) as E by (by apply lookup_app_l_Some).
    pose proof (Forall_lookup_1 _ _ _ _ Hw Ea) as [H1 H2].
    rewrite (bind_done _ _ _ _ _ (option_value_word _ _ _ _ _ _ E H1)), (bind_done _ _ _ _ _ (option_value_word _ _ _ _ _ _ E H2)). apply IH; lia.
Qed.

(** The option --startupDelay given last, without its value, makes [main]
    compare the null pointer behind the arguments with a string: what it does then
    is not defined, whatever words come before. *)
Theorem option_without_value env argv present ins : Forall word argv -> argv <> [] ->
  main env (argv ++ ["--startupDelay"]) present ins daemon0 = Undef.
Proof.
  intros Hw Hne. assert (1 <= length argv)%nat as Hl by (destruct argv; [done|simpl; lia]).
  unfold main, main_setup. rewrite bind_assoc. unfold mbind at 1, M_bind at 1. rewrite parse_trailing; [done|done|done|rewrite length_app; simpl; lia].
Qed.

(** ** A concrete machine *)

(** Every interface is a mouse, and a touchpad driver is there. *)
Definition usb_machine : DEnv := {|
  property := fun _ name => if bool_decide (name = "bInterfaceClass") then Some 3 else if bool_decide (name = "bInterfaceSubClass") then Some 1 else Some 2;
  malloc_ok := fun _ => true; interest_ok := fun _ => true; matching := fun _ => true; matchingDict_ok := true; notification_ok := true;
  kIOMessageServiceIsTerminated := 0xe0000010;
|}.

(** One mouse is there, another comes, the first goes. *)
Lemma daemon_counts_witness : exists ok w',
  main usb_machine ["VoodooPS2Daemon"; "--startupDelay"; "5"] [1%positive] [Added [2%positive]; Notified 1%positive 0xe0000010] daemon0 = Done (ok, w') /\
  ok = true /\ counts "ApplePS2SynapticsTouchPad" [2%positive] w'.
Proof.
  destruct (daemon_counts usb_machine ["VoodooPS2Daemon"; "--startupDelay"; "5"] [1%positive] [Added [2%positive]; Notified 1%positive 0xe0000010]
    (mkDWorld (globals0 <| g_startupDelay := 5 |>) [])) as (ok & w' & E & H).
  - reflexivity.
  - split; [right; left|exact I].
  - reflexivity.
  - exists ok, w'. split; [exact E|exact H].
Defined.

Lemma option_without_value_witness : main usb_machine ["VoodooPS2Daemon"; "--startupDelay"] [] [] daemon0 = Undef.
Proof. apply (option_without_value usb_machine ["VoodooPS2Daemon"] [] []); [repeat constructor; discriminate|discriminate]. Defined.
