(* ===== verification/NewKext.v ===== *)
(** * NewKext: operator new and delete for the kernel

    src/new_kext.cpp/.h: allocation functions that keep the size of a block in
    front of it.  No driver links them ("for now we are not using this code");
    they are modelled over a heap of blocks with their sizes, where giving a
    block back with another size than it was allocated with is undefined, as
    [IOFree] documents. *)

From S2P Require Import Prelude.

(** Blocks by address, with their size; the [size_t] words that were stored. *)
Record Heap := mkHeap { blocks : gmap Z Z; words : gmap Z Z }.
#[export] Instance Heap_eta : Settable Heap := mkSettable _ (fun h => mkHeap (blocks h) (words h)).

Section new.
  Notation "'prog' A" := (M Heap A) (at level 10, A at next level).
  (** The kernel's allocator; none is the null pointer. *)
  Context (IOMalloc : Z -> prog (option Z)) (IOFree : Z -> Z -> prog unit).

Definition sizeof_size_t : Z := 8.

(** Null is none. *)
Definition _opnew (size : Z) : prog (option Z) :=
  p ← IOMalloc (u64 (sizeof_size_t + size));
  match p with
  | Some p => modify (fun h => h <| words := <[p := size]> (words h) |>);; mret (Some (p + sizeof_size_t))
  | None => mret None
  end.

Definition _opdel (p : option Z) : prog unit :=
  match p with
  | Some p =>
      let t := p - sizeof_size_t in
      h ← gets id;
      match words h !! t with
      | Some size => IOFree t size
      | None => undef
      end
  | None => mret tt
  end.

Definition _opnewa : Z -> prog (option Z) := _opnew.
Definition _opdela : option Z -> prog unit := _opdel.

(** [IOMalloc] makes a block of the size it is asked for; [IOFree] is undefined
    when the size is not that of the block. *)
Context (Hmalloc : forall size h, exists p, IOMalloc size h = Done (Some p, h <| blocks := <[p := size]> (blocks h) |>)).
Context (Hfree : forall p size h n, blocks h !! p = Some n -> n <> size -> IOFree p size h = Undef).

(** Every block is given back with the size the caller asked for, which is not
    the size of the block: eight bytes are missing.  [delete] of what [new]
    returned is undefined for every size. *)
Theorem delete_undefined h n : 0 <= n < 2 ^ 64 ->
  exists p h', _opnew n h = Done (Some p, h') /\ _opdel (Some p) h' = Undef.
Proof.
  intros Hn. unfold _opnew. destruct (Hmalloc (u64 (sizeof_size_t + n)) h) as [p Ep]. rewrite (bind_done _ _ _ _ _ Ep). munfold.
  exists (p + sizeof_size_t). eexists. split; [reflexivity|].
  unfold _opdel. replace (p + sizeof_size_t - sizeof_size_t) with p by lia. munfold. unfold id. cbn [words set].
  rewrite (lookup_insert_eq (words _) p n). apply (Hfree _ _ _ (u64 (sizeof_size_t + n))); simpl; [by rewrite lookup_insert_eq|].
  unfold u64, sizeof_size_t. change (2 ^ 64) with 18446744073709551616 in Hn. Z.to_euclidean_division_equations; lia.
Qed.
End new.
