(* ===== verification/System.v ===== *)
(** * System: the controller with its drivers behind it

    The controller of Controller.v calls its drivers through function pointers.
    Here the pointers lead to the drivers of this repository.  [Driver] is what
    the controller sees of one, [Contract] what a driver promises; the theorems
    about the whole stack are proved against the contract, and the keyboard, the
    mouse and the three touchpad drivers each honour it by the refinement lemmas
    of their own files. *)

From S2P Require Import Prelude PS2Defs PortIO Controller ControllerSpec.

(** ** The interface *)

(** The two actions a driver installs, over its own state. *)
Record Driver := mkDriver {
  dstate : Type;
  onByte : Z -> M dstate PS2InterruptResult;     (* PS2InterruptAction *)
  onPackets : M dstate unit;                     (* PS2PacketAction *)
}.

Definition result_if (ready : bool) : PS2InterruptResult := if ready then kPS2IR_packetReady else kPS2IR_packetBuffering.

(** What a driver promises: it follows an abstract machine [A] that takes bytes,
    says when a packet is complete, and is emptied by the work loop; packets
    are waiting exactly between a completed packet and the emptying. *)
Class Contract (dr : Driver) (A : Type) := {
  sim : dstate dr -> A -> Prop;
  takes : A -> Z -> A * bool;
  emptied : A -> A;
  pending : A -> bool;
  takes_ok : forall s a b, sim s a -> is_u8 b ->
    exists s', onByte dr b s = Done (result_if (takes a b).2, s') /\ sim s' (takes a b).1;
  emptied_ok : forall s a, sim s a -> exists s', onPackets dr s = Done (tt, s') /\ sim s' (emptied a);
  pending_takes : forall a b, pending (takes a b).1 = pending a || (takes a b).2;
  pending_emptied : forall a, pending (emptied a) = false;
}.

(** Several bytes, and whether one of them completed a packet. *)
Fixpoint takes_all {dr A} `{!Contract dr A} (a : A) (bytes : list Z) : A * bool :=
  match bytes with
  | [] => (a, false)
  | b :: bytes =>
      let '(a, r) := takes a b in
      let '(a, r') := takes_all a bytes in (a, r || r')
  end.
Arguments takes_all dr {A _} a bytes.

Lemma pending_takes_all {dr A} `{!Contract dr A} (a : A) bytes :
  pending (takes_all dr a bytes).1 = pending a || (takes_all dr a bytes).2.
Proof.
  revert a. induction bytes as [|b bytes IH]; intros a; simpl; [by rewrite orb_false_r|].
  pose proof (pending_takes a b) as Hb. destruct (takes a b) as [a1 r]. specialize (IH a1). destruct (takes_all dr a1 bytes) as [a2 r'].
  simpl in *. by rewrite IH, Hb, orb_assoc.
Qed.

(** ** The stack *)

(** The identifiers of the installed actions. *)
Definition kbd_interrupt : positive := 1.
Definition kbd_packet : positive := 2.
Definition mouse_interrupt : positive := 3.
Definition mouse_packet : positive := 4.

Section stack.
  Context {H : Type} `{PortIO H}.
  Context (kd md : Driver).
  Abbreviation D := (dstate kd * dstate md)%type.
  Abbreviation W := (World H D).
  Context (fuel : nat).

(** Calls through the function pointers. *)
Definition callInterrupt (act : positive) (tgt : option positive) (b : Z) (s : D) : PS2InterruptResult * D :=
  if bool_decide (act = kbd_interrupt) then
    match onByte kd b s.1 with Done (r, k) => (r, (k, s.2)) | _ => (kPS2IR_packetBuffering, s) end
  else
    match onByte md b s.2 with Done (r, m) => (r, (s.1, m)) | _ => (kPS2IR_packetBuffering, s) end.

Definition callPacket (act : positive) (tgt : option positive) : M W unit := fun w =>
  if bool_decide (act = kbd_packet) then
    match onPackets kd (drv w).1 with Done (_, k) => Done (tt, w <| drv := (k, (drv w).2) |>) | Undef => Undef | NoFuel => NoFuel end
  else
    match onPackets md (drv w).2 with Done (_, m) => Done (tt, w <| drv := ((drv w).1, m) |>) | Undef => Undef | NoFuel => NoFuel end.

(** What happens to the stack: an interrupt of one of the two lines, which finds
    the chip in state [h] with the bytes [l] and leaves it in [h'], or the work
    loop running a packet action. *)
Inductive StackInput :=
| SInterrupt (d : PS2DeviceType) (h : H) (l : list (PS2DeviceType * Z)) (h' : H)
| SPackets (d : PS2DeviceType).

Definition stack_step (i : StackInput) : M W unit :=
  match i with
  | SInterrupt d h _ _ =>
      modify (fun w => w <| hw := h |>);;
      match d with
      | kDT_Keyboard => interruptHandlerKeyboard callInterrupt fuel
      | kDT_Mouse => interruptHandlerMouse callInterrupt fuel
      end
  | SPackets kDT_Keyboard => packetReadyKeyboard callPacket
  | SPackets kDT_Mouse => packetReadyMouse callPacket
  end.

(** The steps, and the events of each. *)
Fixpoint run_stack (ins : list StackInput) : M W (list (list Event)) :=
  match ins with
  | [] => mret []
  | i :: ins =>
      before ← gets evs;
      stack_step i;;
      after ← gets evs;
      outs ← run_stack ins;
      mret (drop (length before) after :: outs)
  end.

Definition legal (i : StackInput) : Prop :=
  match i with
  | SInterrupt _ h l h' => drains h l h' /\ (length l < fuel)%nat
  | SPackets _ => True
  end.

(** ** The abstract stack *)

Definition bytes_of (d : PS2DeviceType) (l : list (PS2DeviceType * Z)) : list Z := (filter (fun x => x.1 = d) l).*2.

Context {A B : Type} `{!Contract kd A} `{!Contract md B}.

Fixpoint stack_spec (ins : list StackInput) (a : A) (b : B) : A * B * list (list Event) :=
  match ins with
  | [] => (a, b, [])
  | SInterrupt _ _ l _ :: ins =>
      let '(a, rk) := takes_all kd a (bytes_of kDT_Keyboard l) in
      let '(b, rm) := takes_all md b (bytes_of kDT_Mouse l) in
      let '(a, b, outs) := stack_spec ins a b in
      (a, b, ((if rm then [EvSignal kDT_Mouse] else []) ++ (if rk then [EvSignal kDT_Keyboard] else [])) :: outs)
  | SPackets kDT_Keyboard :: ins => let '(a, b, outs) := stack_spec ins (emptied a) b in (a, b, [] :: outs)
  | SPackets kDT_Mouse :: ins => let '(a, b, outs) := stack_spec ins a (emptied b) in (a, b, [] :: outs)
  end.

Definition signals (d : PS2DeviceType) (e : Event) : bool := match e with EvSignal d' => bool_decide (d' = d) | _ => false end.

(** Has the work loop been woken for [d] since its packet action last ran? *)
Fixpoint woken (d : PS2DeviceType) (before : bool) (ins : list StackInput) (outs : list (list Event)) : bool :=
  match ins, outs with
  | SInterrupt _ _ _ _ :: ins, out :: outs => woken d (before || existsb (signals d) out) ins outs
  | SPackets d' :: ins, _ :: outs => woken d (if bool_decide (d' = d) then false else before) ins outs
  | _, _ => before
  end.

(** Both drivers have their actions installed and interrupts are not ignored. *)
Record attached (c : ApplePS2Controller) : Prop := {
  at_wf : ctl_wf c;
  at_kbd : _interruptInstalledKeyboard c = true;
  at_mouse : _interruptInstalledMouse c = true;
  at_kint : _interruptActionKeyboard c = Some kbd_interrupt;
  at_mint : _interruptActionMouse c = Some mouse_interrupt;
  at_kpkt : _packetActionKeyboard c = Some kbd_packet;
  at_mpkt : _packetActionMouse c = Some mouse_packet;
  at_ignore : _ignoreInterrupts c = 0;
}.

(** ** Refinement *)

Lemma drains_u8 h l h' : drains h l h' -> Forall (fun x => is_u8 x.2) l.
Proof. induction 1; constructor; [apply u8_range|done]. Qed.

(** The drivers and the controller of [w]. *)
Record stack_sim (w : W) (a : A) (b : B) : Prop := {
  ss_ctl : attached (ctl w);
  ss_kbd : sim (drv w).1 a;
  ss_mouse : sim (drv w).2 b;
}.

Lemma hand_stack d x w a b : stack_sim w a b -> is_u8 x ->
  let '(a', rk) := if is_kbd d then takes a x else (a, false) in
  let '(b', rm) := if is_mouse d then takes b x else (b, false) in
  exists w', hand callInterrupt d x w = (result_if (rk || rm), w') /\ stack_sim w' a' b' /\ ctl w' = ctl w /\ evs w' = evs w.
Proof.
  intros [[] Hk Hm] Hx. unfold hand, installed. destruct d; cbn [is_kbd is_mouse negb].
  - rewrite at_kbd0, at_kint0. cbn. unfold callInterrupt. rewrite bool_decide_eq_true_2 by done.
    destruct (takes_ok _ _ x Hk Hx) as (s' & E & Hs). rewrite E. destruct (takes a x) as [a' rk]. simpl in *. rewrite orb_false_r.
    eexists. split; [reflexivity|]. split; [by split|done].
  - rewrite at_mouse0, at_mint0. cbn. unfold callInterrupt. rewrite bool_decide_eq_false_2 by done.
    destruct (takes_ok _ _ x Hm Hx) as (s' & E & Hs). rewrite E. destruct (takes b x) as [b' rm]. simpl in *.
    eexists. split; [reflexivity|]. split; [by split|done].
Qed.

Lemma woken_by d d' ds : wakes d (d' :: ds) = bool_decide (d = d') || wakes d ds.
Proof. unfold wakes. rewrite <- bool_decide_or. apply bool_decide_ext. set_solver. Qed.

Lemma hand_all_stack l w a b : stack_sim w a b -> Forall (fun x => is_u8 x.2) l ->
  exists ds w', hand_all callInterrupt l w = (ds, w') /\
    stack_sim w' (takes_all kd a (bytes_of kDT_Keyboard l)).1 (takes_all md b (bytes_of kDT_Mouse l)).1 /\
    wakes kDT_Keyboard ds = (takes_all kd a (bytes_of kDT_Keyboard l)).2 /\
    wakes kDT_Mouse ds = (takes_all md b (bytes_of kDT_Mouse l)).2 /\ evs w' = evs w.
Proof.
  intros Hs Hl. revert w a b Hs. induction Hl as [|[d x] l Hx _ IH]; intros w a b Hs; [by exists [], w|].
  pose proof (hand_stack d x w a b Hs Hx) as H1. simpl in Hx. unfold bytes_of in *. cbn [hand_all]. rewrite !filter_cons. cbn [fst].
  destruct d; cbn [is_kbd is_mouse negb] in H1;
    [rewrite (decide_True (P := kDT_Keyboard = _)), (decide_False (P := kDT_Keyboard = kDT_Mouse)) by done
    |rewrite (decide_False (P := kDT_Mouse = kDT_Keyboard)), (decide_True (P := kDT_Mouse = _)) by done]; rewrite fmap_cons; cbn [takes_all snd].
  - destruct (takes a x) as [a1 r]. destruct H1 as (w1 & -> & Hs1 & Hc & He). specialize (IH w1 a1 b Hs1) as (ds & w2 & E2 & Hs2 & Wk & Wm & He2).
    destruct (takes_all kd a1 _) as [a2 r2]. rewrite E2. do 2 eexists. split; [reflexivity|]. split; [done|]. simpl in *. rewrite orb_false_r.
    destruct r; cbn [result_if orb]; rewrite ?woken_by; by rewrite Wk, Wm, He2, He.
  - destruct (takes b x) as [b1 r]. destruct H1 as (w1 & -> & Hs1 & Hc & He). specialize (IH w1 a b1 Hs1) as (ds & w2 & E2 & Hs2 & Wk & Wm & He2).
    destruct (takes_all md b1 _) as [b2 r2]. rewrite E2. do 2 eexists. split; [reflexivity|]. split; [done|]. simpl in *.
    destruct r; cbn [result_if orb]; rewrite ?woken_by; by rewrite Wk, Wm, He2, He.
Qed.

(** One interrupt. *)
Lemma stack_interrupt d h l h' w a b : stack_sim w a b -> drains h l h' -> (length l < fuel)%nat ->
  let '(a', rk) := takes_all kd a (bytes_of kDT_Keyboard l) in
  let '(b', rm) := takes_all md b (bytes_of kDT_Mouse l) in
  exists w', stack_step (SInterrupt d h l h') w = Done (tt, w') /\ stack_sim w' a' b' /\
    evs w' = evs w ++ (if rm then [EvSignal kDT_Mouse] else []) ++ (if rk then [EvSignal kDT_Keyboard] else []).
Proof.
  intros Hs Hd Hf. pose (w0 := w <| hw := h |>). assert (stack_sim w0 a b) as Hs0 by (destruct Hs; by split).
  destruct (hand_all_stack l w0 a b Hs0 (drains_u8 _ _ _ Hd)) as (ds & w1 & E1 & Hs1 & Wk & Wm & He).
  pose proof (fun d => handleInterrupt_ok callInterrupt fuel d w0 l h' Hd (at_wf _ (ss_ctl _ _ _ Hs0)) Hf) as Eh. rewrite E1 in Eh. simpl in Eh.
  rewrite Wk, Wm, He in Eh. destruct (takes_all kd a _) as [a' rk], (takes_all md b _) as [b' rm]. simpl in *.
  pose proof (at_ignore _ (ss_ctl _ _ _ Hs0)) as Hi.
  assert (forall d, stack_step (SInterrupt d h l h') w = handleInterrupt callInterrupt fuel d w0) as Est.
  { intros d'. unfold stack_step. rewrite (bind_done _ _ w tt w0) by done.
    destruct d'; unfold interruptHandlerKeyboard, interruptHandlerMouse, getc; munfold; by rewrite Hi. }
  eexists. split; [etransitivity; [apply Est|apply Eh]|]. split; [by destruct Hs1|done].
Qed.

(** One run of a packet action. *)
Lemma stack_packets d w a b : stack_sim w a b ->
  exists w', stack_step (SPackets d) w = Done (tt, w') /\ evs w' = evs w /\
    match d with kDT_Keyboard => stack_sim w' (emptied a) b | kDT_Mouse => stack_sim w' a (emptied b) end.
Proof.
  intros [Hc Hk Hm]. pose proof Hc as []. destruct d; unfold stack_step, packetReadyKeyboard, packetReadyMouse, getc; munfold; unfold id.
  - rewrite at_kbd0, at_kpkt0. unfold callPacket. rewrite bool_decide_eq_true_2 by done. destruct (emptied_ok _ _ Hk) as (s' & -> & Hs').
    eexists. split; [reflexivity|]. split; [done|]. by split.
  - rewrite at_mouse0, at_mpkt0. unfold callPacket. rewrite bool_decide_eq_false_2 by done. destruct (emptied_ok _ _ Hm) as (s' & -> & Hs').
    eexists. split; [reflexivity|]. split; [done|]. by split.
Qed.

Lemma run_stack_cons i ins w w' out outs w2 : stack_step i w = Done (tt, w') -> evs w' = evs w ++ out ->
  run_stack ins w' = Done (outs, w2) -> run_stack (i :: ins) w = Done (out :: outs, w2).
Proof.
  intros E He E2. cbn [run_stack]. rewrite (bind_done _ _ w (evs w) w) by done. rewrite (bind_done _ _ _ _ _ E).
  rewrite (bind_done _ _ w' (evs w') w') by done. rewrite (bind_done _ _ _ _ _ E2), He, drop_app_length. done.
Qed.

Lemma stack_run_ok ins w a b : stack_sim w a b -> Forall legal ins ->
  let '(a', b', outs) := stack_spec ins a b in exists w', run_stack ins w = Done (outs, w') /\ stack_sim w' a' b'.
Proof.
  intros Hs Hl. revert w a b Hs. induction Hl as [|[d h l h'|d] ins Hi _ IH]; intros w a b Hs; cbn [stack_spec].
  - by exists w.
  - destruct Hi as [Hd Hf]. pose proof (stack_interrupt d h l h' w a b Hs Hd Hf) as H1.
    destruct (takes_all kd a _) as [a1 rk], (takes_all md b _) as [b1 rm]. destruct H1 as (w1 & E1 & Hs1 & He).
    specialize (IH w1 a1 b1 Hs1). destruct (stack_spec ins a1 b1) as [[a2 b2] outs]. destruct IH as (w2 & E2 & Hs2).
    exists w2. split; [|done]. by apply (run_stack_cons _ _ _ w1).
  - destruct (stack_packets d w a b Hs) as (w1 & E1 & He & Hs1). rewrite <- (app_nil_r (evs w)) in He. destruct d.
    + specialize (IH w1 _ _ Hs1). destruct (stack_spec ins (emptied a) b) as [[a2 b2] outs]. destruct IH as (w2 & E2 & Hs2).
      exists w2. split; [|done]. by apply (run_stack_cons _ _ _ w1).
    + specialize (IH w1 _ _ Hs1). destruct (stack_spec ins a (emptied b)) as [[a2 b2] outs]. destruct IH as (w2 & E2 & Hs2).
      exists w2. split; [|done]. by apply (run_stack_cons _ _ _ w1).
Qed.

(** ** No wake-up is lost *)

Lemma signalled (rm rk : bool) d : existsb (signals d) ((if rm then [EvSignal kDT_Mouse] else []) ++ (if rk then [EvSignal kDT_Keyboard] else [])) =
  match d with kDT_Keyboard => rk | kDT_Mouse => rm end.
Proof. by destruct rm, rk, d. Qed.

Lemma spec_woken ins a b : let '(a', b', outs) := stack_spec ins a b in
  woken kDT_Keyboard (pending a) ins outs = pending a' /\ woken kDT_Mouse (pending b) ins outs = pending b'.
Proof.
  revert a b. induction ins as [|[d h l h'|d] ins IH]; intros a b; cbn [stack_spec]; [done| |].
  - pose proof (pending_takes_all (dr := kd) a (bytes_of kDT_Keyboard l)) as Hk. pose proof (pending_takes_all (dr := md) b (bytes_of kDT_Mouse l)) as Hm.
    destruct (takes_all kd a _) as [a1 rk], (takes_all md b _) as [b1 rm]. simpl in Hk, Hm. specialize (IH a1 b1).
    destruct (stack_spec ins a1 b1) as [[a2 b2] outs]. cbn [woken]. by rewrite !signalled, <- Hk, <- Hm.
  - destruct d; [specialize (IH (emptied a) b)|specialize (IH a (emptied b))]; case_match; rewrite pending_emptied in IH; simplify_eq;
      cbn [woken]; (case_match; simplify_eq); done.
Qed.

(** C1: The whole stack, for any two drivers that honour the contract: whatever
    bytes of both devices are mixed in the chip's output buffer and however
    interrupts of both lines and the work loop interleave, every call returns,
    each driver gets exactly the bytes of its device, in order, and follows its
    abstract machine, and the work loop is woken as predicted.  No wake-up is
    lost: packets are waiting in a driver if and only if the work loop has been
    woken for it since its packet action last ran. *)
Theorem stack_session ins w a b : attached (ctl w) -> sim (drv w).1 a -> sim (drv w).2 b -> Forall legal ins ->
  let '(a', b', outs) := stack_spec ins a b in
  exists w', run_stack ins w = Done (outs, w') /\ attached (ctl w') /\ sim (drv w').1 a' /\ sim (drv w').2 b' /\
    woken kDT_Keyboard (pending a) ins outs = pending a' /\ woken kDT_Mouse (pending b) ins outs = pending b'.
Proof.
  intros Hc Ha Hb Hl. pose proof (stack_run_ok ins w a b (Build_stack_sim _ _ _ Hc Ha Hb) Hl) as H1. pose proof (spec_woken ins a b) as H2.
  destruct (stack_spec ins a b) as [[a' b'] outs]. destruct H1 as (w' & E & []), H2. by exists w'.
Qed.
End stack.
