(* ===== verification/Drivers.v ===== *)
(** * Drivers: the five drivers honour the contract

    The keyboard driver and each pointing device driver as a [Driver], and their
    [Contract] instances, by the refinement lemmas of their own files. *)

From S2P Require Import Prelude RingBuffer PS2Defs PortIO Controller ControllerSpec Pointing System.
From S2P Require Import Keyboard KeyboardSpec.
From S2P Require Import Mouse MouseSpec.
From S2P Require Import Synaptics SynapticsSpec SynapticsEntry.
From S2P Require Import Alps AlpsSpec.
From S2P Require Import Sentelic SentelicSpec.

(** A queue with something in it. *)
Definition waiting {T} (q : list T) : bool := match q with [] => false | _ => true end.

Lemma waiting_push {T} n (q : list T) x : 0 < n -> waiting (Fifo.push n q x) = true.
Proof. intros Hn. unfold Fifo.push. case_match eqn:E; [by destruct q|].
  destruct q; [|done]. simpl in E. apply Z.ltb_ge in E. lia. Qed.

Lemma waiting_enqueued q p : waiting (enqueued q p) = waiting q || bool_decide (is_Some p).
Proof.
  destruct p as [p|]; cbn [enqueued].
  - by rewrite bool_decide_eq_true_2, orb_true_r, waiting_push.
  - rewrite bool_decide_eq_false_2 by (by intros []). by rewrite orb_false_r.
Qed.

Lemma ready_result p : ready_if p = result_if (bool_decide (is_Some p)).
Proof. by destruct p. Qed.

(** ** Keyboard *)

Definition keyboard_driver (env : KEnv) : Driver := mkDriver KWorld (Keyboard.interruptOccurred env) (Keyboard.packetReady env).

(** The receivers of messages answer in kind. *)
Class PoliteReceivers (env : KEnv) : Prop := {
  polite_bool : forall evs m b, exists b', Keyboard.reply env evs m (PBool b) = PBool b';
  polite_info : forall evs m i, exists i', Keyboard.reply env evs m (PKeyInfo i) = PKeyInfo i';
}.

(** The decoder and its queue; [breakless] is the key map's. *)
Record KeyAbs (breakless : Z -> bool) := mkKeyAbs { k_dec : Decoder; k_queue : list (Z * Z) }.
Arguments mkKeyAbs {_} _ _.
Arguments k_dec {_} _.
Arguments k_queue {_} _.

#[export] Instance keyboard_contract env breakless `{!PoliteReceivers env} : Contract (keyboard_driver env) (KeyAbs breakless).
Proof.
  refine {|
    sim := fun (w : dstate (keyboard_driver env)) a => kb_wf (kbd w) /\ decodes (kbd w) (k_dec a) /\
             KeyboardSpec.queued (Keyboard._ringBuffer (kbd w)) (k_queue a) /\ breakless_of (kbd w) = breakless;
    System.takes := fun a b => let '(d, p) := decode_byte breakless (k_dec a) b in
      (mkKeyAbs d (match p with Some c => Fifo.push 31 (k_queue a) c | None => k_queue a end), bool_decide (is_Some p));
    emptied := fun a => mkKeyAbs (k_dec a) [];
    pending := fun a => waiting (k_queue a);
  |}.
  - intros w a b (Hw & Hd & Hq & Hb) Hu. pose proof (KeyboardSpec.byte_ok env w _ _ b Hu Hw Hd Hq) as H. rewrite Hb in H.
    destruct (decode_byte breakless (k_dec a) b) as [d p]. destruct H as (w' & E & Hw' & Hd' & Hq' & Hf). exists w'.
    split; [simpl; rewrite E; by destruct p|]. split; [done|]. split; [done|]. split; [done|]. by rewrite (breakless_flags _ _ Hf).
  - intros w a (Hw & Hd & Hq & Hb).
    destruct (KeyboardSpec.drain_ok env polite_bool polite_info w _ _ Hw Hd Hq) as (w' & E & Hw' & Hd' & Hq' & Hf). exists w'.
    split; [done|]. split; [done|]. split; [done|]. split; [done|]. by rewrite (breakless_flags _ _ Hf).
  - intros a b. destruct (decode_byte breakless (k_dec a) b) as [d [p|]]; cbn [fst snd k_queue].
    + by rewrite waiting_push, (bool_decide_eq_true_2 (is_Some _)), orb_true_r by done.
    + by rewrite (bool_decide_eq_false_2 (is_Some _)), orb_false_r by (by intros []).
  - done.
Defined.

(** ** Pointing devices *)

Definition mouse_driver (env : MEnv) : Driver := mkDriver MWorld Mouse.interruptOccurred (Mouse.packetReady env).

(** An assembler and its queue of packets. *)
Record PointAbs (T : Type) := mkPoint { p_asm : T; p_queue : list (list Z) }.
Arguments mkPoint {T} _ _.
Arguments p_asm {T} _.
Arguments p_queue {T} _.

Section point.
  Context {T : Type} (assemble : T -> Z -> T * option (list Z)).

(** The abstract machine all four pointing device drivers follow. *)
Definition point_takes (a : PointAbs T) (b : Z) : PointAbs T * bool :=
  let '(t, p) := assemble (p_asm a) b in (mkPoint t (enqueued (p_queue a) p), bool_decide (is_Some p)).
Definition point_emptied (a : PointAbs T) : PointAbs T := mkPoint (p_asm a) [].
Definition point_pending (a : PointAbs T) : bool := waiting (p_queue a).

Lemma point_pending_takes a b : point_pending (point_takes a b).1 = point_pending a || (point_takes a b).2.
Proof. unfold point_takes, point_pending. destruct (assemble (p_asm a) b) as [t p]. apply waiting_enqueued. Qed.

(** A driver follows it when each byte and each drain do. *)
Definition point_contract (dr : Driver) (R : dstate dr -> T -> list (list Z) -> Prop) :
  (forall s t q b, R s t q -> is_u8 b -> let '(t', p) := assemble t b in
     exists s', onByte dr b s = Done (ready_if p, s') /\ R s' t' (enqueued q p)) ->
  (forall s t q, R s t q -> exists s', onPackets dr s = Done (tt, s') /\ R s' t []) ->
  Contract dr (PointAbs T).
Proof.
  intros Hbyte Hdrain. refine {|
    sim := fun s a => R s (p_asm a) (p_queue a); System.takes := point_takes; emptied := point_emptied; pending := point_pending |}.
  - intros s a b Hs Hb. specialize (Hbyte s _ _ b Hs Hb). unfold point_takes. destruct (assemble (p_asm a) b) as [t p].
    destruct Hbyte as (s' & E & Hs'). exists s'. by rewrite ready_result in E.
  - intros s a Hs. apply (Hdrain s _ _ Hs).
  - apply point_pending_takes.
  - done.
Defined.
End point.

Definition mouse_contract env (len : Z) : Contract (mouse_driver env) (PointAbs MouseSpec.Assembler).
Proof.
  apply (point_contract (MouseSpec.assemble_byte len) (mouse_driver env) (fun w t q =>
    running w /\ MouseSpec.assembles (mouse w) t /\ MouseSpec.holds (Mouse._ringBuffer (mouse w)) q /\ _packetLength (mouse w) = len)).
  - intros w t q b (Hw & Ha & Hq & Hl) _. pose proof (MouseSpec.assemble_refines w t b q (proj1 Hw) Ha Hq) as H. rewrite Hl in H.
    destruct (MouseSpec.assemble_byte len t b) as [t' p]. destruct H as (w' & E & Hw' & Ha' & Hq' & Hk). injection Hk as K1 K2 K3.
    exists w'. split; [done|]. split; [split; [done|]; rewrite K2, K3; apply Hw|]. split; [done|]. split; [done|congruence].
  - intros w t q (Hw & Ha & Hq & Hl). destruct (MouseSpec.mouse_drained env w t q Hw Ha Hq) as (w' & E & Hw' & Ha' & Hq' & Hl').
    exists w'. repeat (split; [done|]). congruence.
Defined.

Definition synaptics_driver (env : SEnv) : Driver := mkDriver SWorld Synaptics.interruptOccurred (Synaptics.packetReady env).

Definition synaptics_contract env (button : bool) (c : Settings) : Contract (synaptics_driver env) (PointAbs SynapticsEntry.Assembler).
Proof.
  apply (point_contract SynapticsEntry.assemble_byte (synaptics_driver env) (fun w t q =>
    live button c w /\ SynapticsEntry.assembles (life (pad w)) t /\ SynapticsEntry.holds (Synaptics._ringBuffer (life (pad w))) q)).
  - intros w t q b ((d & Hw & <-) & Ha & Hq) _. pose proof (SynapticsEntry.interrupt_ok c d w t b _ Hw Ha Hq) as H.
    destruct (SynapticsEntry.assemble_byte t b) as [t' p]. destruct H as (w' & E & Hw' & Ha' & Hq'). rewrite queued_indexed in Hq'. by exists w'.
  - intros w t q ((d & Hw & <-) & Ha & Hq). destruct (SynapticsEntry.packetReady_ok env c d w t _ Hw Ha Hq) as (w' & E & H). by exists w'.
Defined.

Definition alps_driver (env : AEnv) : Driver := mkDriver AWorld Alps.interruptOccurred (Alps.packetReady env).

(** [max_1] is the C library's [fmax(1.0, x)]. *)
Definition alps_contract env : (forall v, v <> SpecFloat.S754_nan -> at_least_1 (max_1 env v) = true) -> Contract (alps_driver env) (PointAbs (list Z)).
Proof.
  intros Hmax. apply (point_contract AlpsSpec.assemble_byte (alps_driver env) (fun w t q => AlpsSpec.operating w /\ AlpsSpec.assembles (alps w) t q)).
  - intros w t q b (Hw & Ha) _. apply (alps_byte_ok w t q b Hw Ha).
  - intros w t q (Hw & Ha). apply (alps_drained env Hmax w t q Hw Ha).
Defined.

Definition sentelic_driver (env : FEnv) : Driver := mkDriver FWorld Sentelic.interruptOccurred (Sentelic.packetReady env).

Definition sentelic_contract env (len : Z) : Contract (sentelic_driver env) (PointAbs (list Z)).
Proof.
  apply (point_contract (SentelicSpec.assemble_byte len) (sentelic_driver env) (fun w t q => SentelicSpec.after w len t q)).
  - intros w t q b Hw _. apply (fsp_byte_ok w len t q b Hw).
  - intros w t q Hw. apply (fsp_drained env w len t q Hw).
Defined.

(** ** A machine with a keyboard and a mouse *)

#[local] Instance quiet_polite : PoliteReceivers quiet_env.
Proof. split; intros; by eexists. Qed.
#[local] Instance three_byte_mouse : Contract (mouse_driver dead_mouse) (PointAbs MouseSpec.Assembler) := mouse_contract dead_mouse 3.

Definition plugged : World Chip.chip (KWorld * MWorld) := mkWorld Demo.ctl0 (Demo.holding []) (fresh_world, mouse_world) true [].
Definition no_keys : KeyAbs (breakless_of Keyboard.init) := mkKeyAbs idle_decoder [].
Definition no_motion : PointAbs MouseSpec.Assembler := mkPoint (MouseSpec.mkAssembler [] 0 0) [].

(** The A key, pressed between the bytes of a mouse packet. *)
Definition mixed : list (bool * Z) := [(true, 0x09); (false, 0x1E); (true, 0x05); (true, 0xFE)].
Definition source (x : bool * Z) : PS2DeviceType * Z := (if x.1 then kDT_Mouse else kDT_Keyboard, x.2).

Lemma holding_drains l : Forall (fun x => is_u8 x.2) l -> drains (Demo.holding l) (source <$> l) (Demo.holding []).
Proof.
  induction 1 as [|[m b] l Hb _ IH]; [apply (drains_nil (H := Chip.chip) _ 0); reflexivity|]. simpl in Hb.
  pose proof (drains_cons (H := Chip.chip) (Demo.holding ((m, b) :: l)) (if m then 0x21 else 0x01) (Demo.holding ((m, b) :: l)) b
    (Demo.holding l) (source <$> l) (Demo.holding [])) as H. rewrite (u8_id b) in H by done.
  replace (source <$> (m, b) :: l) with ((if anyset (u8 (if m then 0x21 else 0x01)) kMouseData then kDT_Mouse else kDT_Keyboard, b) :: (source <$> l))
    by (by destruct m). apply H; [destruct m; reflexivity..|exact IH].
Qed.

Lemma stack_session_witness : exists w',
  run_stack (keyboard_driver quiet_env) (mouse_driver dead_mouse) 10
    [SInterrupt kDT_Mouse (Demo.holding mixed) (source <$> mixed) (Demo.holding []); SPackets kDT_Keyboard] plugged =
    Done ([[EvSignal kDT_Mouse; EvSignal kDT_Keyboard]; []], w') /\
  KeyboardSpec.queued (Keyboard._ringBuffer (kbd (drv w').1)) [] /\
  MouseSpec.holds (Mouse._ringBuffer (mouse (drv w').2)) [[0x09; 0x05; 0xFE]].
Proof.
  pose proof (stack_session (keyboard_driver quiet_env) (mouse_driver dead_mouse) 10
    [SInterrupt kDT_Mouse (Demo.holding mixed) (source <$> mixed) (Demo.holding []); SPackets kDT_Keyboard] plugged no_keys no_motion) as H.
  destruct H as (w' & E & _ & (_ & _ & Hk & _) & (_ & _ & Hm & _) & _).
  - split; try reflexivity. apply Demo.ctl0_wf.
  - split; [exact init_wf|]. split; [exact init_decodes|]. split; [exact init_queued|reflexivity].
  - split; [exact started_running|]. split; [exact started_assembles|]. split; [exact started_holds|reflexivity].
  - constructor; [|by constructor; [|constructor]]. split; [|simpl; lia]. apply holding_drains. repeat constructor; unfold is_u8; simpl; lia.
  - exists w'. split; [exact E|]. split; [exact Hk|exact Hm].
Defined.
